(* ===== verification/_CoqProject ===== *)
-Q . S2P
Prelude.v
Bitmap.v
KList.v
Pool.v
PageTable.v
CString.v
Thread.v
Sync.v
IoQueue.v
Timer.v
Keyboard.v
Desc.v
Idle.v
Stdio.v
Mutex.v
Heap.v
HeapSafe.v
Create.v
Ide.v
Wait.v
Partition.v
Trace.v
Screen.v
Console.v
Switch.v
Process.v
Syscall.v
Boot.v
Init.v
Main.v
