(* ===== verification/Prelude.v ===== *)
(** * simos: a model of the kernel

    simos is a small kernel for 32-bit x86 processors, written in C with some
    assembly.  This library translates its C code, and the assembly that the C code
    relies on, into Rocq definitions that can be evaluated, and proves what they do.

    ** The parts and the files that model them

    The files are listed in the order they depend on each other.

    - [Prelude] (this file): the outcomes of kernel code, fixed-width integers,
      memories as finite maps, counting loops, and the tactics.
    - [Bitmap]: lib/kernel/bitmap.c.  The bitmaps from which pages are allocated.
    - [KList]: lib/kernel/list.c, include/os/list.h.  Circular intrusive lists
      and the queues built on them, on a memory of 32-bit words.  The class
      [QueueSpec] is what the other parts rely on; the queues of list.c are its
      instance.
    - [Pool]: the first half of mm/memory.c.  The pools of physical frames and
      of virtual pages, [mem_pool_init], [page_alloc] and [page_free].
    - [PageTable]: [page_table_init] of mm/memory.c, on physical memory as a
      function from addresses to words, and the two-level walk by which the
      processor reads the tables.
    - [CString]: lib/string.c, on a memory of bytes.
    - [Thread]: the scheduler of thread/thread.c and the interrupt flag of
      kernel/interrupt.c.  The state [kstate] has the list nodes (in memory, at the
      offsets of [struct task_struct]), the other fields of the tasks by PCB address,
      the ready queue, the current and the idle task, and the interrupt flag.
      [schedule], [thread_block] and [thread_yield] are modelled up to
      [switch_to]: on return the processor runs [current_task].
    - [Sync]: thread/sync.c.  A system of threads: each has a program point
      inside [lock_acquire], [lock_release] or [sema_down] (type [pc], one
      constructor per statement), and the interrupt status it restores if it is
      suspended in [switch_to].  [do_event] executes one statement, a call of
      the threads' own code, the end of a context switch, or a timer interrupt
      that uses up the time slice (possible whenever interrupts are on).
    - [IoQueue]: device/ioqueue.c.  The ring buffer on which interrupt handlers
      and threads exchange characters.
    - [Timer]: device/timer.c.  Time slices, the programming of the timer,
      sleeping.
    - [Keyboard]: device/keyboard.c.  Scan codes, modifier keys, characters.
    - [Desc]: userprog/tss.c and the tables of kernel/interrupt.c.  Segment
      descriptors, the task state segment, interrupt gates, the handlers and the
      programming of the interrupt controllers; and how the processor and the
      controllers read them ([seg_base], [io_allowed], [gate_offset],
      [pic_vector], ..., from their documentation).
    - [Idle]: [cpu_idle] of thread/thread.c as a state machine, whose statements are interleaved with the
      interrupts and with the operations of the other threads; it calls the operations of [Thread] and
      [Timer].
    - [Stdio]: lib/stdio.c and lib/kernel/kstdio.c.  [itoa], [vsprintf] and the
      functions built on it, with the variable arguments read from the stack.
    - [Mutex]: a lock as one thread sees it, between two of its own statements; the
      parts that take locks use this view, and [Mutex.mutex_is_lock] relates it to
      the machine of [Sync].
    - [Heap]: the second half of mm/memory.c.  [mem_block_desc_init], [sys_malloc],
      [sys_free], [get_pages]: arenas and free lists on words of memory, with their
      invariant [heap_inv].  [HeapSafe]: what the users of the heap rely on.
    - [Create]: the rest of thread/thread.c.  PCBs, pids, [thread_start],
      [thread_init], on a state ([world]) that joins the scheduler, the pools and the
      memory.
    - [Ide]: the transfers of device/ide.c.  The driver talks to a device through the
      class [AtaBus]; the class [AtaDisk] states what a drive promises (from the ATA
      documentation: one sector for each interrupt and status), and an executable drive ([demo_disk]) is an
      instance.  A drive that gives all sectors of a request at once is a stronger assumption ([streams]), which only
      requests for more than one sector need.
      [Wait]: the threads while one waits for the disk.  [disk_wait] is [sema_down] with the scheduler, the
      waiting queue and the idle thread, for any order of events that contains [disk_answers]; [board_bus] joins it to
      a disk, so that the driver of [Ide] runs on both.
      [Partition]: the rest of device/ide.c, the scan of the partition tables and
      [ide_init].  [Trace]: which relations between states of the hardware hold across these functions.
    - [Screen]: lib/kernel/print.S.  [put_char], [put_str] and [put_hex] on the 2000
      cells of the screen.
    - [Console]: device/console.c, and the threads that print on it as a step relation.
    - [Switch]: thread/switch.S, the interrupt entries and [intr_exit] of
      kernel/interrupt_s.S, [kernel_func], and the macros [local_irq_save] and
      [local_irq_restore] of include/os/interrupt.h, on the registers and the words of the
      stacks; what the processor pushes and pops is written down from its documentation.
    - [Process]: userprog/process.c.  The frame with which a process enters ring 3, and
      the registers of the task that is going to run.
    - [Syscall]: userprog/syscall_init.c, [syscall_handler] of kernel/interrupt_s.S and
      the stubs of lib/user/syscall.c.
    - [Boot]: boot/mbr.S and boot/loader.S, on the bytes of physical memory.  The size of the
      memory from the BIOS, the kernel file from a disk that is polled (class [PollDisk], with
      an instance: one sector for each status), the first page tables, and the segments of the kernel.  The loader
      polls once for all sectors, so that it reads the kernel only from a disk that keeps up ([keeps_up]).
    - [Init]: kernel/init.c, [main] of kernel/main.c, kernel/debug.c, and the functions
      [interrupt_init], [keyboard_init], [timer_init] and [mem_init] that they call.
      Its state [machine] has the state of every other part.
    - [Main]: the loop of [main] and the other functions of kernel/main.c: the
      clients of the clock, of the character queue and of the heap.  The tests of the heap are
      verified against the class [AllocatorLaws], of which the heap is an instance.

    ** Conventions

    Integers are [Z] with the wrap-around of their C type written out ([u8],
    [u16], [u32], [u64], [s8], [s32], ...).  Code that can fail returns an
    [outcome]: [Panic] for a failed ASSERT (which loops for ever in the kernel),
    [Fault] for an access outside the objects the model knows, [NoFuel] for a
    loop that was given too little fuel.  A function keeps its name and the
    names of its variables; the part of the global state it changes is an
    argument and a result.

    Memory appears in the view that the code takes of it: words for the linked
    structures, the heap and the stacks, bytes for strings, bitmaps as lists of bytes,
    physical memory for the page tables.

    Fuel: loops that follow memory take an argument [fuel].  The theorems give
    the amount that is enough: the number of bits of a bitmap for
    [bitmap_apply], the length of the string for the string routines and [put_str],
    the number of nodes for the list routines, the number of tasks for the
    scheduler (whose only such loop is [list_find_item]), the number of
    tests for [ticks_to_sleep], 2^30 for the heap, whatever the size of memory
    ([heap_fuel]), 32 digits for [itoa] ([itoa_fuel]), more than the number of logical
    partitions for [partition_scan], the number of areas in the memory map and of readings of
    the status while the disk is busy for [loader].  The loops of the disk driver have the fuel that
    they need in the definition: 3000 rounds of ten milliseconds for [busy_wait]
    ([busy_wait_fuel]), one interrupt for [wait_disk], two turns of the loop of [sema_down] for [disk_wait]
    ([down_turns]), and one round per 256 sectors ([loop_fuel]).  Where a loop of the source does not terminate
    ([bitmap_apply] on a bitmap of no bits, [Bitmap.bitmap_apply_diverges]) this
    is a theorem.

    ** What the theorems show

    - Loader: what it leaves when a disk has delivered the kernel file: the kernel is entered with each byte of its
      segments at its address, paging on, and
      the size of the memory where [mem_init] reads it; this size is the end of the highest
      area of memory that ends below 2 GB, or, when the memory map fails at any descriptor, what the other call says;
      a disk as documented delivers the first sector, and the file if it keeps up with the loader; but the variables that are not in the file are not
      cleared (those of [partition_scan], which [Init] takes to be zero, are among them).
    - Start-up: [init_os] and [main] leave the state from which the theorems about the
      other parts start: the interrupt tables are complete, page tables and
      pools agree, the heap is empty, the threads and the locks are in an
      initial state; in each wait for the disk the idle thread has run, and it is ready or sleeps afterwards.
    - Bitmaps: [bitmap_apply] returns the first run of free bits and answers
      -1 when there is none; but it never looks at the last bit, and
      [bitmap_set_bits] changes only one bit.
    - Lists and queues: a sequence of queue operations behaves as on a list,
      insertion and deletion are inverse, [list_len] and [list_empty] count;
      but [list_find_item] never finds the last node.
    - Pools: the layout computed at boot is disjoint and fits; page allocation
      returns the lowest free run and marks it; but freeing [n] pages gives back
      only the first virtual page.
    - Page tables: exactly the first pages of memory are mapped, linearly, above
      0xc0000000; but with 2 GB or more the heap reaches the page tables (a size that the loader
      finds only without the memory map).
    - Heap: after any sequence of requests, releases and writes the blocks that are held
      are disjoint, keep their contents, and can be given back; a request is granted
      when there is a free block or enough free pages, and refused without
      any change otherwise; the heap tests of main.c end with enough free pages.
    - Strings: copying, comparing, concatenating and searching are correct for
      strings that fit where they are put; overlapping copies repeat the source.
    - Formatted output: [sprintf] writes what the format says, and [itoa] the digits
      that give the number back; but the result is terminated only when a string
      conversion comes last, and nothing bounds the buffer.
    - Scheduling: round robin, time slices, blocking and waking, from an
      invariant ([kinv]: the ready queue is exactly the tasks with status READY)
      that every operation keeps; the idle thread stops the processor with interrupts on, and when no thread is
      ready, unless an interrupt has come since it last blocked itself: then it may stop it although a thread is ready,
      until the next interrupt.
    - Threads: a new thread has its PCB, its pid and its place in both lists, and starts in
      [kernel_func]; but its stack lies 199 pages behind its PCB.
    - Locks: for any number of threads and locks and every interleaving, mutual
      exclusion, no failed assertion and no lost wake-up, by an invariant
      ([inv]) kept by every event; nested acquires and releases are inverse; the
      view [Mutex] agrees with this machine.
    - Context switch and interrupts: the registers of an interrupted program, and of a
      thread that is switched out, come back as they were.
    - Processes and system calls: [start_process] enters ring 3 with the user segments, and a
      system call is a call of the function of the kernel; but the stack pointer of a
      process is not set, and the number of a system call is not checked (it wraps at 32 bits when it is scaled, and
      leads to any word of memory).
    - Character queue, keyboard, console, screen: the queue is a first-in first-out
      queue of 63 characters, and a sleeping consumer gets the next character; keys are
      printed in the order in which they are typed; the output of threads that use the console does not mix;
      the cursor stays on the screen, but for a backspace in the first cell.
    - Timer and keyboard: the loop of [main] prints for ever, each round lasting the ticks it
      asks for; the exact length of time slices and sleeps and the
      effect of each scan code; and that the timer is not programmed with the
      frequency it asks for, that [mil_sleep] counts ten ticks per
      millisecond, that releasing ctrl releases alt, and that some keys read
      past the key map.
    - Disks: [ide_read] reads the first sector asked for from any drive that keeps the promises
      of [AtaDisk], and all of them from one that streams; [busy_wait] ends after at most 3000 rounds; [partition_scan] finds the
      partitions of a disk, with the limits of its tables; but [ide_write] stops at
      an assertion.
    - Tables of the processor: descriptors and gates say what they were built
      from, every vector has its entry, handler and name; but ring 3 may
      access the ports of the devices.

    ** What is not modelled

    [thread_f_printf], an empty loop.  Of the loader: the text on the screen, the
    A20 gate, the control registers, and the stack, which lies below the memory that it fills;
    the buffer of the memory map is a list.  Of the text that [disk_identify] prints, the
    state of [ide_init] keeps the bytes it is made from, because it depends on what the
    stack held before; [Partition.identify_text] gives the text for both.  The contents of
    the pages the pools hand out are not part of the pools' state.  In [Sync]
    the set of threads is fixed, the idle task takes no locks, a lock is
    released by its holder and taken fewer than 2^32 - 1 times over, and only a
    thread that blocked itself is woken by other code.  The heap, the console and the disk
    driver use locks in the view of [Mutex]; the waits of the disk driver are joined with the scheduler for the start-up
    only, when there are two threads, and what the other threads do while a busy disk makes it call [mil_sleep] is not
    followed.  The heap is taken to end below 0xffc00000, as it does with less than 2040 MB of memory; in [Syscall] the kernel stack is
    apart from the memory on which the function of the kernel works.  The behaviour of the
    processor's page walk ([PageTable.translate]) and of the timer chip
    ([Timer.pit_reload]) is written down from their documentation. *)
From Stdlib Require Export ZArith Lia.
From stdpp Require Export base gmap numbers list.
Local Open Scope Z_scope.

(** * Outcomes of kernel code *)

(** [Ok a]: the code returned [a].  [Panic]: an [ASSERT] failed, so
    [debug_out] printed its message and entered [while(1)].  [Fault]: the code
    dereferenced an address the model does not give it (NULL, or outside the
    object).  [NoFuel]: a loop did not finish within the fuel given to it. *)
Inductive outcome (A : Type) : Type :=
  | Ok (a : A)
  | Panic
  | Fault
  | NoFuel.
Arguments Ok {A} a.
Arguments Panic {A}.
Arguments Fault {A}.
Arguments NoFuel {A}.

Definition obind {A B} (c : outcome A) (k : A → outcome B) : outcome B :=
  match c with
  | Ok a => k a
  | Panic => Panic
  | Fault => Fault
  | NoFuel => NoFuel
  end.

Declare Scope simos_scope.
Delimit Scope simos_scope with simos.
Notation "'let!' x ':=' c 'in' k" := (obind c (λ x, k))
  (at level 10, x pattern, c at level 100, k at level 200,
   format "'[v' 'let!'  x  ':='  c  'in' '/' k ']'") : simos_scope.
Notation "c ';!' k" := (obind c (λ _, k))
  (at level 100, right associativity, format "'[v' c  ';!' '/' k ']'") : simos_scope.
Open Scope simos_scope.

(** [ASSERT(CONDITION)] of include/os/debug.h, with the debug switch on: the
    makefile never defines [NODEBUG]. *)
Definition ASSERT (b : bool) : outcome unit := if b then Ok tt else Panic.

Lemma obind_Ok_inv {A B} (c : outcome A) (k : A → outcome B) b :
  obind c k = Ok b → ∃ a, c = Ok a ∧ k a = Ok b.
Proof. destruct c; simpl; intros; try discriminate; eauto. Qed.

Lemma ASSERT_true b : b = true → ASSERT b = Ok tt.
Proof. by intros ->. Qed.

Lemma ASSERT_inv b u : ASSERT b = Ok u → b = true.
Proof. by destruct b. Qed.

(** * Fixed-width integers *)

Definition u8 (z : Z) : Z := z mod 256.
Definition u16 (z : Z) : Z := z mod 65536.
Definition u32 (z : Z) : Z := z mod 4294967296.
Definition u64 (z : Z) : Z := z mod 18446744073709551616.
(** Conversions to a signed type (gcc reduces modulo 2^w). *)
Definition s8 (z : Z) : Z := (z + 128) mod 256 - 128.
Definition s16 (z : Z) : Z := (z + 32768) mod 65536 - 32768.
Definition s32 (z : Z) : Z := (z + 2147483648) mod 4294967296 - 2147483648.
Definition s64 (z : Z) : Z :=
  (z + 9223372036854775808) mod 18446744073709551616 - 9223372036854775808.

Lemma u8_small z : 0 ≤ z < 256 → u8 z = z.
Proof. apply Z.mod_small. Qed.
Lemma u16_small z : 0 ≤ z < 65536 → u16 z = z.
Proof. apply Z.mod_small. Qed.
Lemma u32_small z : 0 ≤ z < 4294967296 → u32 z = z.
Proof. apply Z.mod_small. Qed.
Lemma u64_small z : 0 ≤ z < 18446744073709551616 → u64 z = z.
Proof. apply Z.mod_small. Qed.
Lemma u8_range z : 0 ≤ u8 z < 256.
Proof. by apply Z.mod_pos_bound. Qed.
Lemma u16_range z : 0 ≤ u16 z < 65536.
Proof. by apply Z.mod_pos_bound. Qed.
Lemma u32_range z : 0 ≤ u32 z < 4294967296.
Proof. by apply Z.mod_pos_bound. Qed.
Lemma s32_small z : -2147483648 ≤ z < 2147483648 → s32 z = z.
Proof. intros. unfold s32. rewrite Z.mod_small; lia. Qed.
Lemma s64_small z :
  -9223372036854775808 ≤ z < 9223372036854775808 → s64 z = z.
Proof. intros. unfold s64. rewrite Z.mod_small; lia. Qed.
Lemma s8_small z : -128 ≤ z < 128 → s8 z = z.
Proof. intros. unfold s8. rewrite Z.mod_small; lia. Qed.
Lemma s8_range z : -128 ≤ s8 z < 128.
Proof. unfold s8. pose proof (Z.mod_pos_bound (z + 128) 256). lia. Qed.
Lemma u32_idemp z : u32 (u32 z) = u32 z.
Proof. apply u32_small, u32_range. Qed.

Lemma u32_s32 z : u32 (s32 z) = u32 z.
Proof.
  unfold u32, s32. rewrite Zminus_mod, Zmod_mod, <- Zminus_mod.
  by replace (z + 2147483648 - 2147483648) with z by lia.
Qed.
Lemma u32_add_u32 z k : u32 (u32 z + k) = u32 (z + k).
Proof. apply Zplus_mod_idemp_l. Qed.

Create HintDb simos.
Create Rewrite HintDb simos_wrap.
#[export] Hint Rewrite u8_small u16_small u32_small u64_small s8_small s32_small
  s64_small using lia : simos_wrap.
#[export] Hint Resolve u8_range u16_range u32_range s8_range : simos.

(** Reduce the wrap-arounds of a goal that [lia] shows not to wrap. *)
Ltac nowrap := autorewrite with simos_wrap.
Ltac nowrap_in H := autorewrite with simos_wrap in H.

(** [lia] on goals with divisions and remainders. *)
Ltac divlia := Z.to_euclidean_division_equations; lia.

(** Invert a chain of [let!]s that returned. *)
Ltac okinv :=
  repeat match goal with
  | H : obind _ _ = Ok _ |- _ =>
      let a := fresh "r" in let E := fresh "E" in
      apply obind_Ok_inv in H as (a & E & H); simpl in H
  | H : ASSERT _ = Ok _ |- _ => apply ASSERT_inv in H
  | H : Ok _ = Ok _ |- _ => injection H as H
  | H : (_, _) = (_, _) |- _ => injection H as H
  end.

(** * Memory as finite maps from addresses *)

(** A memory maps the addresses the code may touch to their contents: bytes
    for the string library, 32-bit words (at the address of the word) for the
    linked structures.  An access anywhere else is a [Fault]. *)
Abbreviation mem := (gmap Z Z).

Definition NULL : Z := 0.

Definition load (m : mem) (a : Z) : outcome Z :=
  match m !! a with Some v => Ok v | None => Fault end.

Definition store (m : mem) (a v : Z) : outcome mem :=
  match m !! a with Some _ => Ok (<[a := v]> m) | None => Fault end.

Lemma load_Some m a v : m !! a = Some v → load m a = Ok v.
Proof. unfold load. by intros ->. Qed.

Lemma store_Some m a v w : m !! a = Some w → store m a v = Ok (<[a := v]> m).
Proof. unfold store. by intros ->. Qed.

Lemma store_is_Some m a v : is_Some (m !! a) → store m a v = Ok (<[a := v]> m).
Proof. intros [w Hw]. by eapply store_Some. Qed.

Lemma load_Ok_inv m a v : load m a = Ok v → m !! a = Some v.
Proof. unfold load. by destruct (m !! a); intros [=->]. Qed.

Lemma store_Ok_inv m a v m' :
  store m a v = Ok m' → is_Some (m !! a) ∧ m' = <[a := v]> m.
Proof. unfold store. destruct (m !! a); intros [=<-]; eauto. Qed.

(** * Generic facts on integers and lists *)

Lemma testbit_shiftl1 n i : 0 ≤ n → Z.testbit (Z.shiftl 1 n) i = bool_decide (i = n).
Proof.
  intros. rewrite Z.shiftl_1_l.
  destruct (decide (i = n)) as [->|Hne].
  - by rewrite Z.pow2_bits_true, bool_decide_true.
  - rewrite bool_decide_false by done. apply Z.pow2_bits_false. lia.
Qed.

Lemma land_pow2_testbit a n :
  0 ≤ n → (Z.land a (Z.shiftl 1 n) =? 0) = negb (Z.testbit a n).
Proof.
  intros Hn. destruct (Z.testbit a n) eqn:E; simpl.
  - apply Z.eqb_neq. intros H0. apply (f_equal (λ z, Z.testbit z n)) in H0.
    rewrite Z.land_spec, testbit_shiftl1, bool_decide_true, E, Z.bits_0 in H0; done.
  - apply Z.eqb_eq, Z.bits_inj_iff. intros i.
    rewrite Z.land_spec, testbit_shiftl1, Z.bits_0 by done.
    case_bool_decide; subst; [by rewrite E | by rewrite andb_false_r].
Qed.

Lemma list_lookup_Z {A} (l : list A) (i : Z) :
  0 ≤ i < Z.of_nat (length l) → is_Some (l !! Z.to_nat i).
Proof. intros. apply lookup_lt_is_Some. lia. Qed.

(** The [20] high bits of a 32-bit word: the page it lies in. *)
Lemma land_page_mask a : 0 ≤ a < 4294967296 → Z.land a 0xfffff000 = a - a mod 4096.
Proof.
  intros Ha. change 0xfffff000 with (Z.shiftl (Z.ones 20) 12).
  replace (a - a mod 4096) with (Z.shiftl (Z.shiftr a 12) 12).
  2:{ rewrite Z.shiftl_mul_pow2, Z.shiftr_div_pow2 by lia. change (2 ^ 12) with 4096.
      pose proof (Z.div_mod a 4096). lia. }
  apply Z.bits_inj_iff'. intros i Hi. rewrite Z.land_spec, !Z.shiftl_spec by lia.
  destruct (Z.lt_ge_cases i 12).
  { rewrite !(Z.testbit_neg_r _ (i - 12)) by lia. apply andb_false_r. }
  rewrite Z.shiftr_spec by lia. replace (i - 12 + 12) with i by lia.
  destruct (Z.lt_ge_cases i 32).
  - rewrite Z.ones_spec_low by lia. apply andb_true_r.
  - rewrite Z.ones_spec_high, andb_false_r by lia. symmetry.
    apply Z.bits_above_log2; [lia|].
    destruct (decide (a = 0)) as [->|]; [rewrite Z.log2_nonpos; lia|].
    apply Z.log2_lt_pow2; [lia|]. apply Z.lt_le_trans with (2 ^ 32); [lia|].
    apply Z.pow_le_mono_r; lia.
Qed.

Lemma land_ones_mod a n : 0 ≤ n → Z.land a (2 ^ n - 1) = a mod 2 ^ n.
Proof. intros. rewrite <- Z.land_ones by done. f_equal. rewrite Z.ones_equiv. lia. Qed.

(** * Counting loops *)

(** [for (i = lo; i < lo + n; i++) s = body i s] *)
Fixpoint for_range {S} (lo : Z) (n : nat) (body : Z → S → S) (s : S) : S :=
  match n with
  | O => s
  | Datatypes.S n => for_range (lo + 1) n body (body lo s)
  end.

(** The usual invariant rule of such a loop. *)
Lemma for_range_inv {S} (P : Z → S → Prop) lo n body s :
  P lo s → (∀ i s, lo ≤ i < lo + Z.of_nat n → P i s → P (i + 1) (body i s)) →
  P (lo + Z.of_nat n) (for_range lo n body s).
Proof.
  revert lo s. induction n as [|n IH]; intros lo s H0 Hstep; simpl.
  - by rewrite Z.add_0_r.
  - replace (lo + Z.of_nat (Datatypes.S n)) with (lo + 1 + Z.of_nat n) by lia.
    apply IH; [apply Hstep; [lia|done]|]. intros i s' Hi. apply Hstep. lia.
Qed.

Lemma for_range_inv_Z {S} (P : Z → S → Prop) n body s :
  0 ≤ n → P 0 s → (∀ i s, 0 ≤ i < n → P i s → P (i + 1) (body i s)) →
  P n (for_range 0 (Z.to_nat n) body s).
Proof.
  intros Hn H0 Hstep.
  pose proof (for_range_inv P 0 (Z.to_nat n) body s H0) as H.
  replace (0 + Z.of_nat (Z.to_nat n)) with n in H by lia. apply H. exact Hstep.
Qed.
