(* ===== verification/Bitmap.v ===== *)
(** The bitmap allocator of lib/kernel/bitmap.c. *)
From S2P Require Import Prelude.
Local Open Scope Z_scope.

(** * State *)

(** [struct bitmap].  [bitmap] is the buffer the pointer designates ([None] is
    the NULL pointer); it may be longer than [bitmap_bytes_len]. *)
Record bitmap := Bitmap {
  bitmap_bytes_len : Z;   (* uint32_t *)
  bitmap_buf : option (list Z)   (* uint8_t * *)
}.

(** [enum bit_status] *)
Inductive bit_status := bit_clear | bit_set.
#[export] Instance bit_status_eq_dec : EqDecision bit_status.
Proof. solve_decision. Defined.

Definition BITMAP_MASK : Z := 1.
Definition BIT_PER_LONG : Z := 8.
Definition BITS_TO_INDEX (nbits : Z) : Z := nbits / BIT_PER_LONG.
Definition BITS_IN_INDEX (nbits : Z) : Z := nbits mod 8.

(** [bitmap_bytes_len * BIT_PER_LONG], computed in [uint32_t]. *)
Definition total_bits (bm : bitmap) : Z := u32 (bitmap_bytes_len bm * BIT_PER_LONG).

(** [ASSERT(bitmap != NULL && bitmap->bitmap != NULL)] and the buffer. *)
Definition buffer (bm : bitmap) : outcome (list Z) :=
  match bitmap_buf bm with Some l => Ok l | None => Panic end.

(** Reading and writing one byte of the buffer; outside it is a [Fault]. *)
Definition get_byte (l : list Z) (i : Z) : outcome Z :=
  match l !! Z.to_nat i with Some b => Ok b | None => Fault end.
Definition set_byte (l : list Z) (i v : Z) : outcome (list Z) :=
  match l !! Z.to_nat i with Some _ => Ok (<[Z.to_nat i := v]> l) | None => Fault end.

(** * Operations *)

Definition bitmap_zero (bm : bitmap) : outcome bitmap :=
  let! l := buffer bm in
  if bitmap_bytes_len bm =? 0
  then let! l' := set_byte l 0 0 in Ok (Bitmap (bitmap_bytes_len bm) (Some l'))
  else
    let n := Z.to_nat (bitmap_bytes_len bm) in
    if (n <=? length l)%nat
    then Ok (Bitmap (bitmap_bytes_len bm) (Some (replicate n 0 ++ drop n l)))
    else Fault.

(** Both [bitmap_test_bit] and [test_bit] return the masked byte, an [int]
    that callers use as a truth value. *)
Definition test_bit (bm : bitmap) (bit_idx : Z) : outcome Z :=
  match bitmap_buf bm with
  | None => Fault
  | Some l =>
      let! b := get_byte l (BITS_TO_INDEX bit_idx) in
      Ok (Z.land b (Z.shiftl BITMAP_MASK (BITS_IN_INDEX bit_idx)))
  end.

Definition bitmap_test_bit (bm : bitmap) (bit_idx : Z) : outcome Z :=
  let! l := buffer bm in
  ASSERT (bit_idx <? total_bits bm) ;!
  let! b := get_byte l (BITS_TO_INDEX bit_idx) in
  Ok (Z.land b (Z.shiftl BITMAP_MASK (BITS_IN_INDEX bit_idx))).

Definition bitmap_set_bit (bm : bitmap) (bit_idx : Z) (bit : bit_status) : outcome bitmap :=
  let! l := buffer bm in
  ASSERT (bit_idx <? total_bits bm) ;!
  let! b := get_byte l (BITS_TO_INDEX bit_idx) in
  let mask := Z.shiftl BITMAP_MASK (BITS_IN_INDEX bit_idx) in
  let! l' := match bit with
             | bit_set => set_byte l (BITS_TO_INDEX bit_idx) (u8 (Z.lor b mask))
             | bit_clear => set_byte l (BITS_TO_INDEX bit_idx) (u8 (Z.land b (Z.lnot mask)))
             end in
  Ok (Bitmap (bitmap_bytes_len bm) (Some l')).

(** The [do ... while] of [find_next_zero_bit], one unit of fuel per test. *)
Fixpoint find_next_zero_bit_loop (fuel : nat) (bm : bitmap) (offest : Z) : outcome Z :=
  match fuel with
  | O => NoFuel
  | S fuel =>
      let! t := test_bit bm offest in
      if t =? 0 then Ok offest
      else
        let offest := u32 (offest + 1) in
        if offest <? total_bits bm
        then find_next_zero_bit_loop fuel bm offest
        else Ok (-1)
  end.

Definition find_next_zero_bit (bm : bitmap) (offest : Z) : outcome Z :=
  let! _ := buffer bm in
  ASSERT (offest <? total_bits bm) ;!
  find_next_zero_bit_loop (Z.to_nat (total_bits bm)) bm offest.

(** The [do ... while] of [find_next_bit]; [count] is advanced only when the
    offset is still inside the bitmap ([&&] is lazy). *)
Fixpoint find_next_bit_loop (fuel : nat) (bm : bitmap) (offest max_offest count : Z)
    : outcome Z :=
  match fuel with
  | O => NoFuel
  | S fuel =>
      let! t := test_bit bm offest in
      if negb (t =? 0) then Ok offest
      else
        let offest := u32 (offest + 1) in
        if offest <? total_bits bm then
          let count := u32 (count + 1) in
          if count <? max_offest
          then find_next_bit_loop fuel bm offest max_offest count
          else Ok (-1)
        else Ok (-1)
  end.

Definition find_next_bit (bm : bitmap) (offest max_offest : Z) : outcome Z :=
  let! _ := buffer bm in
  ASSERT (offest <? total_bits bm) ;!
  find_next_bit_loop (Z.to_nat (total_bits bm)) bm offest max_offest 0.

(** The [for] loop of [bitmap_apply].  [base] and [top] are [int64_t], compared
    with the [uint64_t] number of bits after conversion to [uint64_t]. *)
Fixpoint bitmap_apply_loop (fuel : nat) (bm : bitmap) (nbits base top : Z) : outcome Z :=
  match fuel with
  | O => NoFuel
  | S fuel =>
      let btmp_bits := total_bits bm in
      if (u64 base <? btmp_bits) || (u64 top <? btmp_bits) then
        let! top := find_next_bit bm (u32 (base + 1)) (u32 (nbits - 1)) in
        if top =? -1 then
          if nbits <=? u64 (btmp_bits - 1 - base) then Ok base else Ok (-1)
        else if nbits <=? top - base then Ok base
        else
          let! base := find_next_zero_bit bm (u32 (top + 1)) in
          bitmap_apply_loop fuel bm nbits base top
      else Ok (-1)
  end.

Definition bitmap_apply (fuel : nat) (bm : bitmap) (nbits : Z) : outcome Z :=
  let! _ := buffer bm in
  let! base := find_next_zero_bit bm 0 in
  if base =? -1 then Ok (-1) else bitmap_apply_loop fuel bm nbits base 0.

(** [bitmap_set_bits]: the counter [i] is an [int] compared with a [uint32_t],
    and the body sets bit [bit_idx], not bit [i]. *)
Fixpoint bitmap_set_bits_loop (fuel : nat) (bm : bitmap) (i bit_idx nbits : Z)
    (bit : bit_status) : outcome bitmap :=
  match fuel with
  | O => NoFuel
  | S fuel =>
      if u32 i <? u32 (bit_idx + nbits) then
        let! bm := bitmap_set_bit bm bit_idx bit in
        bitmap_set_bits_loop fuel bm (s32 (i + 1)) bit_idx nbits bit
      else Ok bm
  end.

Definition bitmap_set_bits (bm : bitmap) (bit_idx nbits : Z) (bit : bit_status)
    : outcome bitmap :=
  bitmap_set_bits_loop (S (Z.to_nat nbits)) bm (s32 bit_idx) bit_idx nbits bit.

(** * Abstract view: a finite sequence of bits *)

Definition bit_at (l : list Z) (i : Z) : bool :=
  Z.testbit (default 0 (l !! Z.to_nat (i / 8))) (i mod 8).

(** Bit [i] of a bitmap. *)
Definition bit (bm : bitmap) (i : Z) : bool :=
  match bitmap_buf bm with Some l => bit_at l i | None => false end.

(** A usable bitmap: a buffer of bytes at least [bitmap_bytes_len] long, whose
    number of bits fits [uint32_t]. *)
Record bitmap_wf (bm : bitmap) : Prop := {
  wf_len : 0 ≤ bitmap_bytes_len bm < 536870912;
  wf_buf : ∃ l, bitmap_buf bm = Some l ∧
             bitmap_bytes_len bm ≤ Z.of_nat (length l) ∧
             Forall (λ b, 0 ≤ b < 256) l
}.

#[export] Instance bitmap_wf_dec bm : Decision (bitmap_wf bm).
Proof.
  refine (match bitmap_buf bm as o return bitmap_buf bm = o → _ with
          | Some l => λ E, cast_if_and3 (decide (0 ≤ bitmap_bytes_len bm < 536870912))
              (decide (bitmap_bytes_len bm ≤ Z.of_nat (length l)))
              (decide (Forall (λ b, 0 ≤ b < 256) l))
          | None => λ E, right _
          end eq_refl);
    abstract (first [by split; eauto
      | intros [? (l' & E' & ? & ?)]; rewrite E in E'; simplify_eq; done]).
Defined.

Lemma total_bits_wf bm : bitmap_wf bm → total_bits bm = bitmap_bytes_len bm * 8.
Proof. intros [? _]. unfold total_bits, BIT_PER_LONG. by nowrap. Qed.

Lemma total_bits_range bm : bitmap_wf bm → 0 ≤ total_bits bm < 4294967296.
Proof. intros Hwf. rewrite total_bits_wf by done. destruct Hwf. lia. Qed.

Lemma buffer_wf bm : bitmap_wf bm → ∃ l, buffer bm = Ok l ∧ bitmap_buf bm = Some l.
Proof. intros [_ (l & E & _)]. unfold buffer. rewrite E. eauto. Qed.

Lemma byte_in_buf bm l i :
  bitmap_wf bm → bitmap_buf bm = Some l → 0 ≤ i < total_bits bm →
  ∃ b, l !! Z.to_nat (i / 8) = Some b ∧ 0 ≤ b < 256.
Proof.
  intros Hwf El Hi. rewrite total_bits_wf in Hi by done.
  destruct Hwf as [Hlen (l' & El' & Hlen' & Hall)].
  rewrite El in El'; injection El' as <-.
  destruct (list_lookup_Z l (i / 8)) as [b Hb].
  { split; [apply Z.div_pos; lia|]. apply Z.div_lt_upper_bound; lia. }
  exists b; split; [done|]. by eapply Forall_lookup_1 in Hall.
Qed.

(** ** Testing a bit *)

Lemma masked_byte_zero l i b :
  0 ≤ i → l !! Z.to_nat (i / 8) = Some b →
  (Z.land b (Z.shiftl BITMAP_MASK (BITS_IN_INDEX i)) =? 0) = negb (bit_at l i).
Proof.
  intros Hi Hb. unfold BITMAP_MASK, BITS_IN_INDEX, bit_at. rewrite Hb.
  apply land_pow2_testbit, Z.mod_pos_bound; lia.
Qed.

Lemma test_bit_spec bm i :
  bitmap_wf bm → 0 ≤ i < total_bits bm →
  ∃ t, test_bit bm i = Ok t ∧ (t =? 0) = negb (bit bm i).
Proof.
  intros Hwf Hi. destruct (buffer_wf bm Hwf) as (l & _ & El).
  destruct (byte_in_buf bm l i) as (b & Hb & _); try done.
  unfold test_bit, bit, get_byte, BITS_TO_INDEX, BIT_PER_LONG. rewrite El, Hb. simpl.
  eexists; split; [done|]. apply masked_byte_zero; [lia|done].
Qed.

Lemma bitmap_test_bit_ok bm i :
  bitmap_wf bm → 0 ≤ i < total_bits bm → bitmap_test_bit bm i = test_bit bm i.
Proof.
  intros Hwf Hi. destruct (buffer_wf bm Hwf) as (l & Eb & El).
  unfold bitmap_test_bit, test_bit. rewrite Eb, El. simpl.
  rewrite (ASSERT_true (i <? total_bits bm)) by lia. done.
Qed.

(** ** Setting a bit *)

Definition bit_of_status (s : bit_status) : bool :=
  match s with bit_set => true | bit_clear => false end.

(** The byte that [bitmap_set_bit] stores. *)
Definition set_bit_byte (b k : Z) (s : bit_status) : Z :=
  match s with
  | bit_set => u8 (Z.lor b (Z.shiftl BITMAP_MASK k))
  | bit_clear => u8 (Z.land b (Z.lnot (Z.shiftl BITMAP_MASK k)))
  end.

Lemma testbit_u8 z j : 0 ≤ j < 8 → Z.testbit (u8 z) j = Z.testbit z j.
Proof. intros. unfold u8. change 256 with (2 ^ 8). apply Z.mod_pow2_bits_low. lia. Qed.

Lemma set_bit_byte_testbit b k s j :
  0 ≤ k < 8 → 0 ≤ j < 8 →
  Z.testbit (set_bit_byte b k s) j =
    if decide (j = k) then bit_of_status s else Z.testbit b j.
Proof.
  intros Hk Hj. destruct s; simpl; rewrite testbit_u8 by done;
    unfold BITMAP_MASK.
  - rewrite Z.land_spec, Z.lnot_spec, testbit_shiftl1 by lia.
    do 2 case_decide || case_bool_decide; simplify_eq; simpl; by rewrite ?andb_false_r, ?andb_true_r.
  - rewrite Z.lor_spec, testbit_shiftl1 by lia.
    case_decide; case_bool_decide; simplify_eq; by rewrite ?orb_true_r, ?orb_false_r.
Qed.

Lemma bitmap_set_bit_eq bm i s l b :
  bitmap_wf bm → 0 ≤ i < total_bits bm →
  bitmap_buf bm = Some l → l !! Z.to_nat (i / 8) = Some b →
  bitmap_set_bit bm i s =
    Ok (Bitmap (bitmap_bytes_len bm) (Some (<[Z.to_nat (i / 8) := set_bit_byte b (i mod 8) s]> l))).
Proof.
  intros Hwf Hi El Hb. unfold bitmap_set_bit, buffer. rewrite El. simpl.
  rewrite (ASSERT_true (i <? total_bits bm)) by lia. simpl.
  unfold get_byte, set_byte, BITS_TO_INDEX, BIT_PER_LONG. rewrite Hb. simpl.
  by destruct s.
Qed.

Lemma div_mod_8_neq i j : i ≠ j → i / 8 = j / 8 → i mod 8 ≠ j mod 8.
Proof. intros Hne Hd Hm. apply Hne. rewrite (Z.div_mod i 8), (Z.div_mod j 8); lia. Qed.

Lemma bit_at_insert l i j b s :
  0 ≤ i → 0 ≤ j → l !! Z.to_nat (i / 8) = Some b →
  bit_at (<[Z.to_nat (i / 8) := set_bit_byte b (i mod 8) s]> l) j =
    if decide (j = i) then bit_of_status s else bit_at l j.
Proof.
  intros Hi Hj Hb. unfold bit_at.
  pose proof (Z.mod_pos_bound i 8). pose proof (Z.mod_pos_bound j 8).
  destruct (decide (j / 8 = i / 8)) as [Hd|Hd].
  - rewrite Hd, Hb, list_lookup_insert_eq by (by eapply lookup_lt_Some). simpl.
    rewrite set_bit_byte_testbit by lia.
    destruct (decide (j = i)) as [->|Hne]; [by rewrite decide_True|].
    rewrite decide_False; [done|]. by apply div_mod_8_neq.
  - rewrite list_lookup_insert_ne.
    + rewrite decide_False; [done|]. congruence.
    + pose proof (Z.div_pos i 8). pose proof (Z.div_pos j 8). lia.
Qed.

(** Setting a bit of a usable bitmap succeeds, keeps it usable and of the same
    size, and changes exactly that bit. *)
Lemma bitmap_set_bit_spec bm i s :
  bitmap_wf bm → 0 ≤ i < total_bits bm →
  ∃ bm', bitmap_set_bit bm i s = Ok bm' ∧ bitmap_wf bm' ∧
    total_bits bm' = total_bits bm ∧
    ∀ j, 0 ≤ j → bit bm' j = if decide (j = i) then bit_of_status s else bit bm j.
Proof.
  intros Hwf Hi. destruct (buffer_wf bm Hwf) as (l & _ & El).
  destruct (byte_in_buf bm l i) as (b & Hb & Hrb); try done.
  eexists. split; [by apply bitmap_set_bit_eq|].
  split_and!; [|done|].
  - destruct Hwf as [Hlen (l' & El' & Hlen' & Hall)].
    rewrite El in El'; injection El' as <-.
    split; simpl; [done|]. eexists; split_and!; [done|by rewrite length_insert|].
    apply Forall_insert; [done|]. destruct s; apply u8_range.
  - intros j Hj. unfold bit; simpl. rewrite El. by apply bit_at_insert; [lia| |].
Qed.

Lemma bitmap_set_bit_panic bm i s :
  bitmap_wf bm → total_bits bm ≤ i → bitmap_set_bit bm i s = Panic.
Proof.
  intros Hwf Hi. destruct (buffer_wf bm Hwf) as (l & Eb & _).
  unfold bitmap_set_bit. rewrite Eb. simpl. unfold ASSERT.
  by rewrite (proj2 (Z.ltb_ge _ _)).
Qed.

(** ** Scanning *)

(** All bits of [i .. j-1] equal [b]. *)
Definition bits_eq (bm : bitmap) (b : bool) (i j : Z) : Prop :=
  ∀ k, i ≤ k < j → bit bm k = b.

Lemma bits_eq_cons bm b i j : bit bm i = b → bits_eq bm b (i + 1) j → bits_eq bm b i j.
Proof. intros Hi H k Hk. destruct (decide (k = i)) as [->|]; [done|]. apply H. lia. Qed.

Lemma bits_eq_one bm b i j : bit bm i = b → j ≤ i + 1 → bits_eq bm b i j.
Proof. intros Hi Hj k Hk. by replace k with i by lia. Qed.

(** [r] is the first bit equal to [b] in the window [i .. j-1], or [-1] when
    the window has none. *)
Definition first_bit (bm : bitmap) (b : bool) (i j r : Z) : Prop :=
  (r = -1 ∧ bits_eq bm (negb b) i j) ∨
  (i ≤ r < j ∧ bit bm r = b ∧ bits_eq bm (negb b) i r).

Lemma first_bit_here bm b i j : i < j → bit bm i = b → first_bit bm b i j i.
Proof. intros. right. split_and!; [lia|lia|done|]. intros k ?. lia. Qed.

Lemma first_bit_next bm b i j r :
  0 ≤ i → bit bm i = negb b → first_bit bm b (i + 1) j r → first_bit bm b i j r.
Proof.
  intros Hi0 Hi [[-> H]|(Hr & Hb & H)]; [left|right]; split_and!;
    try done; try lia; by apply bits_eq_cons.
Qed.

Lemma first_bit_end bm b i j : bit bm i = negb b → j ≤ i + 1 → first_bit bm b i j (-1).
Proof. intros. left. split; [done|]. by apply bits_eq_one. Qed.

Lemma find_next_zero_bit_loop_spec fuel bm off :
  bitmap_wf bm → 0 ≤ off < total_bits bm → total_bits bm - off ≤ Z.of_nat fuel →
  ∃ r, find_next_zero_bit_loop fuel bm off = Ok r ∧
       first_bit bm false off (total_bits bm) r.
Proof.
  intros Hwf. pose proof (total_bits_range bm Hwf) as Htot.
  revert off. induction fuel as [|fuel IH]; intros off Hoff Hfuel; [lia|]. simpl.
  destruct (test_bit_spec bm off Hwf Hoff) as (t & Et & Ht). rewrite Et; simpl. rewrite Ht.
  destruct (bit bm off) eqn:Eb; simpl; nowrap.
  - destruct (Z.ltb_spec (off + 1) (total_bits bm)) as [Hlt|Hge].
    + destruct (IH (off + 1)) as (r & -> & Hr); [lia|lia|].
      exists r; split; [done|]. by apply first_bit_next; [lia| |].
    + exists (-1); split; [done|]. by apply first_bit_end.
  - exists off; split; [done|]. by apply first_bit_here; [lia|].
Qed.

(** [find_next_zero_bit] returns the first clear bit from [offest] on. *)
Lemma find_next_zero_bit_spec bm off :
  bitmap_wf bm → 0 ≤ off < total_bits bm →
  ∃ r, find_next_zero_bit bm off = Ok r ∧ first_bit bm false off (total_bits bm) r.
Proof.
  intros Hwf Hoff. destruct (buffer_wf bm Hwf) as (l & Eb & _).
  unfold find_next_zero_bit. rewrite Eb; simpl.
  rewrite ASSERT_true by lia; simpl.
  apply find_next_zero_bit_loop_spec; [done|done|lia].
Qed.

Lemma find_next_zero_bit_panic bm off :
  bitmap_wf bm → total_bits bm ≤ off → find_next_zero_bit bm off = Panic.
Proof.
  intros Hwf Hoff. destruct (buffer_wf bm Hwf) as (l & Eb & _).
  unfold find_next_zero_bit. rewrite Eb; simpl. unfold ASSERT.
  by rewrite (proj2 (Z.ltb_ge _ _)).
Qed.

(** End of the window [find_next_bit] looks at: at most [max_offest] bits (one
    when [max_offest] is 0), and never past the bitmap. *)
Definition scan_end (bm : bitmap) (off max count : Z) : Z :=
  Z.min (total_bits bm) (off + Z.max 1 (max - count)).

Lemma find_next_bit_loop_spec fuel bm off max count :
  bitmap_wf bm → 0 ≤ off < total_bits bm → total_bits bm - off ≤ Z.of_nat fuel →
  0 ≤ count ≤ off →
  ∃ r, find_next_bit_loop fuel bm off max count = Ok r ∧
       first_bit bm true off (scan_end bm off max count) r.
Proof.
  intros Hwf. pose proof (total_bits_range bm Hwf) as Htot. unfold scan_end.
  revert off count. induction fuel as [|fuel IH]; intros off count Hoff Hfuel Hc; [lia|]. simpl.
  destruct (test_bit_spec bm off Hwf Hoff) as (t & Et & Ht). rewrite Et; simpl. rewrite Ht.
  destruct (bit bm off) eqn:Eb; simpl; nowrap.
  { exists off; split; [done|]. apply first_bit_here; [lia|done]. }
  destruct (Z.ltb_spec (off + 1) (total_bits bm)) as [Hlt|Hge].
  2:{ exists (-1); split; [done|]. apply first_bit_end; [done|lia]. }
  destruct (Z.ltb_spec (count + 1) max) as [Hlt'|Hge'].
  2:{ exists (-1); split; [done|]. apply first_bit_end; [done|lia]. }
  destruct (IH (off + 1) (count + 1)) as (r & -> & Hr); [lia..|].
  exists r; split; [done|]. apply first_bit_next; [lia|done|].
  by replace (off + Z.max 1 (max - count))
    with (off + 1 + Z.max 1 (max - (count + 1))) by lia.
Qed.

(** [find_next_bit] returns the first set bit of its window. *)
Lemma find_next_bit_spec bm off max :
  bitmap_wf bm → 0 ≤ off < total_bits bm →
  ∃ r, find_next_bit bm off max = Ok r ∧ first_bit bm true off (scan_end bm off max 0) r.
Proof.
  intros Hwf Hoff. destruct (buffer_wf bm Hwf) as (l & Eb & _).
  unfold find_next_bit. rewrite Eb; simpl. rewrite ASSERT_true by lia; simpl.
  apply find_next_bit_loop_spec; [done|done|lia|lia].
Qed.

Lemma find_next_bit_panic bm off max :
  bitmap_wf bm → total_bits bm ≤ off → find_next_bit bm off max = Panic.
Proof.
  intros Hwf Hoff. destruct (buffer_wf bm Hwf) as (l & Eb & _).
  unfold find_next_bit. rewrite Eb; simpl. unfold ASSERT.
  by rewrite (proj2 (Z.ltb_ge _ _)).
Qed.

#[export] Instance bits_eq_dec bm b i j : Decision (bits_eq bm b i j).
Proof.
  refine (cast_if (decide (Forall (λ k, bit bm k = b) (seqZ i (j - i)))));
    abstract (unfold bits_eq; rewrite Forall_seqZ in *; intuition; eauto with lia).
Defined.

(** ** First fit *)

(** A run of [n] clear bits at [r] that [bitmap_apply] may hand out: the code
    never hands out the last bit of the bitmap. *)
Definition fit (bm : bitmap) (n r : Z) : Prop :=
  0 ≤ r ∧ r + n ≤ total_bits bm - 1 ∧ bits_eq bm false r (r + n).

#[export] Instance fit_dec bm n r : Decision (fit bm n r).
Proof. unfold fit. apply _. Defined.

Definition no_fit_below (bm : bitmap) (n b : Z) : Prop := ∀ r, r < b → ¬ fit bm n r.

(** Where the loop of [bitmap_apply] can stand: on a clear bit with no fit
    before it, or on [-1] when there is no fit at all. *)
Definition apply_inv (bm : bitmap) (n base : Z) : Prop :=
  (0 ≤ base < total_bits bm ∧ bit bm base = false ∧ no_fit_below bm n base) ∨
  (base = -1 ∧ ∀ r, ¬ fit bm n r).

(** What [bitmap_apply] may answer. *)
Definition apply_post (bm : bitmap) (n : Z) (o : outcome Z) : Prop :=
  match o with
  | Ok r => (r = -1 ∧ ∀ r', ¬ fit bm n r') ∨ (fit bm n r ∧ no_fit_below bm n r)
  | Panic | NoFuel => ∀ r', ¬ fit bm n r'
  | Fault => False
  end.

Lemma no_fit_blocked bm n base top :
  1 ≤ n → bit bm top = true → top < base + n → no_fit_below bm n base →
  no_fit_below bm n (top + 1).
Proof.
  intros Hn Htop Hlt Hbelow r Hr (H0 & Hend & Hfree).
  destruct (Z.lt_ge_cases r base) as [|Hge]; [by eapply Hbelow; [|split_and!]|].
  rewrite Hfree in Htop; [done|lia].
Qed.

Lemma no_fit_from bm n b :
  1 ≤ n → total_bits bm - 1 ≤ b → no_fit_below bm n b → ∀ r, ¬ fit bm n r.
Proof.
  intros Hn Hb Hbelow r Hfit.
  destruct (Z.lt_ge_cases r b); [by eapply Hbelow|]. destruct Hfit. lia.
Qed.

(** Moving the base to the next clear bit keeps the invariant. *)
Lemma apply_inv_next bm n b base' :
  1 ≤ n → 0 ≤ b → no_fit_below bm n b →
  first_bit bm false b (total_bits bm) base' → apply_inv bm n base'.
Proof.
  intros Hn Hb Hbelow [[-> Hall]|(Hr & Hclr & Hset)]; [right|left].
  - split; [done|]. intros r Hfit.
    destruct (Z.lt_ge_cases r b) as [|Hge]; [by eapply Hbelow|].
    destruct Hfit as (? & ? & Hfree).
    assert (bit bm r = true) as Hr1 by (apply Hall; lia).
    rewrite Hfree in Hr1; [done|lia].
  - split_and!; [lia|lia|done|]. intros r Hlt Hfit.
    destruct (Z.lt_ge_cases r b) as [|Hge]; [by eapply Hbelow|].
    destruct Hfit as (? & ? & Hfree).
    assert (bit bm r = true) as Hr1 by (apply Hset; lia).
    rewrite Hfree in Hr1; [done|lia].
Qed.

(** The second half of an iteration: after a set bit [top] was found too close
    to [base], the base moves to the next clear bit. *)
Lemma apply_retry bm n top (k : Z → outcome Z) :
  bitmap_wf bm → 1 ≤ n → 0 ≤ top < total_bits bm → no_fit_below bm n (top + 1) →
  (∀ base, apply_inv bm n base → base = -1 ∨ top < base → apply_post bm n (k base)) →
  apply_post bm n (let! base := find_next_zero_bit bm (u32 (top + 1)) in k base).
Proof.
  intros Hwf Hn Htop Hbelow Hk. pose proof (total_bits_range bm Hwf). nowrap.
  destruct (Z.lt_ge_cases (top + 1) (total_bits bm)).
  - destruct (find_next_zero_bit_spec bm (top + 1)) as (base & -> & Hb); [done|lia|]. simpl.
    apply Hk.
    + eapply apply_inv_next; [done| |done|done]. lia.
    + destruct Hb as [[-> _]|[? _]]; lia.
  - rewrite find_next_zero_bit_panic by (done || lia). simpl.
    eapply no_fit_from; [done| |done]. lia.
Qed.

(** An iteration that starts on a clear bit. *)
Lemma apply_step_pos fuel bm n base top :
  bitmap_wf bm → 1 ≤ n < 4294967296 → 0 ≤ base < total_bits bm →
  bit bm base = false → no_fit_below bm n base →
  (∀ base' top', 0 ≤ top' < total_bits bm → base' = -1 ∨ base < base' →
     apply_inv bm n base' → apply_post bm n (bitmap_apply_loop fuel bm n base' top')) →
  apply_post bm n (bitmap_apply_loop (S fuel) bm n base top).
Proof.
  intros Hwf Hn Hbase Hclr Hbelow IH. pose proof (total_bits_range bm Hwf). simpl. nowrap.
  rewrite (proj2 (Z.ltb_lt base (total_bits bm))) by lia. simpl.
  destruct (Z.lt_ge_cases (base + 1) (total_bits bm)).
  2:{ rewrite find_next_bit_panic by (done || lia). simpl.
      eapply no_fit_from; [| |done]; lia. }
  destruct (find_next_bit_spec bm (base + 1) (n - 1)) as (r & -> & Hr); [done|lia|].
  unfold scan_end in Hr. simpl.
  destruct Hr as [[-> Hall]|(Hr & Hset & Hclear)].
  - simpl. nowrap. destruct (Z.leb_spec n (total_bits bm - 1 - base)) as [Hle|Hgt]; simpl.
    + right. split; [|done]. split_and!; [lia|lia|]. apply bits_eq_cons; [done|].
      intros k ?. apply Hall. lia.
    + left. split; [done|]. intros r Hfit.
      destruct (Z.lt_ge_cases r base) as [|]; [by eapply Hbelow|]. destruct Hfit. lia.
  - rewrite (proj2 (Z.eqb_neq r (-1))) by lia.
    destruct (Z.leb_spec n (r - base)) as [Hle|Hgt].
    + right. split; [|done]. split_and!; [lia|lia|]. apply bits_eq_cons; [done|].
      intros k ?. apply Hclear. lia.
    + apply apply_retry; [done|lia|lia| |].
      * eapply no_fit_blocked; [lia|done| |done]. lia.
      * intros base' Hinv Hb. apply IH; [lia|lia|done].
Qed.

(** An iteration that starts on [-1], the answer of a failed scan. *)
Lemma apply_step_neg fuel bm n top :
  bitmap_wf bm → 1 ≤ n < 4294967296 → 0 ≤ top < total_bits bm → (∀ r, ¬ fit bm n r) →
  (∀ base' top', 0 ≤ top' < total_bits bm →
     apply_inv bm n base' → apply_post bm n (bitmap_apply_loop fuel bm n base' top')) →
  apply_post bm n (bitmap_apply_loop (S fuel) bm n (-1) top).
Proof.
  intros Hwf Hn Htop Hno IH. pose proof (total_bits_range bm Hwf). simpl.
  rewrite (u64_small top) by lia.
  rewrite (proj2 (Z.ltb_lt top (total_bits bm))), orb_true_r by lia.
  change (-1 + 1) with 0. change (u32 0) with 0. rewrite (u32_small (n - 1)) by lia.
  destruct (find_next_bit_spec bm 0 (n - 1)) as (r & -> & Hr); [done|lia|]. simpl.
  destruct Hr as [[-> _]|(Hr & _ & _)].
  - simpl. destruct (n <=? _); simpl; by left.
  - unfold scan_end in Hr. rewrite (proj2 (Z.eqb_neq r (-1))) by lia.
    destruct (n <=? r - -1); [by left|].
    apply apply_retry; [done|lia|lia| |].
    + intros r' _. apply Hno.
    + intros base' Hinv _. apply IH; [lia|done].
Qed.

Lemma bitmap_apply_loop_spec fuel bm n base top :
  bitmap_wf bm → 1 ≤ n < 4294967296 → apply_inv bm n base →
  (base = -1 → 0 ≤ top < total_bits bm) →
  (∀ r, fit bm n r → total_bits bm - base ≤ Z.of_nat fuel) →
  apply_post bm n (bitmap_apply_loop fuel bm n base top).
Proof.
  intros Hwf Hn. revert base top. induction fuel as [|fuel IH]; intros base top Hinv Htop Hfuel.
  { simpl. intros r Hfit. specialize (Hfuel r Hfit).
    destruct Hinv as [(? & _ & _)|[_ Hno]]; [lia|by eapply Hno]. }
  destruct Hinv as [(Hbase & Hclr & Hbelow)|[-> Hno]].
  - apply apply_step_pos; try done.
    intros base' top' Htop' Hb Hinv'. apply IH; [done|done|].
    intros r Hfit. destruct Hb as [->|Hb].
    + destruct Hinv' as [(?&_)|[_ Hno]]; [lia|]. by destruct (Hno r).
    + specialize (Hfuel r Hfit). lia.
  - apply apply_step_neg; try done; [by apply Htop|].
    intros base' top' Htop' Hinv'. apply IH; [done|done|].
    intros r Hfit. by destruct (Hno r).
Qed.

Lemma bitmap_apply_post fuel bm n :
  bitmap_wf bm → 1 ≤ n < 4294967296 →
  (∀ r, fit bm n r → total_bits bm ≤ Z.of_nat fuel) →
  apply_post bm n (bitmap_apply fuel bm n).
Proof.
  intros Hwf Hn Hfuel. destruct (buffer_wf bm Hwf) as (l & Eb & _).
  unfold bitmap_apply. rewrite Eb; simpl.
  pose proof (total_bits_range bm Hwf).
  destruct (Z.lt_ge_cases 0 (total_bits bm)).
  2:{ rewrite find_next_zero_bit_panic by (done || lia). simpl.
      intros r (? & ? & _). lia. }
  destruct (find_next_zero_bit_spec bm 0) as (base & -> & Hb); [done|lia|]. simpl.
  assert (no_fit_below bm n 0) as Hb0 by (intros r ? (? & _); lia).
  pose proof (apply_inv_next bm n 0 base ltac:(lia) ltac:(lia) Hb0 Hb) as Hinv.
  destruct (Z.eqb_spec base (-1)) as [->|Hne].
  - left. split; [done|]. by destruct Hinv as [(? & _)|[_ Hno]]; [lia|].
  - apply bitmap_apply_loop_spec; try done.
    intros r Hfit. specialize (Hfuel r Hfit). destruct Hb as [[? _]|[? _]]; lia.
Qed.

(** ** Ranges of bits *)

Lemma bitmap_set_bits_loop_spec fuel bm c i n s :
  bitmap_wf bm → 0 ≤ i < total_bits bm → 0 ≤ n → i + n < 4294967296 →
  i < u32 c ≤ i + n → i + n - u32 c < Z.of_nat fuel →
  bit bm i = bit_of_status s →
  ∃ bm', bitmap_set_bits_loop fuel bm c i n s = Ok bm' ∧ bitmap_wf bm' ∧
    total_bits bm' = total_bits bm ∧ ∀ j, 0 ≤ j → bit bm' j = bit bm j.
Proof.
  revert bm c. induction fuel as [|fuel IH]; intros bm c Hwf Hi Hn Hov Hc Hfuel Hbit; [lia|].
  simpl. rewrite (u32_small (i + n)) by lia.
  destruct (Z.ltb_spec (u32 c) (i + n)).
  2:{ exists bm. by split_and!. }
  destruct (bitmap_set_bit_spec bm i s) as (bm1 & -> & Hwf1 & Htot1 & Hbit1); [done..|]. simpl.
  assert (u32 (s32 (c + 1)) = u32 c + 1) as Ec.
  { rewrite u32_s32, <- u32_add_u32. apply u32_small. lia. }
  destruct (IH bm1 (s32 (c + 1))) as (bm2 & -> & Hwf2 & Htot2 & Hbit2); try lia; try done.
  { rewrite Hbit1 by lia. by rewrite decide_True. }
  exists bm2. split_and!; [done|done|congruence|]. intros j Hj.
  rewrite Hbit2, Hbit1 by done. case_decide; [by subst|done].
Qed.

(** [bitmap_zero] clears every bit. *)
Lemma bitmap_zero_spec bm :
  bitmap_wf bm → 0 < bitmap_bytes_len bm →
  ∃ bm', bitmap_zero bm = Ok bm' ∧ bitmap_wf bm' ∧ total_bits bm' = total_bits bm ∧
    ∀ j, 0 ≤ j < total_bits bm → bit bm' j = false.
Proof.
  intros Hwf Hpos. pose proof (total_bits_wf bm Hwf) as Htot.
  destruct (buffer_wf bm Hwf) as (l & Eb & El).
  destruct Hwf as [Hlen (l' & El' & Hlen' & Hall)]. rewrite El in El'; injection El' as <-.
  unfold bitmap_zero. rewrite Eb; simpl.
  rewrite (proj2 (Z.eqb_neq _ _)) by lia.
  rewrite (proj2 (Nat.leb_le _ _)) by lia.
  eexists. split_and!; [done| |done|].
  - split; simpl; [done|]. eexists; split_and!; [done| |].
    + rewrite length_app, length_replicate, length_drop. lia.
    + apply Forall_app; split; [by apply Forall_replicate|by apply Forall_drop].
  - intros j Hj. unfold bit, bit_at; simpl.
    rewrite lookup_app_l, lookup_replicate_2; [apply Z.bits_0| |rewrite length_replicate].
    all: assert (j / 8 < bitmap_bytes_len bm) by (apply Z.div_lt_upper_bound; lia);
      pose proof (Z.div_pos j 8); lia.
Qed.

(** [bitmap_set_bits] writes the first bit of its range only. *)
Lemma bitmap_set_bits_first (bm : bitmap) (i n : Z) (s : bit_status) :
  bitmap_wf bm → 0 ≤ i < total_bits bm → 1 ≤ n → i + n < 4294967296 →
  ∃ bm', bitmap_set_bits bm i n s = Ok bm' ∧ bitmap_wf bm' ∧
    total_bits bm' = total_bits bm ∧
    ∀ j, 0 ≤ j → bit bm' j = if decide (j = i) then bit_of_status s else bit bm j.
Proof.
  intros Hwf Hi Hn Hov. unfold bitmap_set_bits. simpl.
  rewrite u32_s32, (u32_small i), (u32_small (i + n)) by lia.
  rewrite (proj2 (Z.ltb_lt i (i + n))) by lia.
  destruct (bitmap_set_bit_spec bm i s) as (bm1 & -> & Hwf1 & Htot1 & Hbit1); [done..|]. simpl.
  assert (u32 (s32 (s32 i + 1)) = i + 1) as Ec.
  { rewrite u32_s32, <- u32_add_u32, u32_s32, u32_add_u32. apply u32_small. lia. }
  destruct (bitmap_set_bits_loop_spec (Z.to_nat n) bm1 (s32 (s32 i + 1)) i n s)
    as (bm2 & -> & Hwf2 & Htot2 & Hbit2); try lia; try done.
  { rewrite Hbit1 by lia. by rewrite decide_True. }
  exists bm2. split_and!; [done|done|congruence|]. intros j Hj. by rewrite Hbit2, Hbit1.
Qed.

(** The first run that fits is found; one loop iteration per bit is enough. *)
Lemma bitmap_apply_first (fuel : nat) (bm : bitmap) (n : Z) :
  bitmap_wf bm → 1 ≤ n < 4294967296 → total_bits bm ≤ Z.of_nat fuel →
  (∃ r, fit bm n r) →
  ∃ r, bitmap_apply fuel bm n = Ok r ∧ fit bm n r ∧ ∀ r', r' < r → ¬ fit bm n r'.
Proof.
  intros Hwf Hn Hfuel [r0 Hfit].
  pose proof (bitmap_apply_post fuel bm n Hwf Hn ltac:(done)) as Hpost.
  destruct (bitmap_apply fuel bm n) as [r| | |]; simpl in Hpost;
    [|by destruct (Hpost r0)|done|by destruct (Hpost r0)].
  exists r. destruct Hpost as [[_ Hno]|[? ?]]; [by destruct (Hno r0)|]. by split_and!.
Qed.

(** * Properties *)

(** C19. First fit: when the bitmap has a run of [n] clear bits that ends before
    the last bit, [bitmap_apply] terminates and returns the start of the first
    such run; one loop iteration per bit of the bitmap is enough. *)
Theorem bitmap_apply_first_fit (fuel : nat) (bm : bitmap) (n : Z) :
  bitmap_wf bm → 1 ≤ n < 4294967296 → total_bits bm ≤ Z.of_nat fuel →
  (∃ r, fit bm n r) →
  ∃ r, bitmap_apply fuel bm n = Ok r ∧ fit bm n r ∧ ∀ r', r' < r → ¬ fit bm n r'.
Proof. apply bitmap_apply_first. Qed.

(** Without such a run [bitmap_apply] never hands out bits, whatever the
    fuel: it answers [-1], fails an [ASSERT] or keeps looping, and never leaves
    its buffer. *)
Theorem bitmap_apply_no_fit (fuel : nat) (bm : bitmap) (n : Z) :
  bitmap_wf bm → 1 ≤ n < 4294967296 → (∀ r, ¬ fit bm n r) →
  bitmap_apply fuel bm n ∈ [Ok (-1); Panic; NoFuel].
Proof.
  intros Hwf Hn Hno.
  pose proof (bitmap_apply_post fuel bm n Hwf Hn) as Hpost.
  destruct (bitmap_apply fuel bm n) as [r| | |]; simpl in Hpost;
    rewrite !elem_of_cons; auto.
  - destruct Hpost as [[-> _]|[Hfit _]]; [|by auto|by destruct (Hno r)].
    intros r' Hfit. by destruct (Hno r').
  - exfalso. apply Hpost. intros r' Hfit. by destruct (Hno r').
Qed.

(** [bitmap_apply] does not terminate on every bitmap: with eight bits of
    which only bit 1 is clear, a request for three bits restarts from [-1]
    forever. *)
Theorem bitmap_apply_diverges (fuel : nat) :
  bitmap_apply fuel (Bitmap 1 (Some [253])) 3 = NoFuel.
Proof.
  change (bitmap_apply fuel (Bitmap 1 (Some [253])) 3)
    with (bitmap_apply_loop fuel (Bitmap 1 (Some [253])) 3 1 0).
  enough (∀ top, 0 ≤ top < 8 →
    bitmap_apply_loop fuel (Bitmap 1 (Some [253])) 3 1 top = NoFuel ∧
    bitmap_apply_loop fuel (Bitmap 1 (Some [253])) 3 (-1) top = NoFuel) as H
    by (apply H; lia).
  induction fuel as [|fuel IH]; intros top Htop; [done|].
  assert (u64 top = top) as Eu by (apply u64_small; lia).
  split.
  - transitivity (bitmap_apply_loop fuel (Bitmap 1 (Some [253])) 3 (-1) 2);
      [reflexivity|apply IH; lia].
  - transitivity (bitmap_apply_loop fuel (Bitmap 1 (Some [253])) 3 1 0); [|apply IH; lia].
    cbn [bitmap_apply_loop]. rewrite Eu.
    change (total_bits _) with 8. rewrite (proj2 (Z.ltb_lt top 8)) by lia.
    rewrite orb_true_r. reflexivity.
Qed.

(** [bitmap_set_bits] on a range of [n >= 1] bits changes the first bit of
    the range only: every other bit keeps its value. *)
Theorem bitmap_set_bits_first_only (bm : bitmap) (i n : Z) (s : bit_status) :
  bitmap_wf bm → 0 ≤ i < total_bits bm → 1 ≤ n → i + n < 4294967296 →
  ∃ bm', bitmap_set_bits bm i n s = Ok bm' ∧ bitmap_wf bm' ∧
    total_bits bm' = total_bits bm ∧
    ∀ j, 0 ≤ j → bit bm' j = if decide (j = i) then bit_of_status s else bit bm j.
Proof. apply bitmap_set_bits_first. Qed.

Lemma bitmap_apply_first_fit_witness :
  ∃ r, bitmap_apply 16 (Bitmap 2 (Some [11; 0])) 4 = Ok r ∧
    fit (Bitmap 2 (Some [11; 0])) 4 r ∧ ∀ r', r' < r → ¬ fit (Bitmap 2 (Some [11; 0])) 4 r'.
Proof.
  apply (bitmap_apply_first_fit 16 (Bitmap 2 (Some [11; 0])) 4).
  - apply (bool_decide_unpack _). by vm_compute.
  - lia.
  - by vm_compute.
  - exists 4. apply (bool_decide_unpack _). by vm_compute.
Defined.

Lemma bitmap_apply_no_fit_witness :
  bitmap_apply 7 (Bitmap 1 (Some [0])) 8 ∈ [Ok (-1); Panic; NoFuel].
Proof.
  apply (bitmap_apply_no_fit 7 (Bitmap 1 (Some [0])) 8).
  - apply (bool_decide_unpack _). by vm_compute.
  - lia.
  - intros r (H0 & H1 & _). change (total_bits (Bitmap 1 (Some [0]))) with 8 in H1. lia.
Defined.

Lemma bitmap_set_bits_first_only_witness :
  ∃ bm', bitmap_set_bits (Bitmap 1 (Some [0])) 2 3 bit_set = Ok bm' ∧ bitmap_wf bm' ∧
    total_bits bm' = total_bits (Bitmap 1 (Some [0])) ∧
    ∀ j, 0 ≤ j → bit bm' j =
      if decide (j = 2) then bit_of_status bit_set else bit (Bitmap 1 (Some [0])) j.
Proof.
  apply (bitmap_set_bits_first_only (Bitmap 1 (Some [0])) 2 3 bit_set).
  - apply (bool_decide_unpack _). by vm_compute.
  - by vm_compute.
  - lia.
  - lia.
Defined.
