(* ===== verification/KList.v ===== *)
(** Circular doubly linked lists and the queues built on them
    (lib/kernel/list.c, include/os/list.h). *)
From S2P Require Import Prelude.
Local Open Scope Z_scope.

(** * State *)

(** A [struct kernel_list] at address [p] is two words of the memory: [prev] at
    [p] and [next] at [p + 4]. *)
Definition prev_off : Z := 0.
Definition next_off : Z := 4.

Definition get_prev (m : mem) (p : Z) : outcome Z := load m (p + prev_off).
Definition get_next (m : mem) (p : Z) : outcome Z := load m (p + next_off).
Definition set_prev (m : mem) (p v : Z) : outcome mem := store m (p + prev_off) v.
Definition set_next (m : mem) (p v : Z) : outcome mem := store m (p + next_off) v.

(** [struct general_queue] *)
Record general_queue := GeneralQueue { front : Z; queue_len : Z }.

(** * List operations *)

Definition list_init (m : mem) (list : Z) : outcome mem :=
  let! m := set_next m list list in
  set_prev m list list.

Definition __list_add (m : mem) (new prev next : Z) : outcome mem :=
  let! m := set_next m prev new in
  let! m := set_next m new next in
  let! m := set_prev m next new in
  set_prev m new prev.

Definition list_add (m : mem) (head new : Z) : outcome mem :=
  let! next := get_next m head in
  __list_add m new head next.

Definition list_add_prev (m : mem) (head new : Z) : outcome mem :=
  let! prev := get_prev m head in
  __list_add m new prev head.

Definition __list_del (m : mem) (prev next : Z) : outcome mem :=
  let! m := set_prev m next prev in
  set_next m prev next.

Definition list_del (m : mem) (node : Z) : outcome (mem * Z) :=
  let! prev := get_prev m node in
  let! next := get_next m node in
  let! m := __list_del m prev next in
  let! m := set_next m node NULL in
  let! m := set_prev m node NULL in
  Ok (m, node).

Definition list_del_safe (m : mem) (node : Z) : outcome mem :=
  let! prev := get_prev m node in
  let! next := get_next m node in
  let! m := __list_del m prev next in
  list_init m node.

Definition list_pop (m : mem) (list : Z) : outcome (mem * Z) :=
  let! next := get_next m list in
  list_del m next.

(** The loops walk the list; one unit of fuel per node visited. *)
Fixpoint list_len_loop (fuel : nat) (m : mem) (node p len : Z) : outcome Z :=
  match fuel with
  | O => NoFuel
  | S fuel =>
      let! next := get_next m p in
      if next =? node then Ok len
      else list_len_loop fuel m node next (u32 (len + 1))
  end.

Definition list_len (fuel : nat) (m : mem) (node : Z) : outcome Z :=
  list_len_loop fuel m node node 0.

Definition list_empty (fuel : nat) (m : mem) (list : Z) : outcome bool :=
  let! len := list_len fuel m list in
  Ok (if 0 <? len then false else true).

Fixpoint list_find_item_loop (fuel : nat) (m : mem) (list node p : Z) : outcome bool :=
  match fuel with
  | O => NoFuel
  | S fuel =>
      let! next := get_next m p in
      if next =? list then Ok false
      else if p =? node then Ok true
      else list_find_item_loop fuel m list node next
  end.

Definition list_find_item (fuel : nat) (m : mem) (list node : Z) : outcome bool :=
  if (list =? NULL) || (node =? NULL) then Ok false
  else list_find_item_loop fuel m list node list.

(** [list_for_each] visits the nodes; its [list_entry] has no effect. *)
Fixpoint list_for_each_loop (fuel : nat) (m : mem) (list p : Z) : outcome unit :=
  match fuel with
  | O => NoFuel
  | S fuel =>
      let! p := get_next m p in
      let! next := get_next m p in
      if next =? list then Ok tt else list_for_each_loop fuel m list p
  end.

Definition list_for_each (fuel : nat) (m : mem) (list : Z) : outcome unit :=
  if list =? NULL then Ok tt else list_for_each_loop fuel m list list.

(** * Queue operations *)

Definition queue_init : general_queue := GeneralQueue NULL 0.

Definition queue_empty (q : general_queue) : bool := queue_len q =? 0.

Definition queue_in (m : mem) (q : general_queue) (node : Z) : outcome (mem * general_queue) :=
  ASSERT (negb (node =? NULL)) ;!
  if queue_len q =? 0 then
    let! m := set_next m node node in
    let! m := set_prev m node node in
    Ok (m, GeneralQueue node (u32 (queue_len q + 1)))
  else
    let! m := list_add_prev m (front q) node in
    Ok (m, GeneralQueue (front q) (u32 (queue_len q + 1))).

(** [queue_out] returns NULL on an empty queue. *)
Definition queue_out (m : mem) (q : general_queue) : outcome (mem * general_queue * Z) :=
  if queue_len q =? 0 then Ok (m, q, NULL)
  else
    let p := front q in
    let! front' := if queue_len q =? 1 then Ok NULL else get_next m (front q) in
    let! (m, _) := list_del m p in
    Ok (m, GeneralQueue front' (u32 (queue_len q - 1)), p).

Definition queue_push (m : mem) (q : general_queue) (node : Z) : outcome (mem * general_queue) :=
  ASSERT (negb (node =? NULL)) ;!
  if queue_len q =? 0 then
    let! m := set_next m node node in
    let! m := set_prev m node node in
    Ok (m, GeneralQueue node (u32 (queue_len q + 1)))
  else
    let! m := list_add_prev m (front q) node in
    Ok (m, GeneralQueue node (u32 (queue_len q + 1))).

(** * Rings: the abstract view of a circular list *)

(** [q] follows [p]. *)
Definition links (m : mem) (p q : Z) : Prop :=
  m !! (p + next_off) = Some q ∧ m !! (q + prev_off) = Some p.

(** The addresses of [l] are linked one after the other. *)
Fixpoint path (m : mem) (l : list Z) : Prop :=
  match l with
  | p :: ((q :: _) as t) => links m p q ∧ path m t
  | _ => True
  end.

(** Two nodes do not overlap. *)
Definition sep (p q : Z) : Prop := p + 8 ≤ q ∨ q + 8 ≤ p.
#[export] Instance sep_sym : Symmetric sep.
Proof. unfold sep. intros p q. lia. Qed.

Fixpoint apart (l : list Z) : Prop :=
  match l with [] => True | p :: t => Forall (sep p) t ∧ apart t end.

(** The address of a node: not NULL. *)
Definition addr (p : Z) : Prop := 0 < p.

(** The two words of the node exist. *)
Definition node (m : mem) (p : Z) : Prop :=
  is_Some (m !! (p + prev_off)) ∧ is_Some (m !! (p + next_off)).

(** [l] is a circular list: its nodes are distinct non-overlapping addresses,
    each linked to the next and the last one to the first. *)
Definition ring (m : mem) (l : list Z) : Prop :=
  match l with
  | [] => False
  | h :: _ => path m (l ++ [h]) ∧ apart l ∧ Forall addr l
  end.
#[global] Arguments ring : simpl never.

(** [m'] differs from [m] only in the words of the nodes [l]. *)
Definition upd_nodes (m m' : mem) (l : list Z) : Prop :=
  (∀ a, is_Some (m !! a) → is_Some (m' !! a)) ∧
  (∀ a, (∀ p, p ∈ l → a ≠ p + prev_off ∧ a ≠ p + next_off) → m' !! a = m !! a).

(** ** Lemmas on paths and separation *)

Lemma apart_app l1 l2 :
  apart (l1 ++ l2) ↔ apart l1 ∧ apart l2 ∧ ∀ p q, p ∈ l1 → q ∈ l2 → sep p q.
Proof.
  induction l1 as [|x l1 IH]; simpl.
  { split; [|tauto]. intros. split_and!; try done. intros p q Hp. by apply elem_of_nil in Hp. }
  rewrite IH, Forall_app, !Forall_forall. clear IH. split.
  - intros ((H1 & H2) & H3 & H4 & H5). split_and!; try done.
    intros p q [->|Hp]%elem_of_cons Hq; auto.
  - intros ((H1 & H2) & H3 & H4). split_and!; try done; intros; apply H4; set_solver.
Qed.

Lemma apart_comm l1 l2 : apart (l1 ++ l2) → apart (l2 ++ l1).
Proof. rewrite !apart_app. intros (? & ? & H). split_and!; try done. intros. symmetry. auto. Qed.

Lemma sep_irrefl p : ¬ sep p p.
Proof. unfold sep. lia. Qed.

Lemma apart_NoDup l : apart l → NoDup l.
Proof.
  induction l as [|x l IH]; [constructor|]. intros [Hx Hl]. constructor; [|auto].
  rewrite Forall_forall in Hx. intros Hin. by apply (sep_irrefl x), Hx.
Qed.

Lemma apart_elem l p q : apart l → p ∈ l → q ∈ l → p = q ∨ sep p q.
Proof.
  induction l as [|x l IH]; [by intros _ ?%elem_of_nil|]. intros [Hx Hl].
  rewrite Forall_forall in Hx.
  intros [->|Hp]%elem_of_cons [->|Hq]%elem_of_cons; auto.
  right. symmetry. auto.
Qed.

Lemma path_app m l1 x l2 : path m (l1 ++ x :: l2) ↔ path m (l1 ++ [x]) ∧ path m (x :: l2).
Proof.
  induction l1 as [|y l1 IH]; simpl; [tauto|].
  destruct l1 as [|z l1]; simpl in *; tauto.
Qed.

(** A path reads neither the [prev] of its first node nor the [next] of its
    last one. *)
Lemma path_frame m m' l :
  NoDup l → path m l →
  (∀ p, p ∈ l → head l ≠ Some p → m' !! (p + prev_off) = m !! (p + prev_off)) →
  (∀ p, p ∈ l → last l ≠ Some p → m' !! (p + next_off) = m !! (p + next_off)) →
  path m' l.
Proof.
  induction l as [|x [|y l] IH]; [done..|]. intros Hnd [[Hn Hp] Hpath] Hprev Hnext.
  apply NoDup_cons in Hnd as [Hx Hnd].
  split; [split|].
  - rewrite Hnext; [done|set_solver|]. change (last (x :: y :: l)) with (last (y :: l)).
    intros Hlast. by apply Hx, last_Some_elem_of.
  - rewrite Hprev; [done|set_solver|]. simpl. set_solver.
  - apply IH; [done|done| |].
    + intros r Hr Hne. apply Hprev; [by right|]. simpl. set_solver.
    + intros r Hr Hne. apply Hnext; [by right|done].
Qed.

(** Rings may be read from any of their nodes. *)
Lemma ring_rotate m l1 l2 : ring m (l1 ++ l2) → ring m (l2 ++ l1).
Proof.
  destruct l2 as [|y l2]; [by rewrite app_nil_r|].
  destruct l1 as [|x l1]; [by rewrite app_nil_r|].
  intros (Hpath & Hap & Haddr). split_and!.
  - replace (((x :: l1) ++ y :: l2) ++ [x]) with ((x :: l1) ++ y :: (l2 ++ [x])) in Hpath
      by (by rewrite <- app_assoc).
    replace (((y :: l2) ++ x :: l1) ++ [y]) with ((y :: l2) ++ x :: (l1 ++ [y]))
      by (by rewrite <- app_assoc).
    rewrite path_app in *. tauto.
  - by apply (apart_comm (x :: l1) (y :: l2)).
  - change (Forall addr ((x :: l1) ++ (y :: l2))) in Haddr.
    rewrite Forall_app in *. tauto.
Qed.

Lemma ring_nonempty m l : ring m l → l ≠ [].
Proof. by destruct l. Qed.

Lemma ring_apart m l : ring m l → apart l.
Proof. destruct l; [done|]. by intros (_ & ? & _). Qed.

Lemma ring_addr m l : ring m l → Forall addr l.
Proof. destruct l; [done|]. by intros (_ & _ & ?). Qed.

Lemma ring_elem_addr m l p : ring m l → p ∈ l → addr p.
Proof. intros Hr. apply ring_addr in Hr. rewrite Forall_forall in Hr. apply Hr. Qed.

(** A ring is an open path closed by a link from its last node to its head. *)
Lemma ring_open m l h p :
  head l = Some h → last l = Some p →
  ring m l ↔ path m l ∧ links m p h ∧ apart l ∧ Forall addr l.
Proof.
  destruct l as [|x l]; [done|]. intros [= ->] Hlast. unfold ring.
  apply last_Some in Hlast as [l' El]. rewrite El.
  rewrite <- app_assoc. simpl. rewrite path_app. simpl. tauto.
Qed.

Lemma ring_head_last m l : ring m l → ∃ h p, head l = Some h ∧ last l = Some p ∧ h ∈ l ∧ p ∈ l.
Proof.
  intros Hr. destruct l as [|x l]; [done|]. destruct (last (x :: l)) as [p|] eqn:E.
  - exists x, p. split_and!; [done|done|set_solver|by apply last_Some_elem_of].
  - by apply last_None in E.
Qed.

Lemma path_nodes m l1 p q l2 :
  path m (l1 ++ p :: q :: l2) → is_Some (m !! (p + next_off)) ∧ is_Some (m !! (q + prev_off)).
Proof. rewrite path_app. intros [_ [[Hn Hp] _]]. eauto. Qed.

(** Every node of a ring has its two words. *)
Lemma ring_node m l p : ring m l → p ∈ l → node m p.
Proof.
  intros Hr Hp. apply list_elem_of_split in Hp as (l1 & l2 & ->).
  apply ring_rotate in Hr. destruct Hr as (Hpath & _ & _). simpl in Hpath.
  split.
  - destruct (l2 ++ l1) as [|x l _] eqn:E using rev_ind.
    { simpl in Hpath. destruct Hpath as [[_ H] _]. eauto. }
    rewrite <- app_assoc in Hpath. simpl in Hpath.
    by destruct (path_nodes m (p :: l) x p [] Hpath).
  - destruct (l2 ++ l1) as [|x l]; simpl in Hpath; destruct Hpath as [[H _] _]; eauto.
Qed.

Lemma upd_nodes_refl m l : upd_nodes m m l.
Proof. by split. Qed.

Lemma upd_nodes_trans m1 m2 m3 l : upd_nodes m1 m2 l → upd_nodes m2 m3 l → upd_nodes m1 m3 l.
Proof. intros [D1 F1] [D2 F2]. split; [auto|]. intros a Ha. by rewrite F2, F1. Qed.

Lemma upd_nodes_mono m m' l l' : (∀ p, p ∈ l → p ∈ l') → upd_nodes m m' l → upd_nodes m m' l'.
Proof. intros Hl [D F]. split; [done|]. intros a Ha. apply F. auto. Qed.

Lemma upd_nodes_node m m' l p : upd_nodes m m' l → node m p → node m' p.
Proof. intros [D _] [? ?]. split; auto. Qed.

Lemma upd_nodes_set_next m p v l : is_Some (m !! (p + next_off)) → p ∈ l →
  upd_nodes m (<[p + next_off := v]> m) l.
Proof.
  intros Hs Hp. split.
  - intros a Ha. destruct (decide (a = p + next_off)) as [->|]; [by rewrite lookup_insert_eq; eauto|].
    by rewrite lookup_insert_ne.
  - intros a Ha. rewrite lookup_insert_ne; [done|]. destruct (Ha p Hp). congruence.
Qed.

Lemma upd_nodes_set_prev m p v l : is_Some (m !! (p + prev_off)) → p ∈ l →
  upd_nodes m (<[p + prev_off := v]> m) l.
Proof.
  intros Hs Hp. split.
  - intros a Ha. destruct (decide (a = p + prev_off)) as [->|]; [by rewrite lookup_insert_eq; eauto|].
    by rewrite lookup_insert_ne.
  - intros a Ha. rewrite lookup_insert_ne; [done|]. destruct (Ha p Hp). congruence.
Qed.

(** A structure whose nodes are apart from the updated ones is not affected. *)
Definition disjoint_nodes (l1 l2 : list Z) : Prop := ∀ p q, p ∈ l1 → q ∈ l2 → sep p q.

Lemma ring_frame m m' l upd :
  upd_nodes m m' upd → disjoint_nodes l upd → ring m l → ring m' l.
Proof.
  intros [_ Hf] Hdis Hr. destruct (ring_head_last m l Hr) as (h & p & Hh & Hp & Hhl & Hpl).
  assert (∀ x, x ∈ l → m' !! (x + prev_off) = m !! (x + prev_off) ∧
                       m' !! (x + next_off) = m !! (x + next_off)) as Hsame.
  { intros x Hx. split; apply Hf; intros y Hy; pose proof (Hdis x y Hx Hy) as Hs;
      unfold sep, prev_off, next_off in *; lia. }
  rewrite ring_open in * by done. destruct Hr as (Hpath & [Hn Hv] & Hap & Had).
  split_and!; [|split|done|done].
  - eapply path_frame; [by apply apart_NoDup|done| |]; intros x Hx _; by apply Hsame.
  - rewrite (proj2 (Hsame p Hpl)). done.
  - rewrite (proj1 (Hsame h Hhl)). done.
Qed.

(** ** The list operations on rings *)

(** Decide which words an update touches. *)
Ltac cells :=
  rewrite ?lookup_insert; repeat case_decide; try done;
  exfalso; unfold sep, addr, prev_off, next_off in *; lia.

Lemma set_prev_Ok m p v :
  is_Some (m !! (p + prev_off)) → set_prev m p v = Ok (<[p + prev_off := v]> m).
Proof. apply store_is_Some. Qed.
Lemma set_next_Ok m p v :
  is_Some (m !! (p + next_off)) → set_next m p v = Ok (<[p + next_off := v]> m).
Proof. apply store_is_Some. Qed.

Lemma is_Some_insert (m : mem) a b v : is_Some (m !! a) → is_Some (<[b := v]> m !! a).
Proof. intros. apply lookup_insert_is_Some'. auto. Qed.
#[export] Hint Resolve is_Some_insert : simos.

(** The memory after [__list_add]. *)
Definition added (m : mem) (new prev next : Z) : mem :=
  <[new + prev_off := prev]> (<[next + prev_off := new]>
    (<[new + next_off := next]> (<[prev + next_off := new]> m))).

Lemma __list_add_eq m new prev next :
  node m new → node m prev → node m next →
  __list_add m new prev next = Ok (added m new prev next).
Proof.
  intros [N1 N2] [P1 P2] [X1 X2]. unfold __list_add.
  rewrite set_next_Ok by done; simpl. rewrite set_next_Ok by auto with simos; simpl.
  rewrite set_prev_Ok by auto with simos; simpl. by rewrite set_prev_Ok by auto with simos.
Qed.

Lemma upd_nodes_added m new prev next l :
  node m new → node m prev → node m next → new ∈ l → prev ∈ l → next ∈ l →
  upd_nodes m (added m new prev next) l.
Proof.
  intros [] [] [] ???. unfold added.
  repeat (eapply upd_nodes_trans; [|first [apply upd_nodes_set_prev | apply upd_nodes_set_next];
    [auto 10 with simos|done]]). apply upd_nodes_refl.
Qed.

(** Linking [new] between the last node and the head of a ring. *)
Lemma ring_added m h t p new :
  ring m (h :: t) → last (h :: t) = Some p → addr new → Forall (sep new) (h :: t) →
  ring (added m new p h) (h :: t ++ [new]).
Proof.
  intros Hr Hp Hnew Hsep. pose proof (ring_apart _ _ Hr) as Hap.
  rewrite (ring_open m (h :: t) h p) in Hr by done.
  destruct Hr as (Hpath & [Hn Hv] & _ & Had).
  assert (p ∈ h :: t) as Hpin by (by apply last_Some_elem_of).
  assert (h ∈ h :: t) as Hhin by (by left).
  rewrite Forall_forall in Hsep.
  assert (∀ x, x ∈ h :: t → sep new x ∧ (x = h ∨ sep x h) ∧ (x = p ∨ sep x p)) as Hx.
  { intros x ?. split_and!; [auto|by eapply apart_elem|by eapply apart_elem]. }
  pose proof (Hx p Hpin) as Hxp. pose proof (Hx h Hhin) as Hxh.
  rewrite (ring_open _ (h :: t ++ [new]) h new).
  2: done. 2: by rewrite app_comm_cons, last_snoc.
  split_and!; [|split| |].
  - pose proof Hp as [l' El]%last_Some. rewrite app_comm_cons, El, <- app_assoc. simpl.
    rewrite path_app, <- El. split; [|split; [split|done]]; [|unfold added; cells..].
    eapply path_frame; [by apply apart_NoDup|done| |]; intros x Hin Hne;
      specialize (Hx x Hin).
    + simpl in Hne. unfold added. assert (x ≠ h) by congruence. cells.
    + assert (x ≠ p) by congruence. unfold added. cells.
  - unfold added. cells.
  - unfold added. cells.
  - rewrite app_comm_cons. apply apart_app. split_and!; [done|by repeat constructor|].
    intros x y Hin ->%list_elem_of_singleton. symmetry. auto.
  - rewrite app_comm_cons. apply Forall_app. split; [done|by repeat constructor].
Qed.

(** [n] can be inserted in the ring [l]: it is a node outside of it. *)
Definition insertable (m : mem) (l : list Z) (n : Z) : Prop :=
  node m n ∧ addr n ∧ Forall (sep n) l.

Lemma ring_prev m h t p : ring m (h :: t) → last (h :: t) = Some p → get_prev m h = Ok p.
Proof.
  intros Hr Hp. rewrite (ring_open m (h :: t) h p) in Hr by done.
  destruct Hr as (_ & [_ Hv] & _). by apply load_Some.
Qed.

Lemma ring_next m h x t : ring m (h :: x :: t) → get_next m h = Ok x.
Proof. intros ([[Hn _] _] & _). by apply load_Some. Qed.

(** [list_add_prev] appends at the end of the ring that starts at [head]. *)
Lemma list_add_prev_spec m h t n :
  ring m (h :: t) → insertable m (h :: t) n →
  ∃ m', list_add_prev m h n = Ok m' ∧ ring m' (h :: t ++ [n]) ∧ upd_nodes m m' (n :: h :: t).
Proof.
  intros Hr (Hn & Hna & Hsep).
  destruct (ring_head_last m _ Hr) as (h' & p & [= <-] & Hp & _ & Hpin).
  pose proof (ring_node _ _ _ Hr Hpin). assert (node m h) by (eapply ring_node; [done|by left]).
  unfold list_add_prev. rewrite (ring_prev m h t p) by done. simpl.
  rewrite __list_add_eq by done. eexists; split; [done|]. split; [by apply ring_added|].
  apply upd_nodes_added; try done; set_solver.
Qed.

(** [list_add] inserts just after [head]. *)
Lemma list_add_spec m h t n :
  ring m (h :: t) → insertable m (h :: t) n →
  ∃ m', list_add m h n = Ok m' ∧ ring m' (h :: n :: t) ∧ upd_nodes m m' (n :: h :: t).
Proof.
  intros Hr Hins. destruct t as [|x t].
  { destruct (list_add_prev_spec m h [] n Hr Hins) as (m' & Hadd & Hr' & Hupd).
    exists m'. split_and!; [|done|done].
    unfold list_add, list_add_prev in *. rewrite (ring_prev m h [] h) in Hadd by done.
    destruct Hr as ([[Hn _] _] & _). unfold get_next. by rewrite (load_Some _ _ _ Hn). }
  destruct Hins as (Hn & Hna & Hsep).
  pose proof (ring_rotate m [h] (x :: t) Hr) as Hr'. simpl in Hr'.
  assert (node m h ∧ node m x) as [? ?]
    by (split; apply (ring_node m (h :: x :: t)); [done|set_solver|done|set_solver]).
  unfold list_add. rewrite (ring_next m h x t) by done. simpl.
  rewrite __list_add_eq by done. eexists; split; [done|]. split.
  - apply (ring_rotate _ (x :: t) [h; n]).
    replace ((x :: t) ++ [h; n]) with (x :: (t ++ [h]) ++ [n]) by (by rewrite <- app_assoc).
    apply ring_added; [done|by rewrite app_comm_cons, last_snoc|done|].
    rewrite Forall_forall in *. intros y Hy. apply Hsep. set_solver.
  - apply upd_nodes_added; try done; set_solver.
Qed.

(** The memory after [__list_del] and after the node itself is overwritten. *)
Definition unlinked (m : mem) (x prev next vnext vprev : Z) : mem :=
  <[x + prev_off := vprev]> (<[x + next_off := vnext]>
    (<[prev + next_off := next]> (<[next + prev_off := prev]> m))).

Lemma list_del_eq m x prev next :
  node m x → node m prev → node m next → get_prev m x = Ok prev → get_next m x = Ok next →
  list_del m x = Ok (unlinked m x prev next NULL NULL, x).
Proof.
  intros [X1 X2] [P1 P2] [N1 N2] Ep En. unfold list_del, __list_del. rewrite Ep, En; simpl.
  rewrite set_prev_Ok by done; simpl. rewrite set_next_Ok by auto with simos; simpl.
  rewrite set_next_Ok by auto with simos; simpl. by rewrite set_prev_Ok by auto with simos.
Qed.

Lemma list_del_safe_eq m x prev next :
  node m x → node m prev → node m next → get_prev m x = Ok prev → get_next m x = Ok next →
  list_del_safe m x = Ok (unlinked m x prev next x x).
Proof.
  intros [X1 X2] [P1 P2] [N1 N2] Ep En. unfold list_del_safe, __list_del, list_init.
  rewrite Ep, En; simpl. rewrite set_prev_Ok by done; simpl.
  rewrite set_next_Ok by auto with simos; simpl. rewrite set_next_Ok by auto with simos; simpl.
  by rewrite set_prev_Ok by auto with simos.
Qed.

Lemma upd_nodes_unlinked m x prev next vn vp l :
  node m x → node m prev → node m next → x ∈ l → prev ∈ l → next ∈ l →
  upd_nodes m (unlinked m x prev next vn vp) l.
Proof.
  intros [] [] [] ???. unfold unlinked.
  repeat (eapply upd_nodes_trans; [|first [apply upd_nodes_set_prev | apply upd_nodes_set_next];
    [auto 10 with simos|done]]). apply upd_nodes_refl.
Qed.

(** Unlinking the head of a ring leaves the ring of the others. *)
Lemma ring_unlinked m x l q p vn vp :
  ring m (x :: l) → head l = Some q → last l = Some p →
  ring (unlinked m x p q vn vp) l.
Proof.
  intros Hr Hq Hp. pose proof (ring_apart _ _ Hr) as [Hx Hap].
  pose proof (ring_addr _ _ Hr) as [_ Had]%Forall_cons.
  assert (p ∈ l) as Hpl by (by apply last_Some_elem_of).
  assert (q ∈ l) as Hql by (destruct l; [done|]; simplify_eq/=; by left).
  rewrite (ring_open m (x :: l) x p) in Hr by (destruct l; done).
  destruct Hr as (Hpath & _). rewrite Forall_forall in Hx.
  assert (∀ y, y ∈ l → sep x y ∧ (y = q ∨ sep y q) ∧ (y = p ∨ sep y p)) as Hy.
  { intros y ?. split_and!; [auto|by eapply apart_elem|by eapply apart_elem]. }
  pose proof (Hy p Hpl). pose proof (Hy q Hql).
  rewrite (ring_open _ l q p) by done. split_and!; [|split|done|done].
  - assert (path m l) as Hpl' by (destruct l; [done|apply Hpath]).
    eapply path_frame; [by apply apart_NoDup|done| |]; intros y Hin Hne; specialize (Hy y Hin).
    + assert (y ≠ q) by congruence. unfold unlinked. cells.
    + assert (y ≠ p) by congruence. unfold unlinked. cells.
  - unfold unlinked. cells.
  - unfold unlinked. cells.
Qed.

(** The neighbours of the head of a ring of at least two nodes. *)
Lemma ring_neighbours m x l :
  ring m (x :: l) → l ≠ [] →
  ∃ q p, head l = Some q ∧ last l = Some p ∧ get_prev m x = Ok p ∧ get_next m x = Ok q ∧
    node m x ∧ node m p ∧ node m q ∧ p ∈ l ∧ q ∈ l.
Proof.
  intros Hr Hl. destruct l as [|q l]; [done|].
  destruct (last (q :: l)) as [p|] eqn:Hp; [|by apply last_None in Hp].
  assert (p ∈ q :: l) by (by apply last_Some_elem_of).
  exists q, p. split_and!; try done.
  - by eapply ring_prev.
  - by eapply ring_next.
  - eapply ring_node; [done|by left].
  - eapply ring_node; [done|by right].
  - eapply ring_node; [done|by right; left].
  - by left.
Qed.

(** [list_del] removes its node and clears its pointers. *)
Lemma list_del_spec m x l :
  ring m (x :: l) → l ≠ [] →
  ∃ m', list_del m x = Ok (m', x) ∧ ring m' l ∧ upd_nodes m m' (x :: l) ∧
    get_prev m' x = Ok NULL ∧ get_next m' x = Ok NULL.
Proof.
  intros Hr Hl.
  destruct (ring_neighbours m x l Hr Hl) as (q & p & Hq & Hp & Ep & En & ? & ? & ? & ? & ?).
  rewrite (list_del_eq m x p q) by done. eexists; split; [done|]. split_and!.
  - by apply ring_unlinked.
  - apply upd_nodes_unlinked; try done; set_solver.
  - unfold get_prev, unlinked. apply load_Some. cells.
  - unfold get_next, unlinked. apply load_Some. cells.
Qed.

(** [list_del_safe] removes its node and makes it an empty list. *)
Lemma list_del_safe_spec m x l :
  ring m (x :: l) → l ≠ [] →
  ∃ m', list_del_safe m x = Ok m' ∧ ring m' l ∧ ring m' [x] ∧ upd_nodes m m' (x :: l).
Proof.
  intros Hr Hl. pose proof (ring_addr _ _ Hr) as [Hx _]%Forall_cons.
  destruct (ring_neighbours m x l Hr Hl) as (q & p & Hq & Hp & Ep & En & ? & ? & ? & ? & ?).
  rewrite (list_del_safe_eq m x p q) by done. eexists; split; [done|]. split_and!.
  - by apply ring_unlinked.
  - rewrite (ring_open _ [x] x x) by done. split_and!; [done|split| |by repeat constructor].
    1, 2: unfold unlinked; cells. by repeat constructor.
  - apply upd_nodes_unlinked; try done; set_solver.
Qed.

(** Deleting the only node of a ring: its pointers are cleared. *)
Lemma list_del_single m x :
  ring m [x] →
  ∃ m', list_del m x = Ok (m', x) ∧ upd_nodes m m' [x].
Proof.
  intros Hr. assert (node m x) by (eapply ring_node; [done|by left]).
  rewrite (list_del_eq m x x x); try done.
  - eexists; split; [done|]. apply upd_nodes_unlinked; try done; by left.
  - by eapply ring_prev.
  - destruct Hr as ([[Hn _] _] & _). by apply load_Some.
Qed.

(** [list_init] makes a one-node ring. *)
Lemma list_init_spec m x :
  node m x → addr x → ∃ m', list_init m x = Ok m' ∧ ring m' [x] ∧ upd_nodes m m' [x].
Proof.
  intros [H1 H2] Hx. unfold list_init. rewrite set_next_Ok by done; simpl.
  rewrite set_prev_Ok by auto with simos. eexists; split; [done|]. split.
  - rewrite (ring_open _ [x] x x) by done. split_and!; [done|split| |by repeat constructor].
    1, 2: cells. by repeat constructor.
  - eapply upd_nodes_trans; [|apply upd_nodes_set_prev; [auto with simos|by left]].
    apply upd_nodes_set_next; [done|by left].
Qed.

(** [list_pop] removes and returns the node after [head]. *)
Lemma list_pop_spec m h x t :
  ring m (h :: x :: t) →
  ∃ m', list_pop m h = Ok (m', x) ∧ ring m' (h :: t) ∧ upd_nodes m m' (h :: x :: t).
Proof.
  intros Hr. unfold list_pop. rewrite (ring_next m h x t) by done. simpl.
  apply (ring_rotate m [h] (x :: t)) in Hr.
  destruct (list_del_spec m x (t ++ [h]) Hr) as (m' & E & Hr' & Hupd & _); [by destruct t|].
  exists m'. split_and!; [done| |].
  - by apply (ring_rotate m' t [h]).
  - eapply upd_nodes_mono; [|done]. set_solver.
Qed.

(** ** Walking a ring *)

Lemma ring_next_at m h t l1 p l2 :
  ring m (h :: t) → h :: t = l1 ++ p :: l2 → get_next m p = Ok (default h (head l2)).
Proof.
  intros (Hpath & _) E. rewrite E, <- app_assoc in Hpath. simpl in Hpath.
  rewrite path_app in Hpath. destruct Hpath as [_ Hpath].
  destruct l2 as [|q l2]; simpl in Hpath; destruct Hpath as [[Hn _] _]; by apply load_Some.
Qed.

(** Inside the ring the next node is not the head. *)
Lemma ring_next_ne m h t l1 p q l2 :
  ring m (h :: t) → h :: t = l1 ++ p :: q :: l2 → q ≠ h.
Proof.
  intros Hr E ->. pose proof (apart_NoDup _ (ring_apart _ _ Hr)) as Hnd.
  destruct l1 as [|x l1]; simplify_eq/=.
  - apply NoDup_cons in Hnd as [Hnin _]. apply Hnin. by left.
  - apply NoDup_cons in Hnd as [Hnin _]. apply Hnin. set_solver.
Qed.

Lemma list_len_loop_spec fuel m h t l1 p l2 len :
  ring m (h :: t) → h :: t = l1 ++ p :: l2 → (length l2 < fuel)%nat →
  0 ≤ len → len + Z.of_nat (length l2) < 4294967296 →
  list_len_loop fuel m h p len = Ok (len + Z.of_nat (length l2)).
Proof.
  intros Hr. revert l1 p l2 len. induction fuel as [|fuel IH]; intros l1 p l2 len E Hf Hl Hb; [lia|].
  simpl. rewrite (ring_next_at m h t l1 p l2) by done. simpl.
  destruct l2 as [|q l2]; simpl in *.
  - rewrite Z.eqb_refl. f_equal. lia.
  - pose proof (ring_next_ne m h t l1 p q l2 Hr E) as Hne.
    rewrite (proj2 (Z.eqb_neq q h)) by done. rewrite u32_small by lia.
    rewrite (IH (l1 ++ [p]) q l2) by (rewrite <- ?app_assoc; done || lia).
    f_equal. lia.
Qed.

(** [list_len] counts the nodes other than [node]. *)
Lemma list_len_spec fuel m h t :
  ring m (h :: t) → (length t < fuel)%nat → Z.of_nat (length t) < 4294967296 →
  list_len fuel m h = Ok (Z.of_nat (length t)).
Proof.
  intros Hr Hf Hl. unfold list_len.
  by rewrite (list_len_loop_spec fuel m h t [] h t 0) by (done || lia).
Qed.

Lemma list_empty_spec fuel m h t :
  ring m (h :: t) → (length t < fuel)%nat → Z.of_nat (length t) < 4294967296 →
  list_empty fuel m h = Ok (bool_decide (t = [])).
Proof.
  intros Hr Hf Hl. unfold list_empty. rewrite (list_len_spec fuel m h t) by done. simpl.
  by destruct t.
Qed.

Lemma list_find_item_loop_spec fuel m h t l1 p l2 n :
  ring m (h :: t) → h :: t = l1 ++ p :: l2 → (length l2 < fuel)%nat →
  list_find_item_loop fuel m h n p = Ok (bool_decide (n ∈ removelast (p :: l2))).
Proof.
  intros Hr. revert l1 p l2. induction fuel as [|fuel IH]; intros l1 p l2 E Hf; [lia|].
  cbn [list_find_item_loop]. rewrite (ring_next_at m h t l1 p l2) by done.
  destruct l2 as [|q l2]; simpl in Hf.
  - simpl. by rewrite Z.eqb_refl.
  - cbn [obind default head from_option id].
    pose proof (ring_next_ne m h t l1 p q l2 Hr E) as Hne.
    rewrite (proj2 (Z.eqb_neq q h)) by done.
    change (removelast (p :: q :: l2)) with (p :: removelast (q :: l2)).
    destruct (Z.eqb_spec p n) as [->|Hpn].
    + f_equal. symmetry. apply bool_decide_eq_true. by left.
    + rewrite (IH (l1 ++ [p]) q l2) by (rewrite <- ?app_assoc; done || lia).
      f_equal. apply bool_decide_ext. rewrite elem_of_cons.
      split; [auto|by intros [->|]].
Qed.

(** [list_find_item] looks at every node of the ring but the last one. *)
Lemma list_find_item_ring fuel m h t n :
  ring m (h :: t) → addr n → (length t < fuel)%nat →
  list_find_item fuel m h n = Ok (bool_decide (n ∈ removelast (h :: t))).
Proof.
  intros Hr Hn Hf. unfold list_find_item. unfold addr in Hn.
  assert (addr h) as Hh by (eapply ring_elem_addr; [done|by left]). unfold addr in Hh.
  rewrite (proj2 (Z.eqb_neq h NULL)), (proj2 (Z.eqb_neq n NULL)) by (unfold NULL; lia). simpl.
  by apply (list_find_item_loop_spec fuel m h t [] h t).
Qed.

(** * Queues *)

(** [q] holds the nodes [l], first to leave first. *)
Definition queue_repr (m : mem) (q : general_queue) (l : list Z) : Prop :=
  queue_len q = Z.of_nat (length l) ∧ Z.of_nat (length l) < 4294967296 ∧
  front q = default NULL (head l) ∧ (l = [] ∨ ring m l).

Lemma queue_repr_cons m q x l :
  queue_repr m q (x :: l) ↔
  queue_len q = Z.of_nat (S (length l)) ∧ Z.of_nat (S (length l)) < 4294967296 ∧
  front q = x ∧ ring m (x :: l).
Proof. unfold queue_repr. simpl. naive_solver. Qed.

Lemma queue_repr_nil m q : queue_repr m q [] ↔ queue_len q = 0 ∧ front q = NULL.
Proof. unfold queue_repr. simpl. split; [tauto|]. intros [-> ->]. split_and!; auto. lia. Qed.

(** [n] can be put in the queue that holds [l]. *)
Lemma queue_single m n :
  node m n → addr n →
  ∃ m1 m2, set_next m n n = Ok m1 ∧ set_prev m1 n n = Ok m2 ∧ ring m2 [n] ∧ upd_nodes m m2 [n].
Proof.
  intros Hn Ha. destruct (list_init_spec m n Hn Ha) as (m' & E & Hr & Hu).
  unfold list_init in E. apply obind_Ok_inv in E as (m1 & E1 & E2). eauto 10.
Qed.

Lemma not_null_true n : addr n → negb (n =? NULL) = true.
Proof. unfold addr, NULL. intros. rewrite (proj2 (Z.eqb_neq n 0)) by lia. done. Qed.

Lemma queue_in_spec m q l n :
  queue_repr m q l → insertable m l n → Z.of_nat (length l) + 1 < 4294967296 →
  ∃ m' q', queue_in m q n = Ok (m', q') ∧ queue_repr m' q' (l ++ [n]) ∧ upd_nodes m m' (n :: l).
Proof.
  intros Hq (Hn & Ha & Hs) Hlen. unfold queue_in.
  rewrite ASSERT_true by (by apply not_null_true). simpl.
  destruct l as [|x l].
  - apply queue_repr_nil in Hq as [El Ef].
    rewrite El. simpl. destruct (queue_single m n Hn Ha) as (m1 & m2 & -> & E2 & Hr & Hu).
    simpl. rewrite E2. simpl. do 2 eexists; split; [done|]. split; [|done].
    apply queue_repr_cons. by split_and!.
  - apply queue_repr_cons in Hq as (El & Hl & Ef & Hr).
    rewrite El, Ef, (proj2 (Z.eqb_neq _ 0)) by lia.
    destruct (list_add_prev_spec m x l n) as (m' & -> & Hr' & Hu); [done|by split_and!|].
    simpl. do 2 eexists; split; [done|]. split; [|done].
    apply queue_repr_cons. simpl in *. rewrite length_app; simpl.
    split_and!; [|lia|done|done]. rewrite u32_small; lia.
Qed.

Lemma queue_push_spec m q l n :
  queue_repr m q l → insertable m l n → Z.of_nat (length l) + 1 < 4294967296 →
  ∃ m' q', queue_push m q n = Ok (m', q') ∧ queue_repr m' q' (n :: l) ∧ upd_nodes m m' (n :: l).
Proof.
  intros Hq (Hn & Ha & Hs) Hlen. unfold queue_push.
  rewrite ASSERT_true by (by apply not_null_true). simpl.
  destruct l as [|x l].
  - apply queue_repr_nil in Hq as [El Ef].
    rewrite El. simpl. destruct (queue_single m n Hn Ha) as (m1 & m2 & -> & E2 & Hr & Hu).
    simpl. rewrite E2. simpl. do 2 eexists; split; [done|]. split; [|done].
    apply queue_repr_cons. by split_and!.
  - apply queue_repr_cons in Hq as (El & Hl & Ef & Hr).
    rewrite El, Ef, (proj2 (Z.eqb_neq _ 0)) by lia.
    destruct (list_add_prev_spec m x l n) as (m' & -> & Hr' & Hu); [done|by split_and!|].
    simpl. do 2 eexists; split; [done|]. split; [|done].
    apply queue_repr_cons. simpl in *. split_and!; [|lia|done|].
    + rewrite u32_small; lia.
    + by apply (ring_rotate _ (x :: l) [n]).
Qed.

Lemma queue_out_spec m q x l :
  queue_repr m q (x :: l) →
  ∃ m' q', queue_out m q = Ok (m', q', x) ∧ queue_repr m' q' l ∧ upd_nodes m m' (x :: l).
Proof.
  intros (El & Hl & Ef & Hr)%queue_repr_cons. unfold queue_out.
  rewrite El, Ef, (proj2 (Z.eqb_neq _ 0)) by lia. destruct l as [|y l].
  - simpl. destruct (list_del_single m x Hr) as (m' & -> & Hu). simpl.
    do 2 eexists; split; [done|]. split; [|done]. by apply queue_repr_nil.
  - rewrite (proj2 (Z.eqb_neq _ 1)) by (simpl; lia). rewrite (ring_next m x y l) by done. simpl.
    destruct (list_del_spec m x (y :: l) Hr) as (m' & -> & Hr' & Hu & _); [done|]. simpl.
    do 2 eexists; split; [done|]. split; [|done].
    apply queue_repr_cons. simpl in *. split_and!; [|lia|done|done]. rewrite u32_small; lia.
Qed.

Lemma queue_out_nil m q : queue_repr m q [] → queue_out m q = Ok (m, q, NULL).
Proof. intros [El _]%queue_repr_nil. unfold queue_out. by rewrite El. Qed.

Lemma queue_repr_frame m m' upd q l :
  upd_nodes m m' upd → disjoint_nodes l upd → queue_repr m q l → queue_repr m' q l.
Proof.
  intros Hu Hd (? & ? & ? & [->|Hr]); split_and!; auto. right. by eapply ring_frame.
Qed.

(** * The contract of queues, for their clients *)

(** What the scheduler and the semaphores rely on: a predicate [repr] relating
    a queue to the list of its nodes, kept by the queue operations.  Nodes are
    never NULL, and an operation touches only the nodes it moves. *)
Class QueueSpec (repr : mem → general_queue → list Z → Prop) : Prop := {
  qs_init m : repr m queue_init [];
  qs_len m q l : repr m q l → queue_len q = Z.of_nat (length l);
  qs_apart m q l : repr m q l → apart l;
  qs_in m q l n :
    repr m q l → insertable m l n → Z.of_nat (length l) + 1 < 4294967296 →
    ∃ m' q', queue_in m q n = Ok (m', q') ∧ repr m' q' (l ++ [n]) ∧ upd_nodes m m' (n :: l);
  qs_push m q l n :
    repr m q l → insertable m l n → Z.of_nat (length l) + 1 < 4294967296 →
    ∃ m' q', queue_push m q n = Ok (m', q') ∧ repr m' q' (n :: l) ∧ upd_nodes m m' (n :: l);
  qs_out m q x l :
    repr m q (x :: l) →
    ∃ m' q', queue_out m q = Ok (m', q', x) ∧ repr m' q' l ∧ upd_nodes m m' (x :: l);
  qs_out_nil m q : repr m q [] → queue_out m q = Ok (m, q, NULL);
  qs_frame m m' upd q l :
    upd_nodes m m' upd → disjoint_nodes l upd → repr m q l → repr m' q l;
  qs_find fuel m q l n :
    repr m q l → addr n → (length l ≤ fuel)%nat →
    list_find_item fuel m (front q) n = Ok (bool_decide (n ∈ removelast l))
}.

Lemma queue_repr_apart m q l : queue_repr m q l → apart l.
Proof. intros (_ & _ & _ & [->|Hr]); [done|by eapply ring_apart]. Qed.

Lemma queue_repr_find fuel m q l n :
  queue_repr m q l → addr n → (length l ≤ fuel)%nat →
  list_find_item fuel m (front q) n = Ok (bool_decide (n ∈ removelast l)).
Proof.
  intros Hq Hn Hf. destruct l as [|x l].
  - apply queue_repr_nil in Hq as [_ ->]. done.
  - apply queue_repr_cons in Hq as (_ & _ & -> & Hr). by apply list_find_item_ring.
Qed.

#[export] Instance queue_repr_spec : QueueSpec queue_repr.
Proof.
  split.
  - intros m. by apply queue_repr_nil.
  - by intros m q l [? _].
  - apply queue_repr_apart.
  - apply queue_in_spec.
  - apply queue_push_spec.
  - apply queue_out_spec.
  - apply queue_out_nil.
  - apply queue_repr_frame.
  - apply queue_repr_find.
Qed.

(** * Queues refine lists *)

(** Calls on a queue, and what they do to the list it holds. *)
Inductive qop := QIn (n : Z) | QPush (n : Z) | QOut.

Definition qop_node (op : qop) : list Z :=
  match op with QIn n | QPush n => [n] | QOut => [] end.

(** One call; the result is the node returned by [queue_out], NULL otherwise. *)
Definition qstep (m : mem) (q : general_queue) (op : qop) : outcome (mem * general_queue * Z) :=
  match op with
  | QIn n => let! (m, q) := queue_in m q n in Ok (m, q, NULL)
  | QPush n => let! (m, q) := queue_push m q n in Ok (m, q, NULL)
  | QOut => queue_out m q
  end.

(** The specification: a node enters only when it is not in the queue. *)
Definition astep (l : list Z) (op : qop) : option (list Z * Z) :=
  match op with
  | QIn n => if decide (n ∈ l) then None else Some (l ++ [n], NULL)
  | QPush n => if decide (n ∈ l) then None else Some (n :: l, NULL)
  | QOut => match l with [] => Some ([], NULL) | x :: l => Some (l, x) end
  end.

Fixpoint qrun (m : mem) (q : general_queue) (ops : list qop)
    : outcome (mem * general_queue * list Z) :=
  match ops with
  | [] => Ok (m, q, [])
  | op :: ops =>
      let! (m, q, r) := qstep m q op in
      let! (m, q, rs) := qrun m q ops in
      Ok (m, q, r :: rs)
  end.

Fixpoint arun (l : list Z) (ops : list qop) : option (list Z * list Z) :=
  match ops with
  | [] => Some (l, [])
  | op :: ops =>
      match astep l op with
      | None => None
      | Some (l, r) =>
          match arun l ops with None => None | Some (l, rs) => Some (l, r :: rs) end
      end
  end.

(** A pool of nodes from which the calls draw. *)
Definition node_pool (m : mem) (ns : list Z) : Prop :=
  apart ns ∧ Forall addr ns ∧ Forall (node m) ns ∧ Z.of_nat (length ns) < 4294967296.

Lemma pool_insertable m ns l n :
  node_pool m ns → l ⊆ ns → n ∈ ns → n ∉ l → insertable m l n.
Proof.
  intros (Hap & Had & Hnd & _) Hl Hn Hni. rewrite !Forall_forall in *. split_and!; [auto|auto|].
  rewrite Forall_forall. intros p Hp.
  destruct (apart_elem ns n p) as [->|?]; [done|done|auto|done|done].
Qed.

Lemma pool_upd m m' ns l : node_pool m ns → upd_nodes m m' l → node_pool m' ns.
Proof.
  intros (? & ? & Hnd & ?) Hu. split_and!; [done|done| |done].
  eapply Forall_impl; [done|]. intros p. by apply upd_nodes_node with (l := l).
Qed.

Lemma pool_length m ns l : node_pool m ns → NoDup l → l ⊆ ns → Z.of_nat (length l) < 4294967296.
Proof.
  intros (Hap & _ & _ & Hlen) Hnd Hl. apply Z.le_lt_trans with (Z.of_nat (length ns)); [|done].
  apply inj_le, submseteq_length, NoDup_submseteq; done.
Qed.

Lemma astep_mono ns l op l' r :
  NoDup l → l ⊆ ns → qop_node op ⊆ ns → astep l op = Some (l', r) → NoDup l' ∧ l' ⊆ ns.
Proof.
  intros Hnd Hl Hop Ha. destruct op as [n|n|]; simpl in *; try case_decide; simplify_eq.
  - split; [|set_solver]. apply NoDup_app. split_and!; [done|set_solver|by apply NoDup_singleton].
  - split; [by constructor|set_solver].
  - destruct l as [|x l]; simplify_eq; [done|]. apply NoDup_cons in Hnd as [_ Hnd].
    split; [done|set_solver].
Qed.

Lemma qstep_refines m q ns l op l' r :
  node_pool m ns → queue_repr m q l → NoDup l → l ⊆ ns → qop_node op ⊆ ns →
  astep l op = Some (l', r) →
  ∃ m' q', qstep m q op = Ok (m', q', r) ∧ queue_repr m' q' l' ∧ node_pool m' ns.
Proof.
  intros Hpool Hq Hnd Hl Hop Ha.
  pose proof (astep_mono ns l op l' r Hnd Hl Hop Ha) as [Hnd' Hl'].
  pose proof (pool_length m ns l' Hpool Hnd' Hl') as Hlen.
  destruct op as [n|n|]; simpl in *.
  - case_decide; simplify_eq. rewrite length_app in Hlen; simpl in Hlen.
    destruct (queue_in_spec m q l n) as (m' & q' & -> & Hq' & Hu); [done| |lia|].
    { apply (pool_insertable m ns); try done. set_solver. }
    simpl. eauto 6 using pool_upd.
  - case_decide; simplify_eq. simpl in Hlen.
    destruct (queue_push_spec m q l n) as (m' & q' & -> & Hq' & Hu); [done| |lia|].
    { apply (pool_insertable m ns); try done. set_solver. }
    simpl. eauto 6 using pool_upd.
  - destruct l as [|x l]; simplify_eq.
    + exists m, q. split_and!; [by apply queue_out_nil|done|done].
    + destruct (queue_out_spec m q r l' Hq) as (m' & q' & -> & Hq' & Hu). eauto 6 using pool_upd.
Qed.

(** * Properties *)

(** C18. Queues refine lists: a sequence of [queue_in], [queue_push] and
    [queue_out] calls that never inserts a node twice returns, call by call,
    what the list of the queued nodes predicts, and the ring in memory holds
    that list at the end. *)
Theorem queue_refines_list (m : mem) (q : general_queue) (ns l l' rs : list Z) (ops : list qop) :
  node_pool m ns → queue_repr m q l → l ⊆ ns → Forall (λ op, qop_node op ⊆ ns) ops →
  arun l ops = Some (l', rs) →
  ∃ m' q', qrun m q ops = Ok (m', q', rs) ∧ queue_repr m' q' l' ∧ node_pool m' ns.
Proof.
  intros Hpool Hq Hl Hops. pose proof (apart_NoDup _ (queue_repr_apart _ _ _ Hq)) as Hnd.
  revert m q l rs Hpool Hq Hl Hnd.
  induction Hops as [|op ops Hop Hops IH]; intros m q l rs Hpool Hq Hl Hnd Ha; simpl in Ha.
  { simplify_eq. simpl. eauto. }
  destruct (astep l op) as [[l1 r]|] eqn:E; [|done].
  destruct (arun l1 ops) as [[l2 rs']|] eqn:E'; simplify_eq.
  destruct (qstep_refines m q ns l op l1 r) as (m1 & q1 & E1 & Hq1 & Hp1); [done..|].
  destruct (astep_mono ns l op l1 r) as [Hnd1 Hl1]; [done..|].
  destruct (IH m1 q1 l1 rs') as (m2 & q2 & E2 & Hq2 & Hp2); [done..|].
  simpl. rewrite E1. simpl. rewrite E2. simpl. eauto.
Qed.

(** Inserting a node with [list_add_prev] and deleting it with [list_del]
    gives back the original memory, except that the node's pointers are NULL. *)
Theorem list_add_del_roundtrip (m : mem) (h n : Z) (t : list Z) :
  ring m (h :: t) → insertable m (h :: t) n →
  (let! m1 := list_add_prev m h n in list_del m1 n) =
    Ok (<[n + prev_off := NULL]> (<[n + next_off := NULL]> m), n).
Proof.
  intros Hr (Hn & Hna & Hs).
  destruct (ring_head_last m _ Hr) as (h' & p & [= <-] & Hp & _ & Hpin).
  pose proof (ring_node _ _ _ Hr Hpin) as Hnp.
  assert (node m h) as Hnh by (eapply ring_node; [done|by left]).
  unfold list_add_prev. rewrite (ring_prev m h t p) by done. simpl.
  rewrite __list_add_eq by done. simpl.
  assert (∀ x, node m x → node (added m n p h) x) as Hnode.
  { intros x. eapply upd_nodes_node, upd_nodes_added with (l := n :: p :: h :: t);
      try done; set_solver. }
  rewrite Forall_forall in Hs. pose proof (Hs p Hpin) as Hsp.
  pose proof (Hs h ltac:(by left)) as Hsh.
  rewrite (list_del_eq _ n p h); auto.
  2, 3: unfold get_prev, get_next, added; apply load_Some; cells.
  f_equal. f_equal. rewrite (ring_open m (h :: t) h p) in Hr by done.
  destruct Hr as (_ & [Hln Hlp] & _). unfold unlinked, added.
  apply map_eq. intros a. rewrite !lookup_insert.
  repeat case_decide; subst; try done; unfold sep, prev_off, next_off in *; try lia.
Qed.

(** [list_find_item] answers TRUE exactly for the nodes of the ring other
    than the last one: the last node is never found, and the starting node is
    found unless it is alone. *)
Theorem list_find_item_all_but_last (fuel : nat) (m : mem) (h n : Z) (t : list Z) :
  ring m (h :: t) → addr n → (length t < fuel)%nat →
  list_find_item fuel m h n = Ok (bool_decide (n ∈ removelast (h :: t))).
Proof. apply list_find_item_ring. Qed.

(** [list_len] terminates on a ring and counts its nodes but the one it
    starts from; [list_empty] answers TRUE exactly on a one-node ring. *)
Theorem list_len_empty (fuel : nat) (m : mem) (h : Z) (t : list Z) :
  ring m (h :: t) → (length t < fuel)%nat → Z.of_nat (length t) < 4294967296 →
  list_len fuel m h = Ok (Z.of_nat (length t)) ∧
  list_empty fuel m h = Ok (bool_decide (t = [])).
Proof. intros. split; [by apply list_len_spec|by apply list_empty_spec]. Qed.

(** Deleting nodes: [list_pop] returns the node after the head and leaves
    the ring of the others; [list_del_safe] on any node leaves the ring of the
    others and a one-node ring.  Both touch only the nodes of the ring. *)
Theorem list_deletion (m : mem) (h x : Z) (t : list Z) :
  ring m (h :: x :: t) →
  (∃ m', list_pop m h = Ok (m', x) ∧ ring m' (h :: t) ∧ upd_nodes m m' (h :: x :: t)) ∧
  (∀ y t1 t2, h :: x :: t = t1 ++ y :: t2 →
     ∃ m', list_del_safe m y = Ok m' ∧ ring m' (t1 ++ t2) ∧ ring m' [y] ∧
           upd_nodes m m' (h :: x :: t)).
Proof.
  intros Hr. split; [by apply list_pop_spec|]. intros y t1 t2 E.
  rewrite E in Hr. apply ring_rotate in Hr. simpl in Hr.
  destruct (list_del_safe_spec m y (t2 ++ t1) Hr) as (m' & -> & Hr1 & Hr2 & Hu).
  { intros E'. apply (f_equal length) in E, E'. rewrite length_app in *. simpl in *. lia. }
  exists m'. split_and!; [done|by apply ring_rotate|done|]. rewrite E.
  eapply upd_nodes_mono; [|done]. set_solver.
Qed.

(** ** The hypotheses can be met *)

(** Three nodes in a fresh memory. *)
Definition demo_mem : mem :=
  list_to_map ((λ a, (a, 0)) <$> [16; 20; 32; 36; 48; 52]).
Definition demo_ring : mem :=
  match (let! m := list_init demo_mem 16 in list_add_prev m 16 32) with Ok m => m | _ => ∅ end.

Lemma demo_ring_ring : ring demo_ring [16; 32].
Proof. split_and!; [|by repeat constructor; unfold sep; lia|by repeat constructor]. by vm_compute. Qed.

Lemma demo_insertable : insertable demo_ring [16; 32] 48.
Proof.
  split_and!; [|done|by repeat constructor; unfold sep; lia].
  split; apply (bool_decide_unpack _); by vm_compute.
Qed.

Lemma demo_pool : node_pool demo_mem [16; 32; 48].
Proof.
  split_and!; [by repeat constructor; unfold sep; lia|by repeat constructor| |done].
  repeat constructor; apply (bool_decide_unpack _); by vm_compute.
Qed.

Lemma queue_refines_list_witness :
  ∃ m' q', qrun demo_mem queue_init [QIn 16; QPush 32; QIn 48; QOut; QOut] =
      Ok (m', q', [NULL; NULL; NULL; 32; 16]) ∧
    queue_repr m' q' [48] ∧ node_pool m' [16; 32; 48].
Proof.
  apply (queue_refines_list demo_mem queue_init [16; 32; 48] []).
  - apply demo_pool.
  - by apply queue_repr_nil.
  - set_solver.
  - repeat (apply Forall_cons_2; [simpl; set_solver|]). constructor.
  - by vm_compute.
Defined.

Lemma list_add_del_roundtrip_witness :
  (let! m1 := list_add_prev demo_ring 16 48 in list_del m1 48) =
    Ok (<[48 + prev_off := NULL]> (<[48 + next_off := NULL]> demo_ring), 48).
Proof.
  apply (list_add_del_roundtrip demo_ring 16 48 [32]);
    [apply demo_ring_ring|apply demo_insertable].
Defined.

Lemma list_find_item_all_but_last_witness :
  list_find_item 3 demo_ring 16 32 = Ok (bool_decide (32 ∈ removelast [16; 32])).
Proof.
  apply (list_find_item_all_but_last 3 demo_ring 16 32 [32]);
    [apply demo_ring_ring|done|simpl; lia].
Defined.

Lemma list_len_empty_witness :
  list_len 3 demo_ring 16 = Ok 1 ∧ list_empty 3 demo_ring 16 = Ok (bool_decide ([32] = [])).
Proof. apply (list_len_empty 3 demo_ring 16 [32]); [apply demo_ring_ring|simpl; lia|done]. Defined.

Lemma list_deletion_witness :
  (∃ m', list_pop demo_ring 16 = Ok (m', 32) ∧ ring m' [16] ∧ upd_nodes demo_ring m' [16; 32]) ∧
  (∀ y t1 t2, [16; 32] = t1 ++ y :: t2 →
     ∃ m', list_del_safe demo_ring y = Ok m' ∧ ring m' (t1 ++ t2) ∧ ring m' [y] ∧
           upd_nodes demo_ring m' [16; 32]).
Proof. apply (list_deletion demo_ring 16 32 []). apply demo_ring_ring. Defined.
