(* ===== verification/Pool.v ===== *)
(** Physical and virtual page pools (the first half of mm/memory.c). *)
From S2P Require Import Prelude Bitmap.
Local Open Scope Z_scope.

Definition PAGE_OFFEST : Z := 0xc0000000.
Definition PAGE_SIZE : Z := 4096.
Definition PAGE_MASK : Z := 0xfffff000.
Definition MEM_BITMAP_BASE : Z := 0xc007e000.
Definition KERNEL_VM_BITMAP_BASE : Z := 0xc0075000.
Definition KERNEL_HEAP_BASE : Z := 0xc1000000.
Definition KERNEL_THRESHOLD : Z := 0x80000000.
Definition KERNEL_MAX_SIZE : Z := 0x40000000.

(** [__pa] and [__va] *)
Definition __pa (v_addr : Z) : Z := u32 (v_addr - PAGE_OFFEST).
Definition __va (p_addr : Z) : Z := u32 (p_addr + PAGE_OFFEST).

(** [enum pool_flags] *)
Inductive pool_flags := PF_KERNEL | PF_USER.

(** * State *)

(** [struct physical_mem_pool], without its lock.  [pool_bitmap_at] is the
    address held by [pool_bitmap.bitmap], [pool_bitmap] the bits it points to. *)
Record physical_mem_pool := PhysPool {
  pool_bitmap_at : Z;
  pool_bitmap : bitmap;
  phy_addr_start : Z;
  pool_size : Z
}.

(** [struct virtual_mem_pool] *)
Record virtual_mem_pool := VmPool {
  vm_bitmap_at : Z;
  vm_bitmap : bitmap;
  vm_start : Z
}.

(** The pools of memory.c, and the [userprog_vaddr] of the running task. *)
Record pools := Pools {
  kernel_pool : physical_mem_pool;
  user_pool : physical_mem_pool;
  kernel_vm_pool : virtual_mem_pool;
  userprog_vaddr : virtual_mem_pool
}.

Definition set_pool_bitmap (p : physical_mem_pool) (bm : bitmap) : physical_mem_pool :=
  PhysPool (pool_bitmap_at p) bm (phy_addr_start p) (pool_size p).
Definition set_vm_bitmap (p : virtual_mem_pool) (bm : bitmap) : virtual_mem_pool :=
  VmPool (vm_bitmap_at p) bm (vm_start p).
Definition set_kernel_pool (s : pools) (p : physical_mem_pool) : pools :=
  Pools p (user_pool s) (kernel_vm_pool s) (userprog_vaddr s).
Definition set_user_pool (s : pools) (p : physical_mem_pool) : pools :=
  Pools (kernel_pool s) p (kernel_vm_pool s) (userprog_vaddr s).
Definition set_kernel_vm_pool (s : pools) (p : virtual_mem_pool) : pools :=
  Pools (kernel_pool s) (user_pool s) p (userprog_vaddr s).
Definition set_userprog_vaddr (s : pools) (p : virtual_mem_pool) : pools :=
  Pools (kernel_pool s) (user_pool s) (kernel_vm_pool s) p.

(** * Initialisation *)

(** Sizes computed by [mem_pool_init] from the amount of physical memory. *)
Definition kernel_mem_size (total_mem : Z) : Z :=
  if KERNEL_THRESHOLD <=? total_mem
  then u32 (KERNEL_MAX_SIZE - (KERNEL_HEAP_BASE - 0xc0000000))
  else u32 (u64 (total_mem / 2 - (KERNEL_HEAP_BASE - 0xc0000000))).

Definition user_mem_size (total_mem : Z) : Z :=
  u32 (u64 (total_mem - kernel_mem_size total_mem - (KERNEL_HEAP_BASE - 0xc0000000))).

Definition kernel_pages (total_mem : Z) : Z := kernel_mem_size total_mem / PAGE_SIZE.
Definition user_pages (total_mem : Z) : Z := user_mem_size total_mem / PAGE_SIZE.

(** The bytes found at boot where a bitmap is placed ([bitmap_zero] writes one
    byte even for an empty bitmap). *)
Definition boot_buffer (boot : Z → Z) (base len : Z) : bitmap :=
  Bitmap len (Some (boot <$> seqZ base (Z.max 1 len))).

(** [mem_pool_init], without its messages and its [lock_init]s; [boot] gives
    the contents of memory at boot. *)
Definition mem_pool_init (boot : Z → Z) (total_mem : Z)
    : outcome (physical_mem_pool * physical_mem_pool * virtual_mem_pool) :=
  let kernel_pages := kernel_pages total_mem in
  let user_pages := user_pages total_mem in
  let k_at := MEM_BITMAP_BASE in
  let k_bm := boot_buffer boot k_at (kernel_pages / 8) in
  let k_size := u32 (kernel_pages * PAGE_SIZE) in
  let k_start := KERNEL_HEAP_BASE - 0xc0000000 in
  let u_at := u32 (MEM_BITMAP_BASE + kernel_pages / 8) in
  let u_bm := boot_buffer boot u_at (user_pages / 8) in
  let u_size := u32 (user_pages * PAGE_SIZE) in
  let u_start := u32 (kernel_pages * PAGE_SIZE + (KERNEL_HEAP_BASE - 0xc0000000)) in
  let! k_bm := bitmap_zero k_bm in
  let! u_bm := bitmap_zero u_bm in
  let vm_bm := boot_buffer boot KERNEL_VM_BITMAP_BASE (kernel_pages / 8) in
  let! vm_bm := bitmap_zero vm_bm in
  Ok (PhysPool k_at k_bm k_start k_size, PhysPool u_at u_bm u_start u_size,
      VmPool KERNEL_VM_BITMAP_BASE vm_bm KERNEL_HEAP_BASE).

(** * Page allocation *)

Section alloc.
(** Fuel of [bitmap_apply]. *)
Variable fuel : nat.

(** The [while] loop of [vaddr_alloc] that sets [pg_cnt] bits one by one. *)
Fixpoint set_each_bit (n : nat) (bm : bitmap) (bit_idx_start i : Z) : outcome bitmap :=
  match n with
  | O => Ok bm
  | S n =>
      let! bm := bitmap_set_bit bm (u32 (bit_idx_start + i)) bit_set in
      set_each_bit n bm bit_idx_start (i + 1)
  end.

(** [vaddr_alloc]; the address 0 is NULL. *)
Definition vaddr_alloc (s : pools) (pf : pool_flags) (pg_cnt : Z) : outcome (pools * Z) :=
  match pf with
  | PF_KERNEL =>
      let vp := kernel_vm_pool s in
      let! idx := bitmap_apply fuel (vm_bitmap vp) pg_cnt in
      let bit_idx_start := s32 idx in
      if bit_idx_start =? -1 then Ok (s, 0)
      else
        let! bm := set_each_bit (Z.to_nat pg_cnt) (vm_bitmap vp) bit_idx_start 0 in
        Ok (set_kernel_vm_pool s (set_vm_bitmap vp bm),
            u32 (vm_start vp + bit_idx_start * PAGE_SIZE))
  | PF_USER =>
      let vp := userprog_vaddr s in
      let! idx := bitmap_apply fuel (vm_bitmap vp) pg_cnt in
      let bit_idx_start := s32 idx in
      if bit_idx_start =? -1 then Ok (s, 0)
      else
        let! bm := bitmap_set_bits (vm_bitmap vp) (u32 bit_idx_start) pg_cnt bit_set in
        let vaddr_start := u32 (vm_start vp + bit_idx_start * PAGE_SIZE) in
        ASSERT (vaddr_start <? 0xc0000000 - PAGE_SIZE) ;!
        Ok (set_userprog_vaddr s (set_vm_bitmap vp bm), vaddr_start)
  end.

(** [phy_alloc] on one pool. *)
Definition phy_alloc (p : physical_mem_pool) : outcome (physical_mem_pool * Z) :=
  let! idx := bitmap_apply fuel (pool_bitmap p) 1 in
  let bit_idx := s32 idx in
  if bit_idx =? -1 then Ok (p, 0)
  else
    let! bm := bitmap_set_bit (pool_bitmap p) (u32 bit_idx) bit_set in
    Ok (set_pool_bitmap p bm, u32 (bit_idx * PAGE_SIZE + phy_addr_start p)).

(** The [while (pg_cnt-- > 0)] loop of [page_alloc]: [false] when a frame is
    missing (the frames and addresses already taken are not given back). *)
Fixpoint alloc_frames (n : nat) (s : pools) : outcome (pools * bool) :=
  match n with
  | O => Ok (s, true)
  | S n =>
      let! (up, phy_addr) := phy_alloc (user_pool s) in
      let s := set_user_pool s up in
      if phy_addr =? 0 then Ok (s, false) else alloc_frames n s
  end.

Definition page_alloc (s : pools) (pf : pool_flags) (pg_cnt : Z) : outcome (pools * Z) :=
  match pf with
  | PF_KERNEL =>
      let! (s, vm_addr) := vaddr_alloc s PF_KERNEL pg_cnt in
      if vm_addr =? 0 then Ok (s, 0)
      else
        let phy_addr := __pa vm_addr in
        let bit_idx := u32 (phy_addr - phy_addr_start (kernel_pool s)) / PAGE_SIZE in
        let! bm := bitmap_set_bits (pool_bitmap (kernel_pool s)) bit_idx pg_cnt bit_set in
        Ok (set_kernel_pool s (set_pool_bitmap (kernel_pool s) bm), vm_addr)
  | PF_USER =>
      let! (s, vm_addr) := vaddr_alloc s PF_USER pg_cnt in
      if vm_addr =? 0 then Ok (s, 0)
      else
        let! (s, ok) := alloc_frames (Z.to_nat pg_cnt) s in
        Ok (s, if ok then vm_addr else 0)
  end.
End alloc.

(** * Page release *)

(** [phy_free]: the pool is chosen by comparing with the start of the user pool. *)
Definition phy_free (s : pools) (phy_addr : Z) : outcome pools :=
  if phy_addr_start (user_pool s) <=? phy_addr then
    let bit_idx := u32 (phy_addr - phy_addr_start (user_pool s)) / PAGE_SIZE in
    let! bm := bitmap_set_bit (pool_bitmap (user_pool s)) bit_idx bit_clear in
    Ok (set_user_pool s (set_pool_bitmap (user_pool s) bm))
  else
    let bit_idx := u32 (phy_addr - phy_addr_start (kernel_pool s)) / PAGE_SIZE in
    let! bm := bitmap_set_bit (pool_bitmap (kernel_pool s)) bit_idx bit_clear in
    Ok (set_kernel_pool s (set_pool_bitmap (kernel_pool s) bm)).

Definition vaddr_free (s : pools) (pf : pool_flags) (vaddr pg_cnt : Z) : outcome pools :=
  match pf with
  | PF_KERNEL =>
      let vp := kernel_vm_pool s in
      let bit_idx := u32 (vaddr - vm_start vp) / PAGE_SIZE in
      let! bm := bitmap_set_bits (vm_bitmap vp) bit_idx pg_cnt bit_clear in
      Ok (set_kernel_vm_pool s (set_vm_bitmap vp bm))
  | PF_USER =>
      let vp := userprog_vaddr s in
      let bit_idx := u32 (vaddr - vm_start vp) / PAGE_SIZE in
      let! bm := bitmap_set_bits (vm_bitmap vp) bit_idx pg_cnt bit_clear in
      Ok (set_userprog_vaddr s (set_vm_bitmap vp bm))
  end.

(** The loops of [page_free]: one [phy_free] per page.  For a user page the
    code still passes the virtual address. *)
Fixpoint free_frames (n : nat) (s : pools) (phy_addr : Z) : outcome pools :=
  match n with
  | O => Ok s
  | S n =>
      let! s := phy_free s phy_addr in
      free_frames n s (u32 (phy_addr + PAGE_SIZE))
  end.

Definition page_free (s : pools) (pf : pool_flags) (vaddr pg_cnt : Z) : outcome pools :=
  ASSERT (1 <=? pg_cnt) ;!
  match pf with
  | PF_KERNEL =>
      let! s := free_frames (Z.to_nat pg_cnt) s (__pa vaddr) in
      vaddr_free s PF_KERNEL vaddr pg_cnt
  | PF_USER =>
      let! s := free_frames (Z.to_nat pg_cnt) s vaddr in
      vaddr_free s PF_USER vaddr pg_cnt
  end.

(** * Layout established by [mem_pool_init] *)

Lemma kernel_mem_size_eq total : 0x2000000 ≤ total < 4294967296 →
  kernel_mem_size total = if KERNEL_THRESHOLD <=? total then 0x3f000000 else total / 2 - 0x1000000.
Proof.
  intros H. unfold kernel_mem_size, KERNEL_THRESHOLD, KERNEL_HEAP_BASE, KERNEL_MAX_SIZE.
  destruct (Z.leb_spec 0x80000000 total); [done|].
  assert (0x1000000 ≤ total / 2) by (apply Z.div_le_lower_bound; lia).
  assert (total / 2 < 0x80000000) by (apply Z.div_lt_upper_bound; lia).
  rewrite u64_small by lia. rewrite u32_small by lia. lia.
Qed.

Lemma user_mem_size_eq total : 0x2000000 ≤ total < 4294967296 →
  user_mem_size total = total - kernel_mem_size total - 0x1000000 ∧
  0 ≤ kernel_mem_size total ≤ 0x3f000000 ∧ 0 ≤ user_mem_size total ≤ 0xbfffffff ∧
  kernel_mem_size total + user_mem_size total ≤ 0xfeffffff.
Proof.
  intros H. unfold user_mem_size.
  assert (0 ≤ kernel_mem_size total ≤ 0x3f000000 ∧
          0 ≤ total - kernel_mem_size total - 0x1000000 ≤ 0xbfffffff) as [Hk Hu].
  { rewrite kernel_mem_size_eq by done. unfold KERNEL_THRESHOLD.
    pose proof (Z.div_mod total 2). pose proof (Z.mod_pos_bound total 2).
    destruct (Z.leb_spec 0x80000000 total); lia. }
  replace (KERNEL_HEAP_BASE - 0xc0000000) with 0x1000000 by done.
  rewrite u64_small, u32_small by lia. lia.
Qed.

(** A pool whose bitmap describes [pages] page frames from [start] on. *)
Record pool_ready (p : physical_mem_pool) (pages : Z) : Prop := {
  pr_wf : bitmap_wf (pool_bitmap p);
  pr_bits : total_bits (pool_bitmap p) = 8 * (pages / 8);
  pr_size : pool_size p = pages * PAGE_SIZE;
  pr_free : ∀ i, 0 ≤ i < total_bits (pool_bitmap p) → bit (pool_bitmap p) i = false
}.

Lemma boot_buffer_zero boot base len :
  0 ≤ len < 536870912 →
  ∃ bm, bitmap_zero (boot_buffer boot base len) = Ok bm ∧ bitmap_wf bm ∧
    total_bits bm = len * 8 ∧ bitmap_bytes_len bm = len ∧
    ∀ i, 0 ≤ i < total_bits bm → bit bm i = false.
Proof.
  intros Hlen. unfold bitmap_zero, boot_buffer, buffer. cbn [bitmap_buf bitmap_bytes_len obind].
  assert (∀ l, len ≤ Z.of_nat (length l) → Forall (λ b, 0 ≤ b < 256) l →
            bitmap_wf (Bitmap len (Some l)) ∧ total_bits (Bitmap len (Some l)) = len * 8) as Hwf.
  { intros l Hl Hb. assert (bitmap_wf (Bitmap len (Some l))) as Hw by (split; [done|eauto]).
    split; [done|by apply total_bits_wf]. }
  destruct (Z.eqb_spec len 0) as [->|Hne].
  - simpl. eexists; split; [done|].
    split_and!; [split; [done|by eexists; split_and!; [done|simpl; lia|repeat constructor]]
      |done|done|].
    intros i Hi. change (total_bits _) with 0 in Hi. lia.
  - rewrite length_fmap, length_seqZ. rewrite (proj2 (Nat.leb_le _ _)) by lia.
    rewrite drop_ge by (rewrite length_fmap, length_seqZ; lia). rewrite app_nil_r.
    destruct (Hwf (replicate (Z.to_nat len) 0)) as [Hw Ht].
    { rewrite length_replicate. lia. } { by apply Forall_replicate. }
    eexists; split_and!; [done|done|done|done|].
    intros i Hi. rewrite Ht in Hi. unfold bit, bit_at; simpl.
    rewrite lookup_replicate_2; [apply Z.bits_0|].
    assert (i / 8 < len) by (apply Z.div_lt_upper_bound; lia). pose proof (Z.div_pos i 8). lia.
Qed.

(** The address ranges in use after [mem_pool_init], for [total] bytes of
    memory.  The kernel frames and the user frames are disjoint, and end inside
    the memory; the three bitmaps are disjoint and end before the kernel stack
    page at 0xc009e000. *)
Definition layout_ok (total : Z) (kp up : physical_mem_pool) (vp : virtual_mem_pool) : Prop :=
  phy_addr_start kp = 0x1000000 ∧
  phy_addr_start up = phy_addr_start kp + pool_size kp ∧
  phy_addr_start up + pool_size up ≤ total ∧
  vm_start vp = KERNEL_HEAP_BASE ∧
  vm_start vp + total_bits (vm_bitmap vp) * PAGE_SIZE ≤ 4294967296 ∧
  vm_bitmap_at vp + bitmap_bytes_len (vm_bitmap vp) ≤ pool_bitmap_at kp ∧
  pool_bitmap_at kp + bitmap_bytes_len (pool_bitmap kp) = pool_bitmap_at up ∧
  pool_bitmap_at up + bitmap_bytes_len (pool_bitmap up) ≤ 0xc009e000.

Lemma div8_pages k : 0 ≤ k → 8 * (k / PAGE_SIZE / 8) ≤ k / PAGE_SIZE ∧ k / PAGE_SIZE * PAGE_SIZE ≤ k
  ∧ 0 ≤ k / PAGE_SIZE / 8.
Proof.
  intros. unfold PAGE_SIZE. pose proof (Z.mul_div_le k 4096). pose proof (Z.div_pos k 4096).
  pose proof (Z.mul_div_le (k / 4096) 8). pose proof (Z.div_pos (k / 4096) 8). lia.
Qed.

Lemma mem_pool_init_spec boot total :
  0x2000000 ≤ total < 4294967296 →
  ∃ kp up vp, mem_pool_init boot total = Ok (kp, up, vp) ∧
    layout_ok total kp up vp ∧
    pool_ready kp (kernel_pages total) ∧ pool_ready up (user_pages total) ∧
    bitmap_wf (vm_bitmap vp) ∧ total_bits (vm_bitmap vp) = total_bits (pool_bitmap kp) ∧
    (∀ i, 0 ≤ i < total_bits (vm_bitmap vp) → bit (vm_bitmap vp) i = false).
Proof.
  intros Htot. destruct (user_mem_size_eq total Htot) as (Eu & Hk & Hu & Hku).
  unfold mem_pool_init.
  pose proof (div8_pages (kernel_mem_size total)) as (K1 & K2 & K3); [lia|].
  pose proof (div8_pages (user_mem_size total)) as (U1 & U2 & U3); [lia|].
  change (kernel_mem_size total / PAGE_SIZE) with (kernel_pages total) in *.
  change (user_mem_size total / PAGE_SIZE) with (user_pages total) in *.
  unfold PAGE_SIZE in K2, U2.
  destruct (boot_buffer_zero boot MEM_BITMAP_BASE (kernel_pages total / 8))
    as (kb & -> & Hkw & Hkt & Hkl & Hkf); [lia|].
  destruct (boot_buffer_zero boot (u32 (MEM_BITMAP_BASE + kernel_pages total / 8))
    (user_pages total / 8)) as (ub & -> & Huw & Hut & Hul & Huf); [lia|].
  destruct (boot_buffer_zero boot KERNEL_VM_BITMAP_BASE (kernel_pages total / 8))
    as (vb & -> & Hvw & Hvt & Hvl & Hvf); [lia|].
  cbn [obind]. do 3 eexists. split; [done|].
  unfold layout_ok; cbn [phy_addr_start pool_size pool_bitmap pool_bitmap_at vm_start vm_bitmap vm_bitmap_at].
  unfold PAGE_SIZE, MEM_BITMAP_BASE, KERNEL_HEAP_BASE, KERNEL_VM_BITMAP_BASE. nowrap.
  rewrite ?Hkt, ?Hvt, ?Hkl, ?Hul, ?Hvl.
  split_and!; try done; try lia; try (intros i Hi; apply Hvf; lia).
  all: split; simpl; unfold PAGE_SIZE; try done; try lia; nowrap; lia.
Qed.

(** * Kernel pages *)

(** The state of the kernel pools that [mem_pool_init] establishes and that
    allocation keeps. *)
Record kernel_wf (s : pools) : Prop := {
  kw_vm : bitmap_wf (vm_bitmap (kernel_vm_pool s));
  kw_phys : bitmap_wf (pool_bitmap (kernel_pool s));
  kw_bits : total_bits (pool_bitmap (kernel_pool s)) = total_bits (vm_bitmap (kernel_vm_pool s));
  kw_start : vm_start (kernel_vm_pool s) = KERNEL_HEAP_BASE;
  kw_pstart : phy_addr_start (kernel_pool s) = 0x1000000;
  kw_end : KERNEL_HEAP_BASE + total_bits (vm_bitmap (kernel_vm_pool s)) * PAGE_SIZE ≤ 4294967296;
  kw_user : 0x1000000 + total_bits (vm_bitmap (kernel_vm_pool s)) * PAGE_SIZE
              ≤ phy_addr_start (user_pool s)
}.

(** Reduce the projections of updated states, and nothing else. *)
Ltac psimpl :=
  cbn [obind kernel_pool user_pool kernel_vm_pool userprog_vaddr set_kernel_pool set_user_pool
    set_kernel_vm_pool set_userprog_vaddr set_pool_bitmap set_vm_bitmap pool_bitmap
    pool_bitmap_at phy_addr_start pool_size vm_bitmap vm_bitmap_at vm_start].

(** The bits of the two kernel bitmaps. *)
Definition vm_page (s : pools) (i : Z) : bool := bit (vm_bitmap (kernel_vm_pool s)) i.
Definition phys_page (s : pools) (i : Z) : bool := bit (pool_bitmap (kernel_pool s)) i.
Definition kernel_total (s : pools) : Z := total_bits (vm_bitmap (kernel_vm_pool s)).

(** The virtual address of page [i] of the kernel heap. *)
Definition page_addr (i : Z) : Z := KERNEL_HEAP_BASE + i * PAGE_SIZE.

Lemma kernel_total_range s : kernel_wf s → 0 ≤ kernel_total s ≤ 258048.
Proof.
  intros H. pose proof (total_bits_range _ (kw_vm s H)). pose proof (kw_end s H) as He.
  unfold kernel_total, KERNEL_HEAP_BASE, PAGE_SIZE in *. lia.
Qed.

Lemma set_each_bit_spec n bm start i :
  bitmap_wf bm → 0 ≤ start → 0 ≤ i → start + i + Z.of_nat n ≤ total_bits bm →
  ∃ bm', set_each_bit n bm start i = Ok bm' ∧ bitmap_wf bm' ∧ total_bits bm' = total_bits bm ∧
    ∀ j, 0 ≤ j → bit bm' j =
      if decide (start + i ≤ j < start + i + Z.of_nat n) then true else bit bm j.
Proof.
  revert bm i. induction n as [|n IH]; intros bm i Hwf Hs Hi Hend; simpl.
  { exists bm. split_and!; [done..|]. intros j Hj. rewrite decide_False; [done|lia]. }
  pose proof (total_bits_range bm Hwf). nowrap.
  destruct (bitmap_set_bit_spec bm (start + i) bit_set) as (bm1 & -> & Hw1 & Ht1 & Hb1);
    [done|lia|]. simpl.
  destruct (IH bm1 (i + 1)) as (bm2 & -> & Hw2 & Ht2 & Hb2); [done|lia|lia|lia|].
  exists bm2. split_and!; [done|done|congruence|]. intros j Hj.
  rewrite Hb2, Hb1 by done. simpl. repeat case_decide; try done; lia.
Qed.

(** [page_alloc] for the kernel: the first run of free virtual pages is taken,
    all its bits are set in the virtual bitmap, and only the first of them in
    the physical one. *)
Lemma page_alloc_kernel_spec fuel s n :
  kernel_wf s → 1 ≤ n < 4294967296 → kernel_total s ≤ Z.of_nat fuel →
  (∃ r, fit (vm_bitmap (kernel_vm_pool s)) n r) →
  ∃ s' r, page_alloc fuel s PF_KERNEL n = Ok (s', page_addr r) ∧ kernel_wf s' ∧
    fit (vm_bitmap (kernel_vm_pool s)) n r ∧
    (∀ r', r' < r → ¬ fit (vm_bitmap (kernel_vm_pool s)) n r') ∧
    (∀ j, 0 ≤ j → vm_page s' j = if decide (r ≤ j < r + n) then true else vm_page s j) ∧
    (∀ j, 0 ≤ j → phys_page s' j = if decide (j = r) then true else phys_page s j) ∧
    user_pool s' = user_pool s ∧ userprog_vaddr s' = userprog_vaddr s ∧
    kernel_total s' = kernel_total s.
Proof.
  intros Hs Hn Hf Hfit. pose proof (kernel_total_range s Hs) as Htot.
  destruct (bitmap_apply_first fuel (vm_bitmap (kernel_vm_pool s)) n (kw_vm s Hs) Hn Hf Hfit)
    as (r & Ea & Hr & Hleast).
  unfold kernel_total in *. destruct Hs as [Hvm Hph Hbits Hst Hpst Hend Huser].
  pose proof Hr as (Hr0 & Hr1 & _).
  unfold page_alloc, vaddr_alloc. rewrite Ea. psimpl. rewrite s32_small by lia.
  rewrite (proj2 (Z.eqb_neq r (-1))) by lia.
  destruct (set_each_bit_spec (Z.to_nat n) (vm_bitmap (kernel_vm_pool s)) r 0)
    as (bm & -> & Hbw & Hbt & Hbb); [done|lia|lia|lia|].
  psimpl. rewrite Hst. unfold PAGE_SIZE, KERNEL_HEAP_BASE in *.
  rewrite (u32_small (_ + r * 4096)) by lia. rewrite (proj2 (Z.eqb_neq (_ + _) 0)) by lia.
  unfold __pa, PAGE_OFFEST. psimpl. rewrite Hpst.
  rewrite (u32_small (_ + _ - _)) by lia. rewrite (u32_small (_ - _)) by lia.
  replace ((0xc1000000 + r * 4096 - 0xc0000000 - 0x1000000) / 4096) with r
    by (apply (Z.div_unique_exact _ 4096); lia).
  destruct (bitmap_set_bits_first (pool_bitmap (kernel_pool s)) r n bit_set)
    as (pb & -> & Hpw & Hpt & Hpb); [done|lia|lia|lia|].
  psimpl. do 2 eexists. split; [done|].
  split; [|split_and!; try done].
  - split; psimpl; unfold PAGE_SIZE, KERNEL_HEAP_BASE; rewrite ?Hbt, ?Hpt; try done; lia.
  - intros j Hj. unfold vm_page. psimpl. rewrite Hbb by done.
    repeat case_decide; try done; lia.
Qed.

Lemma phy_free_kernel s r off :
  kernel_wf s → 0 ≤ r < kernel_total s → 0 ≤ off < PAGE_SIZE →
  ∃ s', phy_free s (0x1000000 + r * PAGE_SIZE + off) = Ok s' ∧ kernel_wf s' ∧
    (∀ j, 0 ≤ j → phys_page s' j = if decide (j = r) then false else phys_page s j) ∧
    kernel_vm_pool s' = kernel_vm_pool s ∧ user_pool s' = user_pool s ∧
    userprog_vaddr s' = userprog_vaddr s.
Proof.
  intros Hs Hr Hoff. pose proof (kernel_total_range s Hs) as Htot.
  unfold kernel_total in *. destruct Hs as [Hvm Hph Hbits Hst Hpst Hend Huser].
  unfold phy_free. unfold PAGE_SIZE, KERNEL_HEAP_BASE in *.
  rewrite (proj2 (Z.leb_gt _ _)) by lia. rewrite Hpst, u32_small by lia.
  replace ((0x1000000 + r * 4096 + off - 0x1000000) / 4096) with r
    by (apply (Z.div_unique _ 4096 r off); lia).
  destruct (bitmap_set_bit_spec (pool_bitmap (kernel_pool s)) r bit_clear)
    as (bm & -> & Hbw & Hbt & Hbb); [done|lia|].
  psimpl. eexists; split; [done|]. split; [|split_and!; done].
  split; psimpl; unfold PAGE_SIZE, KERNEL_HEAP_BASE; rewrite ?Hbt; try done; lia.
Qed.

Lemma free_frames_kernel n s r off :
  kernel_wf s → 0 ≤ r → r + Z.of_nat n ≤ kernel_total s → 0 ≤ off < PAGE_SIZE →
  ∃ s', free_frames n s (0x1000000 + r * PAGE_SIZE + off) = Ok s' ∧ kernel_wf s' ∧
    (∀ j, 0 ≤ j → phys_page s' j =
       if decide (r ≤ j < r + Z.of_nat n) then false else phys_page s j) ∧
    kernel_vm_pool s' = kernel_vm_pool s ∧ user_pool s' = user_pool s ∧
    userprog_vaddr s' = userprog_vaddr s.
Proof.
  revert s r. induction n as [|n IH]; intros s r Hs Hr Hend Hoff; simpl.
  { exists s. split_and!; try done. intros j Hj. rewrite decide_False; [done|lia]. }
  pose proof (kernel_total_range s Hs) as Htot.
  destruct (phy_free_kernel s r off) as (s1 & -> & Hs1 & Hb1 & Hv1 & Hu1 & Hp1); [done|lia|done|].
  simpl. assert (kernel_total s1 = kernel_total s) as Ht1 by (unfold kernel_total; by rewrite Hv1).
  unfold PAGE_SIZE in *. rewrite u32_small by lia.
  replace (0x1000000 + r * 4096 + off + 4096) with (0x1000000 + (r + 1) * 4096 + off) by lia.
  destruct (IH s1 (r + 1)) as (s2 & -> & Hs2 & Hb2 & Hv2 & Hu2 & Hp2); [done|lia|lia|done|].
  exists s2. split_and!; try done; try congruence. intros j Hj.
  rewrite Hb2, Hb1 by done. repeat case_decide; try done; lia.
Qed.

(** [page_free] for the kernel, on any address inside the first page: all the
    physical bits are cleared, but only the first virtual one. *)
Lemma page_free_kernel_spec s r n off :
  kernel_wf s → 0 ≤ r → 1 ≤ n → r + n ≤ kernel_total s → 0 ≤ off < PAGE_SIZE →
  ∃ s', page_free s PF_KERNEL (page_addr r + off) n = Ok s' ∧ kernel_wf s' ∧
    (∀ j, 0 ≤ j → phys_page s' j = if decide (r ≤ j < r + n) then false else phys_page s j) ∧
    (∀ j, 0 ≤ j → vm_page s' j = if decide (j = r) then false else vm_page s j) ∧
    user_pool s' = user_pool s ∧ userprog_vaddr s' = userprog_vaddr s ∧
    kernel_total s' = kernel_total s.
Proof.
  intros Hs Hr Hn Hend Hoff. pose proof (kernel_total_range s Hs) as Htot.
  unfold page_free. rewrite ASSERT_true by lia. cbn [obind].
  replace (__pa (page_addr r + off)) with (0x1000000 + r * PAGE_SIZE + off).
  2:{ unfold __pa, page_addr, PAGE_OFFEST, KERNEL_HEAP_BASE, PAGE_SIZE in *.
      rewrite u32_small; lia. }
  destruct (free_frames_kernel (Z.to_nat n) s r off)
    as (s1 & -> & Hs1 & Hb1 & Hv1 & Hu1 & Hp1); [done|done|lia|done|].
  cbn [obind]. unfold vaddr_free. destruct Hs1 as [Hvm Hph Hbits Hst Hpst Hend1 Huser].
  rewrite Hst. unfold kernel_total, page_addr, KERNEL_HEAP_BASE, PAGE_SIZE in *.
  rewrite u32_small by lia.
  replace ((0xc1000000 + r * 4096 + off - 0xc1000000) / 4096) with r
    by (apply (Z.div_unique _ 4096 r off); lia).
  destruct (bitmap_set_bits_first (vm_bitmap (kernel_vm_pool s1)) r n bit_clear)
    as (vb & -> & Hvw & Hvt & Hvb); [done|rewrite Hv1; lia|lia|lia|].
  psimpl. eexists; split; [done|]. split; [|split_and!].
  - split; psimpl; unfold PAGE_SIZE, KERNEL_HEAP_BASE; rewrite ?Hvt; done.
  - intros j Hj. unfold phys_page in *. psimpl. rewrite Hb1 by done. repeat case_decide; try done; lia.
  - intros j Hj. unfold vm_page. psimpl. rewrite Hvb by done. by rewrite Hv1.
  - done.
  - done.
  - psimpl. by rewrite Hvt, Hv1.
Qed.

Lemma mem_pool_init_ready (boot : Z → Z) (total : Z) :
  0x2000000 ≤ total < 4294967296 →
  ∃ kp up vp, mem_pool_init boot total = Ok (kp, up, vp) ∧
    layout_ok total kp up vp ∧
    pool_ready kp (kernel_pages total) ∧ pool_ready up (user_pages total) ∧
    (∀ i, 0 ≤ i < total_bits (vm_bitmap vp) → bit (vm_bitmap vp) i = false) ∧
    ∀ uv, kernel_wf (Pools kp up vp uv).
Proof.
  intros Htot. destruct (mem_pool_init_spec boot total Htot)
    as (kp & up & vp & -> & Hlay & Hkp & Hup & Hvw & Hvt & Hvf).
  exists kp, up, vp. split_and!; try done. intros uv.
  pose proof Hlay as (L1 & L2 & L3 & L4 & L5 & _). destruct Hkp as [Kw Kb Ks Kf].
  split; psimpl; try done.
  - by rewrite <- L4.
  - rewrite L2, L1, Ks, Hvt, Kb. unfold PAGE_SIZE. pose proof (Z.mul_div_le (kernel_pages total) 8).
    lia.
Qed.

(** * Properties *)

(** [mem_pool_init] splits any memory of 32 MB to 4 GB into disjoint kernel
    and user frame ranges that end inside the memory, places the three bitmaps
    in disjoint ranges below the kernel stack, and leaves every page free. *)
Theorem mem_pool_init_layout (boot : Z → Z) (total : Z) :
  0x2000000 ≤ total < 4294967296 →
  ∃ kp up vp, mem_pool_init boot total = Ok (kp, up, vp) ∧
    layout_ok total kp up vp ∧
    pool_ready kp (kernel_pages total) ∧ pool_ready up (user_pages total) ∧
    (∀ i, 0 ≤ i < total_bits (vm_bitmap vp) → bit (vm_bitmap vp) i = false) ∧
    ∀ uv, kernel_wf (Pools kp up vp uv).
Proof. exact (mem_pool_init_ready boot total). Qed.

(** C16. Kernel page allocation: when a run of [n] free pages exists the lowest
    one is returned, at the page-aligned address of its first page; exactly its
    pages become used in the virtual bitmap, and the pools stay well formed. *)
Theorem page_alloc_kernel (fuel : nat) (s : pools) (n : Z) :
  kernel_wf s → 1 ≤ n < 4294967296 → kernel_total s ≤ Z.of_nat fuel →
  (∃ r, fit (vm_bitmap (kernel_vm_pool s)) n r) →
  ∃ s' r, page_alloc fuel s PF_KERNEL n = Ok (s', page_addr r) ∧ kernel_wf s' ∧
    0 ≤ r ∧ r + n ≤ kernel_total s - 1 ∧
    (∀ j, r ≤ j < r + n → vm_page s j = false) ∧
    (∀ r', r' < r → ¬ fit (vm_bitmap (kernel_vm_pool s)) n r') ∧
    (∀ j, 0 ≤ j → vm_page s' j = if decide (r ≤ j < r + n) then true else vm_page s j).
Proof.
  intros Hs Hn Hf Hfit.
  destruct (page_alloc_kernel_spec fuel s n Hs Hn Hf Hfit)
    as (s' & r & E & Hs' & (Hr0 & Hr1 & Hfree) & Hleast & Hvm & _).
  exists s', r. split_and!; try done.
Qed.

(** Freeing what was allocated: [page_free] after [page_alloc] of [n] pages
    gives back all the physical frames but only the first virtual page; the
    other [n - 1] pages of the run stay allocated. *)
Theorem page_alloc_free_leak (fuel : nat) (s : pools) (n : Z) :
  kernel_wf s → 1 ≤ n < 4294967296 → kernel_total s ≤ Z.of_nat fuel →
  (∃ r, fit (vm_bitmap (kernel_vm_pool s)) n r) →
  ∃ s1 s2 r, page_alloc fuel s PF_KERNEL n = Ok (s1, page_addr r) ∧
    page_free s1 PF_KERNEL (page_addr r) n = Ok s2 ∧ kernel_wf s2 ∧ 0 ≤ r ∧
    (∀ j, 0 ≤ j → vm_page s2 j = if decide (r < j < r + n) then true else vm_page s j) ∧
    (∀ j, 0 ≤ j → phys_page s2 j = if decide (r ≤ j < r + n) then false else phys_page s j).
Proof.
  intros Hs Hn Hf Hfit.
  destruct (page_alloc_kernel_spec fuel s n Hs Hn Hf Hfit)
    as (s1 & r & E1 & Hs1 & (Hr0 & Hr1 & Hfree) & _ & Hvm1 & Hph1 & _ & _ & Ht1).
  destruct (page_free_kernel_spec s1 r n 0 Hs1) as (s2 & E2 & Hs2 & Hph2 & Hvm2 & _);
    [done|lia| |done|].
  { rewrite Ht1. unfold kernel_total. lia. }
  rewrite Z.add_0_r in E2. exists s1, s2, r. split_and!; try done.
  - intros j Hj. rewrite Hvm2, Hvm1 by done.
    destruct (decide (j = r)) as [->|].
    + rewrite decide_False by lia. symmetry. apply Hfree. lia.
    + repeat case_decide; try done; lia.
  - intros j Hj. rewrite Hph2, Hph1 by done. repeat case_decide; try done; lia.
Qed.

(** ** The hypotheses can be met *)

(** A machine with sixteen kernel pages, of which page 1 is in use. *)
Definition demo_pools : pools :=
  Pools (PhysPool MEM_BITMAP_BASE (Bitmap 2 (Some [2; 0])) 0x1000000 0x10000)
        (PhysPool (MEM_BITMAP_BASE + 2) (Bitmap 1 (Some [0])) 0x1010000 0x8000)
        (VmPool KERNEL_VM_BITMAP_BASE (Bitmap 2 (Some [2; 0])) KERNEL_HEAP_BASE)
        (VmPool 0 (Bitmap 0 None) 0).

Lemma demo_pools_wf : kernel_wf demo_pools.
Proof. split; apply (bool_decide_unpack _); by vm_compute. Qed.

Lemma demo_pools_fit : ∃ r, fit (vm_bitmap (kernel_vm_pool demo_pools)) 3 r.
Proof. exists 2. apply (bool_decide_unpack _). by vm_compute. Qed.

Lemma mem_pool_init_layout_witness :
  ∃ kp up vp, mem_pool_init (λ _, 255) 0x2000000 = Ok (kp, up, vp) ∧
    layout_ok 0x2000000 kp up vp ∧
    pool_ready kp (kernel_pages 0x2000000) ∧ pool_ready up (user_pages 0x2000000) ∧
    (∀ i, 0 ≤ i < total_bits (vm_bitmap vp) → bit (vm_bitmap vp) i = false) ∧
    ∀ uv, kernel_wf (Pools kp up vp uv).
Proof. apply (mem_pool_init_layout (λ _, 255) 0x2000000). lia. Defined.

Lemma page_alloc_kernel_witness :
  ∃ s' r, page_alloc 16 demo_pools PF_KERNEL 3 = Ok (s', page_addr r) ∧ kernel_wf s' ∧
    0 ≤ r ∧ r + 3 ≤ kernel_total demo_pools - 1 ∧
    (∀ j, r ≤ j < r + 3 → vm_page demo_pools j = false) ∧
    (∀ r', r' < r → ¬ fit (vm_bitmap (kernel_vm_pool demo_pools)) 3 r') ∧
    (∀ j, 0 ≤ j → vm_page s' j = if decide (r ≤ j < r + 3) then true else vm_page demo_pools j).
Proof.
  apply (page_alloc_kernel 16 demo_pools 3);
    [apply demo_pools_wf|lia|by vm_compute|apply demo_pools_fit].
Defined.

Lemma page_alloc_free_leak_witness :
  ∃ s1 s2 r, page_alloc 16 demo_pools PF_KERNEL 3 = Ok (s1, page_addr r) ∧
    page_free s1 PF_KERNEL (page_addr r) 3 = Ok s2 ∧ kernel_wf s2 ∧ 0 ≤ r ∧
    (∀ j, 0 ≤ j → vm_page s2 j = if decide (r < j < r + 3) then true else vm_page demo_pools j) ∧
    (∀ j, 0 ≤ j → phys_page s2 j =
       if decide (r ≤ j < r + 3) then false else phys_page demo_pools j).
Proof.
  apply (page_alloc_free_leak 16 demo_pools 3);
    [apply demo_pools_wf|lia|by vm_compute|apply demo_pools_fit].
Defined.
