(* ===== verification/PageTable.v ===== *)
(** The kernel page tables built by [page_table_init] (mm/memory.c), and what
    the processor translates through them. *)
From S2P Require Import Prelude Bitmap Pool.
Local Open Scope Z_scope.

Definition PAGE_DIR_TABLE : Z := 0x100000.
Definition ONE_PAGE_DIR_SIZE : Z := 0x400000.
Definition PG_P_ENABLE : Z := 1.
Definition PG_RW_W : Z := 2.
Definition PG_US_U : Z := 4.

(** Physical memory, by 32-bit words. *)
Definition phys := Z → Z.
Definition write (pm : phys) (a v : Z) : phys := λ a', if a' =? a then v else pm a'.
Definition clear (pm : phys) (a n : Z) : phys :=
  λ a', if (a <=? a') && (a' <? a + n) then 0 else pm a'.

(** * [page_table_init] *)

Definition total_kernel_pages (total_mem : Z) : Z :=
  (if KERNEL_THRESHOLD <=? total_mem then KERNEL_MAX_SIZE else u32 (total_mem / 2)) / PAGE_SIZE.

Definition page_dir_num (kernel_pages : Z) : Z :=
  u32 (kernel_pages * PAGE_SIZE) / ONE_PAGE_DIR_SIZE.

Definition last_page_table_num (kernel_pages : Z) : Z :=
  if u32 (kernel_pages * PAGE_SIZE) mod ONE_PAGE_DIR_SIZE =? 0 then 0
  else u32 (u32 (kernel_pages * PAGE_SIZE) - u32 (ONE_PAGE_DIR_SIZE * page_dir_num kernel_pages))
         / PAGE_SIZE.

Definition kernel_page_mark : Z := Z.lor (Z.lor (Z.lor 0 PG_P_ENABLE) PG_RW_W) PG_US_U.

(** The page tables start in the frame after the directory. *)
Definition page_table_base : Z := u32 (PAGE_DIR_TABLE + 0x1000).

(** The loop over the page directory entries from 768 on. *)
Definition fill_directory (num : Z) (pm : phys) : phys :=
  for_range 768 (Z.to_nat num) (λ i pm,
    write pm (PAGE_DIR_TABLE + 4 * i)
      (u32 (page_table_base + Z.shiftl (i - 768) 12 + kernel_page_mark))) pm.

(** The inner loop: the 1024 entries of one table map 4 MB from [memory_addr]. *)
Definition fill_table (page_table_addr memory_addr n : Z) (pm : phys) : phys :=
  for_range 0 (Z.to_nat n) (λ j pm,
    write pm (page_table_addr + 4 * j)
      (u32 (memory_addr + j * PAGE_SIZE + kernel_page_mark))) pm.

Definition fill_tables (num : Z) (pm : phys) : phys :=
  for_range 0 (Z.to_nat num) (λ i pm,
    fill_table (u32 (page_table_base + Z.shiftl i 12)) (u32 (i * ONE_PAGE_DIR_SIZE)) 1024 pm) pm.

(** [page_table_init]: the new memory and the value loaded in CR3.  After the
    loop over full tables [memory_addr] holds the address of the last one. *)
Definition page_table_init (kernel_pages : Z) (pm : phys) : phys * Z :=
  let num := page_dir_num kernel_pages in
  let last := last_page_table_num kernel_pages in
  let pm := clear pm PAGE_DIR_TABLE (1024 * 1024) in
  let pm := fill_directory num pm in
  let pm := fill_tables num pm in
  let memory_addr := if num =? 0 then 0 else u32 ((num - 1) * ONE_PAGE_DIR_SIZE) in
  let pm :=
    if last =? 0 then pm
    else
      let table := u32 (page_table_base + (num + 1) * 0x1000) in
      let pm := fill_table table (u32 (memory_addr + ONE_PAGE_DIR_SIZE)) last pm in
      write pm (PAGE_DIR_TABLE + 4 * (768 + num)) (u32 (table + kernel_page_mark)) in
  let pm := write pm (PAGE_DIR_TABLE + 4 * 1023) (u32 (PAGE_DIR_TABLE + kernel_page_mark)) in
  (pm, PAGE_DIR_TABLE).

(** * Address translation *)

(** The two-level walk of the 386: an absent directory or table entry gives no
    address.  This is the behaviour of the processor, not code of the kernel. *)
Definition translate (pm : phys) (cr3 va : Z) : option Z :=
  let pde := pm (Z.land cr3 PAGE_MASK + 4 * (va / 0x400000)) in
  if Z.land pde PG_P_ENABLE =? 0 then None
  else
    let pte := pm (Z.land pde PAGE_MASK + 4 * (va / PAGE_SIZE mod 1024)) in
    if Z.land pte PG_P_ENABLE =? 0 then None
    else Some (Z.land pte PAGE_MASK + va mod PAGE_SIZE).

(** ** Lemmas *)

Lemma entry_present v : 0 ≤ v → v mod 4096 = 0 → Z.land (v + kernel_page_mark) PG_P_ENABLE = 1.
Proof.
  intros. change PG_P_ENABLE with (2 ^ 1 - 1). rewrite land_ones_mod by lia.
  change kernel_page_mark with 7. change (2 ^ 1) with 2.
  pose proof (Z.div_mod v 4096 ltac:(lia)).
  replace (v + 7) with (1 + (2048 * (v / 4096) + 3) * 2) by lia. by rewrite Z.mod_add.
Qed.

Lemma entry_frame v :
  0 ≤ v → v mod 4096 = 0 → v < 4294967296 - 4096 → Z.land (v + kernel_page_mark) PAGE_MASK = v.
Proof.
  intros. change kernel_page_mark with 7. unfold PAGE_MASK.
  rewrite land_page_mask by lia. divlia.
Qed.

Lemma write_same pm a v : write pm a v a = v.
Proof. unfold write. by rewrite Z.eqb_refl. Qed.
Lemma write_other pm a v a' : a' ≠ a → write pm a v a' = pm a'.
Proof. intros. unfold write. by rewrite (proj2 (Z.eqb_neq _ _)). Qed.

(** A loop that writes consecutive words. *)
Lemma fill_spec lo n base (f : Z → Z) pm :
  let pm' := for_range lo n (λ i pm, write pm (base + 4 * i) (f i)) pm in
  (∀ i, lo ≤ i < lo + Z.of_nat n → pm' (base + 4 * i) = f i) ∧
  (∀ a, (∀ i, lo ≤ i < lo + Z.of_nat n → a ≠ base + 4 * i) → pm' a = pm a).
Proof.
  intros pm'. subst pm'.
  apply (for_range_inv (λ k pm', (∀ i, lo ≤ i < k → pm' (base + 4 * i) = f i) ∧
    (∀ a, (∀ i, lo ≤ i < k → a ≠ base + 4 * i) → pm' a = pm a))).
  - split; [lia|done].
  - intros k pm1 Hk [H1 H2]. split.
    + intros i Hi. destruct (decide (i = k)) as [->|]; [apply write_same|].
      rewrite write_other by lia. apply H1. lia.
    + intros a Ha. rewrite write_other by (apply Ha; lia). apply H2. intros i Hi. apply Ha. lia.
Qed.

Lemma fill_table_hit t ma n pm j :
  0 ≤ j < n → fill_table t ma n pm (t + 4 * j) = u32 (ma + j * PAGE_SIZE + kernel_page_mark).
Proof.
  intros Hj. unfold fill_table.
  apply (proj1 (fill_spec 0 (Z.to_nat n) t (λ j, u32 (ma + j * PAGE_SIZE + kernel_page_mark)) pm)).
  lia.
Qed.

Lemma fill_table_miss t ma n pm a :
  a < t ∨ t + 4 * n ≤ a → fill_table t ma n pm a = pm a.
Proof.
  intros Ha. unfold fill_table.
  apply (proj2 (fill_spec 0 (Z.to_nat n) t (λ j, u32 (ma + j * PAGE_SIZE + kernel_page_mark)) pm)).
  lia.
Qed.

Definition table_at (i : Z) : Z := page_table_base + i * 4096.

Lemma fill_tables_spec num pm :
  0 ≤ num ≤ 256 →
  (∀ i j, 0 ≤ i < num → 0 ≤ j < 1024 →
     fill_tables num pm (table_at i + 4 * j) =
       i * ONE_PAGE_DIR_SIZE + j * PAGE_SIZE + kernel_page_mark) ∧
  (∀ a, a < page_table_base ∨ table_at num ≤ a → fill_tables num pm a = pm a).
Proof.
  intros Hnum. unfold fill_tables.
  apply (for_range_inv_Z (λ k pm', (∀ i j, 0 ≤ i < k → 0 ≤ j < 1024 →
      pm' (table_at i + 4 * j) = i * ONE_PAGE_DIR_SIZE + j * PAGE_SIZE + kernel_page_mark) ∧
    (∀ a, a < page_table_base ∨ table_at k ≤ a → pm' a = pm a)) num).
  - lia.
  - split; [lia|done].
  - intros k pm1 Hk [H1 H2].
    assert (u32 (page_table_base + Z.shiftl k 12) = table_at k) as Et.
    { unfold table_at. rewrite Z.shiftl_mul_pow2 by lia. change (2 ^ 12) with 4096.
      change page_table_base with 0x101000. apply u32_small. lia. }
    rewrite Et. unfold table_at, ONE_PAGE_DIR_SIZE, PAGE_SIZE in *.
    change page_table_base with 0x101000 in *. change kernel_page_mark with 7 in *.
    split.
    + intros i j Hi Hj. destruct (decide (i = k)) as [->|].
      * rewrite fill_table_hit by lia. unfold PAGE_SIZE. change kernel_page_mark with 7.
        rewrite (u32_small (k * _)) by lia. by rewrite u32_small by lia.
      * rewrite fill_table_miss by lia. apply H1; lia.
    + intros a Ha. rewrite fill_table_miss by lia. apply H2. lia.
Qed.

Lemma fill_directory_spec num pm :
  0 ≤ num ≤ 256 →
  (∀ i, 0 ≤ i < num →
     fill_directory num pm (PAGE_DIR_TABLE + 4 * (768 + i)) = table_at i + kernel_page_mark) ∧
  (∀ a, a < PAGE_DIR_TABLE + 4 * 768 ∨ PAGE_DIR_TABLE + 4 * (768 + num) ≤ a →
     fill_directory num pm a = pm a).
Proof.
  intros Hnum. unfold fill_directory.
  pose proof (fill_spec 768 (Z.to_nat num) PAGE_DIR_TABLE
    (λ i, u32 (page_table_base + Z.shiftl (i - 768) 12 + kernel_page_mark)) pm) as [H1 H2].
  split.
  - intros i Hi. rewrite H1 by lia. unfold table_at. rewrite Z.shiftl_mul_pow2 by lia.
    change (2 ^ 12) with 4096. change page_table_base with 0x101000.
    change kernel_page_mark with 7. rewrite u32_small; lia.
  - intros a Ha. apply H2. lia.
Qed.

(** * The memory after [page_table_init] *)

Lemma page_dir_num_eq kp : 0 ≤ kp ≤ 262144 → page_dir_num kp = kp / 1024.
Proof.
  intros. unfold page_dir_num, PAGE_SIZE, ONE_PAGE_DIR_SIZE. rewrite u32_small by lia. divlia.
Qed.

Lemma last_page_table_num_eq kp : 0 ≤ kp ≤ 262144 → last_page_table_num kp = kp mod 1024.
Proof.
  intros. unfold last_page_table_num. rewrite page_dir_num_eq by done.
  unfold PAGE_SIZE, ONE_PAGE_DIR_SIZE. rewrite (u32_small (kp * 4096)) by lia.
  rewrite (u32_small (0x400000 * _)) by divlia.
  rewrite (u32_small (_ - _)) by divlia.
  destruct (Z.eqb_spec (kp * 4096 mod 0x400000) 0); divlia.
Qed.

Section init.
Variables (kp : Z) (pm : phys).
Hypothesis Hkp : 1024 ≤ kp ≤ 262144.

Definition dir_entry (i : Z) : Z := PAGE_DIR_TABLE + 4 * i.

(** The memory before the partial table and the self-map entry are written. *)
Definition full_tables : phys :=
  fill_tables (kp / 1024) (fill_directory (kp / 1024) (clear pm PAGE_DIR_TABLE (1024 * 1024))).

(** The memory before the self-map entry is written. *)
Definition with_last : phys :=
  if kp mod 1024 =? 0 then full_tables
  else write (fill_table (table_at (kp / 1024 + 1)) (kp / 1024 * ONE_PAGE_DIR_SIZE)
                (kp mod 1024) full_tables)
         (dir_entry (768 + kp / 1024)) (table_at (kp / 1024 + 1) + kernel_page_mark).

Lemma page_table_init_eq :
  page_table_init kp pm =
    (write with_last (dir_entry 1023) (PAGE_DIR_TABLE + kernel_page_mark), PAGE_DIR_TABLE).
Proof using Hkp.
  unfold page_table_init. rewrite page_dir_num_eq, last_page_table_num_eq by lia.
  assert (1 ≤ kp / 1024 ≤ 256) as Hn by divlia.
  rewrite (proj2 (Z.eqb_neq (kp / 1024) 0)) by lia.
  rewrite (u32_small ((kp / 1024 - 1) * ONE_PAGE_DIR_SIZE))
    by (unfold ONE_PAGE_DIR_SIZE; lia).
  replace ((kp / 1024 - 1) * ONE_PAGE_DIR_SIZE + ONE_PAGE_DIR_SIZE)
    with (kp / 1024 * ONE_PAGE_DIR_SIZE) by lia.
  unfold with_last. destruct (Z.eqb_spec (kp mod 1024) 0); [done|].
  rewrite (u32_small (kp / 1024 * ONE_PAGE_DIR_SIZE)) by (unfold ONE_PAGE_DIR_SIZE; divlia).
  assert (u32 (page_table_base + (kp / 1024 + 1) * 0x1000) = table_at (kp / 1024 + 1)) as Et.
  { unfold table_at. apply u32_small. change page_table_base with 0x101000. lia. }
  cbv zeta. rewrite Et. rewrite (u32_small (table_at (kp / 1024 + 1) + kernel_page_mark)).
  2:{ unfold table_at. change page_table_base with 0x101000. change kernel_page_mark with 7. lia. }
  done.
Qed.

(** Memory read by the walk is either in the directory or in a table. *)
Lemma dir_entry_range i : 0 ≤ i < 1024 → PAGE_DIR_TABLE ≤ dir_entry i < page_table_base.
Proof. unfold dir_entry. change page_table_base with 0x101000. unfold PAGE_DIR_TABLE. lia. Qed.

Lemma full_tables_dir i : 0 ≤ i < 1024 →
  full_tables (dir_entry i) =
    if decide (768 ≤ i < 768 + kp / 1024) then table_at (i - 768) + kernel_page_mark else 0.
Proof using Hkp.
  intros Hi. assert (1 ≤ kp / 1024 ≤ 256) as Hn by divlia. unfold full_tables.
  pose proof (dir_entry_range i Hi).
  rewrite (proj2 (fill_tables_spec (kp / 1024) _ ltac:(lia))) by lia.
  destruct (fill_directory_spec (kp / 1024) (clear pm PAGE_DIR_TABLE (1024 * 1024)))
    as [H1 H2]; [lia|]. case_decide.
  - rewrite <- H1 by lia. f_equal. unfold dir_entry. lia.
  - rewrite H2 by (unfold dir_entry, PAGE_DIR_TABLE in *; lia). unfold clear.
    change page_table_base with 0x101000 in *.
    destruct (Z.leb_spec PAGE_DIR_TABLE (dir_entry i)); [|lia].
    destruct (Z.ltb_spec (dir_entry i) (PAGE_DIR_TABLE + 1024 * 1024)); [done|].
    unfold PAGE_DIR_TABLE in *; lia.
Qed.

Lemma with_last_dir i : 0 ≤ i < 1024 →
  with_last (dir_entry i) =
    if decide (768 ≤ i < 768 + kp / 1024) then table_at (i - 768) + kernel_page_mark
    else if decide (i = 768 + kp / 1024 ∧ kp mod 1024 ≠ 0)
    then table_at (kp / 1024 + 1) + kernel_page_mark else 0.
Proof using Hkp.
  intros Hi. unfold with_last. pose proof (dir_entry_range i Hi).
  assert (1 ≤ kp / 1024 ≤ 256) as Hn by divlia.
  destruct (Z.eqb_spec (kp mod 1024) 0).
  { rewrite full_tables_dir by done. repeat case_decide; try done; lia. }
  destruct (decide (i = 768 + kp / 1024)) as [->|].
  { rewrite write_same. repeat case_decide; try done; lia. }
  rewrite write_other by (unfold dir_entry; lia).
  rewrite fill_table_miss by (left; unfold table_at; lia).
  rewrite full_tables_dir by done. repeat case_decide; try done; lia.
Qed.

Lemma with_last_table i j : 0 ≤ i < kp / 1024 → 0 ≤ j < 1024 →
  with_last (table_at i + 4 * j) = i * ONE_PAGE_DIR_SIZE + j * PAGE_SIZE + kernel_page_mark.
Proof using Hkp.
  intros Hi Hj. assert (1 ≤ kp / 1024 ≤ 256) as Hn by divlia.
  assert (full_tables (table_at i + 4 * j) =
    i * ONE_PAGE_DIR_SIZE + j * PAGE_SIZE + kernel_page_mark) as E.
  { apply (proj1 (fill_tables_spec (kp / 1024) _ ltac:(lia))); lia. }
  unfold with_last. destruct (Z.eqb_spec (kp mod 1024) 0); [done|].
  assert (kp / 1024 < 256) by divlia.
  rewrite write_other.
  - rewrite fill_table_miss; [done|]. left. unfold table_at. lia.
  - pose proof (dir_entry_range (768 + kp / 1024)). unfold table_at. lia.
Qed.

Lemma with_last_partial j : 0 ≤ j < kp mod 1024 →
  with_last (table_at (kp / 1024 + 1) + 4 * j) =
    kp / 1024 * ONE_PAGE_DIR_SIZE + j * PAGE_SIZE + kernel_page_mark.
Proof using Hkp.
  intros Hj. assert (1 ≤ kp / 1024 < 256) as Hn by divlia. unfold with_last.
  rewrite (proj2 (Z.eqb_neq (kp mod 1024) 0)) by lia.
  pose proof (dir_entry_range (768 + kp / 1024)).
  rewrite write_other by (unfold table_at; lia).
  rewrite fill_table_hit by done. apply u32_small.
  unfold ONE_PAGE_DIR_SIZE, PAGE_SIZE. change kernel_page_mark with 7.
  assert (kp mod 1024 < 1024) by (apply Z.mod_pos_bound; lia). lia.
Qed.
End init.

(** One walk through a present directory entry and a present table entry. *)
Lemma walk pm va t f :
  0 ≤ t < 4294967296 - 4096 → t mod 4096 = 0 → 0 ≤ f < 4294967296 - 4096 → f mod 4096 = 0 →
  pm (dir_entry (va / 0x400000)) = t + kernel_page_mark →
  pm (t + 4 * (va / PAGE_SIZE mod 1024)) = f + kernel_page_mark →
  translate pm PAGE_DIR_TABLE va = Some (f + va mod PAGE_SIZE).
Proof.
  intros Ht Ht' Hf Hf' E1 E2. unfold translate.
  change (Z.land PAGE_DIR_TABLE PAGE_MASK) with PAGE_DIR_TABLE.
  fold (dir_entry (va / 0x400000)). rewrite E1, entry_present by lia.
  change (1 =? 0) with false. cbv iota. rewrite entry_frame, E2, entry_present by lia.
  change (1 =? 0) with false. cbv iota. by rewrite entry_frame by lia.
Qed.

Lemma walk_no_dir pm va :
  pm (dir_entry (va / 0x400000)) = 0 → translate pm PAGE_DIR_TABLE va = None.
Proof.
  intros E. unfold translate. change (Z.land PAGE_DIR_TABLE PAGE_MASK) with PAGE_DIR_TABLE.
  fold (dir_entry (va / 0x400000)). by rewrite E.
Qed.

Lemma walk_no_page pm va t :
  0 ≤ t < 4294967296 - 4096 → t mod 4096 = 0 →
  pm (dir_entry (va / 0x400000)) = t + kernel_page_mark →
  pm (t + 4 * (va / PAGE_SIZE mod 1024)) = 0 →
  translate pm PAGE_DIR_TABLE va = None.
Proof.
  intros Ht Ht' E1 E2. unfold translate.
  change (Z.land PAGE_DIR_TABLE PAGE_MASK) with PAGE_DIR_TABLE.
  fold (dir_entry (va / 0x400000)). rewrite E1, entry_present by lia.
  change (1 =? 0) with false. cbv iota. by rewrite entry_frame, E2 by lia.
Qed.

Lemma table_at_ok i : 0 ≤ i ≤ 257 → 0 ≤ table_at i < 4294967296 - 4096 ∧ table_at i mod 4096 = 0.
Proof. unfold table_at. change page_table_base with 0x101000. split; [lia|divlia]. Qed.

(** The split of a kernel address into directory index, table index and offset. *)
Lemma va_split x : 0 ≤ x < 0x40000000 →
  (0xc0000000 + x) / 0x400000 = 768 + x / 0x400000 ∧
  (0xc0000000 + x) / PAGE_SIZE mod 1024 = x / PAGE_SIZE mod 1024 ∧
  (0xc0000000 + x) mod PAGE_SIZE = x mod PAGE_SIZE ∧
  x / 0x400000 = x / PAGE_SIZE / 1024 ∧
  x = x / 0x400000 * ONE_PAGE_DIR_SIZE + x / PAGE_SIZE mod 1024 * PAGE_SIZE + x mod PAGE_SIZE.
Proof. intros. unfold PAGE_SIZE, ONE_PAGE_DIR_SIZE. split_and!; divlia. Qed.

Section final.
Variables (kp : Z) (pm : phys).
Hypothesis Hkp : 1024 ≤ kp ≤ 262144.

Lemma final_dir i : 0 ≤ i < 1023 →
  fst (page_table_init kp pm) (dir_entry i) =
    if decide (768 ≤ i < 768 + kp / 1024) then table_at (i - 768) + kernel_page_mark
    else if decide (i = 768 + kp / 1024 ∧ kp mod 1024 ≠ 0)
    then table_at (kp / 1024 + 1) + kernel_page_mark else 0.
Proof using Hkp.
  intros Hi. rewrite page_table_init_eq by done. simpl.
  rewrite write_other by (unfold dir_entry; lia). apply with_last_dir; [done|lia].
Qed.

Lemma final_other a : page_table_base ≤ a →
  fst (page_table_init kp pm) a = with_last kp pm a.
Proof using Hkp.
  intros Ha. rewrite page_table_init_eq by done. simpl. apply write_other.
  pose proof (dir_entry_range 1023). lia.
Qed.

Lemma table_at_ge i j : 0 ≤ i → 0 ≤ j → page_table_base ≤ table_at i + 4 * j.
Proof. unfold table_at. lia. Qed.

Lemma final_linear x : 0 ≤ x < kp * PAGE_SIZE → x < 0x3fc00000 →
  translate (fst (page_table_init kp pm)) PAGE_DIR_TABLE (0xc0000000 + x) = Some x.
Proof using Hkp.
  intros Hx Hx2. destruct (va_split x) as (E1 & E2 & E3 & E4 & E5); [lia|].
  assert (0 ≤ x / PAGE_SIZE mod 1024 < 1024) as Hj by (apply Z.mod_pos_bound; lia).
  assert (0 ≤ x / 0x400000 < 255) as Hd by divlia.
  assert (0 ≤ x mod PAGE_SIZE) by (unfold PAGE_SIZE; divlia).
  assert (x / PAGE_SIZE < kp) as Hp by (unfold PAGE_SIZE in *; divlia).
  set (d := x / 0x400000) in *. set (j := x / PAGE_SIZE mod 1024) in *.
  assert (0 ≤ d * ONE_PAGE_DIR_SIZE + j * PAGE_SIZE < 4294967296 - 4096 ∧
    (d * ONE_PAGE_DIR_SIZE + j * PAGE_SIZE) mod 4096 = 0) as [Hf Hf'].
  { unfold ONE_PAGE_DIR_SIZE, PAGE_SIZE. split; [lia|divlia]. }
  rewrite E5 at 2. rewrite <- E3.
  pose proof (final_dir (768 + d) ltac:(lia)) as HD.
  replace (768 + d - 768) with d in HD by lia.
  destruct (decide (d < kp / 1024)) as [Hlt|Hge].
  - rewrite decide_True in HD by lia.
    destruct (table_at_ok d) as [Ht Ht']; [lia|].
    apply (walk _ _ (table_at d)); try done; rewrite ?E1, ?E2; [done|].
    fold j. rewrite final_other by (apply table_at_ge; lia). apply with_last_table; lia.
  - assert (d = kp / 1024 ∧ j < kp mod 1024) as [Ed Hj'] by (subst d j; rewrite E4 in *; divlia).
    rewrite decide_False, decide_True in HD by lia.
    destruct (table_at_ok (kp / 1024 + 1)) as [Ht Ht']; [lia|].
    apply (walk _ _ (table_at (kp / 1024 + 1))); try done; rewrite ?E1, ?E2; [done|].
    fold j. rewrite final_other by (apply table_at_ge; lia). rewrite Ed.
    apply with_last_partial; lia.
Qed.

Lemma with_last_cleared j : kp / 1024 ≤ 253 → kp mod 1024 ≤ j < 1024 → kp mod 1024 ≠ 0 →
  with_last kp pm (table_at (kp / 1024 + 1) + 4 * j) = 0.
Proof using Hkp.
  intros Hlo Hj Hp. assert (1 ≤ kp / 1024) as Hn by divlia.
  assert (0 ≤ kp mod 1024) by (apply Z.mod_pos_bound; lia).
  unfold with_last. rewrite (proj2 (Z.eqb_neq (kp mod 1024) 0)) by lia.
  pose proof (dir_entry_range (768 + kp / 1024)).
  pose proof (table_at_ge (kp / 1024 + 1) j ltac:(lia) ltac:(lia)).
  rewrite write_other by lia. rewrite fill_table_miss by lia. unfold full_tables.
  rewrite (proj2 (fill_tables_spec (kp / 1024) _ ltac:(lia))) by (unfold table_at; lia).
  rewrite (proj2 (fill_directory_spec (kp / 1024) _ ltac:(lia)))
    by (unfold dir_entry in *; lia).
  unfold clear. destruct (Z.leb_spec PAGE_DIR_TABLE (table_at (kp / 1024 + 1) + 4 * j)).
  2:{ pose proof (dir_entry_range 0). unfold dir_entry in *. lia. }
  destruct (Z.ltb_spec (table_at (kp / 1024 + 1) + 4 * j) (PAGE_DIR_TABLE + 1024 * 1024)); [done|].
  unfold table_at, PAGE_DIR_TABLE in *. change page_table_base with 0x101000 in *. lia.
Qed.

Lemma final_unmapped va :
  kp / 1024 ≤ 253 ∨ kp mod 1024 = 0 → 0 ≤ va < 0xffc00000 →
  va < 0xc0000000 ∨ 0xc0000000 + kp * PAGE_SIZE ≤ va →
  translate (fst (page_table_init kp pm)) PAGE_DIR_TABLE va = None.
Proof using Hkp.
  intros Hlo Hva Hout. assert (0 ≤ va / 0x400000 < 1023) as Hd by divlia.
  pose proof (final_dir (va / 0x400000) Hd) as HD. unfold PAGE_SIZE in Hout.
  destruct (decide (va < 0xc0000000)) as [Hu|Hk].
  { apply walk_no_dir. rewrite HD, !decide_False; [done|divlia..]. }
  rewrite decide_False in HD by divlia. case_decide as Hc.
  - destruct Hc as [Ed Hp]. destruct Hlo as [Hlo|]; [|done].
    destruct (table_at_ok (kp / 1024 + 1)) as [Ht Ht']; [divlia|].
    apply (walk_no_page _ _ (table_at (kp / 1024 + 1))); try done.
    assert (kp mod 1024 ≤ va / PAGE_SIZE mod 1024 < 1024)
      by (unfold PAGE_SIZE in *; divlia).
    rewrite final_other.
    + apply with_last_cleared; lia.
    + apply table_at_ge; [divlia|unfold PAGE_SIZE; divlia].
  - by apply walk_no_dir.
Qed.

(** The last directory entry maps the directory as if it were a table. *)
Lemma final_selfmap i off : 0 ≤ i < kp / 1024 → i < 255 → 0 ≤ off < PAGE_SIZE →
  translate (fst (page_table_init kp pm)) PAGE_DIR_TABLE (0xfff00000 + i * PAGE_SIZE + off) =
    Some (table_at i + off).
Proof using Hkp.
  intros Hi Hi2 Hoff. unfold PAGE_SIZE in Hoff. destruct (table_at_ok i) as [Ht Ht']; [lia|].
  replace off with ((0xfff00000 + i * PAGE_SIZE + off) mod PAGE_SIZE) at 2
    by (unfold PAGE_SIZE; divlia).
  apply (walk _ _ PAGE_DIR_TABLE); try done.
  - replace ((0xfff00000 + i * PAGE_SIZE + off) / 0x400000) with 1023
      by (unfold PAGE_SIZE; divlia).
    rewrite page_table_init_eq by done. apply write_same.
  - replace ((0xfff00000 + i * PAGE_SIZE + off) / PAGE_SIZE mod 1024) with (768 + i)
      by (unfold PAGE_SIZE; divlia).
    fold (dir_entry (768 + i)). rewrite final_dir, decide_True by lia.
    by replace (768 + i - 768) with i by lia.
Qed.
End final.

Lemma total_kernel_pages_big total :
  KERNEL_THRESHOLD ≤ total → total_kernel_pages total = 262144.
Proof. intros. unfold total_kernel_pages. by rewrite (proj2 (Z.leb_le _ _)). Qed.

Lemma kernel_pages_big total :
  KERNEL_THRESHOLD ≤ total → Pool.kernel_pages total = 258048.
Proof. intros. unfold Pool.kernel_pages, kernel_mem_size. by rewrite (proj2 (Z.leb_le _ _)). Qed.

Lemma page_table_spec (kp : Z) (pm : phys) (va : Z) :
  1024 ≤ kp ≤ 262144 → kp / 1024 ≤ 253 ∨ kp mod 1024 = 0 → 0 ≤ va < 0xffc00000 →
  translate (fst (page_table_init kp pm)) (snd (page_table_init kp pm)) va =
    if decide (0xc0000000 ≤ va < 0xc0000000 + kp * PAGE_SIZE) then Some (__pa va) else None.
Proof.
  intros Hkp Hlo Hva. rewrite (page_table_init_eq kp pm Hkp) at 2. simpl snd. case_decide.
  - unfold __pa, PAGE_OFFEST. rewrite u32_small by lia.
    replace va with (0xc0000000 + (va - 0xc0000000)) at 1 by lia.
    apply final_linear; lia.
  - apply final_unmapped; [done..|lia].
Qed.

(** * Properties *)

(** C5. What [page_table_init] maps: with [kernel_pages] pages (at least 4 MB),
    every address below the self-mapped last 4 MB is translated linearly when it
    lies in the first [kernel_pages] pages above 0xc0000000, and to nothing
    otherwise -- in particular nothing below 0xc0000000 is mapped.  (The partial
    table must fit in the cleared megabyte, or there is none.) *)
Theorem page_table_linear (kp : Z) (pm : phys) (va : Z) :
  1024 ≤ kp ≤ 262144 → kp / 1024 ≤ 253 ∨ kp mod 1024 = 0 → 0 ≤ va < 0xffc00000 →
  translate (fst (page_table_init kp pm)) (snd (page_table_init kp pm)) va =
    if decide (0xc0000000 ≤ va < 0xc0000000 + kp * PAGE_SIZE) then Some (__pa va) else None.
Proof. exact (page_table_spec kp pm va). Qed.

(** With at least 2 GB of memory the kernel heap runs into the self-map: the
    page at 0xfff00000 + 4096 i (for i < 255) is one of the pages the kernel's
    virtual pool hands out, but it is translated to the [i]-th kernel page
    table, not to the frame [__pa] that [page_alloc] reserves with it. *)
Theorem heap_reaches_page_tables (total : Z) (pm : phys) (i off : Z) :
  0x80000000 ≤ total → 0 ≤ i < 255 → 0 ≤ off < PAGE_SIZE →
  let va := 0xfff00000 + i * PAGE_SIZE in
  let init := page_table_init (total_kernel_pages total) pm in
  KERNEL_HEAP_BASE ≤ va ∧ va + PAGE_SIZE ≤ KERNEL_HEAP_BASE + Pool.kernel_pages total * PAGE_SIZE ∧
  translate (fst init) (snd init) (va + off) = Some (page_table_base + i * PAGE_SIZE + off) ∧
  __pa va = 0x3ff00000 + i * PAGE_SIZE.
Proof.
  intros Htot Hi Hoff va init. subst va init.
  rewrite total_kernel_pages_big, kernel_pages_big by done.
  split_and!.
  - unfold KERNEL_HEAP_BASE, PAGE_SIZE. lia.
  - unfold KERNEL_HEAP_BASE, PAGE_SIZE. lia.
  - rewrite (page_table_init_eq 262144 pm) at 2 by lia. simpl snd. apply final_selfmap; try lia.
    change (262144 / 1024) with 256. lia.
  - unfold __pa, PAGE_OFFEST, PAGE_SIZE. rewrite u32_small by lia. lia.
Qed.

(** ** Witnesses *)

Lemma page_table_linear_witness :
  translate (fst (page_table_init 1030 (λ a, a))) (snd (page_table_init 1030 (λ a, a)))
    0xc0405123 = Some 0x405123.
Proof.
  rewrite (page_table_linear 1030 (λ a, a) 0xc0405123); [done|lia|by left|lia].
Defined.

Lemma heap_reaches_page_tables_witness :
  let init := page_table_init (total_kernel_pages 0x80000000) (λ _, 0) in
  KERNEL_HEAP_BASE ≤ 0xfff02000 ∧
  0xfff02000 + PAGE_SIZE ≤ KERNEL_HEAP_BASE + Pool.kernel_pages 0x80000000 * PAGE_SIZE ∧
  translate (fst init) (snd init) 0xfff02010 = Some 0x103010 ∧ __pa 0xfff02000 = 0x3ff02000.
Proof.
  apply (heap_reaches_page_tables 0x80000000 (λ _, 0) 2 0x10); unfold PAGE_SIZE; lia.
Defined.
