(* ===== verification/CString.v ===== *)
(** The string and memory routines of lib/string.c, over byte memory. *)
From S2P Require Import Prelude.
Local Open Scope Z_scope.

(** A memory holds one byte (0..255) per address; [char] is signed. *)

(** [p++] and [p--] on a [char *]. *)
Definition ptr_inc (p : Z) : Z := u32 (p + 1).
Definition ptr_dec (p : Z) : Z := u32 (p - 1).

(** [*p] read as a [char]. *)
Definition load_char (m : mem) (p : Z) : outcome Z :=
  let! v := load m p in Ok (s8 v).
(** [*p = c]: the byte kept is the low byte of [c]. *)
Definition store_char (m : mem) (p c : Z) : outcome mem := store m p (u8 c).

(** * Operations *)

Fixpoint memset_loop (count : nat) (m : mem) (dst ch : Z) : outcome mem :=
  match count with
  | O => Ok m
  | S count =>
      let! m := store_char m dst ch in
      memset_loop count m (ptr_inc dst) ch
  end.

Definition memset (m : mem) (_dst ch count : Z) : outcome (mem * Z) :=
  ASSERT (negb (_dst =? NULL)) ;!
  let! m := memset_loop (Z.to_nat count) m _dst (s8 ch) in
  Ok (m, _dst).

Fixpoint memcpy_loop (count : nat) (m : mem) (dst src : Z) : outcome mem :=
  match count with
  | O => Ok m
  | S count =>
      let! c := load_char m src in
      let! m := store_char m dst c in
      memcpy_loop count m (ptr_inc dst) (ptr_inc src)
  end.

Definition memcpy (m : mem) (_dst _src count : Z) : outcome (mem * Z) :=
  ASSERT (negb (_dst =? NULL) && negb (_src =? NULL)) ;!
  let! m := memcpy_loop (Z.to_nat count) m _dst _src in
  Ok (m, _dst).

Fixpoint memcmp_loop (count : nat) (m : mem) (buf1 buf2 res : Z) : outcome Z :=
  match count with
  | O => Ok res
  | S count =>
      let! a := load_char m buf1 in
      let! b := load_char m buf2 in
      let res := s32 (a - b) in
      if negb (res =? 0) then Ok res
      else memcmp_loop count m (ptr_inc buf1) (ptr_inc buf2) res
  end.

Definition memcmp (m : mem) (_buf1 _buf2 count : Z) : outcome Z :=
  ASSERT (negb (_buf1 =? NULL) && negb (_buf2 =? NULL)) ;!
  memcmp_loop (Z.to_nat count) m _buf1 _buf2 0.

(** The loop [while] that copies up to and including the terminator, of [strcpy] and [strcat]. *)
Fixpoint copy_loop (fuel : nat) (m : mem) (tmp src : Z) : outcome mem :=
  match fuel with
  | O => NoFuel
  | S fuel =>
      let! c := load_char m src in
      let! m := store_char m tmp c in
      if negb (c =? 0) then copy_loop fuel m (ptr_inc tmp) (ptr_inc src) else Ok m
  end.

Fixpoint strcmp_loop (fuel : nat) (m : mem) (str1 str2 : Z) : outcome Z :=
  match fuel with
  | O => NoFuel
  | S fuel =>
      let! a := load_char m str1 in
      let! b := load_char m str2 in
      if a =? b then
        if a =? 0 then Ok (s32 (a - b))
        else strcmp_loop fuel m (ptr_inc str1) (ptr_inc str2)
      else Ok (s32 (a - b))
  end.

Fixpoint strlen_loop (fuel : nat) (m : mem) (str count : Z) : outcome Z :=
  match fuel with
  | O => NoFuel
  | S fuel =>
      let! c := load_char m str in
      if negb (c =? 0) then strlen_loop fuel m (ptr_inc str) (u32 (count + 1)) else Ok count
  end.

Fixpoint strchr_loop (fuel : nat) (m : mem) (str ch : Z) : outcome Z :=
  match fuel with
  | O => NoFuel
  | S fuel =>
      let! c := load_char m str in
      if negb (c =? ch) then
        if c =? 0 then Ok NULL else strchr_loop fuel m (ptr_inc str) ch
      else Ok str
  end.

Fixpoint strrchr_loop (fuel : nat) (m : mem) (str p ch : Z) : outcome Z :=
  match fuel with
  | O => NoFuel
  | S fuel =>
      let! c := load_char m p in
      if c =? ch then Ok p
      else
        let p := ptr_dec p in
        if str <=? p then strrchr_loop fuel m str p ch else Ok NULL
  end.

(** The loop that looks for the terminator, first part of [strcat]. *)
Fixpoint end_loop (fuel : nat) (m : mem) (p : Z) : outcome Z :=
  match fuel with
  | O => NoFuel
  | S fuel =>
      let! c := load_char m p in
      if negb (c =? 0) then end_loop fuel m (ptr_inc p) else Ok p
  end.

Fixpoint strchrs_loop (fuel : nat) (m : mem) (str ch res : Z) : outcome Z :=
  match fuel with
  | O => NoFuel
  | S fuel =>
      let! c := load_char m str in
      if negb (c =? 0) then
        strchrs_loop fuel m (ptr_inc str) ch (if c =? ch then u32 (res + 1) else res)
      else Ok res
  end.

Section strings.
(** Fuel of the loops that look for the end of a string. *)
Variable fuel : nat.

Definition strcpy (m : mem) (_dst _src : Z) : outcome (mem * Z) :=
  ASSERT (negb (_dst =? NULL) && negb (_src =? NULL)) ;!
  let! m := copy_loop fuel m _dst _src in
  Ok (m, _dst).

Definition strcmp (m : mem) (_str1 _str2 : Z) : outcome Z :=
  ASSERT (negb (_str1 =? NULL) && negb (_str2 =? NULL)) ;!
  strcmp_loop fuel m _str1 _str2.

Definition strlen (m : mem) (_str : Z) : outcome Z :=
  ASSERT (negb (_str =? NULL)) ;!
  strlen_loop fuel m _str 0.

Definition strchr (m : mem) (_str ch : Z) : outcome Z :=
  ASSERT (negb (_str =? NULL)) ;!
  strchr_loop fuel m _str ch.

Definition strrchr (m : mem) (_str ch : Z) : outcome Z :=
  ASSERT (negb (_str =? NULL)) ;!
  let! len := strlen m _str in
  strrchr_loop fuel m _str (u32 (_str + len)) ch.

Definition strcat (m : mem) (_dst _src : Z) : outcome (mem * Z) :=
  ASSERT (negb (_dst =? NULL) && negb (_src =? NULL)) ;!
  let! p := end_loop fuel m _dst in
  let! m := copy_loop fuel m p _src in
  Ok (m, _dst).

Definition strchrs (m : mem) (_str ch : Z) : outcome Z :=
  ASSERT (negb (_str =? NULL)) ;!
  strchrs_loop fuel m _str ch 0.
End strings.

(** * Blocks and strings in memory *)

Definition byte (x : Z) : Prop := 0 ≤ x < 256.

(** The range [p, p + n) and its end are addresses. *)
Definition fits (p n : Z) : Prop := 0 < p ∧ p + n < 4294967296.

(** The bytes [l] are in memory from [p] on. *)
Fixpoint bytes_at (m : mem) (p : Z) (l : list Z) : Prop :=
  match l with
  | [] => True
  | x :: l => m !! p = Some x ∧ byte x ∧ bytes_at m (p + 1) l
  end.

(** A string: [s] without NULs, then the terminator. *)
Definition cstr (m : mem) (p : Z) (s : list Z) : Prop :=
  bytes_at m p (s ++ [0]) ∧ (0 ∉ s) ∧ fits p (Z.of_nat (length s) + 1).

Definition alloc (m : mem) (p n : Z) : Prop := ∀ a, p ≤ a < p + n → is_Some (m !! a).

(** The memory after the bytes [l] were written from [p] on. *)
Fixpoint write_bytes (m : mem) (p : Z) (l : list Z) : mem :=
  match l with
  | [] => m
  | x :: l => write_bytes (<[p := x]> m) (p + 1) l
  end.

(** Two blocks of memory do not overlap. *)
Definition apart_blocks (p n q k : Z) : Prop := p + n ≤ q ∨ q + k ≤ p.

Lemma u8_s8 c : u8 (s8 c) = u8 c.
Proof. unfold u8, s8. divlia. Qed.
Lemma s8_inj a b : byte a → byte b → s8 a = s8 b → a = b.
Proof. unfold byte, s8. intros. divlia. Qed.
Lemma s8_eqb a b : byte a → byte b → (s8 a =? s8 b) = bool_decide (a = b).
Proof.
  intros. case_bool_decide; [subst; apply Z.eqb_refl|]. apply Z.eqb_neq. intros E.
  by apply s8_inj in E.
Qed.
Lemma s8_eqb0 a : byte a → (s8 a =? 0) = bool_decide (a = 0).
Proof. intros. change 0 with (s8 0) at 1. by rewrite s8_eqb by (unfold byte in *; lia). Qed.
Lemma byte_u8 a : byte a → u8 a = a.
Proof. apply u8_small. Qed.

Lemma bytes_at_lookup m p l :
  bytes_at m p l ↔ ∀ i x, l !! i = Some x → m !! (p + Z.of_nat i) = Some x ∧ byte x.
Proof.
  revert p. induction l as [|y l IH]; intros p; simpl; [split; [intros _ [] ?|]; done|].
  rewrite IH. split.
  - intros (E & Hy & H) [|i] x Hx; simpl in Hx; simplify_eq.
    + by rewrite Z.add_0_r.
    + replace (p + Z.of_nat (S i)) with (p + 1 + Z.of_nat i) by lia. by apply H.
  - intros H. destruct (H 0%nat y eq_refl) as [E ?]. rewrite Z.add_0_r in E. split_and!; try done.
    intros i x Hx. replace (p + 1 + Z.of_nat i) with (p + Z.of_nat (S i)) by lia. by apply H.
Qed.

Lemma bytes_at_app m p l1 l2 :
  bytes_at m p (l1 ++ l2) ↔ bytes_at m p l1 ∧ bytes_at m (p + Z.of_nat (length l1)) l2.
Proof.
  revert p. induction l1 as [|x l1 IH]; intros p; simpl.
  - rewrite Z.add_0_r. tauto.
  - rewrite IH. replace (p + Z.of_nat (S (length l1))) with (p + 1 + Z.of_nat (length l1)) by lia.
    tauto.
Qed.

Lemma bytes_at_alloc m p l : bytes_at m p l → alloc m p (Z.of_nat (length l)).
Proof.
  intros H a Ha. destruct (lookup_lt_is_Some_2 l (Z.to_nat (a - p))) as [x Hx]; [lia|].
  apply (proj1 (bytes_at_lookup m p l) H) in Hx as [Hx _].
  replace (p + Z.of_nat (Z.to_nat (a - p))) with a in Hx by lia. by eexists.
Qed.

Lemma alloc_insert m p n a x : alloc m p n → alloc (<[a := x]> m) p n.
Proof. intros H b Hb. destruct (decide (a = b)) as [->|]; [rewrite lookup_insert_eq; eauto|]. rewrite lookup_insert_ne by done. by apply H. Qed.

Lemma bytes_at_insert m p l a x :
  a < p ∨ p + Z.of_nat (length l) ≤ a → bytes_at m p l → bytes_at (<[a := x]> m) p l.
Proof.
  intros Ha H. apply bytes_at_lookup. intros i y Hy.
  pose proof (lookup_lt_Some _ _ _ Hy). rewrite lookup_insert_ne by lia.
  by apply (proj1 (bytes_at_lookup m p l) H).
Qed.

Lemma write_bytes_lookup m p l a :
  write_bytes m p l !! a =
    if decide (p ≤ a < p + Z.of_nat (length l)) then l !! Z.to_nat (a - p) else m !! a.
Proof.
  revert m p. induction l as [|x l IH]; intros m p; simpl.
  - rewrite decide_False by lia. done.
  - rewrite IH. destruct (decide (a = p)) as [->|].
    + rewrite decide_False, decide_True by lia. rewrite lookup_insert_eq.
      by replace (Z.to_nat (p - p)) with 0%nat by lia.
    + rewrite lookup_insert_ne by done. repeat case_decide; try lia; [|done].
      by replace (Z.to_nat (a - p)) with (S (Z.to_nat (a - (p + 1)))) by lia.
Qed.

Lemma write_bytes_at m p l : Forall byte l → bytes_at (write_bytes m p l) p l.
Proof.
  intros Hl. apply bytes_at_lookup. intros i x Hx. pose proof (lookup_lt_Some _ _ _ Hx).
  rewrite write_bytes_lookup, decide_True by lia.
  replace (Z.to_nat (p + Z.of_nat i - p)) with i by lia. split; [done|].
  by eapply Forall_lookup_1.
Qed.

Lemma write_bytes_other m p l q k :
  apart_blocks p (Z.of_nat (length l)) q (Z.of_nat (length k)) →
  bytes_at m q k → bytes_at (write_bytes m p l) q k.
Proof.
  unfold apart_blocks. intros Ha H. apply bytes_at_lookup. intros i x Hx.
  pose proof (lookup_lt_Some _ _ _ Hx). rewrite write_bytes_lookup, decide_False by lia.
  by apply (proj1 (bytes_at_lookup m q k) H).
Qed.

Lemma bytes_at_byte m p l : bytes_at m p l → Forall byte l.
Proof.
  intros H. apply Forall_lookup_2. intros i x Hx. apply (proj1 (bytes_at_lookup m p l) H) in Hx as [_ ?]. done.
Qed.

Lemma load_char_eq m p x : m !! p = Some x → load_char m p = Ok (s8 x).
Proof. intros E. unfold load_char. by rewrite (load_Some _ _ _ E). Qed.

Lemma store_char_eq m p x : is_Some (m !! p) → store_char m p (s8 x) = Ok (<[p := u8 x]> m).
Proof. intros E. unfold store_char. by rewrite store_is_Some, u8_s8. Qed.

Lemma ptr_inc_eq p n : fits p n → 0 < n → ptr_inc p = p + 1.
Proof. unfold fits. intros. apply u32_small. lia. Qed.

Lemma fits_inc p n : fits p n → 0 < n → fits (p + 1) (n - 1).
Proof. unfold fits. lia. Qed.

(** ** Block operations *)

Lemma memset_loop_eq n m p ch :
  fits p (Z.of_nat n) → alloc m p (Z.of_nat n) →
  memset_loop n m p (s8 ch) = Ok (write_bytes m p (replicate n (u8 ch))).
Proof.
  revert m p. induction n as [|n IH]; intros m p Hf Ha; simpl; [done|].
  rewrite store_char_eq by (apply Ha; lia). simpl. rewrite (ptr_inc_eq p _ Hf) by lia.
  apply IH; [unfold fits in *; lia|]. apply alloc_insert. intros a ?. apply Ha. lia.
Qed.

Lemma memcpy_loop_eq m dst src l :
  fits dst (Z.of_nat (length l)) → fits src (Z.of_nat (length l)) →
  bytes_at m src l → alloc m dst (Z.of_nat (length l)) →
  dst ≤ src ∨ src + Z.of_nat (length l) ≤ dst →
  memcpy_loop (length l) m dst src = Ok (write_bytes m dst l).
Proof.
  revert m dst src. induction l as [|x l IH]; intros m dst src Hd Hs Hl Ha Ho;
    cbn [memcpy_loop length write_bytes bytes_at] in *; [done|].
  destruct Hl as (E & Hx & Hl). rewrite (load_char_eq _ _ _ E). simpl.
  rewrite store_char_eq by (apply Ha; lia). simpl. rewrite byte_u8 by done.
  rewrite (ptr_inc_eq _ _ Hd), (ptr_inc_eq _ _ Hs) by lia.
  apply IH; try (unfold fits in *; lia).
  - apply bytes_at_insert; [|done]. lia.
  - apply alloc_insert. intros a ?. apply Ha. lia.
Qed.

(** Copying upwards into the block itself. *)
Lemma memcpy_loop_up n m dst src :
  fits dst (Z.of_nat n) → 0 < src < dst → alloc m src (dst - src + Z.of_nat n) →
  (∀ a x, m !! a = Some x → byte x) →
  ∃ m', memcpy_loop n m dst src = Ok m' ∧
    (∀ a, a < dst ∨ dst + Z.of_nat n ≤ a → m' !! a = m !! a) ∧
    (∀ i, 0 ≤ i < Z.of_nat n → m' !! (dst + i) = m' !! (src + i)).
Proof.
  revert m dst src. induction n as [|n IH]; intros m dst src Hd Hs Ha Hb; cbn [memcpy_loop].
  { exists m. split_and!; [done|done|lia]. }
  destruct (Ha src) as [x E]; [lia|]. pose proof (Hb _ _ E) as Hx.
  rewrite (load_char_eq _ _ _ E). simpl.
  rewrite store_char_eq by (apply Ha; lia). simpl. rewrite byte_u8 by done.
  rewrite (ptr_inc_eq _ _ Hd) by lia. replace (ptr_inc src) with (src + 1)
    by (symmetry; apply u32_small; unfold fits in *; lia).
  destruct (IH (<[dst := x]> m) (dst + 1) (src + 1)) as (m' & Em & Hout & Hin).
  - unfold fits in *; lia.
  - lia.
  - apply alloc_insert. intros a ?. apply Ha. lia.
  - intros a y. rewrite lookup_insert_Some. intros [[_ <-]|[_ ?]]; eauto.
  - exists m'. split_and!; [done|..].
    + intros a ?. rewrite Hout by lia. by rewrite lookup_insert_ne by lia.
    + intros i Hi. destruct (decide (i = 0)) as [->|].
      * rewrite !Z.add_0_r, !Hout by lia. by rewrite lookup_insert_eq, lookup_insert_ne by lia.
      * replace (dst + i) with (dst + 1 + (i - 1)) by lia.
        replace (src + i) with (src + 1 + (i - 1)) by lia. apply Hin. lia.
Qed.

(** ** Comparisons *)

(** What [memcmp] and [strcmp] tell about two sequences of the same kind:
    equality, or the difference at the first place where they differ. *)
Definition compared (l1 l2 : list Z) (r : Z) : Prop :=
  (r = 0 ∧ l1 = l2) ∨
  ∃ p a b t1 t2, l1 = p ++ a :: t1 ∧ l2 = p ++ b :: t2 ∧ a ≠ b ∧ r = s8 a - s8 b ∧ r ≠ 0.

Lemma compared_cons x l1 l2 r : compared l1 l2 r → compared (x :: l1) (x :: l2) r.
Proof.
  intros [[-> ->]|(p & a & b & t1 & t2 & -> & -> & ? & -> & ?)]; [by left|right].
  exists (x :: p), a, b, t1, t2. done.
Qed.

Lemma s8_diff a b : s32 (s8 a - s8 b) = s8 a - s8 b.
Proof. apply s32_small. pose proof (s8_range a). pose proof (s8_range b). lia. Qed.

Lemma compared_diff a b t1 t2 :
  byte a → byte b → a ≠ b → compared (a :: t1) (b :: t2) (s8 a - s8 b).
Proof.
  intros Ha Hb Hne. right. exists [], a, b, t1, t2. split_and!; try done.
  intros H0. apply Hne, s8_inj; [done..|lia].
Qed.

Lemma memcmp_loop_eq m p q l1 l2 :
  length l1 = length l2 → fits p (Z.of_nat (length l1)) → fits q (Z.of_nat (length l2)) →
  bytes_at m p l1 → bytes_at m q l2 →
  ∃ r, memcmp_loop (length l1) m p q 0 = Ok r ∧ compared l1 l2 r.
Proof.
  revert p q l2. induction l1 as [|a l1 IH]; intros p q [|b l2] Hlen Hp Hq H1 H2; try done.
  { exists 0. split; [done|by left]. }
  cbn [memcmp_loop length bytes_at] in *. destruct H1 as (E1 & Ha & H1), H2 as (E2 & Hb & H2).
  rewrite (load_char_eq _ _ _ E1), (load_char_eq _ _ _ E2). simpl. rewrite s8_diff.
  destruct (decide (a = b)) as [->|Hne].
  - rewrite Z.sub_diag. simpl. rewrite (ptr_inc_eq _ _ Hp), (ptr_inc_eq _ _ Hq) by lia.
    destruct (IH (p + 1) (q + 1) l2) as (r & Er & Hr);
      [lia|unfold fits in *; lia|unfold fits in *; lia|done..|].
    exists r. split; [done|by apply compared_cons].
  - destruct (Z.eqb_spec (s8 a - s8 b) 0); simpl.
    { destruct Hne. apply s8_inj; [done..|lia]. }
    eexists. split; [done|by apply compared_diff].
Qed.

Lemma elem_of_app_cons {A} (l1 l2 : list A) x : x ∈ l1 ++ x :: l2.
Proof. set_solver. Qed.

Lemma strcmp_loop_eq fuel m p q s1 s2 :
  (length s1 < fuel)%nat → cstr m p s1 → cstr m q s2 →
  ∃ r, strcmp_loop fuel m p q = Ok r ∧ compared (s1 ++ [0]) (s2 ++ [0]) r.
Proof.
  revert fuel p q s2. induction s1 as [|a s1 IH]; intros [|fuel] p q s2 Hfuel [H1 [Hn1 Hf1]]
    [H2 [Hn2 Hf2]]; try (simpl in Hfuel; lia); cbn [strcmp_loop].
  - destruct H1 as (E1 & _ & _). destruct s2 as [|b s2], H2 as (E2 & Hb & _).
    + rewrite (load_char_eq _ _ _ E1), (load_char_eq _ _ _ E2). simpl. exists 0.
      split; [done|by left].
    + rewrite (load_char_eq _ _ _ E1), (load_char_eq _ _ _ E2). cbn [obind].
      assert (b ≠ 0) by set_solver. rewrite s8_eqb, bool_decide_false, s8_diff by done.
      eexists. split; [done|]. by apply compared_diff.
  - destruct H1 as (E1 & Ha & H1). assert (a ≠ 0) as Ha0 by set_solver.
    rewrite (load_char_eq _ _ _ E1). cbn [obind].
    destruct s2 as [|b s2], H2 as (E2 & Hb & H2); rewrite (load_char_eq _ _ _ E2); cbn [obind].
    + rewrite s8_eqb, bool_decide_false, s8_diff by done.
      eexists. split; [done|]. by apply compared_diff.
    + rewrite s8_eqb by done. rewrite s8_diff. case_bool_decide as Hab.
      * subst b. rewrite s8_eqb0, bool_decide_false by done. simpl in Hf1, Hf2, Hfuel.
        rewrite (ptr_inc_eq _ _ Hf1), (ptr_inc_eq _ _ Hf2) by lia.
        destruct (IH fuel (p + 1) (q + 1) s2) as (r & Er & Hr).
        -- lia.
        -- split_and!; [done|set_solver|unfold fits in *; lia].
        -- split_and!; [done|set_solver|unfold fits in *; lia].
        -- exists r. split; [done|by apply compared_cons].
      * eexists. split; [done|]. by apply compared_diff.
Qed.

(** ** Looking for the end of a string *)

Lemma cstr_cons m p x s :
  cstr m p (x :: s) → m !! p = Some x ∧ byte x ∧ x ≠ 0 ∧ ptr_inc p = p + 1 ∧ cstr m (p + 1) s.
Proof.
  intros [(E & Hx & H) [Hn Hf]]. simpl in Hf. split_and!; try done.
  - set_solver.
  - eapply ptr_inc_eq; [done|lia].
  - split_and!; [done|set_solver|unfold fits in *; lia].
Qed.

Lemma cstr_nil m p : cstr m p [] → m !! p = Some 0.
Proof. by intros [[E _] _]. Qed.

Lemma strlen_loop_eq fuel m p s k :
  (length s < fuel)%nat → cstr m p s → 0 ≤ k → k + Z.of_nat (length s) < 4294967296 →
  strlen_loop fuel m p k = Ok (k + Z.of_nat (length s)).
Proof.
  revert fuel p k. induction s as [|x s IH]; intros [|fuel] p k Hfuel Hs Hk Hk2;
    simpl in Hfuel; try lia; cbn [strlen_loop].
  - rewrite (load_char_eq _ _ _ (cstr_nil _ _ Hs)). simpl. f_equal. lia.
  - apply cstr_cons in Hs as (E & Hx & Hx0 & Ep & Hs). rewrite (load_char_eq _ _ _ E).
    cbn [obind]. rewrite s8_eqb0, bool_decide_false by done. cbn [negb]. rewrite Ep.
    simpl in Hk2. rewrite u32_small by lia. rewrite IH; [|lia|done|lia|lia].
    f_equal. simpl. lia.
Qed.

Lemma end_loop_eq fuel m p s :
  (length s < fuel)%nat → cstr m p s → end_loop fuel m p = Ok (p + Z.of_nat (length s)).
Proof.
  revert fuel p. induction s as [|x s IH]; intros [|fuel] p Hfuel Hs;
    simpl in Hfuel; try lia; cbn [end_loop].
  - rewrite (load_char_eq _ _ _ (cstr_nil _ _ Hs)). simpl. f_equal. lia.
  - apply cstr_cons in Hs as (E & Hx & Hx0 & Ep & Hs). rewrite (load_char_eq _ _ _ E).
    cbn [obind]. rewrite s8_eqb0, bool_decide_false by done. cbn [negb]. rewrite Ep.
    rewrite IH; [|lia|done]. f_equal. simpl. lia.
Qed.

(** The number of times [c] occurs in [s]. *)
Definition occurrences (c : Z) (s : list Z) : nat := length (filter (λ x, x = c) s).

Lemma strchrs_loop_eq fuel m p s c k :
  byte c → (length s < fuel)%nat → cstr m p s → 0 ≤ k → k + Z.of_nat (length s) < 4294967296 →
  strchrs_loop fuel m p (s8 c) k = Ok (k + Z.of_nat (occurrences c s)).
Proof.
  intros Hc. revert fuel p k. induction s as [|x s IH]; intros [|fuel] p k Hfuel Hs Hk Hk2;
    simpl in Hfuel; try lia; cbn [strchrs_loop].
  - rewrite (load_char_eq _ _ _ (cstr_nil _ _ Hs)). simpl. f_equal. unfold occurrences. simpl. lia.
  - apply cstr_cons in Hs as (E & Hx & Hx0 & Ep & Hs). rewrite (load_char_eq _ _ _ E).
    cbn [obind]. rewrite s8_eqb0, bool_decide_false by done. cbn [negb]. rewrite Ep.
    simpl in Hk2. rewrite s8_eqb by done. unfold occurrences in *. rewrite filter_cons.
    destruct (decide (x = c)) as [->|].
    + rewrite bool_decide_true, u32_small by (done || lia). rewrite IH; [|lia|done|lia|lia].
      f_equal. simpl. lia.
    + rewrite bool_decide_false by done. rewrite IH; [done|lia|done|lia|lia].
Qed.

(** ** Searching *)

(** The answer of [strchr]: the first [c] of [l], which starts at [p]. *)
Definition first_at (p : Z) (l : list Z) (c r : Z) : Prop :=
  (r = NULL ∧ (c ∉ l)) ∨ ∃ l1 l2, l = l1 ++ c :: l2 ∧ (c ∉ l1) ∧ r = p + Z.of_nat (length l1).

(** The answer of [strrchr]: the last [c] of [l]. *)
Definition last_at (p : Z) (l : list Z) (c r : Z) : Prop :=
  (r = NULL ∧ (c ∉ l)) ∨ ∃ l1 l2, l = l1 ++ c :: l2 ∧ (c ∉ l2) ∧ r = p + Z.of_nat (length l1).

Lemma strchr_loop_eq fuel m p s c :
  byte c → (length s < fuel)%nat → cstr m p s →
  ∃ r, strchr_loop fuel m p (s8 c) = Ok r ∧ first_at p (s ++ [0]) c r.
Proof.
  intros Hc. revert fuel p. induction s as [|x s IH]; intros [|fuel] p Hfuel Hs;
    simpl in Hfuel; try lia; cbn [strchr_loop].
  - rewrite (load_char_eq _ _ _ (cstr_nil _ _ Hs)). cbn [obind].
    rewrite s8_eqb by (done || by unfold byte). case_bool_decide as H0; simpl.
    + exists p. split; [done|right]. exists [], []. subst c. split_and!; [done|set_solver|simpl; lia].
    + exists NULL. split; [done|left]. split; [done|]. set_solver.
  - apply cstr_cons in Hs as (E & Hx & Hx0 & Ep & Hs). rewrite (load_char_eq _ _ _ E).
    cbn [obind]. rewrite s8_eqb by done. case_bool_decide as Hxc; cbn [negb].
    + subst c. exists p. split; [done|right]. exists [], (s ++ [0]).
      split_and!; [done|set_solver|simpl; lia].
    + rewrite s8_eqb0, bool_decide_false by done. rewrite Ep.
      destruct (IH fuel (p + 1)) as (r & Er & Hr); [lia|done|]. exists r. split; [done|].
      destruct Hr as [[-> Hn]|(l1 & l2 & El & Hn & ->)].
      * left. split; [done|]. set_solver.
      * right. exists (x :: l1), l2. simpl. rewrite El. split_and!; [done|set_solver|lia].
Qed.

Lemma strrchr_loop_eq fuel m p t x c :
  byte c → (length t < fuel)%nat → fits p (Z.of_nat (length t)) → bytes_at m p (t ++ [x]) →
  ∃ r, strrchr_loop fuel m p (p + Z.of_nat (length t)) (s8 c) = Ok r ∧ last_at p (t ++ [x]) c r.
Proof.
  intros Hc. revert fuel x. induction t as [|y t IH] using rev_ind; intros [|fuel] x Hfuel Hf Hl;
    try lia; apply bytes_at_app in Hl as [Hl (E & Hx & _)]; cbn [strrchr_loop];
    rewrite (load_char_eq _ _ _ E); cbn [obind]; rewrite s8_eqb by done;
    case_bool_decide as Hxc.
  - exists p. split; [f_equal; simpl; lia|right]. exists [], []. subst c.
    split_and!; [done|set_solver|simpl; lia].
  - simpl. unfold ptr_dec. rewrite Z.add_0_r, u32_small by (unfold fits in *; simpl in *; lia).
    destruct (Z.leb_spec p (p - 1)); [lia|]. exists NULL. split; [done|left].
    split; [done|]. set_solver.
  - eexists. split; [done|right]. exists (t ++ [y]), []. subst c.
    split_and!; [done|set_solver|done].
  - rewrite length_app in *. cbn [length] in *. unfold ptr_dec.
    replace (p + Z.of_nat (length t + 1) - 1) with (p + Z.of_nat (length t)) by lia.
    rewrite u32_small by (unfold fits in *; lia).
    destruct (Z.leb_spec p (p + Z.of_nat (length t))); [|lia].
    destruct (IH fuel y) as (r & Er & Hr); [lia|unfold fits in *; lia|done|].
    exists r. split; [done|]. destruct Hr as [[-> Hn]|(l1 & l2 & El & Hn & ->)].
    + left. split; [done|]. set_solver.
    + right. exists l1, (l2 ++ [x]). rewrite El, <- app_assoc. split_and!; [done|set_solver|lia].
Qed.

(** ** Copying strings *)

Lemma copy_loop_eq fuel m dst src s :
  (length s < fuel)%nat → cstr m src s →
  fits dst (Z.of_nat (length s) + 1) → alloc m dst (Z.of_nat (length s) + 1) →
  dst ≤ src ∨ src + Z.of_nat (length s) + 1 ≤ dst →
  copy_loop fuel m dst src = Ok (write_bytes m dst (s ++ [0])).
Proof.
  revert fuel m dst src. induction s as [|x s IH]; intros [|fuel] m dst src Hfuel Hs Hf Ha Ho;
    simpl in Hfuel; try lia; cbn [copy_loop].
  - rewrite (load_char_eq _ _ _ (cstr_nil _ _ Hs)). cbn [obind].
    rewrite store_char_eq by (apply Ha; simpl; lia). done.
  - apply cstr_cons in Hs as (E & Hx & Hx0 & Ep & Hs). rewrite (load_char_eq _ _ _ E).
    cbn [obind length] in *. rewrite store_char_eq by (apply Ha; lia). cbn [obind].
    rewrite s8_eqb0, bool_decide_false by done. cbn [negb]. rewrite Ep, byte_u8 by done.
    rewrite (ptr_inc_eq _ _ Hf) by lia. cbn [write_bytes app].
    apply IH; [lia| |unfold fits in *; lia| |lia].
    + destruct Hs as [Hs [? Hfs]]. split_and!; try done. apply bytes_at_insert; [|done].
      rewrite length_app. simpl. lia.
    + apply alloc_insert. intros a ?. apply Ha. lia.
Qed.

Lemma cstr_after_write m p s : 0 ∉ s → Forall byte s → fits p (Z.of_nat (length s) + 1) →
  cstr (write_bytes m p (s ++ [0])) p s.
Proof.
  intros Hn Hs Hf. split_and!; [|done|done]. apply write_bytes_at.
  apply Forall_app_2; [done|]. by repeat constructor.
Qed.

Lemma cstr_byte m p s : cstr m p s → Forall byte s.
Proof. intros [H _]. apply bytes_at_byte in H. by apply Forall_app in H as [? _]. Qed.

(** The prefix of a string stays when its end is overwritten. *)
Lemma cstr_append m p s1 s2 :
  bytes_at m p s1 → 0 ∉ s1 → 0 ∉ s2 → Forall byte s2 →
  fits p (Z.of_nat (length s1 + length s2) + 1) →
  cstr (write_bytes m (p + Z.of_nat (length s1)) (s2 ++ [0])) p (s1 ++ s2).
Proof.
  intros H1 Hn1 Hn2 Hs2 Hf. split_and!; [|set_solver|by rewrite length_app].
  rewrite <- app_assoc. apply bytes_at_app. split.
  - apply write_bytes_other; [|done]. right. lia.
  - apply write_bytes_at, Forall_app_2; [done|]. by repeat constructor.
Qed.

Lemma fits_not_null p n : fits p n → (negb (p =? NULL)) = true.
Proof. unfold fits, NULL. intros. by destruct (Z.eqb_spec p 0); [lia|]. Qed.

Lemma fits_not_null2 p n q k : fits p n → fits q k → (negb (p =? NULL) && negb (q =? NULL)) = true.
Proof. intros Hp Hq. by rewrite (fits_not_null _ _ Hp), (fits_not_null _ _ Hq). Qed.

Lemma strlen_eq fuel m p s :
  (length s < fuel)%nat → cstr m p s → strlen fuel m p = Ok (Z.of_nat (length s)).
Proof.
  intros Hfuel Hs. pose proof Hs as (_ & _ & Hf). unfold strlen.
  rewrite (ASSERT_true _ (fits_not_null _ _ Hf)). simpl.
  rewrite (strlen_loop_eq _ _ _ s) by (done || unfold fits in *; lia). done.
Qed.

Lemma memcmp_eq m p q l1 l2 :
  length l1 = length l2 → fits p (Z.of_nat (length l1)) → fits q (Z.of_nat (length l2)) →
  bytes_at m p l1 → bytes_at m q l2 →
  ∃ r, memcmp m p q (Z.of_nat (length l1)) = Ok r ∧ compared l1 l2 r.
Proof.
  intros Hlen Hp Hq H1 H2. unfold memcmp.
  rewrite (ASSERT_true _ (fits_not_null2 _ _ _ _ Hp Hq)). simpl. rewrite Nat2Z.id.
  by apply memcmp_loop_eq.
Qed.

Lemma memset_eq m p ch n : 0 ≤ n → fits p n → alloc m p n →
  memset m p ch n = Ok (write_bytes m p (replicate (Z.to_nat n) (u8 ch)), p).
Proof.
  intros Hn Hf Ha. unfold memset. rewrite (ASSERT_true _ (fits_not_null _ _ Hf)). simpl.
  rewrite memset_loop_eq; [done|by rewrite Z2Nat.id|by rewrite Z2Nat.id].
Qed.

Lemma compared_0 l1 l2 r : compared l1 l2 r → (r = 0 ↔ l1 = l2).
Proof.
  intros [[-> ->]|(p & a & b & t1 & t2 & -> & -> & Hne & -> & Hr)]; [done|].
  split; [done|]. intros E. by simplify_eq.
Qed.

(** * Properties *)

(** [memcpy] of a block [l] to a place that does not start inside the block:
    the destination then holds [l] and no other byte of memory changed, and
    [memcmp] of the destination with any block holding [l] answers 0. *)
Theorem memcpy_copies (m : mem) (dst src q : Z) (l : list Z) :
  fits dst (Z.of_nat (length l)) → fits src (Z.of_nat (length l)) →
  bytes_at m src l → alloc m dst (Z.of_nat (length l)) →
  dst ≤ src ∨ src + Z.of_nat (length l) ≤ dst →
  ∃ m', memcpy m dst src (Z.of_nat (length l)) = Ok (m', dst) ∧ bytes_at m' dst l ∧
    (∀ a, a < dst ∨ dst + Z.of_nat (length l) ≤ a → m' !! a = m !! a) ∧
    (fits q (Z.of_nat (length l)) → bytes_at m' q l →
     memcmp m' dst q (Z.of_nat (length l)) = Ok 0).
Proof.
  intros Hd Hs Hl Ha Ho. pose proof (bytes_at_byte _ _ _ Hl) as Hb.
  exists (write_bytes m dst l). split_and!.
  - unfold memcpy. rewrite (ASSERT_true _ (fits_not_null2 _ _ _ _ Hd Hs)). simpl.
    by rewrite Nat2Z.id, memcpy_loop_eq.
  - by apply write_bytes_at.
  - intros a ?. by rewrite write_bytes_lookup, decide_False by lia.
  - intros Hq Hlq. destruct (memcmp_eq (write_bytes m dst l) dst q l l) as (r & -> & Hr); try done.
    { by apply write_bytes_at. }
    by apply compared_0 in Hr as [_ ->].
Qed.

(** [memcpy] does not move overlapping blocks: copying to a destination
    [d > 0] bytes above the source, it repeats the first [d] bytes of the source
    with period [d]. *)
Theorem memcpy_overlap_repeats (m : mem) (src d n : Z) :
  0 < src → 0 < d → 0 ≤ n → fits (src + d) n → alloc m src (d + n) →
  (∀ a x, m !! a = Some x → byte x) →
  ∃ m', memcpy m (src + d) src n = Ok (m', src + d) ∧
    ∀ i, 0 ≤ i < d + n → m' !! (src + i) = m !! (src + i mod d).
Proof.
  intros Hs Hd Hn Hf Ha Hb. assert (fits src n) as Hfs by (unfold fits in *; lia).
  destruct (memcpy_loop_up (Z.to_nat n) m (src + d) src) as (m' & E & Hout & Hin).
  - by rewrite Z2Nat.id.
  - lia.
  - rewrite Z2Nat.id by done. by replace (src + d - src + n) with (d + n) by lia.
  - done.
  - exists m'. unfold memcpy. rewrite (ASSERT_true _ (fits_not_null2 _ _ _ _ Hf Hfs)). simpl.
    rewrite E. split; [done|]. intros i [Hi0 Hi]. revert Hi.
    induction i as [i IH] using (well_founded_induction (Z.lt_wf 0)). intros Hi.
    destruct (decide (i < d)).
    + rewrite Hout by lia. by rewrite Z.mod_small by lia.
    + replace (src + i) with (src + d + (i - d)) by lia. rewrite Hin by lia.
      rewrite IH by lia. f_equal. f_equal.
      replace i with (i - d + 1 * d) at 2 by lia. by rewrite Z.mod_add by lia.
Qed.

(** [memcmp] and [strcmp] decide equality, and otherwise return the
    difference of the first two characters that differ, as signed characters. *)
Theorem comparisons (fuel : nat) (m : mem) (p q : Z) (l1 l2 s1 s2 : list Z) :
  (length l1 = length l2 → fits p (Z.of_nat (length l1)) → fits q (Z.of_nat (length l2)) →
   bytes_at m p l1 → bytes_at m q l2 →
   ∃ r, memcmp m p q (Z.of_nat (length l1)) = Ok r ∧ compared l1 l2 r ∧ (r = 0 ↔ l1 = l2)) ∧
  ((length s1 < fuel)%nat → cstr m p s1 → cstr m q s2 →
   ∃ r, strcmp fuel m p q = Ok r ∧ compared (s1 ++ [0]) (s2 ++ [0]) r ∧ (r = 0 ↔ s1 = s2)).
Proof.
  split.
  - intros. destruct (memcmp_eq m p q l1 l2) as (r & ? & Hr); try done. exists r.
    split_and!; try done; by apply compared_0.
  - intros Hfuel H1 H2. pose proof H1 as (_ & _ & Hf1). pose proof H2 as (_ & _ & Hf2).
    destruct (strcmp_loop_eq fuel m p q s1 s2) as (r & E & Hr); try done. exists r.
    unfold strcmp. rewrite (ASSERT_true _ (fits_not_null2 _ _ _ _ Hf1 Hf2)). simpl.
    split_and!; try done. rewrite (compared_0 _ _ _ Hr). split; [|by intros ->].
    apply app_inj_2. done.
Qed.

(** Building a string: [strcpy] of [a] followed by [strcat] of [b] leaves
    the string [a ++ b] at the destination, with the length [strlen] computes,
    provided the destination has room for it and the sources lie elsewhere. *)
Theorem strcpy_strcat (fuel : nat) (m : mem) (dst p q : Z) (a b : list Z) :
  let room := Z.of_nat (length a + length b) + 1 in
  (length a + length b < fuel)%nat → cstr m p a → cstr m q b →
  fits dst room → alloc m dst room →
  apart_blocks dst room p (Z.of_nat (length a) + 1) →
  apart_blocks dst room q (Z.of_nat (length b) + 1) →
  ∃ m1 m2, strcpy fuel m dst p = Ok (m1, dst) ∧ cstr m1 dst a ∧
    strcat fuel m1 dst q = Ok (m2, dst) ∧ cstr m2 dst (a ++ b) ∧
    strlen fuel m2 dst = Ok (Z.of_nat (length a + length b)) ∧
    (∀ x, x < dst ∨ dst + room ≤ x → m2 !! x = m !! x).
Proof.
  intros room Hfuel Ha Hb Hf Hal Hp Hq. subst room. unfold apart_blocks in *.
  pose proof Ha as (Hat & Hna & Hfa). pose proof Hb as (Hbt & Hnb & Hfb).
  assert (fits dst (Z.of_nat (length a) + 1)) as Hfd by (unfold fits in *; lia).
  exists (write_bytes m dst (a ++ [0])). eexists. split_and!.
  - unfold strcpy. rewrite (ASSERT_true _ (fits_not_null2 _ _ _ _ Hfd Hfa)). simpl.
    rewrite (copy_loop_eq _ _ _ _ a); [done|lia|done|done| |lia]. intros x ?. apply Hal. lia.
  - apply cstr_after_write; [done|by eapply cstr_byte|done].
  - set (m1 := write_bytes m dst (a ++ [0])).
    assert (cstr m1 dst a) as H1 by (apply cstr_after_write; [done|by eapply cstr_byte|done]).
    assert (cstr m1 q b) as H2.
    { split_and!; [|done|done]. apply write_bytes_other; [|done].
      unfold apart_blocks. rewrite !length_app. simpl. lia. }
    unfold strcat. rewrite (ASSERT_true _ (fits_not_null2 _ _ _ _ Hfd Hfb)). cbn [obind].
    rewrite (end_loop_eq _ _ _ a) by (done || lia). cbn [obind].
    rewrite (copy_loop_eq _ _ _ _ b); [done|lia|done|unfold fits in *; lia| |lia].
    intros x ?. subst m1. rewrite write_bytes_lookup. case_decide as Hx; [|apply Hal; lia].
    apply lookup_lt_is_Some. lia.
  - apply cstr_append; [|done|done|by eapply cstr_byte|done].
    apply (proj1 (proj1 (bytes_at_app _ dst a [0])
      (write_bytes_at m dst (a ++ [0]) (bytes_at_byte _ _ _ Hat)))).
  - rewrite (strlen_eq _ _ _ (a ++ b)).
    + by rewrite length_app.
    + rewrite length_app. lia.
    + apply cstr_append; [|done|done|by eapply cstr_byte|done].
      apply (proj1 (proj1 (bytes_at_app _ dst a [0])
        (write_bytes_at m dst (a ++ [0]) (bytes_at_byte _ _ _ Hat)))).
  - intros x Hx. rewrite !write_bytes_lookup, !length_app. simpl. by rewrite !decide_False by lia.
Qed.

(** C25. Searching a string for a character [c]: [strchr] returns the address of
    the first one and [strrchr] of the last one (the terminator counts as a
    character), NULL when there is none; [strchrs] counts them (the terminator
    does not count). *)
Theorem searches (fuel : nat) (m : mem) (p : Z) (s : list Z) (c : Z) :
  byte c → (length s < fuel)%nat → cstr m p s →
  (∃ r, strchr fuel m p (s8 c) = Ok r ∧ first_at p (s ++ [0]) c r) ∧
  (∃ r, strrchr fuel m p (s8 c) = Ok r ∧ last_at p (s ++ [0]) c r) ∧
  strchrs fuel m p (s8 c) = Ok (Z.of_nat (occurrences c s)).
Proof.
  intros Hc Hfuel Hs. pose proof Hs as (Hl & _ & Hf).
  unfold strchr, strrchr, strchrs. rewrite (ASSERT_true _ (fits_not_null _ _ Hf)). cbn [obind].
  split_and!.
  - by apply strchr_loop_eq.
  - rewrite (strlen_eq _ _ _ s) by done. cbn [obind].
    rewrite u32_small by (unfold fits in *; lia).
    apply strrchr_loop_eq; [done|done|unfold fits in *; lia|done].
  - rewrite (strchrs_loop_eq _ _ _ s) by (done || unfold fits in *; lia). done.
Qed.

(** ** Witnesses *)

(** 64 bytes at address 256: the strings "abca" and "bd" at their start. *)
Definition demo_bytes : mem :=
  list_to_map (zip (seqZ 256 64) ([97; 98; 99; 97; 0; 98; 200; 0] ++ replicate 56 7)).

Lemma demo_bytes_byte a x : demo_bytes !! a = Some x → byte x.
Proof.
  revert a x. cut (map_Forall (λ _ x, 0 ≤ x < 256) demo_bytes).
  { intros H a x Ha. by apply (H a x). }
  apply (bool_decide_unpack _). by vm_compute.
Qed.

Ltac bytes := cbn [app bytes_at]; split_and!; first [by vm_compute | unfold byte; lia].

Lemma demo_abca : cstr demo_bytes 256 [97; 98; 99; 97].
Proof. split_and!; [bytes|set_solver|unfold fits; simpl; lia..]. Qed.
Lemma demo_bd : cstr demo_bytes 261 [98; 200].
Proof. split_and!; [bytes|set_solver|unfold fits; simpl; lia..]. Qed.
Lemma demo_alloc p n : 256 ≤ p → p + n ≤ 320 → alloc demo_bytes p n.
Proof.
  intros Hp Hn a Ha.
  assert (Forall (λ a, is_Some (demo_bytes !! a)) (seqZ 256 64)) as H.
  { apply (bool_decide_unpack _). by vm_compute. }
  rewrite Forall_forall in H. apply H. apply elem_of_seqZ. lia.
Qed.

Lemma memcpy_copies_witness :
  ∃ m', memcpy demo_bytes 300 256 5 = Ok (m', 300) ∧ bytes_at m' 300 [97; 98; 99; 97; 0] ∧
    (∀ a, a < 300 ∨ 300 + 5 ≤ a → m' !! a = demo_bytes !! a) ∧
    (fits 256 5 → bytes_at m' 256 [97; 98; 99; 97; 0] → memcmp m' 300 256 5 = Ok 0).
Proof.
  apply (memcpy_copies demo_bytes 300 256 256 [97; 98; 99; 97; 0]);
    [unfold fits; simpl; lia|unfold fits; simpl; lia|bytes|apply demo_alloc; simpl; lia|].
  simpl. lia.
Defined.

Lemma memcpy_overlap_repeats_witness :
  ∃ m', memcpy demo_bytes (256 + 3) 256 9 = Ok (m', 256 + 3) ∧
    ∀ i, 0 ≤ i < 3 + 9 → m' !! (256 + i) = demo_bytes !! (256 + i mod 3).
Proof.
  apply (memcpy_overlap_repeats demo_bytes 256 3 9); try lia.
  - unfold fits. lia.
  - apply demo_alloc; lia.
  - apply demo_bytes_byte.
Defined.

Lemma comparisons_witness :
  ∃ r, strcmp 8 demo_bytes 256 261 = Ok r ∧
    compared ([97; 98; 99; 97] ++ [0]) ([98; 200] ++ [0]) r ∧
    (r = 0 ↔ [97; 98; 99; 97] = [98; 200]).
Proof.
  apply (comparisons 8 demo_bytes 256 261 [] [] [97; 98; 99; 97] [98; 200]);
    [simpl; lia|apply demo_abca|apply demo_bd].
Defined.

Lemma strcpy_strcat_witness :
  ∃ m1 m2, strcpy 8 demo_bytes 280 256 = Ok (m1, 280) ∧ cstr m1 280 [97; 98; 99; 97] ∧
    strcat 8 m1 280 261 = Ok (m2, 280) ∧ cstr m2 280 [97; 98; 99; 97; 98; 200] ∧
    strlen 8 m2 280 = Ok 6 ∧ (∀ x, x < 280 ∨ 280 + 7 ≤ x → m2 !! x = demo_bytes !! x).
Proof.
  apply (strcpy_strcat 8 demo_bytes 280 256 261 [97; 98; 99; 97] [98; 200]);
    [simpl; lia|apply demo_abca|apply demo_bd|unfold fits; simpl; lia| | |].
  - apply demo_alloc; simpl; lia.
  - right. simpl. lia.
  - right. simpl. lia.
Defined.

Lemma searches_witness :
  (∃ r, strchr 8 demo_bytes 256 (s8 97) = Ok r ∧ first_at 256 [97; 98; 99; 97; 0] 97 r) ∧
  (∃ r, strrchr 8 demo_bytes 256 (s8 97) = Ok r ∧ last_at 256 [97; 98; 99; 97; 0] 97 r) ∧
  strchrs 8 demo_bytes 256 (s8 97) = Ok 2.
Proof.
  apply (searches 8 demo_bytes 256 [97; 98; 99; 97] 97);
    [unfold byte; lia|simpl; lia|apply demo_abca].
Defined.
