(* ===== verification/Thread.v ===== *)
(** The scheduler: tasks, the ready queue, blocking and waking (thread/thread.c),
    and the interrupt flag (kernel/interrupt.c). *)
From S2P Require Import Prelude KList.
Local Open Scope Z_scope.

(** * Data *)

(** [enum task_status] *)
Inductive task_status :=
  | TASK_RUNNING | TASK_READY | TASK_BLOCKED | TASK_WAITING | TASK_HANGING | TASK_DIED.
#[export] Instance task_status_eq_dec : EqDecision task_status.
Proof. solve_decision. Defined.

(** The fields of [struct task_struct] the scheduler uses; its two list nodes
    are words of memory, at the offsets below. *)
Record task_struct := TaskStruct {
  self_kernel_stack : Z;
  status : task_status;
  priority : Z;
  pid : Z;
  ticks : Z;
  elapsed_ticks : Z;
  name : list Z;
  pde_addr : Z;
  stack_boundary : Z
}.

(** [thread_dispatch_queue] and [thread_list] in the structure, and its size. *)
Definition dispatch_off : Z := 52.
Definition thread_list_off : Z := 60.
Definition sizeof_task_struct : Z := 200.

Definition dispatch_node (t : Z) : Z := u32 (t + dispatch_off).
(** [list_entry(p, struct task_struct, thread_dispatch_queue)] *)
Definition dispatch_entry (p : Z) : Z := u32 (p - dispatch_off).

(** The global state: memory of list nodes, tasks by the address of their PCB,
    the variables of thread.c and the interrupt flag of the processor. *)
Record kstate := KState {
  nodes : mem;
  tasks : gmap Z task_struct;
  thread_ready_queue : general_queue;
  current_task : Z;
  idle_thread : Z;
  intr_on : bool
}.

Definition set_ready (k : kstate) (mq : mem * general_queue) : kstate :=
  KState mq.1 (tasks k) mq.2 (current_task k) (idle_thread k) (intr_on k).
Definition set_tasks (k : kstate) (ts : gmap Z task_struct) : kstate :=
  KState (nodes k) ts (thread_ready_queue k) (current_task k) (idle_thread k) (intr_on k).
Definition set_current (k : kstate) (t : Z) : kstate :=
  KState (nodes k) (tasks k) (thread_ready_queue k) t (idle_thread k) (intr_on k).
Definition set_intr (k : kstate) (b : bool) : kstate :=
  KState (nodes k) (tasks k) (thread_ready_queue k) (current_task k) (idle_thread k) b.

Definition with_status (st : task_status) (x : task_struct) : task_struct :=
  TaskStruct (self_kernel_stack x) st (priority x) (pid x) (ticks x) (elapsed_ticks x)
    (name x) (pde_addr x) (stack_boundary x).
(** [x->ticks = x->priority], an 8-bit field. *)
Definition reset_ticks (x : task_struct) : task_struct :=
  TaskStruct (self_kernel_stack x) (status x) (priority x) (pid x) (u8 (priority x))
    (elapsed_ticks x) (name x) (pde_addr x) (stack_boundary x).

(** Dereferencing a task pointer. *)
Definition get_task (k : kstate) (t : Z) : outcome task_struct :=
  match tasks k !! t with Some x => Ok x | None => Fault end.
Definition update_task (k : kstate) (t : Z) (f : task_struct → task_struct) : outcome kstate :=
  let! x := get_task k t in
  Ok (set_tasks k (<[t := f x]> (tasks k))).

Definition get_cur_task (k : kstate) : Z := current_task k.

(** * The interrupt flag *)

Definition get_intr_status (k : kstate) : bool := intr_on k.

Definition local_irq_enable (k : kstate) : kstate * bool :=
  let old_status := get_intr_status k in
  ((if negb old_status then set_intr k true else k), old_status).

Definition local_irq_disable (k : kstate) : kstate * bool :=
  let old_status := get_intr_status k in
  ((if old_status then set_intr k false else k), old_status).

Definition set_intr_status (k : kstate) (status : bool) : kstate :=
  fst (if status then local_irq_enable k else local_irq_disable k).

(** * The scheduler *)

(** The status a task is left in by [thread_block]. *)
Definition blocking (st : task_status) : bool :=
  match st with TASK_BLOCKED | TASK_WAITING | TASK_HANGING => true | _ => false end.

Section scheduler.
(** Fuel of [list_find_item]. *)
Variable fuel : nat.

(** [list_find_item(thread_ready_queue.front, &t->thread_dispatch_queue)] *)
Definition in_ready_queue (k : kstate) (t : Z) : outcome bool :=
  list_find_item fuel (nodes k) (front (thread_ready_queue k)) (dispatch_node t).

Definition thread_unblock (k : kstate) (wake_task : Z) : outcome kstate :=
  let (k, old_status) := local_irq_disable k in
  let! x := get_task k wake_task in
  let task_status := status x in
  ASSERT (blocking task_status) ;!
  let! k :=
    if negb (bool_decide (status x = TASK_READY)) then
      let! found := in_ready_queue k wake_task in
      ASSERT (negb found) ;!
      let! found := in_ready_queue k wake_task in
      if found then Panic
      else
        let! mq := queue_push (nodes k) (thread_ready_queue k) (dispatch_node wake_task) in
        update_task (set_ready k mq) wake_task (with_status TASK_READY)
    else Ok k in
  Ok (set_intr_status k old_status).

(** [schedule], up to [switch_to]: on return the processor runs the task
    [current_task], and the caller is suspended inside [switch_to]. *)
Definition schedule (k : kstate) : outcome kstate :=
  let (k, _) := local_irq_disable k in
  ASSERT (negb (get_intr_status k)) ;!
  let cur_task := get_cur_task k in
  let! x := get_task k cur_task in
  let! k :=
    if bool_decide (status x = TASK_RUNNING) then
      let! found := in_ready_queue k cur_task in
      ASSERT (negb found) ;!
      let! mq := queue_in (nodes k) (thread_ready_queue k) (dispatch_node cur_task) in
      let! k := update_task (set_ready k mq) cur_task reset_ticks in
      update_task k cur_task (with_status TASK_READY)
    else Ok k in
  let! k :=
    if queue_len (thread_ready_queue k) =? 0 then thread_unblock k (idle_thread k) else Ok k in
  let! (m, q, _next) := queue_out (nodes k) (thread_ready_queue k) in
  let k := set_ready k (m, q) in
  ASSERT (negb (_next =? NULL)) ;!
  let next_task := dispatch_entry _next in
  let! k := update_task k next_task (with_status TASK_RUNNING) in
  Ok (set_current k next_task).

(** [thread_block] up to the [switch_to] of [schedule]; the second component is
    the interrupt status the blocked task restores when it runs again. *)
Definition thread_block (k : kstate) (set_status : task_status) : outcome (kstate * bool) :=
  ASSERT (blocking set_status) ;!
  let (k, old_status) := local_irq_disable k in
  let cur_task := get_cur_task k in
  let! k := update_task k cur_task (with_status set_status) in
  let! k := schedule k in
  Ok (k, old_status).

(** [thread_yield], likewise. *)
Definition thread_yield (k : kstate) : outcome (kstate * bool) :=
  let cur_task := get_cur_task k in
  let (k, old_status) := local_irq_disable k in
  let! found := in_ready_queue k cur_task in
  ASSERT (negb found) ;!
  let! mq := queue_in (nodes k) (thread_ready_queue k) (dispatch_node cur_task) in
  let! k := update_task (set_ready k mq) cur_task (with_status TASK_READY) in
  let! k := schedule k in
  Ok (k, old_status).
End scheduler.

(** * Invariant *)

Definition status_in (m : gmap Z task_struct) (t : Z) : option task_status := status <$> m !! t.
Definition status_of (k : kstate) (t : Z) : option task_status := status_in (tasks k) t.

(** PCBs lie in the address space, without wrapping around its end. *)
Definition pcb (t : Z) : Prop := 0 < t ∧ t + sizeof_task_struct ≤ 4294967296.

(** [ts] are the tasks and [rs] those in the ready queue, first to run first:
    the ready queue is exactly the tasks with status READY, only the current
    task may be RUNNING, and no task has died (nothing sets that status). *)
Record kinv (ts : list Z) (k : kstate) (rs : list Z) : Prop := Kinv {
  k_pool : node_pool (nodes k) (dispatch_node <$> ts);
  k_pcb : Forall pcb ts;
  k_dom : ∀ t, t ∈ ts ↔ is_Some (tasks k !! t);
  k_queue : queue_repr (nodes k) (thread_ready_queue k) (dispatch_node <$> rs);
  k_nodup : NoDup rs;
  k_ready : ∀ t, t ∈ rs ↔ status_of k t = Some TASK_READY;
  k_running : ∀ t, status_of k t = Some TASK_RUNNING → t = current_task k;
  k_current : current_task k ∈ ts;
  k_idle : idle_thread k ∈ ts;
  k_alive : ∀ t, status_of k t ≠ Some TASK_DIED
}.

(** The current task is running; this holds whenever [schedule] is not. *)
Definition running (k : kstate) : Prop := status_of k (current_task k) = Some TASK_RUNNING.

(** A task that is waiting for a [thread_unblock]. *)
Definition asleep (k : kstate) (t : Z) : Prop := ∃ st, status_of k t = Some st ∧ blocking st = true.

Lemma dispatch_node_eq t : pcb t → dispatch_node t = t + 52.
Proof.
  unfold pcb, sizeof_task_struct, dispatch_node, dispatch_off. intros. apply u32_small. lia.
Qed.

Lemma dispatch_entry_node t : pcb t → dispatch_entry (dispatch_node t) = t.
Proof.
  intros Ht. rewrite (dispatch_node_eq t Ht). unfold dispatch_entry, dispatch_off.
  unfold pcb, sizeof_task_struct in Ht. rewrite u32_small; lia.
Qed.

Lemma dispatch_node_inj t t' : pcb t → pcb t' → dispatch_node t = dispatch_node t' → t = t'.
Proof. intros Ht Ht' E. by rewrite <- (dispatch_entry_node t Ht), E, dispatch_entry_node. Qed.

Section facts.
Context {ts : list Z} {k : kstate} {rs : list Z}.
Hypothesis Hk : kinv ts k rs.

Lemma kinv_task t : t ∈ ts → ∃ x, tasks k !! t = Some x.
Proof using Hk. intros Ht. by apply (k_dom _ _ _ Hk) in Ht. Qed.

Lemma kinv_pcb t : t ∈ ts → pcb t.
Proof using Hk. pose proof (k_pcb _ _ _ Hk) as H. rewrite Forall_forall in H. auto. Qed.

Lemma kinv_ready_ts t : t ∈ rs → t ∈ ts.
Proof using Hk.
  intros Ht. apply (k_ready _ _ _ Hk) in Ht. apply (k_dom _ _ _ Hk). unfold status_of, status_in in Ht.
  destruct (tasks k !! t); naive_solver.
Qed.

Lemma kinv_in_node t l : t ∈ ts → l ⊆ ts → dispatch_node t ∈ dispatch_node <$> l → t ∈ l.
Proof using Hk.
  intros Ht Hl (t' & E & Ht')%list_elem_of_fmap.
  rewrite (dispatch_node_inj t t'); auto using kinv_pcb.
Qed.

Lemma kinv_insertable t l : t ∈ ts → l ⊆ ts → t ∉ l →
  insertable (nodes k) (dispatch_node <$> l) (dispatch_node t).
Proof using Hk.
  intros Ht Hl Hn. eapply pool_insertable; [apply (k_pool _ _ _ Hk)| | |].
  - intros p. rewrite !list_elem_of_fmap. intros (t' & -> & ?). exists t'. auto.
  - apply list_elem_of_fmap. eauto.
  - intros H. apply Hn. by apply kinv_in_node.
Qed.

Lemma kinv_length l : NoDup l → l ⊆ ts → (length l ≤ length ts)%nat.
Proof. intros. by apply submseteq_length, NoDup_submseteq. Qed.

Lemma kinv_count : Z.of_nat (length ts) < 4294967296.
Proof using Hk. destruct (k_pool _ _ _ Hk) as (_ & _ & _ & H). by rewrite length_fmap in H. Qed.

Lemma kinv_addr t : t ∈ ts → addr (dispatch_node t).
Proof using Hk.
  intros Ht. rewrite dispatch_node_eq by (by apply kinv_pcb). apply kinv_pcb in Ht.
  unfold pcb, addr in *. lia.
Qed.

(** Searching a queue for a task that is not in it finds nothing. *)
Lemma kinv_find fuel q l t :
  queue_repr (nodes k) q (dispatch_node <$> l) → NoDup l → l ⊆ ts → t ∈ ts → t ∉ l →
  (length ts ≤ fuel)%nat → list_find_item fuel (nodes k) (front q) (dispatch_node t) = Ok false.
Proof using Hk.
  intros Hq Hnd Hl Ht Hn Hf. pose proof (kinv_length l Hnd Hl).
  rewrite (qs_find fuel _ _ _ _ Hq) by (rewrite ?length_fmap; lia || by apply kinv_addr).
  rewrite bool_decide_false; [done|]. intros Hin. apply Hn, kinv_in_node; [done..|].
  destruct (decide (dispatch_node <$> l = [])) as [E|]; [rewrite E in Hin; by apply elem_of_nil in Hin|].
  rewrite (app_removelast_last 0 (l := dispatch_node <$> l)) by done.
  apply elem_of_app. by left.
Qed.

Lemma kinv_not_ready t : status_of k t ≠ Some TASK_READY → t ∉ rs.
Proof using Hk. intros Hst Hin. by apply (k_ready _ _ _ Hk) in Hin. Qed.
End facts.

(** ** Updates of a task *)

Lemma update_task_eq k t f :
  is_Some (tasks k !! t) → update_task k t f = Ok (set_tasks k (alter f t (tasks k))).
Proof.
  intros [x E]. unfold update_task, get_task. rewrite E. simpl. do 2 f_equal.
  apply map_eq. intros t'. destruct (decide (t' = t)) as [->|].
  - by rewrite lookup_insert_eq, lookup_alter_eq, E.
  - by rewrite lookup_insert_ne, lookup_alter_ne.
Qed.

Lemma alter_dom (m : gmap Z task_struct) f t t' : is_Some (alter f t m !! t') ↔ is_Some (m !! t').
Proof. apply lookup_alter_is_Some. Qed.

Lemma status_alter m st t t' :
  status_in (alter (with_status st) t m) t' =
    if decide (t' = t) then (λ _, st) <$> m !! t else status_in m t'.
Proof.
  unfold status_in. case_decide as E; [subst t'|].
  - rewrite lookup_alter_eq. by destruct (m !! t).
  - by rewrite lookup_alter_ne.
Qed.

Lemma status_alter_same (m : gmap Z task_struct) f t t' :
  (∀ x, status (f x) = status x) → status_in (alter f t m) t' = status_in m t'.
Proof.
  intros Hf. unfold status_in. destruct (decide (t' = t)) as [->|]; [|by rewrite lookup_alter_ne].
  rewrite lookup_alter_eq. destruct (m !! t); simpl; [by rewrite Hf|done].
Qed.

Lemma status_alter_Some m st t t' :
  is_Some (m !! t) →
  status_in (alter (with_status st) t m) t' = if decide (t' = t) then Some st else status_in m t'.
Proof. intros [x E]. rewrite status_alter. case_decide; [|done]. by rewrite E. Qed.

(** ** The interrupt flag *)

Lemma local_irq_enable_eq k : fst (local_irq_enable k) = set_intr k true.
Proof. unfold local_irq_enable, get_intr_status. by destruct k as [? ? ? ? ? []]. Qed.

Lemma local_irq_disable_eq k : local_irq_disable k = (set_intr k false, intr_on k).
Proof. unfold local_irq_disable, get_intr_status. by destruct k as [m ts q c i []]. Qed.

Lemma set_intr_status_eq k b : set_intr_status k b = set_intr k b.
Proof.
  unfold set_intr_status, local_irq_enable, local_irq_disable, get_intr_status.
  by destruct b, k as [m ts q c i []].
Qed.

Lemma kinv_set_intr ts k rs b : kinv ts k rs → kinv ts (set_intr k b) rs.
Proof. intros []. by split. Qed.

(** ** [thread_unblock] *)

Lemma thread_unblock_spec ts fuel k rs t :
  kinv ts k rs → (length ts ≤ fuel)%nat → t ∈ ts → asleep k t →
  ∃ m q, thread_unblock fuel k t =
      Ok (KState m (alter (with_status TASK_READY) t (tasks k)) q (current_task k)
            (idle_thread k) (intr_on k)) ∧
    upd_nodes (nodes k) m (dispatch_node <$> t :: rs) ∧
    queue_repr m q (dispatch_node <$> t :: rs).
Proof.
  intros Hk Hf Ht (st & Hst & Hbl). pose proof Hk as [Hpool _ Hdom Hq Hnd _ _ _ _ _].
  destruct (kinv_task Hk t Ht) as [x Ex]. unfold status_of, status_in in Hst. rewrite Ex in Hst.
  simpl in Hst. injection Hst as Est. assert (st ≠ TASK_READY) as Hnr by (by destruct st).
  assert (t ∉ rs) as Hni.
  { apply (kinv_not_ready Hk). unfold status_of, status_in. rewrite Ex. simpl. congruence. }
  assert (rs ⊆ ts) as Hrs by (intros t'; apply (kinv_ready_ts Hk)).
  unfold thread_unblock. rewrite local_irq_disable_eq. unfold get_task. simpl. rewrite Ex. simpl.
  rewrite Est, (ASSERT_true _ Hbl). simpl. rewrite bool_decide_false by done. simpl.
  assert (in_ready_queue fuel (set_intr k false) t = Ok false) as Ef.
  { unfold in_ready_queue. simpl. eapply (kinv_find Hk); eauto. }
  rewrite Ef. simpl.
  pose proof (kinv_length (ts := ts) (t :: rs) ltac:(by constructor) ltac:(set_solver)) as Hlen.
  pose proof (kinv_count Hk) as Hcnt. simpl in Hlen.
  destruct (qs_push _ _ _ (dispatch_node t) Hq) as (m' & q' & Em & Hq' & Hu).
  { by apply (kinv_insertable Hk). }
  { rewrite length_fmap. lia. }
  rewrite Em. simpl. rewrite update_task_eq by (simpl; eauto). simpl.
  rewrite set_intr_status_eq. unfold set_intr, set_tasks, set_ready. simpl. eauto 6.
Qed.

Lemma kinv_unblock ts k rs t m q b :
  kinv ts k rs → t ∈ ts → asleep k t →
  upd_nodes (nodes k) m (dispatch_node <$> t :: rs) → queue_repr m q (dispatch_node <$> t :: rs) →
  kinv ts (KState m (alter (with_status TASK_READY) t (tasks k)) q (current_task k)
             (idle_thread k) b) (t :: rs).
Proof.
  intros Hk Ht (st & Hst & Hbl) Hu Hq. pose proof Hk as [Hpool Hpcb Hdom _ Hnd Hr Hrun Hc Hi Hal].
  pose proof (kinv_task Hk t Ht) as Hx.
  split; simpl; try done.
  - by eapply pool_upd.
  - intros t'. by rewrite alter_dom.
  - constructor; [|done]. intros Hin. apply Hr in Hin. rewrite Hst in Hin. by simplify_eq.
  - intros t'. unfold status_of. simpl.
    rewrite status_alter_Some by done. rewrite elem_of_cons, Hr.
    case_decide; [subst t'; tauto|]. unfold status_of, status_in. naive_solver.
  - intros t'. unfold status_of. simpl.
    rewrite status_alter_Some by done. case_decide; [done|]. apply Hrun.
  - intros t'. unfold status_of. simpl.
    rewrite status_alter_Some by done. case_decide; [done|apply Hal].
Qed.

(** ** Putting the current task in the ready queue *)

Lemma kinv_queue_in ts k rs t :
  kinv ts k rs → t ∈ ts → t ∉ rs →
  ∃ m q, queue_in (nodes k) (thread_ready_queue k) (dispatch_node t) = Ok (m, q) ∧
    upd_nodes (nodes k) m (dispatch_node <$> t :: rs) ∧
    queue_repr m q (dispatch_node <$> rs ++ [t]).
Proof.
  intros Hk Ht Hni. pose proof Hk as [_ _ _ Hq Hnd _ _ _ _ _].
  assert (rs ⊆ ts) as Hrs by (intros t'; apply (kinv_ready_ts Hk)).
  pose proof (kinv_length (ts := ts) (t :: rs) ltac:(by constructor) ltac:(set_solver)) as Hlen.
  pose proof (kinv_count Hk) as Hcnt. simpl in Hlen.
  destruct (qs_in _ _ _ (dispatch_node t) Hq) as (m & q & Em & Hq' & Hu).
  { by apply (kinv_insertable Hk). }
  { rewrite length_fmap. lia. }
  exists m, q. rewrite fmap_app. done.
Qed.

Lemma kinv_enqueue ts k rs m q tasks' b :
  kinv ts k rs → current_task k ∉ rs →
  upd_nodes (nodes k) m (dispatch_node <$> current_task k :: rs) →
  queue_repr m q (dispatch_node <$> rs ++ [current_task k]) →
  (∀ t, is_Some (tasks' !! t) ↔ is_Some (tasks k !! t)) →
  (∀ t, status_in tasks' t =
     if decide (t = current_task k) then Some TASK_READY else status_in (tasks k) t) →
  kinv ts (KState m tasks' q (current_task k) (idle_thread k) b) (rs ++ [current_task k]).
Proof.
  intros Hk Hni Hu Hq Hdom' Hst. pose proof Hk as [Hpool Hpcb Hdom _ Hnd Hr Hrun Hc Hi Hal].
  split; simpl; try done.
  - by eapply pool_upd.
  - intros t. by rewrite Hdom'.
  - apply NoDup_app. split_and!; [done|set_solver|apply NoDup_singleton].
  - intros t. unfold status_of. simpl. rewrite Hst, elem_of_app, list_elem_of_singleton, Hr.
    unfold status_of. case_decide; naive_solver.
  - intros t. unfold status_of. simpl. rewrite Hst. case_decide; [done|]. apply Hrun.
  - intros t. unfold status_of in *. simpl. rewrite Hst. case_decide; [done|apply Hal].
Qed.

(** ** Choosing the next task *)

(** [queue_out] and the switch to the first task of the ready queue. *)
Lemma kinv_dequeue ts k rs n :
  kinv ts k (n :: rs) → (∀ t, status_of k t ≠ Some TASK_RUNNING) →
  ∃ m q, queue_out (nodes k) (thread_ready_queue k) = Ok (m, q, dispatch_node n) ∧
    upd_nodes (nodes k) m (dispatch_node <$> n :: rs) ∧
    ∀ b, let k' := KState m (alter (with_status TASK_RUNNING) n (tasks k)) q n (idle_thread k) b in
      kinv ts k' rs ∧ running k'.
Proof.
  intros Hk Hnr. pose proof Hk as [Hpool Hpcb Hdom Hq Hnd Hr Hrun Hc Hi Hal].
  apply NoDup_cons in Hnd as [Hni Hnd].
  assert (n ∈ ts) as Hn by (apply (kinv_ready_ts Hk); by left).
  pose proof (kinv_task Hk n Hn) as Hx.
  destruct (qs_out _ _ _ _ Hq) as (m & q & Em & Hq' & Hu).
  exists m, q. split_and!; [done|done|]. intros b k'. split.
  - split; simpl; try done.
    + by eapply pool_upd.
    + intros t. by rewrite alter_dom.
    + intros t. unfold status_of. simpl. rewrite status_alter_Some by done.
      specialize (Hr t). rewrite elem_of_cons in Hr. unfold status_of in Hr.
      case_decide; [subst t; naive_solver|]. naive_solver.
    + intros t. unfold status_of. simpl. rewrite status_alter_Some by done.
      case_decide; [done|]. intros Hs. by destruct (Hnr t).
    + intros t. unfold status_of in *. simpl. rewrite status_alter_Some by done.
      case_decide; [done|apply Hal].
  - unfold running, status_of. simpl. rewrite status_alter_Some by done. by rewrite decide_True.
Qed.

Lemma kinv_idle_asleep ts k :
  kinv ts k [] → (∀ t, status_of k t ≠ Some TASK_RUNNING) → asleep k (idle_thread k).
Proof.
  intros Hk Hnr. pose proof Hk as [_ _ Hdom _ _ Hr _ _ Hi Hal].
  destruct (kinv_task Hk _ Hi) as [x Ex]. specialize (Hnr (idle_thread k)). specialize (Hal (idle_thread k)).
  specialize (Hr (idle_thread k)). unfold asleep, status_of, status_in in *. rewrite Ex in *.
  simpl in *. exists (status x). split; [done|].
  destruct (status x); try done; try congruence. exfalso. by apply (elem_of_nil (idle_thread k)), Hr.
Qed.

(** ** [schedule] *)

(** What [schedule] does to the list of ready tasks: the current task is put
    last if it is running, the idle task is taken if there is no other. *)
Definition requeued (k : kstate) (rs : list Z) : list Z :=
  if decide (status_of k (current_task k) = Some TASK_RUNNING) then rs ++ [current_task k] else rs.
Definition candidates (k : kstate) (rs : list Z) : list Z :=
  match requeued k rs with [] => [idle_thread k] | l => l end.

(** The tasks after [schedule], but for the status of the one that is chosen. *)
Definition requeued_tasks (k : kstate) : gmap Z task_struct :=
  if decide (status_of k (current_task k) = Some TASK_RUNNING)
  then alter (with_status TASK_READY) (current_task k) (alter reset_ticks (current_task k) (tasks k))
  else tasks k.
Definition candidate_tasks (k : kstate) (rs : list Z) : gmap Z task_struct :=
  match requeued k rs with
  | [] => alter (with_status TASK_READY) (idle_thread k) (requeued_tasks k)
  | _ => requeued_tasks k
  end.

Lemma requeued_tasks_status k t :
  is_Some (tasks k !! current_task k) →
  status_in (requeued_tasks k) t =
    if decide (t = current_task k ∧ status_of k (current_task k) = Some TASK_RUNNING)
    then Some TASK_READY else status_of k t.
Proof.
  intros Hx. unfold requeued_tasks. case_decide as Hr.
  - rewrite status_alter_Some by (by apply alter_dom).
    rewrite (status_alter_same (tasks k) reset_ticks) by done. unfold status_of.
    repeat case_decide; try done; naive_solver.
  - rewrite decide_False by naive_solver. done.
Qed.

Lemma requeued_tasks_dom k t : is_Some (requeued_tasks k !! t) ↔ is_Some (tasks k !! t).
Proof. unfold requeued_tasks. case_decide; by rewrite ?alter_dom. Qed.

(** The state after the current task was put back in the ready queue. *)
Lemma schedule_requeue ts fuel k rs :
  kinv ts k rs → (length ts ≤ fuel)%nat →
  ∃ x m q, tasks k !! current_task k = Some x ∧
    let k1 := KState m (requeued_tasks k) q (current_task k) (idle_thread k) false in
    (if bool_decide (status x = TASK_RUNNING) then
       let! found := in_ready_queue fuel (set_intr k false) (current_task k) in
       ASSERT (negb found) ;!
       let! mq := queue_in (nodes k) (thread_ready_queue k) (dispatch_node (current_task k)) in
       let! k' := update_task (set_ready (set_intr k false) mq) (current_task k) reset_ticks in
       update_task k' (current_task k) (with_status TASK_READY)
     else Ok (set_intr k false)) = Ok k1 ∧
    kinv ts k1 (requeued k rs) ∧ (∀ t, status_of k1 t ≠ Some TASK_RUNNING) ∧
    upd_nodes (nodes k) m (dispatch_node <$> requeued k rs).
Proof.
  intros Hk Hf. pose proof Hk as [_ _ _ Hq Hnd _ Hrun Hc _ _].
  destruct (kinv_task Hk _ Hc) as [x Ex]. exists x.
  assert (status_of k (current_task k) = Some (status x)) as Est.
  { unfold status_of, status_in. by rewrite Ex. }
  assert (rs ⊆ ts) as Hrs by (intros t'; apply (kinv_ready_ts Hk)).
  assert (∀ t, status_in (requeued_tasks k) t ≠ Some TASK_RUNNING) as Hnr.
  { intros t. rewrite requeued_tasks_status by eauto. case_decide as Hd; [done|].
    intros Hst. pose proof (Hrun t Hst) as ->. by apply Hd. }
  unfold requeued. destruct (decide (status x = TASK_RUNNING)) as [Ex'|Ex'].
  - assert (current_task k ∉ rs) as Hni.
    { apply (kinv_not_ready Hk). rewrite Est, Ex'. done. }
    destruct (kinv_queue_in ts k rs _ Hk Hc Hni) as (m & q & Em & Hu & Hq').
    exists m, q. split; [done|]. cbv zeta. rewrite bool_decide_true by done.
    rewrite decide_True by (by rewrite Est, Ex').
    assert (in_ready_queue fuel (set_intr k false) (current_task k) = Ok false) as Efound.
    { unfold in_ready_queue. simpl. eapply (kinv_find Hk); eauto. }
    split_and!.
    + rewrite Efound. simpl. rewrite Em. simpl. rewrite update_task_eq by (simpl; eauto). simpl.
      rewrite update_task_eq by (simpl; apply alter_dom; eauto). simpl.
      unfold requeued_tasks. rewrite decide_True by (by rewrite Est, Ex'). done.
    + apply (kinv_enqueue ts k rs); try done; intros t; [apply requeued_tasks_dom|].
      rewrite requeued_tasks_status by eauto. rewrite Est, Ex'.
      repeat case_decide; try done; naive_solver.
    + done.
    + eapply upd_nodes_mono; [|done]. intros p. rewrite !list_elem_of_fmap. set_solver.
  - exists (nodes k), (thread_ready_queue k). split; [done|]. cbv zeta.
    rewrite bool_decide_false by done.
    assert (requeued_tasks k = tasks k) as Et.
    { unfold requeued_tasks. rewrite decide_False by (rewrite Est; naive_solver). done. }
    rewrite decide_False by (rewrite Est; naive_solver).
    split_and!; try done.
    + unfold set_intr. by rewrite Et.
    + rewrite Et. by apply (kinv_set_intr ts k rs false).
Qed.

Lemma schedule_spec ts fuel k rs :
  kinv ts k rs → (length ts ≤ fuel)%nat →
  ∃ m q n rs', candidates k rs = n :: rs' ∧
    let k' := KState m (alter (with_status TASK_RUNNING) n (candidate_tasks k rs)) q n
                (idle_thread k) false in
    schedule fuel k = Ok k' ∧ kinv ts k' rs' ∧ running k' ∧
    upd_nodes (nodes k) m (dispatch_node <$> candidates k rs).
Proof.
  intros Hk Hf. unfold schedule, get_cur_task, get_intr_status. rewrite local_irq_disable_eq.
  rewrite ASSERT_true by done. cbn [obind].
  destruct (schedule_requeue ts fuel k rs Hk Hf) as (x & m1 & q1 & Ex & E1 & Hk1 & Hnr1 & Hu1).
  unfold get_task at 1. change (tasks (set_intr k false)) with (tasks k).
  change (current_task (set_intr k false)) with (current_task k).
  change (nodes (set_intr k false)) with (nodes k).
  change (thread_ready_queue (set_intr k false)) with (thread_ready_queue k).
  rewrite Ex. cbn [obind]. rewrite E1. cbn [obind]. clear E1.
  unfold candidates, candidate_tasks. set (k1 := KState m1 _ q1 _ _ _) in *.
  assert (∃ rs2 m2 q2, let k2 := KState m2 (candidate_tasks k rs) q2 (current_task k)
      (idle_thread k) false in
    candidates k rs = rs2 ∧ rs2 ≠ [] ∧
    (if queue_len (thread_ready_queue k1) =? 0 then thread_unblock fuel k1 (idle_thread k1)
     else Ok k1) = Ok k2 ∧
    kinv ts k2 rs2 ∧ (∀ t, status_of k2 t ≠ Some TASK_RUNNING) ∧
    upd_nodes m1 m2 (dispatch_node <$> rs2)) as (rs2 & m2 & q2 & Ec & Hne & E2 & Hk2 & Hnr2 & Hu2).
  { pose proof (qs_len _ _ _ (k_queue _ _ _ Hk1)) as Hlen. rewrite length_fmap in Hlen.
    unfold candidates, candidate_tasks. destruct (requeued k rs) as [|y l] eqn:Er.
    - rewrite (proj2 (Z.eqb_eq _ 0)) by done.
      pose proof (kinv_idle_asleep ts k1 Hk1 Hnr1) as Has.
      destruct (thread_unblock_spec ts fuel k1 [] (idle_thread k1)) as (m2 & q2 & E2 & Hu & Hq);
        [done|done|apply (k_idle _ _ _ Hk1)|done|].
      exists [idle_thread k], m2, q2. split_and!; try done.
      + by apply (kinv_unblock ts k1 []); [|apply (k_idle _ _ _ Hk1)|..].
      + intros t. unfold status_of. simpl.
        rewrite status_alter_Some by (apply (k_dom _ _ _ Hk1), (k_idle _ _ _ Hk1)). case_decide; [done|].
        apply Hnr1.
    - rewrite (proj2 (Z.eqb_neq _ 0)) by (rewrite Hlen; simpl; lia).
      exists (y :: l), m1, q1. split_and!; try done. }
  unfold candidates in Ec. rewrite Ec. rewrite E2. cbn [obind].
  destruct rs2 as [|n rs']; [done|].
  destruct (kinv_dequeue ts _ rs' n Hk2 Hnr2) as (m3 & q3 & E3 & Hu3 & Hk3).
  rewrite E3. cbn [obind]. exists m3, q3, n, rs'. split; [done|]. cbv zeta.
  assert (n ∈ ts) as Hn by (apply (kinv_ready_ts Hk2); by left).
  rewrite ASSERT_true.
  2:{ pose proof (kinv_addr Hk2 n Hn) as Ha. unfold addr, NULL in *.
      by rewrite (proj2 (Z.eqb_neq _ 0)) by lia. }
  cbn [obind]. rewrite dispatch_entry_node by (by apply (kinv_pcb Hk2)).
  rewrite update_task_eq by (apply (k_dom _ _ _ Hk2); done). cbn [obind].
  split_and!; [done|apply Hk3..|].
  eapply upd_nodes_trans; [|apply Hu3]. eapply upd_nodes_trans; [|exact Hu2].
  eapply upd_nodes_mono; [|exact Hu1]. intros p. rewrite <- Ec. destruct (requeued k rs); [|done].
  intros Hp. by apply elem_of_nil in Hp.
Qed.

(** ** The effect of a context switch on the abstract state *)

(** From [k], where the tasks [rs] are ready, to [k'], where [n] runs and the
    tasks [rs'] are ready; [st t] is the status the other tasks are left in. *)
Record switched (ts : list Z) (k k' : kstate) (l : list Z) (st : Z → option task_status) : Prop :=
  Switched {
    sw_inv : ∃ rs', l = current_task k' :: rs' ∧ kinv ts k' rs';
    sw_idle : idle_thread k' = idle_thread k;
    sw_intr : intr_on k' = false;
    sw_status : ∀ t, status_of k' t =
      if decide (t = current_task k') then Some TASK_RUNNING else st t;
    sw_nodes : upd_nodes (nodes k) (nodes k') (dispatch_node <$> l)
  }.

Lemma switched_running ts k k' l st : switched ts k k' l st → running k'.
Proof. intros [_ _ _ H _]. unfold running. rewrite H. by rewrite decide_True. Qed.

Lemma schedule_switched ts fuel k rs :
  kinv ts k rs → (length ts ≤ fuel)%nat →
  ∃ k', schedule fuel k = Ok k' ∧
    switched ts k k' (candidates k rs) (λ t,
      if decide (t = current_task k ∧ running k) then Some TASK_READY else status_of k t).
Proof.
  intros Hk Hf. destruct (schedule_spec ts fuel k rs Hk Hf) as (m & q & n & rs' & Ec & E & Hk' & Hr & Hu).
  eexists. split; [exact E|]. split; try done; simpl; [eauto|].
  intros t. unfold status_of at 1. simpl.
  assert (is_Some (tasks k !! n) ∧ ∀ t, is_Some (candidate_tasks k rs !! t) ↔ is_Some (tasks k !! t))
    as [Hn Hdom].
  { assert (∀ t, is_Some (candidate_tasks k rs !! t) ↔ is_Some (tasks k !! t)) as Hd.
    { intros t'. unfold candidate_tasks. destruct (requeued k rs);
        by rewrite ?alter_dom, requeued_tasks_dom. }
    split; [|done]. apply Hd. pose proof (k_current _ _ _ Hk') as Hc. simpl in Hc.
    apply (k_dom _ _ _ Hk') in Hc. simpl in Hc. by apply alter_dom in Hc. }
  rewrite status_alter_Some by (by apply Hdom). case_decide as Htn; [done|].
  assert (status_in (candidate_tasks k rs) t = status_in (requeued_tasks k) t) as ->.
  { unfold candidate_tasks. destruct (requeued k rs) as [|y l] eqn:Er; [|done].
    unfold candidates in Ec. rewrite Er in Ec. simplify_eq.
    rewrite status_alter_Some by (by apply requeued_tasks_dom). by rewrite decide_False. }
  rewrite requeued_tasks_status by (apply (k_dom _ _ _ Hk), (k_current _ _ _ Hk)). done.
Qed.

Lemma running_not_ready ts k rs : kinv ts k rs → running k → current_task k ∉ rs.
Proof. intros Hk Hr. apply (kinv_not_ready Hk). by rewrite Hr. Qed.

(** Ready tasks, or the idle task when there is none. *)
Definition or_idle (k : kstate) (rs : list Z) : list Z :=
  match rs with [] => [idle_thread k] | _ => rs end.

Lemma thread_block_switched ts fuel k rs st :
  kinv ts k rs → running k → (length ts ≤ fuel)%nat → blocking st = true →
  ∃ k', thread_block fuel k st = Ok (k', intr_on k) ∧
    switched ts k k' (or_idle k rs) (λ t,
      if decide (t = current_task k) then Some st else status_of k t).
Proof.
  intros Hk Hr Hf Hst. pose proof (running_not_ready _ _ _ Hk Hr) as Hni.
  pose proof Hk as [Hpool Hpcb Hdom Hq Hnd Hrd Hrun Hc Hi Hal].
  pose proof (kinv_task Hk _ Hc) as Hx.
  unfold thread_block. rewrite (ASSERT_true _ Hst). cbn [obind].
  rewrite local_irq_disable_eq. unfold get_cur_task.
  rewrite update_task_eq by done. cbn [obind].
  set (kb := set_tasks _ _).
  assert (∀ t, status_of kb t = if decide (t = current_task k) then Some st else status_of k t)
    as Hsb.
  { intros t. unfold status_of. simpl. by rewrite status_alter_Some. }
  assert (kinv ts kb rs) as Hkb.
  { split; try done.
    - intros t. simpl. by rewrite alter_dom.
    - intros t. rewrite Hsb, Hrd. case_decide; [subst t|done].
      unfold running in Hr. rewrite Hr. split; [done|]. intros [= E]. by rewrite E in Hst.
    - intros t. rewrite Hsb. case_decide; [|apply Hrun]. intros [= E]. by rewrite E in Hst.
    - intros t. rewrite Hsb. case_decide; [|apply Hal]. intros [= E]. by rewrite E in Hst. }
  destruct (schedule_switched ts fuel kb rs Hkb Hf) as (k' & E & Hsw).
  exists k'. change (current_task (set_intr k false)) with (current_task k).
  rewrite E. split; [done|].
  assert (¬ running kb) as Hnr.
  { unfold running. simpl. rewrite Hsb, decide_True by done. intros [= E']. by rewrite E' in Hst. }
  assert (candidates kb rs = or_idle k rs) as Ec.
  { unfold candidates, requeued. rewrite decide_False by exact Hnr. by destruct rs. }
  rewrite Ec in Hsw. destruct Hsw as [S1 S2 S3 S4 S5]. split; try done.
  intros t. rewrite S4. destruct (decide (t = current_task k')); [done|].
    rewrite (decide_False (P := _ ∧ _)) by (by intros [_ ?]). apply Hsb.
Qed.

Lemma thread_yield_switched ts fuel k rs :
  kinv ts k rs → running k → (length ts ≤ fuel)%nat →
  ∃ k', thread_yield fuel k = Ok (k', intr_on k) ∧
    switched ts k k' (rs ++ [current_task k]) (λ t,
      if decide (t = current_task k) then Some TASK_READY else status_of k t).
Proof.
  intros Hk Hr Hf. pose proof (running_not_ready _ _ _ Hk Hr) as Hni.
  pose proof Hk as [_ _ _ _ Hnd _ _ Hc _ _]. pose proof (kinv_task Hk _ Hc) as Hx.
  unfold thread_yield, get_cur_task. rewrite local_irq_disable_eq.
  assert (in_ready_queue fuel (set_intr k false) (current_task k) = Ok false) as ->.
  { apply (kinv_find Hk fuel _ rs); try done; [apply Hk|]. intros t. apply (kinv_ready_ts Hk). }
  cbn [obind]. rewrite ASSERT_true by done. cbn [obind].
  destruct (kinv_queue_in ts k rs _ Hk Hc Hni) as (m & q & Em & Hu & Hq').
  change (nodes (set_intr k false)) with (nodes k).
  change (thread_ready_queue (set_intr k false)) with (thread_ready_queue k).
  rewrite Em. cbn [obind]. rewrite update_task_eq by done. cbn [obind].
  set (ky := set_tasks _ _).
  assert (∀ t, status_of ky t = if decide (t = current_task k) then Some TASK_READY
                                 else status_of k t) as Hsy.
  { intros t. unfold status_of. simpl. by rewrite status_alter_Some. }
  assert (kinv ts ky (rs ++ [current_task k])) as Hky.
  { apply (kinv_enqueue ts k rs m q _ false); try done; intros t; first [apply alter_dom | apply Hsy]. }
  destruct (schedule_switched ts fuel ky _ Hky Hf) as (k' & E & [S1 S2 S3 S4 S5]).
  exists k'. rewrite E. split; [done|].
  assert (¬ running ky) as Hnr.
  { unfold running. simpl. by rewrite Hsy, decide_True. }
  assert (candidates ky (rs ++ [current_task k]) = rs ++ [current_task k]) as Ec.
  { unfold candidates, requeued. rewrite decide_False by exact Hnr. by destruct rs. }
  rewrite Ec in *. split; try done.
  - intros t. rewrite S4. destruct (decide (t = current_task k')); [done|].
    rewrite (decide_False (P := _ ∧ _)) by (by intros [_ ?]). apply Hsy.
  - eapply upd_nodes_trans; [|exact S5]. eapply upd_nodes_mono; [|exact Hu].
    intros p. rewrite !list_elem_of_fmap. set_solver.
Qed.

Lemma thread_unblock_woken ts fuel k rs t :
  kinv ts k rs → (length ts ≤ fuel)%nat → t ∈ ts → asleep k t →
  ∃ k', thread_unblock fuel k t = Ok k' ∧ kinv ts k' (t :: rs) ∧
    current_task k' = current_task k ∧ idle_thread k' = idle_thread k ∧ intr_on k' = intr_on k ∧
    (∀ t', status_of k' t' = if decide (t' = t) then Some TASK_READY else status_of k t') ∧
    upd_nodes (nodes k) (nodes k') (dispatch_node <$> t :: rs).
Proof.
  intros Hk Hf Ht Has. destruct (thread_unblock_spec ts fuel k rs t Hk Hf Ht Has) as (m & q & E & Hu & Hq).
  eexists. split; [exact E|]. split_and!; try done.
  - by apply kinv_unblock.
  - intros t'. unfold status_of. simpl. by rewrite status_alter_Some by (by apply (kinv_task Hk)).
Qed.

(** [schedule] called [i] times in a row, each time by the task that runs (as
    the timer interrupt does when the ticks of the task are used up). *)
Fixpoint schedules (fuel : nat) (i : nat) (k : kstate) : outcome kstate :=
  match i with
  | O => Ok k
  | S i => let! k := schedule fuel k in schedules fuel i k
  end.

(** A list rotated [i] places. *)
Definition rotated {A} (i : nat) (l : list A) : list A := drop i l ++ take i l.

Lemma schedules_rotate ts fuel (i : nat) k rs :
  kinv ts k rs → running k → (length ts ≤ fuel)%nat → (i ≤ length (current_task k :: rs))%nat →
  ∃ k', schedules fuel i k = Ok k' ∧ running k' ∧ ∃ rs', kinv ts k' rs' ∧
    current_task k' :: rs' = rotated i (current_task k :: rs).
Proof.
  revert k rs. induction i as [|i IH]; intros k rs Hk Hr Hf Hi.
  { exists k. split_and!; [done|done|]. exists rs. split; [done|]. unfold rotated.
    by rewrite drop_0, take_0, app_nil_r. }
  destruct (schedule_switched ts fuel k rs Hk Hf) as (k1 & E1 & Hsw).
  pose proof (switched_running _ _ _ _ _ Hsw) as Hr1.
  destruct Hsw as [(rs1 & Ec & Hk1) _ _ _ _].
  assert (candidates k rs = rs ++ [current_task k]) as Ec'.
  { unfold candidates, requeued. rewrite decide_True by exact Hr. by destruct rs. }
  rewrite Ec' in Ec. pose proof (f_equal length Ec) as Hlen.
  rewrite length_app in Hlen. simpl in Hlen, Hi.
  destruct (IH k1 rs1 Hk1 Hr1 Hf) as (k' & E & Hr' & rs' & Hk' & Erot); [simpl; lia|].
  exists k'. simpl. rewrite E1. simpl. split_and!; [done|done|]. exists rs'. split; [done|].
  rewrite Erot, <- Ec. unfold rotated. simpl. rewrite drop_app_le, take_app_le by lia.
  by rewrite <- app_assoc.
Qed.

(** * Properties *)

(** C34. The scheduler is round robin: when the task [c] runs and the tasks [rs]
    are ready, [i] calls of [schedule] by the running tasks reach no failed
    assertion, and then the ready queue continues the sequence [c :: rs],
    rotated by [i], of which the head runs; after [length rs + 1] calls the
    task [c] runs again. *)
Theorem schedule_round_robin (ts : list Z) (fuel i : nat) (k : kstate) (rs : list Z) :
  kinv ts k rs → running k → (length ts ≤ fuel)%nat → (i ≤ length rs + 1)%nat →
  ∃ k' rs', schedules fuel i k = Ok k' ∧ kinv ts k' rs' ∧ running k' ∧
    current_task k' :: rs' = drop i (current_task k :: rs) ++ take i (current_task k :: rs) ∧
    (i = (length rs + 1)%nat → current_task k' = current_task k ∧ rs' = rs).
Proof.
  intros Hk Hr Hf Hi.
  destruct (schedules_rotate ts fuel i k rs Hk Hr Hf) as (k' & E & Hr' & rs' & Hk' & Erot);
    [simpl; lia|].
  exists k', rs'. split_and!; try done. intros ->. unfold rotated in Erot.
  rewrite drop_ge, take_ge in Erot by (simpl; lia). simpl in Erot. by injection Erot.
Qed.

(** C4. One call of [schedule], whatever the status of the caller: it reaches
    no failed assertion, and the first candidate runs, with interrupts off.  A caller
    that was running is put last in the ready queue with its ticks reset to its
    priority (8 bits); a caller that is not gives up the processor; the idle task
    is woken exactly when nothing else is ready. *)
Theorem schedule_switches (ts : list Z) (fuel : nat) (k : kstate) (rs : list Z) (x : task_struct) :
  kinv ts k rs → (length ts ≤ fuel)%nat → tasks k !! current_task k = Some x →
  ∃ k' rs', schedule fuel k = Ok k' ∧ kinv ts k' rs' ∧ running k' ∧ intr_on k' = false ∧
    current_task k' :: rs' =
      (if decide (status x = TASK_RUNNING) then rs ++ [current_task k]
       else if decide (rs = []) then [idle_thread k] else rs) ∧
    (status x = TASK_RUNNING → ticks <$> tasks k' !! current_task k = Some (u8 (priority x))).
Proof.
  intros Hk Hf Ex.
  destruct (schedule_spec ts fuel k rs Hk Hf) as (m & q & n & rs' & Ec & E & Hk' & Hr & Hu).
  eexists _, rs'. split; [exact E|]. split_and!; try done.
  - simpl. rewrite <- Ec. unfold candidates, requeued, status_of, status_in. rewrite Ex. simpl.
    destruct (decide (status x = TASK_RUNNING)) as [Es|Es].
    + rewrite decide_True by (by rewrite Es). by destruct rs.
    + rewrite decide_False by (intros [= ?]; done). by destruct rs.
  - intros Es. simpl.
    assert (status_of k (current_task k) = Some TASK_RUNNING) as Est.
    { unfold status_of, status_in. rewrite Ex. simpl. by rewrite Es. }
    assert (candidate_tasks k rs = requeued_tasks k) as ->.
    { unfold candidate_tasks, requeued. rewrite decide_True by done. by destruct rs. }
    unfold requeued_tasks. rewrite decide_True by done.
    destruct (decide (n = current_task k)) as [->|].
    + by rewrite !lookup_alter_eq, Ex.
    + by rewrite lookup_alter_ne, !lookup_alter_eq, Ex.
Qed.

(** A woken task runs first: the current task [c] blocks, the next ready task
    [n] takes over and wakes [c], and as soon as [n] yields, [c] runs again,
    ahead of all the tasks that were ready before it; the interrupt status each
    caller will restore is the one it had. *)
Theorem woken_runs_first (ts : list Z) (fuel : nat) (k : kstate) (n : Z) (rs : list Z)
    (st : task_status) :
  kinv ts k (n :: rs) → running k → (length ts ≤ fuel)%nat → blocking st = true →
  ∃ k1 k2 k3, thread_block fuel k st = Ok (k1, intr_on k) ∧ current_task k1 = n ∧
    status_of k1 (current_task k) = Some st ∧
    thread_unblock fuel k1 (current_task k) = Ok k2 ∧
    thread_yield fuel k2 = Ok (k3, intr_on k2) ∧ current_task k3 = current_task k ∧
    kinv ts k3 (rs ++ [n]).
Proof.
  intros Hk Hr Hf Hst.
  destruct (thread_block_switched ts fuel k (n :: rs) st Hk Hr Hf Hst) as (k1 & E1 & Hsw1).
  pose proof (switched_running _ _ _ _ _ Hsw1) as Hr1.
  destruct Hsw1 as [(rs1 & Ec1 & Hk1) _ _ Hs1 _]. simpl in Ec1. injection Ec1 as En <-.
  assert (current_task k ≠ n) as Hne.
  { intros Heq. apply (running_not_ready _ _ _ Hk Hr). rewrite Heq. by left. }
  assert (status_of k1 (current_task k) = Some st) as Hc1.
  { rewrite Hs1, decide_False, decide_True by congruence. done. }
  destruct (thread_unblock_woken ts fuel k1 rs (current_task k) Hk1 Hf)
    as (k2 & E2 & Hk2 & Ecur2 & _ & _ & Hs2 & _); [apply (k_current _ _ _ Hk)|by exists st|].
  assert (running k2) as Hr2.
  { unfold running. rewrite Hs2, Ecur2. rewrite decide_False by congruence. apply Hr1. }
  destruct (thread_yield_switched ts fuel k2 _ Hk2 Hr2 Hf) as (k3 & E3 & [(rs3 & Ec3 & Hk3) _ _ _ _]).
  simpl in Ec3. injection Ec3 as Ec3 <-. rewrite Ecur2, <- En in Hk3.
  exists k1, k2, k3. split_and!; congruence || done.
Qed.

(** ** Witnesses *)

Definition demo_task (st : task_status) (prio : Z) : task_struct :=
  TaskStruct 0 st prio 1 3 0 [] NULL 0x20130901.

(** Three tasks: one runs, the idle task and another one are ready. *)
Definition demo_kstate : kstate :=
  KState (list_to_map [(4148, 0); (4152, 0); (8244, 12340); (8248, 12340); (12340, 8244); (12344, 8244)])
    {[ 4096 := demo_task TASK_RUNNING 258; 8192 := demo_task TASK_READY 1;
       12288 := demo_task TASK_READY 31 ]}
    (GeneralQueue 8244 2) 4096 8192 true.

Lemma demo_kinv : kinv [4096; 8192; 12288] demo_kstate [8192; 12288].
Proof.
  assert (∀ t, status_of demo_kstate t =
    if decide (4096 = t) then Some TASK_RUNNING else if decide (8192 = t) then Some TASK_READY
    else if decide (12288 = t) then Some TASK_READY else None) as Hst.
  { intros t. unfold status_of, status_in, demo_kstate. simpl.
    rewrite !lookup_insert, ?lookup_singleton. repeat case_decide; done. }
  split.
  - split_and!; [|by repeat constructor| |done].
    + repeat constructor; unfold sep; vm_compute; intuition congruence.
    + repeat constructor; apply (bool_decide_unpack _); by vm_compute.
  - repeat constructor; vm_compute; congruence.
  - intros t. unfold demo_kstate. simpl.
    rewrite !lookup_insert, ?lookup_singleton, !elem_of_cons, elem_of_nil.
    repeat case_decide; split; intros Ht; subst; eauto; try lia.
    by destruct Ht.
  - split_and!; [done|done|done|right]. unfold ring. split_and!.
    + cbn [app path]. split_and!; split_and?; by vm_compute.
    + repeat constructor. unfold sep. vm_compute. intuition congruence.
    + by repeat constructor.
  - apply (bool_decide_unpack _). by vm_compute.
  - intros t. rewrite Hst, !elem_of_cons, elem_of_nil. repeat case_decide; split; intros;
      subst; try done; try lia; auto.
  - intros t. rewrite Hst. simpl. repeat case_decide; done.
  - by left.
  - right. by left.
  - intros t. rewrite Hst. by repeat case_decide.
Qed.

Lemma schedule_round_robin_witness :
  ∃ k' rs', schedules 3 2 demo_kstate = Ok k' ∧ kinv [4096; 8192; 12288] k' rs' ∧ running k' ∧
    current_task k' :: rs' = [12288; 4096; 8192] ∧
    (2%nat = 3%nat → current_task k' = 4096 ∧ rs' = [8192; 12288]).
Proof.
  apply (schedule_round_robin [4096; 8192; 12288] 3 2 demo_kstate [8192; 12288]);
    [apply demo_kinv|done|done|simpl; lia].
Defined.

Lemma schedule_switches_witness :
  ∃ k' rs', schedule 3 demo_kstate = Ok k' ∧ kinv [4096; 8192; 12288] k' rs' ∧ running k' ∧
    intr_on k' = false ∧ current_task k' :: rs' = [8192; 12288; 4096] ∧
    (TASK_RUNNING = TASK_RUNNING → ticks <$> tasks k' !! 4096 = Some 2).
Proof.
  apply (schedule_switches [4096; 8192; 12288] 3 demo_kstate [8192; 12288]
    (demo_task TASK_RUNNING 258)); [apply demo_kinv|done|done].
Defined.

Lemma woken_runs_first_witness :
  ∃ k1 k2 k3, thread_block 3 demo_kstate TASK_WAITING = Ok (k1, true) ∧ current_task k1 = 8192 ∧
    status_of k1 4096 = Some TASK_WAITING ∧ thread_unblock 3 k1 4096 = Ok k2 ∧
    thread_yield 3 k2 = Ok (k3, intr_on k2) ∧ current_task k3 = 4096 ∧
    kinv [4096; 8192; 12288] k3 [12288; 8192].
Proof.
  apply (woken_runs_first [4096; 8192; 12288] 3 demo_kstate 8192 [12288] TASK_WAITING);
    [apply demo_kinv|done|done|done].
Defined.
