(* ===== verification/Sync.v ===== *)
(** Semaphores and locks (thread/sync.c), and the threads that use them: a
    machine whose steps are the statements of [lock_acquire] and
    [lock_release], interleaved by the timer interrupt. *)
From S2P Require Import Prelude KList Thread.
Local Open Scope Z_scope.

(** * Data *)

(** [struct semaphore] and [struct lock]. *)
Record semaphore := Semaphore { value : Z; waiter_queue : general_queue }.
Record lock := Lock { holder : Z; sema : semaphore; holder_repeat_cnt : Z }.

Definition set_nodes (k : kstate) (m : mem) : kstate :=
  KState m (tasks k) (thread_ready_queue k) (current_task k) (idle_thread k) (intr_on k).

Definition sema_init (values : Z) : semaphore := Semaphore (u8 values) queue_init.
Definition lock_init : lock := Lock NULL (sema_init 1) 0.

(** * Operations *)

Section sync.
(** Fuel of [list_find_item]. *)
Variable fuel : nat.

(** One turn of the [while] loop of [sema_down].  [None]: the semaphore is
    taken and the loop is over.  [Some b]: the caller is suspended in the
    [switch_to] below [thread_block]; it restores the interrupt status [b] when
    it runs again and goes back to the test of the loop. *)
Definition sema_down_turn (k : kstate) (s : semaphore)
    : outcome (kstate * semaphore * option bool) :=
  if value s =? 0 then
    let! found := list_find_item fuel (nodes k) (front (waiter_queue s))
                    (dispatch_node (get_cur_task k)) in
    ASSERT (negb found) ;!
    let! found := list_find_item fuel (nodes k) (front (waiter_queue s))
                    (dispatch_node (get_cur_task k)) in
    if found then Panic
    else
      let! (m, q) := queue_in (nodes k) (waiter_queue s) (dispatch_node (get_cur_task k)) in
      let! (k, b) := thread_block fuel (set_nodes k m) TASK_BLOCKED in
      Ok (k, Semaphore (value s) q, Some b)
  else
    let s := Semaphore (u8 (value s - 1)) (waiter_queue s) in
    ASSERT (value s =? 0) ;!
    Ok (k, s, None).

Definition sema_up (k : kstate) (s : semaphore) : outcome (kstate * semaphore) :=
  let (k, old_status) := local_irq_disable k in
  ASSERT (value s =? 0) ;!
  let! (k, s) :=
    if negb (queue_empty (waiter_queue s)) then
      let! (m, q, p) := queue_out (nodes k) (waiter_queue s) in
      let! k := thread_unblock fuel (set_nodes k m) (dispatch_entry p) in
      Ok (k, Semaphore (value s) q)
    else Ok (k, s) in
  let s := Semaphore (u8 (value s + 1)) (waiter_queue s) in
  ASSERT (value s =? 1) ;!
  Ok (set_intr_status k old_status, s).

(** * Threads *)

(** Where a thread is: in its own code, or before a statement of
    [lock_acquire], [lock_release] or [sema_down].  [DownLoop l old]: at the
    test of the loop of [sema_down], with the interrupt status to restore. *)
Inductive pc :=
  | Client
  | AcqEntry (l : Z)      (* if(plock->holder != get_cur_task()) *)
  | AcqDown (l : Z)       (* sema_down *)
  | DownLoop (l : Z) (old : bool)
  | AcqHolder (l : Z)     (* plock->holder = get_cur_task() *)
  | AcqCount (l : Z)      (* ASSERT; plock->holder_repeat_cnt = 1 *)
  | AcqAgain (l : Z)      (* plock->holder_repeat_cnt++ *)
  | RelEntry (l : Z)      (* ASSERT(plock->holder == get_cur_task()) *)
  | RelTest (l : Z)       (* if(plock->holder_repeat_cnt > 1) *)
  | RelDec (l : Z)        (* plock->holder_repeat_cnt--; return *)
  | RelOne (l : Z)        (* ASSERT(plock->holder_repeat_cnt == 1) *)
  | RelHolder (l : Z)     (* plock->holder = NULL *)
  | RelCount (l : Z)      (* plock->holder_repeat_cnt = 0 *)
  | RelUp (l : Z).        (* sema_up *)

(** A thread: its program point, and, when it is suspended inside [switch_to],
    the interrupt status it restores when it is switched to again. *)
Record ctx := Ctx { at_pc : pc; saved : option bool }.

Record sys := Sys { kern : kstate; locks : gmap Z lock; ctxs : gmap Z ctx }.

Definition cur (s : sys) : Z := current_task (kern s).

Definition with_kern (s : sys) (k : kstate) : sys := Sys k (locks s) (ctxs s).
Definition with_lock (s : sys) (l : Z) (L : lock) : sys := Sys (kern s) (<[l := L]> (locks s)) (ctxs s).
Definition with_ctx (s : sys) (t : Z) (c : ctx) : sys := Sys (kern s) (locks s) (<[t := c]> (ctxs s)).
Definition goto (s : sys) (p : pc) : sys := with_ctx s (cur s) (Ctx p None).

(** The calling thread is suspended at [p]; the processor goes on with [k]. *)
Definition suspend (s : sys) (p : pc) (k : kstate) (b : bool) : sys :=
  with_kern (with_ctx s (cur s) (Ctx p (Some b))) k.

Definition get_lock (s : sys) (l : Z) : outcome lock :=
  match locks s !! l with Some L => Ok L | None => Fault end.

(** The statement at [p], executed by the current thread. *)
Definition exec (s : sys) (p : pc) : outcome sys :=
  match p with
  | Client => Ok s
  | AcqEntry l =>
      let! L := get_lock s l in
      if negb (holder L =? get_cur_task (kern s)) then Ok (goto s (AcqDown l))
      else Ok (goto s (AcqAgain l))
  | AcqDown l =>
      let (k, old_status) := local_irq_disable (kern s) in
      Ok (goto (with_kern s k) (DownLoop l old_status))
  | DownLoop l old_status =>
      let! L := get_lock s l in
      let! (k, sem, b) := sema_down_turn (kern s) (sema L) in
      let s := with_lock s l (Lock (holder L) sem (holder_repeat_cnt L)) in
      match b with
      | Some b => Ok (suspend s (DownLoop l old_status) k b)
      | None => Ok (goto (with_kern s (set_intr_status k old_status)) (AcqHolder l))
      end
  | AcqHolder l =>
      let! L := get_lock s l in
      Ok (goto (with_lock s l (Lock (get_cur_task (kern s)) (sema L) (holder_repeat_cnt L))) (AcqCount l))
  | AcqCount l =>
      let! L := get_lock s l in
      ASSERT (holder_repeat_cnt L =? 0) ;!
      Ok (goto (with_lock s l (Lock (holder L) (sema L) 1)) Client)
  | AcqAgain l =>
      let! L := get_lock s l in
      Ok (goto (with_lock s l (Lock (holder L) (sema L) (u32 (holder_repeat_cnt L + 1)))) Client)
  | RelEntry l =>
      let! L := get_lock s l in
      ASSERT (holder L =? get_cur_task (kern s)) ;!
      Ok (goto s (RelTest l))
  | RelTest l =>
      let! L := get_lock s l in
      if 1 <? holder_repeat_cnt L then Ok (goto s (RelDec l)) else Ok (goto s (RelOne l))
  | RelDec l =>
      let! L := get_lock s l in
      Ok (goto (with_lock s l (Lock (holder L) (sema L) (u32 (holder_repeat_cnt L - 1)))) Client)
  | RelOne l =>
      let! L := get_lock s l in
      ASSERT (holder_repeat_cnt L =? 1) ;!
      Ok (goto s (RelHolder l))
  | RelHolder l =>
      let! L := get_lock s l in
      Ok (goto (with_lock s l (Lock NULL (sema L) (holder_repeat_cnt L))) (RelCount l))
  | RelCount l =>
      let! L := get_lock s l in
      Ok (goto (with_lock s l (Lock (holder L) (sema L) 0)) (RelUp l))
  | RelUp l =>
      let! L := get_lock s l in
      let! (k, sem) := sema_up (kern s) (sema L) in
      Ok (goto (with_kern (with_lock s l (Lock (holder L) sem (holder_repeat_cnt L))) k) Client)
  end.

(** What can happen next.  [Tick]: the timer interrupts the current thread and
    its ticks are used up.  [Resume]: a thread that was switched to leaves
    [switch_to].  [Step]: the next statement.  The others are calls and returns
    of the threads' own code. *)
Inductive event :=
  | Tick | Resume | Step
  | CallAcquire (l : Z) | CallRelease (l : Z)
  | CallBlock (st : task_status) | CallYield | CallUnblock (t : Z) | CallIrq (b : bool).

Definition is_client (p : pc) : bool := match p with Client => true | _ => false end.

(** The calls a thread may make: the idle task takes no locks; a lock is
    released by its holder and not acquired 2^32 - 1 times over; only a thread
    that blocked itself is woken by others. *)
Definition call (s : sys) (e : event) : option (outcome sys) :=
  let k := kern s in
  match e with
  | CallAcquire l =>
      L ← locks s !! l;
      if bool_decide (cur s ≠ idle_thread k ∧ holder_repeat_cnt L < 4294967295)
      then Some (Ok (goto s (AcqEntry l))) else None
  | CallRelease l =>
      L ← locks s !! l;
      if bool_decide (cur s ≠ idle_thread k ∧ holder L = cur s)
      then Some (Ok (goto s (RelEntry l))) else None
  | CallBlock st =>
      if blocking st then
        Some (let! (k, b) := thread_block fuel k st in Ok (suspend s Client k b))
      else None
  | CallYield => Some (let! (k, b) := thread_yield fuel k in Ok (suspend s Client k b))
  | CallUnblock t =>
      c ← ctxs s !! t; x ← tasks k !! t;
      if is_client (at_pc c) && blocking (status x) then
        Some (let! k := thread_unblock fuel k t in Ok (with_kern s k))
      else None
  | CallIrq b => Some (Ok (with_kern s (set_intr k b)))
  | _ => None
  end.

(** [None]: the event cannot happen in this state. *)
Definition do_event (s : sys) (e : event) : option (outcome sys) :=
  c ← ctxs s !! cur s;
  match saved c, e with
  | Some b, Resume =>
      Some (Ok (goto (with_kern s (set_intr (kern s) b)) (at_pc c)))
  | None, Tick =>
      if intr_on (kern s) then
        Some (let! k := schedule fuel (set_intr (kern s) false) in Ok (suspend s (at_pc c) k true))
      else None
  | None, Step => if is_client (at_pc c) then None else Some (exec s (at_pc c))
  | None, e => if is_client (at_pc c) then call s e else None
  | _, _ => None
  end.

Definition step (s s' : sys) : Prop := ∃ e, do_event s e = Some (Ok s').
End sync.

(** * Invariant *)

Definition pc_lock (p : pc) : option Z :=
  match p with
  | Client => None
  | AcqEntry l | AcqDown l | DownLoop l _ | AcqHolder l | AcqCount l | AcqAgain l
  | RelEntry l | RelTest l | RelDec l | RelOne l | RelHolder l | RelCount l | RelUp l => Some l
  end.

Definition is_loop (p : pc) : bool := match p with DownLoop _ _ => true | _ => false end.

(** A thread at [p] has taken the semaphore of [l] and not given it back. *)
Definition owns_pc (p : pc) (l : Z) : Prop :=
  match p with
  | AcqHolder l' | AcqCount l' | AcqAgain l' | RelEntry l' | RelTest l' | RelDec l'
  | RelOne l' | RelHolder l' | RelCount l' | RelUp l' => l' = l
  | _ => False
  end.

(** The lock as its owner sees it between its calls. *)
Definition held (L : lock) (o : Z) : Prop := holder L = o ∧ 1 ≤ holder_repeat_cnt L < 4294967296.

(** The lock [L] at [l], owned by the thread [o] that is at [p]. *)
Definition owner_ok (p : pc) (l o : Z) (L : lock) : Prop :=
  if decide (pc_lock p = Some l) then
    match p with
    | AcqDown _ | DownLoop _ _ => False
    | AcqHolder _ | RelUp _ => holder L = NULL ∧ holder_repeat_cnt L = 0
    | AcqCount _ => holder L = o ∧ holder_repeat_cnt L = 0
    | AcqEntry _ | AcqAgain _ => held L o ∧ holder_repeat_cnt L < 4294967295
    | RelDec _ => held L o ∧ 1 < holder_repeat_cnt L
    | RelHolder _ => holder L = o ∧ holder_repeat_cnt L = 1
    | RelOne _ => holder L = o ∧ holder_repeat_cnt L = 1
    | RelCount _ => holder L = NULL ∧ holder_repeat_cnt L = 1
    | _ => held L o
    end
  else held L o.

(** The lock is free, or exactly one thread owns it. *)
Definition own_ok (cs : gmap Z ctx) (l : Z) (L : lock) : Prop :=
  (value (sema L) = 1 ∧ holder L = NULL ∧ holder_repeat_cnt L = 0 ∧
   ∀ t c, cs !! t = Some c → ¬ owns_pc (at_pc c) l) ∨
  (value (sema L) = 0 ∧ ∃ o c, cs !! o = Some c ∧ owner_ok (at_pc c) l o L ∧
   ∀ t c', cs !! t = Some c' → owns_pc (at_pc c') l → t = o).

(** The threads in the loop of [sema_down], asleep or on their way. *)
Definition in_loop (cs : gmap Z ctx) (l t : Z) : Prop :=
  ∃ old sv, cs !! t = Some (Ctx (DownLoop l old) sv).
Definition waiting (k : kstate) (cs : gmap Z ctx) (l t : Z) : Prop := in_loop cs l t ∧ asleep k t.
Definition awake (k : kstate) (cs : gmap Z ctx) (l t : Z) : Prop := in_loop cs l t ∧ ¬ asleep k t.

(** The waiter queue holds the threads that sleep in the loop; when the
    semaphore is free and threads wait, one of them has been woken. *)
Definition wait_ok (k : kstate) (cs : gmap Z ctx) (l : Z) (L : lock) : Prop :=
  ∃ ws, queue_repr (nodes k) (waiter_queue (sema L)) (dispatch_node <$> ws) ∧ NoDup ws ∧
    (∀ t, t ∈ ws ↔ waiting k cs l t) ∧
    (value (sema L) = 1 → ws ≠ [] → ∃ t, awake k cs l t).

(** The threads' program points and saved interrupt statuses. *)
Record cinv (ts : list Z) (s : sys) : Prop := Cinv {
  c_dom : ∀ t, t ∈ ts ↔ is_Some (ctxs s !! t);
  c_lock : ∀ t c l, ctxs s !! t = Some c → pc_lock (at_pc c) = Some l → is_Some (locks s !! l);
  c_idle : ∀ c, ctxs s !! idle_thread (kern s) = Some c → at_pc c = Client;
  c_saved : ∀ t c, ctxs s !! t = Some c → t ≠ cur s → is_Some (saved c);
  c_intr : ∀ c, ctxs s !! cur s = Some c → is_Some (saved c) ∨ is_loop (at_pc c) = true →
    intr_on (kern s) = false;
  c_loop : ∀ t c b, ctxs s !! t = Some c → is_loop (at_pc c) = true → saved c = Some b → b = false
}.

Record inv (ts : list Z) (s : sys) (rs : list Z) : Prop := Inv {
  i_kern : kinv ts (kern s) rs;
  i_running : running (kern s);
  i_ctxs : cinv ts s;
  i_locks : ∀ l L, locks s !! l = Some L →
    wait_ok (kern s) (ctxs s) l L ∧ own_ok (ctxs s) l L
}.

(** ** Moving one thread *)

Lemma owner_ok_far p l o L : pc_lock p ≠ Some l → owner_ok p l o L ↔ held L o.
Proof. intros. unfold owner_ok. by rewrite decide_False. Qed.

Lemma owns_pc_lock p l : owns_pc p l → pc_lock p = Some l.
Proof. destruct p; simpl; by try intros ->. Qed.

Lemma own_ok_queue cs l L L' :
  own_ok cs l L → value (sema L') = value (sema L) → holder L' = holder L →
  holder_repeat_cnt L' = holder_repeat_cnt L → own_ok cs l L'.
Proof. unfold own_ok, owner_ok, held. by intros H -> -> ->. Qed.

Lemma own_ok_move cs l L t c c' :
  cs !! t = Some c → own_ok cs l L →
  at_pc c' = at_pc c ∨ (pc_lock (at_pc c) ≠ Some l ∧ pc_lock (at_pc c') ≠ Some l) →
  own_ok (<[t := c']> cs) l L.
Proof.
  intros Hc Hown Hpc.
  assert (owns_pc (at_pc c') l ↔ owns_pc (at_pc c) l) as Howns.
  { destruct Hpc as [->|[H1 H2]]; [done|]. split; intros H%owns_pc_lock; done. }
  assert (∀ o, owner_ok (at_pc c') l o L ↔ owner_ok (at_pc c) l o L) as Hok.
  { intros o. destruct Hpc as [->|[H1 H2]]; [done|]. by rewrite !owner_ok_far. }
  assert (∀ t' c2, <[t := c']> cs !! t' = Some c2 → owns_pc (at_pc c2) l →
    ∃ c3, cs !! t' = Some c3 ∧ owns_pc (at_pc c3) l) as Hback.
  { intros t' c2. rewrite lookup_insert_Some. intros [[<- <-]|[_ ?]] ?; [|eauto].
    exists c. split; [done|by apply Howns]. }
  destruct Hown as [(Hv & Hh & Hn & Hno)|(Hv & o & co & Ho & Hoo & Huniq)].
  - left. split_and!; try done. intros t' c2 E Ho. destruct (Hback t' c2 E Ho) as (c3 & ? & ?).
    by eapply Hno.
  - right. split; [done|]. destruct (decide (o = t)) as [->|].
    + exists t, c'. rewrite lookup_insert_eq. split_and!; [done| |].
      * apply Hok. rewrite Hc in Ho. by simplify_eq.
      * intros t' c2 E Ho'. destruct (Hback t' c2 E Ho') as (c3 & ? & ?). by eapply Huniq.
    + exists o, co. rewrite lookup_insert_ne by done. split_and!; [done|done|].
      intros t' c2 E Ho'. destruct (Hback t' c2 E Ho') as (c3 & ? & ?). by eapply Huniq.
Qed.

Lemma in_loop_insert cs t c l t' :
  in_loop (<[t := c]> cs) l t' ↔
    (t' = t ∧ ∃ old, at_pc c = DownLoop l old) ∨ (t' ≠ t ∧ in_loop cs l t').
Proof.
  unfold in_loop. destruct (decide (t' = t)) as [->|].
  - rewrite lookup_insert_eq. split.
    + intros (old & sv & [= ->]). left. eauto.
    + intros [(_ & old & E)|[? _]]; [|done]. destruct c as [p sv]. simpl in E. subst. eauto.
  - rewrite lookup_insert_ne by done. split; [by right|]. by intros [[? _]|[_ ?]].
Qed.

(** The loop a thread is in is not changed by giving it the same program point,
    or by moving it between points outside the loop of [l]. *)
Lemma in_loop_move cs t c c' l t' :
  cs !! t = Some c →
  at_pc c' = at_pc c ∨ (pc_lock (at_pc c) ≠ Some l ∧ pc_lock (at_pc c') ≠ Some l) ∨
    (is_loop (at_pc c) = false ∧ is_loop (at_pc c') = false) →
  in_loop (<[t := c']> cs) l t' ↔ in_loop cs l t'.
Proof.
  intros Hc Hpc. rewrite in_loop_insert. unfold in_loop.
  destruct (decide (t' = t)) as [->|]; [|naive_solver]. rewrite Hc.
  assert ((∃ old, at_pc c' = DownLoop l old) ↔ ∃ old, at_pc c = DownLoop l old) as H.
  { destruct Hpc as [->|[[H1 H2]|[H1 H2]]]; [done| |];
      split; intros [old E]; rewrite E in *; done. }
  split.
  - intros [[_ E]|[? _]]; [|done]. apply H in E as [old E]. destruct c as [p sv]. simpl in E.
    subst. eauto.
  - intros (old & sv & [= ->]). left. split; [done|]. apply H. eauto.
Qed.

(** ** Frames *)

Lemma asleep_ts ts k rs t : kinv ts k rs → asleep k t → t ∈ ts.
Proof.
  intros Hk (st & E & _). apply (k_dom _ _ _ Hk). unfold status_of, status_in in E.
  destruct (tasks k !! t); naive_solver.
Qed.

Lemma asleep_status k k' t : status_of k' t = status_of k t → asleep k' t ↔ asleep k t.
Proof. unfold asleep. by intros ->. Qed.

Lemma not_asleep k t st : status_of k t = Some st → blocking st = false → ¬ asleep k t.
Proof. intros E Hb (st' & E' & Hb'). rewrite E in E'. simplify_eq. congruence. Qed.

Lemma running_not_asleep k : running k → ¬ asleep k (current_task k).
Proof. intros Hr. by eapply not_asleep. Qed.

Lemma ready_not_asleep ts k rs t : kinv ts k rs → t ∈ rs → ¬ asleep k t.
Proof. intros Hk Ht. apply (k_ready _ _ _ Hk) in Ht. by eapply not_asleep. Qed.

Lemma dispatch_disjoint ts k rs l1 l2 :
  kinv ts k rs → l1 ⊆ ts → l2 ⊆ ts → (∀ t, t ∈ l1 → t ∈ l2 → False) →
  disjoint_nodes (dispatch_node <$> l1) (dispatch_node <$> l2).
Proof.
  intros Hk H1 H2 Hd p q (t1 & -> & Ht1)%list_elem_of_fmap (t2 & -> & Ht2)%list_elem_of_fmap.
  destruct (k_pool _ _ _ Hk) as (Hap & _).
  destruct (apart_elem (dispatch_node <$> ts) (dispatch_node t1) (dispatch_node t2)) as [E|]; try done.
  - apply list_elem_of_fmap. eauto.
  - apply list_elem_of_fmap. eauto.
  - destruct (Hd t1); [done|].
    rewrite (dispatch_node_inj t1 t2); [done|by apply (kinv_pcb Hk), H1|by apply (kinv_pcb Hk), H2|done].
Qed.

Lemma kinv_nodes ts k rs m tl :
  kinv ts k rs → upd_nodes (nodes k) m (dispatch_node <$> tl) → tl ⊆ ts →
  (∀ t, t ∈ tl → t ∉ rs) → kinv ts (set_nodes k m) rs.
Proof.
  intros Hk Hu Htl Hd. pose proof Hk as [Hpool Hpcb Hdom Hq Hnd Hr Hrun Hc Hi Hal].
  split; try done.
  - by eapply pool_upd.
  - eapply qs_frame; [exact Hu| |done]. eapply dispatch_disjoint; [done| |done|].
    + intros t. apply (kinv_ready_ts Hk).
    + intros t Ht1 Ht2. by apply (Hd t).
Qed.

Section wait_frame.
Context {ts : list Z} {k : kstate} {rs : list Z}.
Hypothesis Hk : kinv ts k rs.

Lemma waiters_ts cs l ws : (∀ t, t ∈ ws ↔ waiting k cs l t) → ws ⊆ ts.
Proof using Hk. intros H t Ht. apply H in Ht as [_ Has]. by eapply asleep_ts. Qed.

Lemma wait_frame k' cs cs' l L L' tl :
  wait_ok k cs l L → waiter_queue (sema L') = waiter_queue (sema L) →
  (value (sema L') = 1 → value (sema L) = 1) →
  upd_nodes (nodes k) (nodes k') (dispatch_node <$> tl) → tl ⊆ ts →
  (∀ t, t ∈ tl → ¬ waiting k cs l t) →
  (∀ t, waiting k' cs' l t ↔ waiting k cs l t) →
  (∀ t, awake k cs l t → awake k' cs' l t) →
  wait_ok k' cs' l L'.
Proof using Hk.
  intros (ws & Hq & Hnd & Hws & Hwake) Eq Hv Hu Htl Hd Hwait Haw.
  exists ws. split_and!; [|done| |].
  - rewrite Eq. eapply qs_frame; [exact Hu| |done]. eapply dispatch_disjoint; [done| |done|].
    + by eapply waiters_ts.
    + intros t Ht1 Ht2. apply (Hd t Ht2). by apply Hws.
  - intros t. by rewrite Hws, Hwait.
  - intros Hv' Hne. destruct (Hwake (Hv Hv') Hne) as [t Ht]. exists t. auto.
Qed.
End wait_frame.

(** When neither the statuses nor the nodes change. *)
Lemma wait_ok_same k k' cs cs' l L L' :
  wait_ok k cs l L → waiter_queue (sema L') = waiter_queue (sema L) →
  (value (sema L') = 1 → value (sema L) = 1) → nodes k' = nodes k →
  (∀ t, status_of k' t = status_of k t) → (∀ t, in_loop cs' l t ↔ in_loop cs l t) →
  wait_ok k' cs' l L'.
Proof.
  intros (ws & Hq & Hnd & Hws & Hwake) Eq Hv En Hst Hl.
  exists ws. rewrite Eq, En. split_and!; try done.
  - intros t. rewrite Hws. unfold waiting. by rewrite Hl, (asleep_status k k').
  - intros Hv' Hne. destruct (Hwake (Hv Hv') Hne) as [t [H1 H2]]. exists t. split; [by apply Hl|].
    by rewrite (asleep_status k k').
Qed.

(** ** Steps that only move the current thread and update a lock *)

Lemma inv_cur_ctx ts s rs : inv ts s rs → ∃ c, ctxs s !! cur s = Some c.
Proof. intros [Hk _ Hc _]. apply (c_dom _ _ Hc), (k_current _ _ _ Hk). Qed.

Lemma inv_cur_addr ts s rs : inv ts s rs → cur s ≠ NULL.
Proof.
  intros [Hk _ _ _]. pose proof (kinv_pcb Hk _ (k_current _ _ _ Hk)) as [H _].
  unfold cur, NULL. lia.
Qed.

(** The contexts when the current thread, which is not suspended, goes from [p]
    to [p']; the interrupt flag may change. *)
Lemma cinv_goto ts s p p' k' L' l :
  cinv ts s → ctxs s !! cur s = Some (Ctx p None) →
  current_task k' = cur s → idle_thread k' = idle_thread (kern s) →
  (is_loop p' = true → intr_on k' = false) →
  (∀ l', pc_lock p' = Some l' → is_Some (<[l := L']> (locks s) !! l')) →
  (p' = Client ∨ cur s ≠ idle_thread (kern s)) →
  cinv ts (Sys k' (<[l := L']> (locks s)) (<[cur s := Ctx p' None]> (ctxs s))).
Proof.
  intros [Hdom Hlock Hidle Hsaved Hintr Hloop] Hc Ek Ei Hoff Hl Hi. split; simpl.
  - intros t. rewrite lookup_insert_is_Some, Hdom. destruct (decide (cur s = t)) as [<-|]; [|tauto].
    rewrite Hc. split; [by left|eauto].
  - intros t c l'. rewrite lookup_insert_Some. intros [[<- <-]|[? E]]; [apply Hl|].
    intros Ep. destruct (Hlock t c l' E Ep) as [L0 HL0]. destruct (decide (l' = l)) as [->|].
    + rewrite lookup_insert_eq. eauto.
    + rewrite lookup_insert_ne by done. eauto.
  - intros c. rewrite Ei, lookup_insert_Some. intros [[E <-]|[? E]]; [|by apply Hidle].
    by destruct Hi.
  - intros t c. unfold cur in *. simpl. rewrite Ek, lookup_insert_Some.
    intros [[<- _]|[? E]] ?; [done|]. by eapply Hsaved.
  - intros c. unfold cur in *. simpl. rewrite Ek, lookup_insert_eq. intros [= <-]. simpl.
    intros [[? ?]|?]; [done|by apply Hoff].
  - intros t c b. rewrite lookup_insert_Some. intros [[<- <-]|[? E]]; [done|by eapply Hloop].
Qed.

Lemma inv_goto ts s rs p p' l L L' b :
  inv ts s rs → ctxs s !! cur s = Some (Ctx p None) → locks s !! l = Some L →
  is_loop p = false → is_loop p' = false →
  (∀ l', pc_lock p = Some l' → l' = l) → (∀ l', pc_lock p' = Some l' → l' = l) →
  (p' = Client ∨ cur s ≠ idle_thread (kern s)) →
  waiter_queue (sema L') = waiter_queue (sema L) → (value (sema L') = 1 → value (sema L) = 1) →
  (own_ok (ctxs s) l L → own_ok (<[cur s := Ctx p' None]> (ctxs s)) l L') →
  inv ts (Sys (set_intr (kern s) b) (<[l := L']> (locks s)) (<[cur s := Ctx p' None]> (ctxs s))) rs.
Proof.
  intros [Hk Hr Hcs Hlocks] Hc HL Hp Hp' Hpl Hpl' Hi Eq Hv Hown. split; simpl.
  - by apply kinv_set_intr.
  - done.
  - eapply cinv_goto; try done; [|].
    + intros E. by rewrite E in Hp'.
    + intros l' ->%Hpl'. rewrite lookup_insert_eq. eauto.
  - assert (∀ l' t, in_loop (<[cur s := Ctx p' None]> (ctxs s)) l' t ↔ in_loop (ctxs s) l' t) as Hloop.
    { intros l' t. eapply in_loop_move; [done|]. simpl. auto. }
    intros l' L1. rewrite lookup_insert_Some. intros [[<- <-]|[Hne HL1]].
    + destruct (Hlocks l L HL) as [Hw Ho]. split; [|by apply Hown].
      by eapply wait_ok_same.
    + destruct (Hlocks l' L1 HL1) as [Hw Ho]. split; [by eapply wait_ok_same|].
      eapply own_ok_move; [done|done|]. right. simpl. split.
      * intros ?%Hpl. done.
      * intros ?%Hpl'. done.
Qed.

(** ** Who owns a lock *)

Section own.
Context {cs : gmap Z ctx} {l : Z} {L : lock} {t : Z} {c : ctx}.
Hypothesis Hown : own_ok cs l L.
Hypothesis Hc : cs !! t = Some c.

Definition only_owner (cs : gmap Z ctx) (l t : Z) : Prop :=
  ∀ t' c', cs !! t' = Some c' → owns_pc (at_pc c') l → t' = t.

(** A thread between taking the semaphore and giving it back is the owner, and
    so is the thread the lock names. *)
Lemma own_pc : owns_pc (at_pc c) l →
  value (sema L) = 0 ∧ owner_ok (at_pc c) l t L ∧ only_owner cs l t.
Proof using Hown Hc.
  intros Ho. destruct Hown as [(_ & _ & _ & Hno)|(Hv & o & co & Eo & Hoo & Huniq)].
  - by destruct (Hno t c).
  - assert (t = o) as -> by (by eapply Huniq). rewrite Hc in Eo. by simplify_eq.
Qed.

Lemma own_holder : holder L = t → t ≠ NULL →
  value (sema L) = 0 ∧ owner_ok (at_pc c) l t L ∧ only_owner cs l t.
Proof using Hown Hc.
  intros Hh Ht. destruct Hown as [(_ & Hh' & _)|(Hv & o & co & Eo & Hoo & Huniq)]; [congruence|].
  assert (t = o) as <-.
  { unfold owner_ok, held in Hoo.
    destruct (decide (pc_lock (at_pc co) = Some l)); [|naive_solver].
    destruct (at_pc co); naive_solver. }
  rewrite Hc in Eo. by simplify_eq.
Qed.

Lemma only_owner_insert c' : only_owner cs l t → only_owner (<[t := c']> cs) l t.
Proof using. intros H t' c2. rewrite lookup_insert_Some. intros [[<- _]|[_ ?]]; [done|by apply H]. Qed.

Lemma own_update c' L' : only_owner cs l t → value (sema L') = 0 → owner_ok (at_pc c') l t L' →
  own_ok (<[t := c']> cs) l L'.
Proof using.
  intros Hu Hv Ho. right. split; [done|]. exists t, c'. rewrite lookup_insert_eq.
  split_and!; [done|done|]. by apply only_owner_insert.
Qed.

(** The lock is taken when it was free. *)
Lemma own_enter c' L' : value (sema L) = 1 → value (sema L') = 0 →
  (holder L = NULL → holder_repeat_cnt L = 0 → owner_ok (at_pc c') l t L') →
  own_ok (<[t := c']> cs) l L'.
Proof using Hown.
  intros Hv Hv' Ho. destruct Hown as [(_ & Hh & Hn & Hno)|(Hv0 & _)]; [|lia].
  apply own_update; [|done|auto]. intros t' c2 E ?. by destruct (Hno t' c2).
Qed.

(** The lock is given back. *)
Lemma own_leave c' L' : only_owner cs l t → value (sema L') = 1 → holder L' = NULL →
  holder_repeat_cnt L' = 0 → ¬ owns_pc (at_pc c') l → own_ok (<[t := c']> cs) l L'.
Proof using.
  intros Hu Hv Hh Hn Hno. left. split_and!; try done. intros t' c2.
  rewrite lookup_insert_Some. intros [[<- <-]|[Hne E]]; [done|]. intros Ho.
  by apply Hne, eq_sym, (Hu t' c2).
Qed.

(** A thread outside the lock moves without taking it. *)
Lemma own_pass c' : ¬ owns_pc (at_pc c) l → ¬ owns_pc (at_pc c') l →
  (owner_ok (at_pc c) l t L → owner_ok (at_pc c') l t L) → own_ok (<[t := c']> cs) l L.
Proof using Hown Hc.
  intros Hp Hp' Hoo. destruct Hown as [(Hv & Hh & Hn & Hno)|(Hv & o & co & Eo & Ho & Huniq)].
  - left. split_and!; try done. intros t' c2. rewrite lookup_insert_Some.
    intros [[<- <-]|[_ ?]]; [done|by eapply Hno].
  - right. split; [done|]. destruct (decide (o = t)) as [->|Hne].
    + exists t, c'. rewrite Hc in Eo. simplify_eq. rewrite lookup_insert_eq.
      split_and!; [done|by apply Hoo|by apply only_owner_insert].
    + exists o, co. rewrite lookup_insert_ne by done. split_and!; [done|done|].
      intros t' c2. rewrite lookup_insert_Some. intros [[<- <-]|[_ ?]] ?; [done|by eapply Huniq].
Qed.
End own.

Lemma owner_ok_here p l t L : pc_lock p = Some l → owner_ok p l t L =
  match p with
  | AcqDown _ | DownLoop _ _ => False
  | AcqHolder _ | RelUp _ => holder L = NULL ∧ holder_repeat_cnt L = 0
  | AcqCount _ => holder L = t ∧ holder_repeat_cnt L = 0
  | AcqEntry _ | AcqAgain _ => held L t ∧ holder_repeat_cnt L < 4294967295
  | RelDec _ => held L t ∧ 1 < holder_repeat_cnt L
  | RelHolder _ => holder L = t ∧ holder_repeat_cnt L = 1
  | RelOne _ => holder L = t ∧ holder_repeat_cnt L = 1
  | RelCount _ => holder L = NULL ∧ holder_repeat_cnt L = 1
  | _ => held L t
  end.
Proof. intros E. unfold owner_ok. by rewrite decide_True. Qed.

(** ** The statements of [lock_acquire] and [lock_release] *)

Lemma set_intr_id k : set_intr k (intr_on k) = k.
Proof. by destruct k. Qed.

Section statements.
Context {ts : list Z} {s : sys} {rs : list Z} {l : Z} {L : lock} {p : pc}.
Hypothesis Hinv : inv ts s rs.
Hypothesis Hc : ctxs s !! cur s = Some (Ctx p None).
Hypothesis HL : locks s !! l = Some L.
Hypothesis Hp : is_loop p = false.
Hypothesis Hpl : ∀ l', pc_lock p = Some l' → l' = l.

Lemma stmt_lock p' L' :
  is_loop p' = false → (∀ l', pc_lock p' = Some l' → l' = l) →
  (p' = Client ∨ cur s ≠ idle_thread (kern s)) →
  waiter_queue (sema L') = waiter_queue (sema L) → (value (sema L') = 1 → value (sema L) = 1) →
  (own_ok (ctxs s) l L → own_ok (<[cur s := Ctx p' None]> (ctxs s)) l L') →
  inv ts (goto (with_lock s l L') p') rs.
Proof using All.
  intros. pose proof (inv_goto ts s rs p p' l L L' (intr_on (kern s))) as H'.
  rewrite set_intr_id in H'. by apply H'.
Qed.

Lemma stmt_same p' :
  is_loop p' = false → (∀ l', pc_lock p' = Some l' → l' = l) →
  (p' = Client ∨ cur s ≠ idle_thread (kern s)) →
  (own_ok (ctxs s) l L → own_ok (<[cur s := Ctx p' None]> (ctxs s)) l L) →
  inv ts (goto s p') rs.
Proof using All.
  intros. pose proof (stmt_lock p' L) as H'. unfold with_lock in H'.
  rewrite (insert_id (locks s)) in H' by done. destruct s as [k' ls cs]. by apply H'.
Qed.

(** Not the idle task: it is in its own code. *)
Lemma stmt_not_idle : p ≠ Client → cur s ≠ idle_thread (kern s).
Proof using Hinv Hc.
  intros Hp' E. apply Hp'. pose proof (c_idle _ _ (i_ctxs _ _ _ Hinv)) as Hi.
  rewrite <- E in Hi. by apply (Hi _ Hc).
Qed.

Lemma stmt_own : own_ok (ctxs s) l L.
Proof using Hinv HL. by apply (i_locks _ _ _ Hinv). Qed.
End statements.

(** Discharge what is common to the moves of the current thread. *)
Ltac stmt Hinv Hc :=
  try done; try (by left); try (by intros ? [= <-]);
  try (right; by eapply (stmt_not_idle Hinv Hc)).

Lemma exec_statement ts fuel s rs p l :
  inv ts s rs → ctxs s !! cur s = Some (Ctx p None) → pc_lock p = Some l →
  match p with DownLoop _ _ | RelUp _ | AcqDown _ => False | _ => True end →
  ∃ s', exec fuel s p = Ok s' ∧ inv ts s' rs.
Proof.
  intros Hinv Hc Hpl Hp.
  destruct (c_lock _ _ (i_ctxs _ _ _ Hinv) _ _ _ Hc Hpl) as [L HL].
  pose proof (stmt_own Hinv HL) as Hown. pose proof (inv_cur_addr _ _ _ Hinv) as Hnull.
  pose proof (own_pc (c := Ctx p None) Hown Hc) as Hpc. simpl in Hpc.
  pose proof (own_holder (c := Ctx p None) Hown Hc) as Hholder. simpl in Hholder.
  rewrite owner_ok_here in Hpc, Hholder by done.
  destruct p; try done; injection Hpl as ->; simpl; unfold get_lock; rewrite HL; simpl;
    unfold get_cur_task; fold (cur s); simpl in Hpc;
    try (destruct Hpc as (Hv & Hok & Hu); [done|]); unfold held in *.
  - (* AcqEntry *) destruct (Z.eqb_spec (holder L) (cur s)) as [Eh|Eh]; simpl; eexists; (split; [done|]).
    + destruct Hholder as (Hv & Hok & Hu); [done|done|].
      eapply (stmt_same Hinv Hc HL); stmt Hinv Hc. intros _. apply own_update; [done|done|].
      by rewrite owner_ok_here.
    + eapply (stmt_same Hinv Hc HL); stmt Hinv Hc. intros _.
      eapply own_pass; [done|done|by intros ?|by intros ?|]. simpl.
      rewrite !owner_ok_here by done. intros [[? _] _]. done.
  - (* AcqHolder *) eexists; split; [done|]. eapply (stmt_lock Hinv Hc HL); stmt Hinv Hc.
    intros _. apply own_update; [done|done|]. rewrite owner_ok_here by done. simpl. tauto.
  - (* AcqCount *) destruct Hok as [Hh Hn]. rewrite Hn. simpl. eexists; split; [done|].
    eapply (stmt_lock Hinv Hc HL); stmt Hinv Hc. intros _. apply own_update; [done|done|].
    apply owner_ok_far; [done|]. split; simpl; [done|lia].
  - (* AcqAgain *) destruct Hok as [[Hh Hn] Hlt]. eexists; split; [done|].
    eapply (stmt_lock Hinv Hc HL); stmt Hinv Hc. intros _. apply own_update; [done|done|].
    apply owner_ok_far; [done|]. split; simpl; [done|]. rewrite u32_small; lia.
  - (* RelEntry *) destruct Hok as [Hh Hn]. rewrite Hh, Z.eqb_refl. simpl. eexists; split; [done|].
    eapply (stmt_same Hinv Hc HL); stmt Hinv Hc. intros _. apply own_update; [done|done|].
    by rewrite owner_ok_here.
  - (* RelTest *) destruct Hok as [Hh Hn].
    destruct (Z.ltb_spec 1 (holder_repeat_cnt L)); eexists; (split; [done|]);
      (eapply (stmt_same Hinv Hc HL); stmt Hinv Hc); intros _; (apply own_update; [done|done|]);
      rewrite owner_ok_here by done; unfold held; split_and!; try done; lia.
  - (* RelDec *) destruct Hok as [[Hh Hn] Hlt]. eexists; split; [done|].
    eapply (stmt_lock Hinv Hc HL); stmt Hinv Hc. intros _. apply own_update; [done|done|].
    apply owner_ok_far; [done|]. split; simpl; [done|]. rewrite u32_small; lia.
  - (* RelOne *) destruct Hok as [Hh Hn]. rewrite Hn. simpl. eexists; split; [done|].
    eapply (stmt_same Hinv Hc HL); stmt Hinv Hc. intros _. apply own_update; [done|done|].
    by rewrite owner_ok_here.
  - (* RelHolder *) destruct Hok as [Hh Hn]. eexists; split; [done|].
    eapply (stmt_lock Hinv Hc HL); stmt Hinv Hc. intros _. apply own_update; [done|done|].
    by rewrite owner_ok_here.
  - (* RelCount *) destruct Hok as [Hh Hn]. eexists; split; [done|].
    eapply (stmt_lock Hinv Hc HL); stmt Hinv Hc. intros _. apply own_update; [done|done|].
    by rewrite owner_ok_here.
Qed.

(** ** Entering the loop of [sema_down], and leaving it with the semaphore *)

(** The current thread, which does not sleep, moves: the waiters stay. *)
Lemma wait_ok_cur k k' cs c' l L L' :
  running k → wait_ok k cs l L → nodes k' = nodes k → (∀ t, status_of k' t = status_of k t) →
  waiter_queue (sema L') = waiter_queue (sema L) →
  (value (sema L') = 1 → value (sema L) = 1 ∧
     (in_loop cs l (current_task k) → in_loop (<[current_task k := c']> cs) l (current_task k))) →
  wait_ok k' (<[current_task k := c']> cs) l L'.
Proof.
  intros Hr (ws & Hq & Hnd & Hws & Hwake) En Hst Eq Hv.
  pose proof (running_not_asleep k Hr) as Hcur.
  exists ws. rewrite Eq, En. split_and!; try done.
  - intros t. rewrite Hws. unfold waiting. rewrite (asleep_status k k') by done.
    rewrite in_loop_insert. destruct (decide (t = current_task k)) as [->|]; tauto.
  - intros Hv' Hne. destruct (Hv Hv') as [Hv1 Hin]. destruct (Hwake Hv1 Hne) as [t [H1 H2]].
    exists t. split; [|by rewrite (asleep_status k k')].
    destruct (decide (t = current_task k)) as [->|]; [by apply Hin|].
    apply in_loop_insert. by right.
Qed.

Lemma exec_down ts fuel s rs l :
  inv ts s rs → ctxs s !! cur s = Some (Ctx (AcqDown l) None) →
  ∃ s', exec fuel s (AcqDown l) = Ok s' ∧ inv ts s' rs.
Proof.
  intros Hinv Hc. pose proof Hinv as [Hk Hr Hcs Hlocks].
  destruct (c_lock _ _ Hcs _ _ _ Hc eq_refl) as [L HL].
  cbn [exec]. rewrite local_irq_disable_eq. eexists; split; [done|].
  unfold goto, with_ctx, with_kern. simpl. fold (cur s).
  pose proof (stmt_not_idle Hinv Hc) as Hni.
  assert (cinv ts (Sys (set_intr (kern s) false) (<[l:=L]> (locks s))
    (<[cur s := Ctx (DownLoop l (intr_on (kern s))) None]> (ctxs s)))) as Hci.
  { eapply cinv_goto; try done; [|right; by apply Hni].
    intros l' [= <-]. rewrite lookup_insert_eq. eauto. }
  rewrite insert_id in Hci by done. split; simpl; try done.
  - by apply kinv_set_intr.
  - intros l' L' HL'. destruct (Hlocks l' L' HL') as [Hw Ho]. split.
    + apply (wait_ok_cur (kern s) _ _ _ _ L'); try done. intros Hv. split; [done|].
      intros (old & sv & E). unfold cur in Hc. rewrite Hc in E. done.
    + destruct (decide (l' = l)) as [->|Hne].
      * eapply own_pass; [done|done|by intros ?|by intros ?|]. simpl.
        by rewrite !owner_ok_here.
      * eapply own_ok_move; [done|done|]. right. simpl. split; by intros [= ->].
Qed.

Lemma exec_loop_take ts fuel s rs l old L :
  inv ts s rs → ctxs s !! cur s = Some (Ctx (DownLoop l old) None) →
  locks s !! l = Some L → value (sema L) ≠ 0 →
  ∃ s', exec fuel s (DownLoop l old) = Ok s' ∧ inv ts s' rs.
Proof.
  intros Hinv Hc HL Hv. pose proof Hinv as [Hk Hr Hcs Hlocks].
  pose proof (stmt_own Hinv HL) as Hown.
  assert (value (sema L) = 1) as Hv1 by (destruct Hown as [(? & _)|(? & _)]; lia).
  simpl. unfold get_lock. rewrite HL. simpl. unfold sema_down_turn. rewrite Hv1. simpl.
  eexists; split; [done|]. rewrite set_intr_status_eq. unfold goto, with_ctx, with_kern, with_lock, cur.
  simpl. fold (cur s). set (L' := Lock _ _ _). pose proof (stmt_not_idle Hinv Hc) as Hni.
  split; simpl; [by apply kinv_set_intr|done| |].
  - eapply cinv_goto; try done; [|right; by apply Hni].
    intros l' [= <-]. rewrite lookup_insert_eq. eauto.
  - intros l' L1. rewrite lookup_insert_Some. intros [[<- <-]|[Hne HL1]].
    + destruct (Hlocks l L HL) as [Hw _]. split.
      * by apply (wait_ok_cur (kern s) _ _ _ _ L).
      * eapply own_enter; [done|done|done|]. intros Hh Hn. by rewrite owner_ok_here.
    + destruct (Hlocks l' L1 HL1) as [Hw Ho]. split.
      * apply (wait_ok_cur (kern s) _ _ _ _ L1); try done. intros Hv'. split; [done|].
        intros (old' & sv & E). unfold cur in Hc. rewrite Hc in E. by simplify_eq.
      * eapply own_ok_move; [done|done|]. right. simpl. split; by intros [= ->].
Qed.

(** ** Suspending the current thread *)

Section suspend.
Context {ts : list Z} {s : sys} {rs : list Z} {p : pc}.
Hypothesis Hinv : inv ts s rs.
Hypothesis Hc : ctxs s !! cur s = Some (Ctx p None).
(** The switch is made from [k1], the kernel state of [s] but for its nodes. *)
Context {k1 k' : kstate} {lst : list Z} {st : Z → option task_status}.
Hypothesis Hidle1 : idle_thread k1 = idle_thread (kern s).
Hypothesis Hsw : switched ts k1 k' lst st.
Hypothesis Hst : ∀ t, t ≠ cur s → st t = status_of (kern s) t.
(** The tasks the switch chooses from. *)
Hypothesis Hlst : ∀ t, t ∈ lst → t ∈ rs ∨ t = cur s ∨ t = idle_thread (kern s).

Lemma switched_current : current_task k' ∈ lst.
Proof using Hsw. destruct (sw_inv _ _ _ _ _ Hsw) as (rs' & El & _). rewrite El. by left. Qed.

Lemma idle_not_loop l : ¬ in_loop (ctxs s) l (idle_thread (kern s)).
Proof using Hinv.
  intros (old & sv & E). by pose proof (c_idle _ _ (i_ctxs _ _ _ Hinv) _ E).
Qed.

(** A chosen task, the current one apart, was not asleep in a loop. *)
Lemma chosen_not_waiting l t : t ∈ lst → t ≠ cur s → ¬ waiting (kern s) (ctxs s) l t.
Proof using Hinv Hlst.
  intros Ht Hne [Hl Has]. destruct (Hlst t Ht) as [Hrs|[->| ->]]; [|done|].
  - by eapply (ready_not_asleep ts (kern s) rs t); [apply (i_kern _ _ _ Hinv)|..].
  - by eapply idle_not_loop.
Qed.

Lemma lst_ts : lst ⊆ ts.
Proof using Hinv Hlst.
  intros t Ht. pose proof (i_kern _ _ _ Hinv) as Hk. destruct (Hlst t Ht) as [?|[->| ->]].
  - by apply (kinv_ready_ts Hk).
  - apply (k_current _ _ _ Hk).
  - apply (k_idle _ _ _ Hk).
Qed.

(** The others that are in a loop sleep, or not, as before. *)
Lemma suspend_asleep l t : t ≠ cur s → in_loop (ctxs s) l t → asleep k' t ↔ asleep (kern s) t.
Proof using Hinv Hsw Hst Hlst.
  intros Hne Hl. pose proof (sw_status _ _ _ _ _ Hsw t) as E.
  destruct (decide (t = current_task k')) as [->|Hn].
  - split; intros Has; exfalso.
    + by eapply (not_asleep k' _ TASK_RUNNING).
    + by eapply (chosen_not_waiting l); [apply switched_current|done|split].
  - apply asleep_status. by rewrite E, Hst.
Qed.

(** The contexts after the switch. *)
Lemma cinv_suspend ls b :
  (∀ l, is_Some (locks s !! l) → is_Some (ls !! l)) → (is_loop p = true → b = false) →
  cinv ts (Sys k' ls (<[cur s := Ctx p (Some b)]> (ctxs s))).
Proof using Hinv Hc Hsw Hidle1.
  intros Hls Hb. destruct (i_ctxs _ _ _ Hinv) as [Hdom Hlock Hidle Hsaved Hintr Hloop].
  destruct Hsw as [_ Ei Eintr _ _]. split; simpl.
  - intros t. rewrite lookup_insert_is_Some, Hdom. destruct (decide (cur s = t)) as [<-|]; [|tauto].
    rewrite Hc. split; [by left|eauto].
  - intros t c l. rewrite lookup_insert_Some. intros [[<- <-]|[? E]] Ep; apply Hls; eauto.
  - intros c. rewrite Ei, Hidle1, lookup_insert_Some. intros [[E <-]|[? E]]; [|by apply Hidle].
    rewrite <- E in Hidle. apply (Hidle _ Hc).
  - intros t c. rewrite lookup_insert_Some. intros [[<- <-]|[? E]] _; [by eexists|].
    eapply Hsaved; done.
  - intros c _ _. done.
  - intros t c b'. rewrite lookup_insert_Some. intros [[<- <-]|[? E]]; [|by eapply Hloop].
    simpl. intros Hp [= <-]. auto.
Qed.

(** Outside the loops a suspended thread keeps what it owns, and the waiters stay. *)
Lemma inv_suspend b : is_loop p = false → nodes k1 = nodes (kern s) →
  ∃ rs', inv ts (suspend s p k' b) rs'.
Proof using All.
  intros Hp En. destruct (sw_inv _ _ _ _ _ Hsw) as (rs' & El & Hk'). exists rs'. split; simpl.
  - done.
  - by eapply switched_running.
  - apply cinv_suspend; [done|]. by rewrite Hp.
  - fold (cur s). intros l L HL. destruct (i_locks _ _ _ Hinv l L HL) as [Hw Ho].
    assert (∀ t, in_loop (<[cur s := Ctx p (Some b)]> (ctxs s)) l t ↔ in_loop (ctxs s) l t) as Hin.
    { intros t. eapply in_loop_move; [done|]. by left. }
    assert (¬ in_loop (ctxs s) l (cur s)) as Hcur.
    { intros (old & sv & E). rewrite Hc in E. by simplify_eq. }
    split.
    + eapply (wait_frame (i_kern _ _ _ Hinv)); [exact Hw|done|done|rewrite <- En; apply Hsw|apply lst_ts| | |].
      * intros t Ht. destruct (decide (t = cur s)) as [->|]; [by intros [? _]|].
        by apply chosen_not_waiting.
      * intros t. unfold waiting. rewrite Hin.
        destruct (decide (t = cur s)) as [->|]; [tauto|].
        split; intros [? ?]; (split; [done|]); by eapply suspend_asleep.
      * intros t [H1 H2]. split; [by apply Hin|].
        destruct (decide (t = cur s)) as [->|]; [done|]. by rewrite suspend_asleep.
    + eapply own_ok_move; [done|done|]. by left.
Qed.
End suspend.

(** ** Going to sleep in the loop of [sema_down] *)

Lemma or_idle_elem k rs t : t ∈ or_idle k rs → t ∈ rs ∨ t = idle_thread k.
Proof. destruct rs; simpl; [|by left]. intros ->%list_elem_of_singleton. by right. Qed.

Lemma in_loop_inj cs l l' t : in_loop cs l t → in_loop cs l' t → l = l'.
Proof. intros (o & sv & E) (o' & sv' & E'). rewrite E in E'. by simplify_eq. Qed.

(** The waiters of the locks when the current thread [c] has gone to sleep
    behind the waiters [ws] of [l], and the tasks [lst] were queued or chosen. *)
Section sleep.
Context {ts : list Z} {k k1 k' : kstate} {rs : list Z} {cs cs' : gmap Z ctx} {c l : Z}.
Context {ws lst : list Z}.
Hypothesis Hk : kinv ts k rs.
Hypothesis Hc : c ∈ ts.
Hypothesis Hna : ¬ asleep k c.
Hypothesis Hloop : in_loop cs l c.
Hypothesis Hin : ∀ l' t, in_loop cs' l' t ↔ in_loop cs l' t.
Hypothesis Hws : ∀ t, t ∈ ws ↔ waiting k cs l t.
Hypothesis Hasl : asleep k' c.
Hypothesis Hsame : ∀ l' t, t ≠ c → in_loop cs l' t → asleep k' t ↔ asleep k t.
Hypothesis Hlst : lst ⊆ ts.
Hypothesis Hcl : c ∉ lst.
Hypothesis Hnw : ∀ l' t, t ∈ lst → t ≠ c → ¬ waiting k cs l' t.
Hypothesis Hu2 : upd_nodes (nodes k1) (nodes k') (dispatch_node <$> lst).

Lemma sleep_here L q : NoDup ws →
  queue_repr (nodes k1) q (dispatch_node <$> ws ++ [c]) →
  wait_ok k' cs' l (Lock (holder L) (Semaphore 0 q) (holder_repeat_cnt L)).
Proof using Hk Hc Hna Hloop Hin Hws Hasl Hsame Hlst Hcl Hnw Hu2.
  intros Hnd Hq. assert (c ∉ ws) as Hcw by (intros H; apply Hws in H as [_ ?]; done).
  assert (ws ⊆ ts) as Hwts by (by eapply (waiters_ts Hk)).
  exists (ws ++ [c]). split_and!.
  - eapply qs_frame; [exact Hu2| |done]. eapply (dispatch_disjoint ts k rs); [done|set_solver|done|].
    intros t [Ht| ->%list_elem_of_singleton]%elem_of_app Ht2; [|done].
    apply (Hnw l t); [done|by intros ->|by apply Hws].
  - apply NoDup_app. split_and!; [done|set_solver|apply NoDup_singleton].
  - intros t. rewrite elem_of_app, list_elem_of_singleton, Hws. unfold waiting. rewrite Hin.
    destruct (decide (t = c)) as [->|Hne]; [tauto|]. split.
    + intros [[? ?]|?]; [|done]. split; [done|]. by eapply Hsame.
    + intros [? ?]. left. split; [done|]. by eapply Hsame.
  - done.
Qed.

Lemma sleep_elsewhere l' L : l' ≠ l →
  upd_nodes (nodes k) (nodes k1) (dispatch_node <$> c :: ws) →
  wait_ok k cs l' L → wait_ok k' cs' l' L.
Proof using Hk Hc Hna Hloop Hin Hws Hasl Hsame Hlst Hcl Hnw Hu2.
  intros Hne Hu1 Hw. assert (ws ⊆ ts) as Hwts by (by eapply (waiters_ts Hk)).
  assert (¬ in_loop cs l' c) as Hcn by (intros H; apply Hne; by eapply in_loop_inj).
  eapply (wait_frame Hk _ _ _ _ _ _ ((c :: ws) ++ lst)); [exact Hw|done|done| | | | |].
  - eapply upd_nodes_trans; (eapply upd_nodes_mono; [|done]); intros p;
      rewrite !list_elem_of_fmap; set_solver.
  - set_solver.
  - intros t [[->|Ht]%elem_of_cons|Ht]%elem_of_app.
    + by intros [_ ?].
    + intros [Hl _]. apply Hws in Ht as [Hl' _]. apply Hne. by eapply in_loop_inj.
    + apply Hnw; [done|]. by intros ->.
  - intros t. unfold waiting. rewrite Hin. destruct (decide (t = c)) as [->|]; [tauto|].
    split; intros [? ?]; (split; [done|]); by eapply Hsame.
  - intros t [H1 H2]. split; [by apply Hin|]. destruct (decide (t = c)) as [->|]; [done|].
    by rewrite Hsame.
Qed.
End sleep.

Lemma exec_loop_sleep ts fuel s rs l old L :
  inv ts s rs → (length ts ≤ fuel)%nat → ctxs s !! cur s = Some (Ctx (DownLoop l old) None) →
  locks s !! l = Some L → value (sema L) = 0 →
  ∃ s' rs', exec fuel s (DownLoop l old) = Ok s' ∧ inv ts s' rs'.
Proof.
  intros Hinv Hf Hc HL Hv. pose proof Hinv as [Hk Hr Hcs Hlocks].
  pose proof (k_current _ _ _ Hk) as Hcur. fold (cur s) in Hcur.
  pose proof (stmt_not_idle Hinv Hc ltac:(done)) as Hni.
  pose proof (running_not_asleep _ Hr) as Hna. fold (cur s) in Hna.
  destruct (Hlocks l L HL) as [(ws & Hq & Hnd & Hws & Hwake) Hown].
  assert (ws ⊆ ts) as Hwts by (by eapply (waiters_ts Hk)).
  assert (cur s ∉ ws) as Hcw by (intros Hin; apply Hws in Hin as [_ ?]; done).
  (* the wait queue *)
  assert (list_find_item fuel (nodes (kern s)) (front (waiter_queue (sema L)))
            (dispatch_node (cur s)) = Ok false) as Efind by (by eapply (kinv_find Hk)).
  pose proof (kinv_length (ts := ts) (cur s :: ws) ltac:(by constructor) ltac:(set_solver)) as Hlen.
  pose proof (kinv_count Hk) as Hcnt. simpl in Hlen.
  destruct (qs_in _ _ _ (dispatch_node (cur s)) Hq) as (m & q & Em & Hq' & Hu).
  { by apply (kinv_insertable Hk). }
  { rewrite length_fmap. lia. }
  (* the switch *)
  assert (kinv ts (set_nodes (kern s) m) rs) as Hk1.
  { apply (kinv_nodes ts (kern s) rs m (cur s :: ws)); [done|done|set_solver|].
    intros t [->|Ht]%elem_of_cons.
    - by apply (running_not_ready ts).
    - intros Hin. apply Hws in Ht as [_ Has]. by eapply ready_not_asleep. }
  destruct (thread_block_switched ts fuel (set_nodes (kern s) m) rs TASK_BLOCKED Hk1 Hr Hf)
    as (k' & Eb & Hsw); [done|].
  cbn [exec]. unfold get_lock. rewrite HL. cbn [obind]. unfold sema_down_turn, get_cur_task.
  fold (cur s). rewrite Hv. simpl. rewrite Efind. simpl. rewrite Em. simpl. rewrite Eb. simpl.
  set (L' := Lock _ _ _).
  assert (intr_on (kern s) = false) as Hintr by (apply (c_intr _ _ Hcs _ Hc); by right).
  assert (∀ t, t ∈ or_idle (set_nodes (kern s) m) rs → t ∈ rs ∨ t = cur s ∨ t = idle_thread (kern s))
    as Hlst by (intros t [?|?]%or_idle_elem; auto).
  assert (cur s ∉ or_idle (set_nodes (kern s) m) rs) as Hcl.
  { intros [Hin|Hin]%or_idle_elem; [|done]. by eapply (running_not_ready ts). }
  destruct (sw_inv _ _ _ _ _ Hsw) as (rs' & El & Hk').
  eexists _, rs'. split; [done|]. unfold suspend, with_kern, with_ctx, with_lock, cur. simpl.
  fold (cur s). rewrite Hintr.
  assert (∀ l' t, in_loop (<[cur s := Ctx (DownLoop l old) (Some false)]> (ctxs s)) l' t ↔
    in_loop (ctxs s) l' t) as Hin.
  { intros l' t. eapply in_loop_move; [done|]. by left. }
  assert (asleep k' (cur s)) as Hasl.
  { exists TASK_BLOCKED. split; [|done]. rewrite (sw_status _ _ _ _ _ Hsw).
    rewrite decide_False, decide_True; [done|done|].
    intros E. apply Hcl. rewrite E. by eapply switched_current. }
  assert (∀ l' t, t ≠ cur s → in_loop (ctxs s) l' t → asleep k' t ↔ asleep (kern s) t) as Hsame.
  { intros l' t ??. eapply (suspend_asleep Hinv Hsw); [|done|done|done].
    intros t' Ht'. by rewrite decide_False. }
  split; simpl; [done|by eapply switched_running| |].
  - apply (cinv_suspend (k1 := set_nodes (kern s) m) Hinv Hc (eq_refl _) Hsw); [|done].
    intros l' [L1 HL1]. apply lookup_insert_is_Some'. eauto.
  - assert (∀ l' t, t ∈ or_idle (set_nodes (kern s) m) rs → t ≠ cur s →
      ¬ waiting (kern s) (ctxs s) l' t) as Hnw by (intros; by eapply (chosen_not_waiting Hinv)).
    assert (or_idle (set_nodes (kern s) m) rs ⊆ ts) as Hlts by (by eapply (lst_ts Hinv)).
    assert (in_loop (ctxs s) l (cur s)) as Hlp by (by eexists _, _).
    pose proof (sw_nodes _ _ _ _ _ Hsw) as Hu2.
    intros l' L1. rewrite lookup_insert_Some. intros [[<- <-]|[Hne HL1]].
    + split.
      2:{ eapply own_ok_move; [done|by eapply own_ok_queue|by left]. }
      apply (sleep_here (k1 := set_nodes (kern s) m) Hk Hcur Hna Hlp Hin Hws Hasl Hsame Hlts Hcl Hnw Hu2);
        [done|]. by rewrite fmap_app.
    + destruct (Hlocks l' L1 HL1) as [Hw Ho]. split.
      * by apply (sleep_elsewhere (k1 := set_nodes (kern s) m) Hk Hcur Hna Hlp Hin Hws Hasl Hsame
          Hlts Hcl Hnw Hu2).
      * eapply own_ok_move; [done|done|]. by left.
Qed.

(** ** [sema_up] *)

(** Waking the first waiter [w] of [l]: the waiters of all the locks. *)
Section wake.
Context {ts : list Z} {k k1 k' : kstate} {rs : list Z} {cs cs' : gmap Z ctx} {w l : Z} {ws : list Z}.
Hypothesis Hk : kinv ts k rs.
Hypothesis Hin : ∀ l' t, in_loop cs' l' t ↔ in_loop cs l' t.
Hypothesis Hws : ∀ t, t ∈ w :: ws ↔ waiting k cs l t.
Hypothesis Hnd : NoDup (w :: ws).
Hypothesis Hst : ∀ t, status_of k' t = if decide (t = w) then Some TASK_READY else status_of k t.
Hypothesis Hu1 : upd_nodes (nodes k) (nodes k1) (dispatch_node <$> w :: ws).
Hypothesis Hu2 : upd_nodes (nodes k1) (nodes k') (dispatch_node <$> w :: rs).

Lemma wake_asleep t : asleep k' t ↔ t ≠ w ∧ asleep k t.
Proof using Hst.
  unfold asleep. rewrite Hst. destruct (decide (t = w)) as [->|Hne].
  - split; [|by intros [? _]]. by intros (st & [= <-] & ?).
  - clear Hin Hws. tauto.
Qed.

Lemma wake_ready_ts : w :: rs ⊆ ts.
Proof using Hk Hws.
  intros t [->|Ht]%elem_of_cons; [|by apply (kinv_ready_ts Hk)].
  eapply (waiters_ts Hk); [exact Hws|by left].
Qed.

Lemma wake_here L q : queue_repr (nodes k1) q (dispatch_node <$> ws) →
  wait_ok k' cs' l (Lock (holder L) (Semaphore 1 q) (holder_repeat_cnt L)).
Proof using All.
  intros Hq. apply NoDup_cons in Hnd as [Hwn Hnd'].
  exists ws. split_and!; [|done| |].
  - eapply qs_frame; [exact Hu2| |done].
    eapply (dispatch_disjoint ts k rs); [done| |apply wake_ready_ts|].
    + intros t Ht. eapply (waiters_ts Hk); [exact Hws|by right].
    + intros t Ht [->|Ht']%elem_of_cons; [done|].
      assert (t ∈ w :: ws) as [_ Has]%Hws by (by right). by eapply (ready_not_asleep ts k rs t).
  - intros t. unfold waiting. rewrite Hin, wake_asleep.
    specialize (Hws t). unfold waiting in Hws. rewrite elem_of_cons in Hws.
    destruct (decide (t = w)) as [->|]; [tauto|]. naive_solver.
  - intros _ _. exists w. assert (w ∈ w :: ws) as [Hl _]%Hws by (by left).
    split; [by apply Hin|]. rewrite wake_asleep. tauto.
Qed.

Lemma wake_elsewhere l' L : l' ≠ l → wait_ok k cs l' L → wait_ok k' cs' l' L.
Proof using All.
  intros Hne Hw.
  assert (∀ t, t ∈ w :: ws → ¬ in_loop cs l' t) as Hno.
  { intros t [Hl _]%Hws Hl'. apply Hne. by eapply in_loop_inj. }
  assert (¬ in_loop cs l' w) as Hnow by (apply Hno; by left).
  eapply (wait_frame Hk _ _ _ _ _ _ ((w :: ws) ++ (w :: rs))); [exact Hw|done|done| | | | |].
  - eapply upd_nodes_trans; (eapply upd_nodes_mono; [|done]); intros p;
      rewrite !list_elem_of_fmap; set_solver.
  - intros t [Ht|Ht]%elem_of_app; [|by apply wake_ready_ts].
    eapply (waiters_ts Hk); [exact Hws|done].
  - intros t [Ht|[->|Ht]%elem_of_cons]%elem_of_app [Hl Has].
    + by apply (Hno t).
    + done.
    + by eapply (ready_not_asleep ts k rs t).
  - intros t. unfold waiting. rewrite Hin, wake_asleep.
    destruct (decide (t = w)) as [->|]; tauto.
  - intros t [H1 H2]. split; [by apply Hin|]. rewrite wake_asleep. tauto.
Qed.
End wake.

(** The end of [lock_release]. *)
Lemma inv_release ts s rs rs' l L L' k' :
  inv ts s rs → ctxs s !! cur s = Some (Ctx (RelUp l) None) → locks s !! l = Some L →
  kinv ts k' rs' → running k' → current_task k' = cur s → idle_thread k' = idle_thread (kern s) →
  value (sema L') = 1 → holder L' = holder L → holder_repeat_cnt L' = holder_repeat_cnt L →
  (let cs' := <[cur s := Ctx Client None]> (ctxs s) in
   wait_ok k' cs' l L' ∧
   ∀ l' L1, l' ≠ l → wait_ok (kern s) (ctxs s) l' L1 → wait_ok k' cs' l' L1) →
  inv ts (Sys k' (<[l := L']> (locks s)) (<[cur s := Ctx Client None]> (ctxs s))) rs'.
Proof.
  intros Hinv Hc HL Hk' Hr' Ec Ei Hv Hh Hn [Hw Hothers].
  pose proof (own_pc (stmt_own Hinv HL) Hc eq_refl) as (_ & Hok & Huniq).
  rewrite owner_ok_here in Hok by done. destruct Hok as [Hnull Hzero].
  split; simpl; [done|done| |].
  - eapply cinv_goto; [by apply Hinv|done|done|done|done|done|by left].
  - intros l' L1. rewrite lookup_insert_Some. intros [[<- <-]|[Hne HL1]].
    + split; [done|]. apply own_leave; simpl; [done|done|congruence|congruence|by intros ?].
    + destruct (i_locks _ _ _ Hinv l' L1 HL1) as [Hw1 Ho1]. split; [by apply Hothers|].
      eapply own_ok_move; [done|done|]. right. simpl. split; [by intros [= ->]|done].
Qed.

Lemma exec_up ts fuel s rs l :
  inv ts s rs → (length ts ≤ fuel)%nat → ctxs s !! cur s = Some (Ctx (RelUp l) None) →
  ∃ s' rs', exec fuel s (RelUp l) = Ok s' ∧ inv ts s' rs'.
Proof.
  intros Hinv Hf Hc. pose proof Hinv as [Hk Hr Hcs Hlocks].
  destruct (c_lock _ _ Hcs _ _ _ Hc eq_refl) as [L HL].
  pose proof (own_pc (stmt_own Hinv HL) Hc eq_refl) as (Hv & _ & _).
  destruct (Hlocks l L HL) as [(ws & Hq & Hnd & Hws & _) _].
  assert (∀ l' t, in_loop (<[cur s := Ctx Client None]> (ctxs s)) l' t ↔ in_loop (ctxs s) l' t) as Hin.
  { intros l' t. eapply in_loop_move; [done|]. simpl. auto. }
  pose proof (qs_len _ _ _ Hq) as Hlen. rewrite length_fmap in Hlen.
  cbn [exec]. unfold get_lock. rewrite HL. cbn [obind]. unfold sema_up.
  rewrite local_irq_disable_eq, Hv. rewrite ASSERT_true by done. cbn [obind].
  unfold queue_empty. rewrite Hlen. destruct ws as [|w ws].
  - simpl. rewrite Hv. simpl. rewrite set_intr_status_eq. eexists _, rs. split; [done|].
    unfold goto, with_kern, with_ctx, with_lock, cur. simpl. fold (cur s).
    eapply (inv_release ts s rs rs l L); try done.
    + by apply kinv_set_intr, kinv_set_intr.
    + split.
      * exists []. split_and!; try done. intros t. rewrite Hws. unfold waiting. by rewrite Hin.
      * intros l' L1 _ Hw1. by eapply wait_ok_same.
  - rewrite (proj2 (Z.eqb_neq _ 0)) by (simpl; lia). simpl.
    destruct (qs_out _ _ _ _ Hq) as (m & q & Em & Hq' & Hu1).
    rewrite Em. simpl.
    assert (w :: ws ⊆ ts) as Hwts by (by eapply (waiters_ts Hk)).
    assert (w ∈ ts) as Hw by (apply Hwts; by left).
    rewrite dispatch_entry_node by (by apply (kinv_pcb Hk)).
    assert (kinv ts (set_nodes (set_intr (kern s) false) m) rs) as Hk1.
    { apply (kinv_set_intr ts (set_nodes (kern s) m) rs false).
      apply (kinv_nodes ts (kern s) rs m (w :: ws)); [done|done|done|].
      intros t Ht Hrs. apply Hws in Ht as [_ Has]. by eapply (ready_not_asleep ts (kern s) rs t). }
    assert (asleep (set_nodes (set_intr (kern s) false) m) w) as Has.
    { assert (w ∈ w :: ws) as [_ ?]%Hws by (by left). done. }
    destruct (thread_unblock_woken ts fuel _ rs w Hk1 Hf Hw Has)
      as (k' & Ek & Hk' & Ecur & Ei & Eintr & Hst & Hu2).
    rewrite Ek. simpl. rewrite ?Hv. simpl. rewrite set_intr_status_eq. eexists _, (w :: rs). split; [done|].
    unfold goto, with_kern, with_ctx, with_lock, cur. simpl. rewrite Ecur. simpl. fold (cur s).
    eapply (inv_release ts s rs (w :: rs) l L); try done.
    + by apply kinv_set_intr.
    + unfold running, status_of in *. simpl. rewrite Ecur. simpl. rewrite Hst.
      rewrite decide_False; [done|]. intros E. apply (running_not_asleep _ Hr). by rewrite E.
    + split.
      * by apply (wake_here (k1 := set_nodes (set_intr (kern s) false) m)
          (k' := set_intr k' (intr_on (kern s))) Hk Hin Hws Hnd Hst Hu1 Hu2).
      * intros l' L1 Hne. by apply (wake_elsewhere (k1 := set_nodes (set_intr (kern s) false) m)
          (k' := set_intr k' (intr_on (kern s))) Hk Hin Hws Hnd Hst Hu1 Hu2).
Qed.

Lemma exec_inv ts fuel s rs p :
  inv ts s rs → (length ts ≤ fuel)%nat → ctxs s !! cur s = Some (Ctx p None) → is_client p = false →
  ∃ s' rs', exec fuel s p = Ok s' ∧ inv ts s' rs'.
Proof.
  intros Hinv Hf Hc Hp. destruct (pc_lock p) as [l|] eqn:Epl; [|by destruct p].
  destruct p; try done; simplify_eq; simpl in Epl; simplify_eq;
    try (destruct (exec_statement ts fuel s rs _ l Hinv Hc) as (s' & ? & ?); [done|done|];
      by eexists _, _).
  - destruct (exec_down ts fuel s rs l Hinv Hc) as (s' & ? & ?). by eexists _, _.
  - destruct (c_lock _ _ (i_ctxs _ _ _ Hinv) _ _ _ Hc eq_refl) as [L HL].
    destruct (decide (value (sema L) = 0)).
    + by apply (exec_loop_sleep ts fuel s rs l old L).
    + destruct (exec_loop_take ts fuel s rs l old L) as (s' & ? & ?); try done. by eexists _, _.
  - by apply (exec_up ts fuel s rs l).
Qed.

(** ** The other events *)

Lemma cinv_kern ts s k' :
  cinv ts s → current_task k' = cur s → idle_thread k' = idle_thread (kern s) →
  (∀ c, ctxs s !! cur s = Some c → is_Some (saved c) ∨ is_loop (at_pc c) = true → intr_on k' = false) →
  cinv ts (with_kern s k').
Proof.
  intros [Hdom Hlock Hidle Hsaved Hintr Hloop] Ec Ei Hi. unfold cur in *.
  split; simpl; unfold cur; simpl; rewrite ?Ec, ?Ei; done.
Qed.

Lemma resume_inv ts s rs c b :
  inv ts s rs → ctxs s !! cur s = Some c → saved c = Some b →
  inv ts (goto (with_kern s (set_intr (kern s) b)) (at_pc c)) rs.
Proof.
  intros [Hk Hr Hcs Hlocks] Hc Hb.
  assert (∀ l t, in_loop (<[cur s := Ctx (at_pc c) None]> (ctxs s)) l t ↔ in_loop (ctxs s) l t) as Hin.
  { intros l t. eapply in_loop_move; [done|]. by left. }
  unfold goto, with_ctx, with_kern, cur. simpl. fold (cur s).
  split; simpl; [by apply kinv_set_intr|done| |].
  - destruct Hcs as [Hdom Hlock Hidle Hsaved Hintr Hloop]. split; simpl.
    + intros t. rewrite lookup_insert_is_Some, Hdom. destruct (decide (cur s = t)) as [<-|]; [|tauto].
      rewrite Hc. split; [by left|eauto].
    + intros t c' l. rewrite lookup_insert_Some. intros [[<- <-]|[? E]] Ep; eauto.
    + intros c'. rewrite lookup_insert_Some. intros [[E <-]|[? E]]; [|by apply Hidle].
      rewrite <- E in Hidle. apply (Hidle _ Hc).
    + intros t c'. unfold cur in *. simpl. rewrite lookup_insert_Some.
      intros [[<- _]|[? E]] ?; [done|by eapply Hsaved].
    + intros c'. unfold cur in *. simpl. rewrite lookup_insert_eq. intros [= <-]. simpl.
      intros [[? ?]|Hl]; [done|]. by eapply Hloop.
    + intros t c' b'. rewrite lookup_insert_Some. intros [[<- <-]|[? E]]; [done|by eapply Hloop].
  - intros l L HL. destruct (Hlocks l L HL) as [Hw Ho]. split; [by eapply wait_ok_same|].
    eapply own_ok_move; [done|done|by left].
Qed.

Lemma tick_inv ts fuel s rs p :
  inv ts s rs → (length ts ≤ fuel)%nat → ctxs s !! cur s = Some (Ctx p None) →
  intr_on (kern s) = true →
  ∃ k' rs', schedule fuel (set_intr (kern s) false) = Ok k' ∧ inv ts (suspend s p k' true) rs'.
Proof.
  intros Hinv Hf Hc Hon. pose proof Hinv as [Hk Hr Hcs _].
  assert (is_loop p = false) as Hp.
  { destruct (is_loop p) eqn:E; [|done]. rewrite (c_intr _ _ Hcs _ Hc) in Hon; [done|by right]. }
  destruct (schedule_switched ts fuel _ rs (kinv_set_intr ts (kern s) rs false Hk) Hf) as (k' & E & Hsw).
  exists k'. rewrite E.
  destruct (inv_suspend Hinv Hc (k1 := set_intr (kern s) false) eq_refl Hsw) with (b := true)
    as [rs' Hinv']; [| |done|done|by exists rs'].
  - intros t Ht. rewrite decide_False; [done|]. by intros [? _].
  - intros t. unfold candidates, requeued. rewrite decide_True by exact Hr.
    intros Ht. assert (t ∈ rs ++ [cur s]) as Ht' by (by destruct rs).
    apply elem_of_app in Ht' as [?| ->%list_elem_of_singleton]; auto.
Qed.

Lemma block_inv ts fuel s rs st :
  inv ts s rs → (length ts ≤ fuel)%nat → ctxs s !! cur s = Some (Ctx Client None) →
  blocking st = true →
  ∃ k' b rs', thread_block fuel (kern s) st = Ok (k', b) ∧ inv ts (suspend s Client k' b) rs'.
Proof.
  intros Hinv Hf Hc Hst. pose proof Hinv as [Hk Hr Hcs _].
  destruct (thread_block_switched ts fuel (kern s) rs st Hk Hr Hf Hst) as (k' & E & Hsw).
  exists k', (intr_on (kern s)).
  destruct (inv_suspend Hinv Hc (k1 := kern s) eq_refl Hsw) with (b := intr_on (kern s))
    as [rs' Hinv']; [| |done|done|by exists rs'].
  - intros t Ht. by rewrite decide_False.
  - intros t [?|?]%or_idle_elem; auto.
Qed.

Lemma yield_inv ts fuel s rs :
  inv ts s rs → (length ts ≤ fuel)%nat → ctxs s !! cur s = Some (Ctx Client None) →
  ∃ k' b rs', thread_yield fuel (kern s) = Ok (k', b) ∧ inv ts (suspend s Client k' b) rs'.
Proof.
  intros Hinv Hf Hc. pose proof Hinv as [Hk Hr Hcs _].
  destruct (thread_yield_switched ts fuel (kern s) rs Hk Hr Hf) as (k' & E & Hsw).
  exists k', (intr_on (kern s)).
  destruct (inv_suspend Hinv Hc (k1 := kern s) eq_refl Hsw) with (b := intr_on (kern s))
    as [rs' Hinv']; [| |done|done|by exists rs'].
  - intros t Ht. by rewrite decide_False.
  - intros t [?| ->%list_elem_of_singleton]%elem_of_app; auto.
Qed.

(** Waking a thread that blocked itself. *)
Lemma unblock_inv ts fuel s rs t c x :
  inv ts s rs → (length ts ≤ fuel)%nat → ctxs s !! t = Some c → at_pc c = Client →
  tasks (kern s) !! t = Some x → blocking (status x) = true →
  ∃ k' rs', thread_unblock fuel (kern s) t = Ok k' ∧ inv ts (with_kern s k') rs'.
Proof.
  intros Hinv Hf Hct Hp Hx Hb. pose proof Hinv as [Hk Hr Hcs Hlocks].
  assert (t ∈ ts) as Ht by (apply (c_dom _ _ Hcs); eauto).
  assert (asleep (kern s) t) as Has.
  { exists (status x). split; [|done]. unfold status_of, status_in. by rewrite Hx. }
  destruct (thread_unblock_woken ts fuel (kern s) rs t Hk Hf Ht Has)
    as (k' & E & Hk' & Ec & Ei & Eintr & Hst & Hu).
  exists k', (t :: rs). split; [done|].
  assert (∀ l, ¬ in_loop (ctxs s) l t) as Hno.
  { intros l (old & sv & El). rewrite Hct in El. by simplify_eq. }
  assert (∀ l t', in_loop (ctxs s) l t' → asleep k' t' ↔ asleep (kern s) t') as Hsame.
  { intros l t' Hl. apply asleep_status. rewrite Hst, decide_False; [done|]. intros ->.
    by eapply Hno. }
  split; simpl; [done| | |].
  - unfold running in *. rewrite Ec, Hst, decide_False; [done|].
    intros E'. apply (running_not_asleep _ Hr). by rewrite E'.
  - apply cinv_kern; [done|done|done|]. rewrite Eintr. apply Hcs.
  - intros l L HL. destruct (Hlocks l L HL) as [Hw Ho]. split; [|done].
    eapply (wait_frame Hk); [exact Hw|done|done|exact Hu| | | |].
    + intros t' [->|?]%elem_of_cons; [done|by apply (kinv_ready_ts Hk)].
    + intros t' [->|?]%elem_of_cons [Hl Has']; [by eapply Hno|].
      by eapply (ready_not_asleep ts (kern s) rs t').
    + intros t'. unfold waiting. split; intros [? ?]; (split; [done|]); by eapply Hsame.
    + intros t' [? ?]. split; [done|]. by rewrite Hsame.
Qed.

Lemma call_inv ts fuel s rs e o :
  inv ts s rs → (length ts ≤ fuel)%nat → ctxs s !! cur s = Some (Ctx Client None) →
  call fuel s e = Some o → ∃ s' rs', o = Ok s' ∧ inv ts s' rs'.
Proof.
  intros Hinv Hf Hc. pose proof (inv_cur_addr _ _ _ Hinv) as Hnull.
  destruct e as [| | |l|l|st| |t|b]; simpl; try done.
  - destruct (locks s !! l) as [L|] eqn:HL; simpl; [|done]. case_bool_decide as Hd; [|done].
    intros [= <-]. destruct Hd as [Hi Hlt]. eexists _, rs. split; [done|].
    apply (stmt_same Hinv Hc HL); try done; [by intros l' [= ->]|by right|].
    intros Hown. eapply own_pass; [done|done|by intros ?|by intros ?|]. simpl.
    rewrite (owner_ok_far Client), owner_ok_here by done. done.
  - destruct (locks s !! l) as [L|] eqn:HL; simpl; [|done]. case_bool_decide as Hd; [|done].
    intros [= <-]. destruct Hd as [Hi Hh]. eexists _, rs. split; [done|].
    apply (stmt_same Hinv Hc HL); try done; [by intros l' [= ->]|by right|].
    intros Hown. destruct (own_holder Hown Hc Hh Hnull) as (Hv & Hok & Hu).
    apply own_update; [done|done|]. simpl in *. rewrite owner_ok_far in Hok by done.
    by rewrite owner_ok_here.
  - destruct (blocking st) eqn:Hst; [|done]. intros [= <-].
    destruct (block_inv ts fuel s rs st Hinv Hf Hc Hst) as (k' & b & rs' & E & H).
    rewrite E. simpl. eauto.
  - intros [= <-]. destruct (yield_inv ts fuel s rs Hinv Hf Hc) as (k' & b & rs' & E & H).
    rewrite E. simpl. eauto.
  - destruct (ctxs s !! t) as [c|] eqn:Ect; simpl; [|done].
    destruct (tasks (kern s) !! t) as [x|] eqn:Ex; simpl; [|done].
    destruct (is_client (at_pc c)) eqn:Ep; [|done]. destruct (blocking (status x)) eqn:Eb; [|done].
    intros [= <-].
    destruct (unblock_inv ts fuel s rs t c x Hinv Hf Ect) as (k' & rs' & E & H); try done.
    { by destruct (at_pc c). }
    rewrite E. simpl. eauto.
  - intros [= <-]. eexists _, rs. split; [done|]. pose proof Hinv as [Hk Hr Hcs Hlocks].
    split; simpl; [by apply kinv_set_intr|done| |].
    + apply cinv_kern; [done|done|done|]. intros c E. rewrite Hc in E. injection E as <-.
      by intros [[? ?]|?].
    + intros l L HL. destruct (Hlocks l L HL) as [Hw Ho]. split; [by eapply wait_ok_same|done].
Qed.

Lemma do_event_inv ts fuel s rs e o :
  inv ts s rs → (length ts ≤ fuel)%nat → do_event fuel s e = Some o →
  ∃ s' rs', o = Ok s' ∧ inv ts s' rs'.
Proof.
  intros Hinv Hf. destruct (inv_cur_ctx _ _ _ Hinv) as [c Hc]. unfold do_event. rewrite Hc. simpl.
  destruct (saved c) as [b|] eqn:Eb.
  { destruct e; try done. intros [= <-]. eexists _, rs. split; [done|]. by apply resume_inv. }
  assert (ctxs s !! cur s = Some (Ctx (at_pc c) None)) as Hc' by (rewrite Hc; by destruct c; simpl in *; subst).
  assert (∀ e, (if is_client (at_pc c) then call fuel s e else None) = Some o →
    ∃ s' rs', o = Ok s' ∧ inv ts s' rs') as Hcall.
  { intros e'. destruct (is_client (at_pc c)) eqn:Ep; [|done]. apply (call_inv ts fuel s rs); try done.
    by destruct (at_pc c). }
  destruct e; try apply Hcall; try done.
  - destruct (intr_on (kern s)) eqn:Eon; [|done]. intros [= <-].
    destruct (tick_inv ts fuel s rs _ Hinv Hf Hc' Eon) as (k' & rs' & E & H).
    rewrite E. simpl. eauto.
  - destruct (is_client (at_pc c)) eqn:Ep; [done|]. intros [= <-].
    by apply (exec_inv ts fuel s rs).
Qed.

(** * Executions *)

(** The state after initialisation: every thread is in its own code, the
    threads that do not run are suspended in [switch_to], and every lock is as
    [lock_init] leaves it. *)
Definition initial (ts : list Z) (s : sys) : Prop :=
  (∃ rs, kinv ts (kern s) rs) ∧ running (kern s) ∧
  (∀ t, t ∈ ts ↔ is_Some (ctxs s !! t)) ∧
  (∀ t c, ctxs s !! t = Some c →
     at_pc c = Client ∧ (saved c = None ↔ t = cur s)) ∧
  (∀ l L, locks s !! l = Some L → L = lock_init).

(** The thread [t] owns the lock at [l]: it has taken its semaphore and not
    given it back, or the lock names it as its holder. *)
Definition owns (s : sys) (l t : Z) : Prop :=
  ∃ c L, ctxs s !! t = Some c ∧ locks s !! l = Some L ∧ (owns_pc (at_pc c) l ∨ holder L = t).

Lemma initial_inv ts s : initial ts s → ∃ rs, inv ts s rs.
Proof.
  intros ([rs Hk] & Hr & Hdom & Hcs & Hlocks). exists rs.
  assert (∀ l t, ¬ in_loop (ctxs s) l t) as Hno.
  { intros l t (old & sv & E). by destruct (Hcs _ _ E). }
  split; [done|done| |].
  - split; [done| | | | |].
    + intros t c l E. by rewrite (proj1 (Hcs t c E)).
    + intros c E. by apply (Hcs _ c E).
    + intros t c E Hne. destruct (saved c) eqn:Es; [by eexists|].
      destruct Hne. by apply (Hcs t c E).
    + intros c E. destruct (Hcs _ c E) as [-> [_ Hs]]. rewrite Hs by done.
      by intros [[? ?]|?].
    + intros t c b E. by rewrite (proj1 (Hcs t c E)).
  - intros l L HL. rewrite (Hlocks l L HL). split.
    + exists []. split_and!; [apply qs_init|by constructor| |done].
      intros t. split; [by intros ?%elem_of_nil|]. intros [? _]. by destruct (Hno l t).
    + left. split_and!; try done. intros t c E. rewrite (proj1 (Hcs t c E)). by intros ?.
Qed.

Lemma reachable_inv ts fuel s0 s :
  initial ts s0 → (length ts ≤ fuel)%nat → rtc (step fuel) s0 s → ∃ rs, inv ts s rs.
Proof.
  intros Hinit Hf Hsteps. apply initial_inv in Hinit. induction Hsteps as [|s0 s1 s2 [e E] _ IH]; [done|].
  apply IH. destruct Hinit as [rs Hinv].
  destruct (do_event_inv ts fuel s0 rs e _ Hinv Hf E) as (s' & rs' & [= ->] & ?). by exists rs'.
Qed.

Lemma owns_unique ts s rs l t t' : inv ts s rs → owns s l t → owns s l t' → t = t'.
Proof.
  intros Hinv (c & L & Ec & HL & Ho) (c' & L' & Ec' & HL' & Ho'). rewrite HL in HL'. simplify_eq.
  destruct (i_locks _ _ _ Hinv l L' HL) as [_ Hown].
  assert (∀ t c, ctxs s !! t = Some c → owns_pc (at_pc c) l ∨ holder L' = t →
    only_owner (ctxs s) l t ∧ (holder L' = t ∨ holder L' = NULL)) as H.
  { intros t1 c1 E1 [Hp|Hh].
    - destruct (own_pc Hown E1 Hp) as (_ & Hok & Hu). split; [done|].
      rewrite owner_ok_here in Hok by (by apply owns_pc_lock).
      unfold held in Hok. destruct (at_pc c1); naive_solver.
    - assert (t1 ≠ NULL) as Hn.
      { assert (t1 ∈ ts) as H1 by (apply (c_dom _ _ (i_ctxs _ _ _ Hinv)); eauto).
        apply (kinv_pcb (i_kern _ _ _ Hinv)) in H1 as [H1 _]. unfold NULL. lia. }
      destruct (own_holder Hown E1 Hh Hn) as (_ & _ & Hu). auto. }
  destruct (H t c Ec Ho) as [Hu1 Hh1], (H t' c' Ec' Ho') as [Hu2 Hh2].
  destruct Ho as [Hp|Hh]; [by apply (Hu2 t c)|].
  destruct Ho' as [Hp'|Hh']; [by symmetry; apply (Hu1 t' c')|congruence].
Qed.

(** ** Sequences of events *)

Fixpoint run (fuel : nat) (s : sys) (es : list event) : outcome sys :=
  match es with
  | [] => Ok s
  | e :: es =>
      match do_event fuel s e with
      | Some o => let! s := o in run fuel s es
      | None => Fault
      end
  end.

(** The system [s] with the current thread at [p] and the lock [L] at [l]. *)
Definition at_point (s : sys) (l : Z) (k : kstate) (p : pc) (L : lock) : sys :=
  Sys k (<[l := L]> (locks s)) (<[cur s := Ctx p None]> (ctxs s)).

Section point.
Context (fuel : nat) (s : sys) (l : Z) (k : kstate).
Hypothesis Hcur : current_task k = cur s.

Lemma run_step p L es : is_client p = false →
  run fuel (at_point s l k p L) (Step :: es) =
    let! s' := exec fuel (at_point s l k p L) p in run fuel s' es.
Proof using Hcur.
  intros Hp. cbn [run]. unfold do_event.
  change (cur (at_point s l k p L)) with (current_task k). rewrite Hcur.
  cbn [ctxs at_point]. rewrite lookup_insert_eq. cbn. by rewrite Hp.
Qed.

Lemma get_lock_point p L : get_lock (at_point s l k p L) l = Ok L.
Proof. unfold get_lock. simpl. by rewrite lookup_insert_eq. Qed.

Lemma goto_point p L p' : goto (at_point s l k p L) p' = at_point s l k p' L.
Proof using Hcur.
  unfold goto, with_ctx. change (cur (at_point s l k p L)) with (current_task k). rewrite Hcur.
  unfold at_point. cbn [kern locks ctxs]. by rewrite insert_insert_eq.
Qed.

Lemma with_lock_point p L L' : with_lock (at_point s l k p L) l L' = at_point s l k p L'.
Proof. unfold with_lock, at_point. simpl. by rewrite insert_insert_eq. Qed.

Lemma with_kern_point p L k' : with_kern (at_point s l k p L) k' = at_point s l k' p L.
Proof. done. Qed.

Lemma kern_point p L : kern (at_point s l k p L) = k.
Proof. done. Qed.
End point.

Ltac point Hcur :=
  cbn [obind]; rewrite run_step by done; cbn [exec];
  rewrite ?get_lock_point, ?kern_point; cbn [obind]; unfold get_cur_task; rewrite ?Hcur;
  cbn [holder sema holder_repeat_cnt].

Lemma acquire_steps fuel s l q k p :
  current_task k = cur s → cur s ≠ NULL → p = AcqEntry l →
  run fuel (at_point s l k p (Lock NULL (Semaphore 1 q) 0)) (replicate 5 Step) =
    Ok (at_point s l k Client (Lock (cur s) (Semaphore 0 q) 1)).
Proof.
  intros Hcur Hnull ->. cbn [replicate].
  point Hcur. rewrite (proj2 (Z.eqb_neq NULL (cur s))) by done. cbn [negb]. rewrite goto_point by done.
  point Hcur. rewrite local_irq_disable_eq, with_kern_point. cbn [obind].
  rewrite goto_point by done. cbn [obind].
  rewrite run_step by done. cbn [exec]. rewrite get_lock_point, kern_point. cbn [obind sema].
  unfold sema_down_turn. cbn [value waiter_queue]. change (1 =? 0) with false.
  change (u8 (1 - 1)) with 0. cbv iota. rewrite ASSERT_true by done.
  cbn [obind holder holder_repeat_cnt]. rewrite set_intr_status_eq, with_lock_point, with_kern_point.
  rewrite goto_point by done.
  change (set_intr (set_intr k false) (intr_on k)) with (set_intr k (intr_on k)).
  rewrite set_intr_id.
  point Hcur. rewrite with_lock_point, goto_point by done.
  point Hcur. rewrite ASSERT_true by done. cbn [obind].
  rewrite with_lock_point, goto_point by done. done.
Qed.

Lemma release_steps fuel s l q k p :
  current_task k = cur s → p = RelEntry l → queue_len q = 0 →
  run fuel (at_point s l k p (Lock (cur s) (Semaphore 0 q) 1)) (replicate 6 Step) =
    Ok (at_point s l k Client (Lock NULL (Semaphore 1 q) 0)).
Proof.
  intros Hcur -> Hq. cbn [replicate].
  point Hcur. rewrite Z.eqb_refl, ASSERT_true by done. cbn [obind]. rewrite goto_point by done.
  point Hcur. change (1 <? 1) with false. cbv iota. rewrite goto_point by done.
  point Hcur. rewrite ASSERT_true by done. cbn [obind]. rewrite goto_point by done.
  point Hcur. rewrite with_lock_point, goto_point by done.
  point Hcur. rewrite with_lock_point, goto_point by done.
  point Hcur. unfold sema_up. rewrite local_irq_disable_eq. cbn [value waiter_queue].
  rewrite ASSERT_true by done. cbn [obind]. unfold queue_empty. rewrite Hq.
  change (0 =? 0) with true. cbn [negb obind value waiter_queue]. change (u8 (0 + 1)) with 1.
  rewrite ASSERT_true by done. cbn [obind holder holder_repeat_cnt].
  rewrite set_intr_status_eq, with_lock_point, with_kern_point, goto_point by done.
  change (set_intr (set_intr k false) (intr_on k)) with (set_intr k (intr_on k)).
  by rewrite set_intr_id.
Qed.

Lemma again_steps fuel s l sem k n :
  current_task k = cur s → 0 ≤ n < 4294967295 →
  run fuel (at_point s l k (AcqEntry l) (Lock (cur s) sem n)) [Step; Step] =
    Ok (at_point s l k Client (Lock (cur s) sem (n + 1))).
Proof.
  intros Hcur Hn. point Hcur. rewrite Z.eqb_refl. cbn [negb]. rewrite goto_point by done.
  point Hcur. rewrite with_lock_point, goto_point by done. cbn [run obind].
  by rewrite u32_small by lia.
Qed.

Lemma unnest_steps fuel s l sem k n :
  current_task k = cur s → 1 < n < 4294967296 →
  run fuel (at_point s l k (RelEntry l) (Lock (cur s) sem n)) [Step; Step; Step] =
    Ok (at_point s l k Client (Lock (cur s) sem (n - 1))).
Proof.
  intros Hcur Hn. point Hcur. rewrite Z.eqb_refl, ASSERT_true by done. cbn [obind].
  rewrite goto_point by done.
  point Hcur. rewrite (proj2 (Z.ltb_lt 1 n)) by lia. rewrite goto_point by done.
  point Hcur. rewrite with_lock_point, goto_point by done. cbn [run obind].
  by rewrite u32_small by lia.
Qed.

Lemma run_app fuel s es1 es2 :
  run fuel s (es1 ++ es2) = let! s := run fuel s es1 in run fuel s es2.
Proof.
  revert s. induction es1 as [|e es1 IH]; intros s; simpl; [done|].
  destruct (do_event fuel s e) as [o|]; [|done]. destruct o; simpl; done.
Qed.

Lemma run_call_acquire fuel s l k L es :
  current_task k = cur s → cur s ≠ idle_thread k → holder_repeat_cnt L < 4294967295 →
  run fuel (at_point s l k Client L) (CallAcquire l :: es) =
    run fuel (at_point s l k (AcqEntry l) L) es.
Proof.
  intros Hcur Hi Hn. cbn [run]. unfold do_event.
  change (cur (at_point s l k Client L)) with (current_task k). rewrite Hcur.
  cbn [ctxs at_point]. rewrite lookup_insert_eq. cbn.
  change (cur (at_point s l k Client L)) with (current_task k). rewrite Hcur, lookup_insert_eq.
  cbn. rewrite bool_decide_true by done. cbn [obind]. by rewrite goto_point.
Qed.

Lemma run_call_release fuel s l k L es :
  current_task k = cur s → cur s ≠ idle_thread k → holder L = cur s →
  run fuel (at_point s l k Client L) (CallRelease l :: es) =
    run fuel (at_point s l k (RelEntry l) L) es.
Proof.
  intros Hcur Hi Hn. cbn [run]. unfold do_event.
  change (cur (at_point s l k Client L)) with (current_task k). rewrite Hcur.
  cbn [ctxs at_point]. rewrite lookup_insert_eq. cbn.
  change (cur (at_point s l k Client L)) with (current_task k). rewrite Hcur, lookup_insert_eq.
  cbn. rewrite bool_decide_true by done. cbn [obind]. by rewrite goto_point.
Qed.

(** Calls of the current thread, run to their end. *)
Definition acquire_first (l : Z) : list event := CallAcquire l :: replicate 5 Step.
Definition acquire_again (l : Z) : list event := [CallAcquire l; Step; Step].
Definition release_inner (l : Z) : list event := [CallRelease l; Step; Step; Step].
Definition release_last (l : Z) : list event := CallRelease l :: replicate 6 Step.
Fixpoint times (n : nat) (es : list event) : list event :=
  match n with O => [] | S n => es ++ times n es end.

Lemma times_comm n es : es ++ times n es = times n es ++ es.
Proof.
  induction n as [|n IH]; cbn [times]; [by rewrite app_nil_r|]. rewrite IH at 1. by rewrite app_assoc.
Qed.

Lemma nested_run fuel s l sem n c :
  cur s ≠ idle_thread (kern s) → 1 ≤ c → c + Z.of_nat n ≤ 4294967295 →
  run fuel (at_point s l (kern s) Client (Lock (cur s) sem c))
      (times n (acquire_again l) ++ times n (release_inner l)) =
    Ok (at_point s l (kern s) Client (Lock (cur s) sem c)).
Proof.
  intros Hi. revert c. induction n as [|n IH]; intros c Hc Hn; [done|].
  cbn [times]. rewrite (times_comm n (release_inner l)), <- app_assoc, (app_assoc (times n _)), run_app. unfold acquire_again at 1.
  rewrite run_call_acquire by (done || simpl; lia). rewrite again_steps by (done || lia). cbn [obind].
  rewrite run_app, IH by lia. cbn [obind]. unfold release_inner.
  rewrite run_call_release by done. rewrite unnest_steps by (done || lia).
  by replace (c + 1 - 1) with c by lia.
Qed.

Lemma awake_runnable ts k rs t : kinv ts k rs → t ∈ ts → ¬ asleep k t → t = current_task k ∨ t ∈ rs.
Proof.
  intros Hk Ht Hna. destruct (kinv_task Hk t Ht) as [x Ex].
  assert (status_of k t = Some (status x)) as E by (unfold status_of, status_in; by rewrite Ex).
  destruct (status x) eqn:Es.
  - left. by apply (k_running _ _ _ Hk).
  - right. by apply (k_ready _ _ _ Hk).
  - destruct Hna. by exists TASK_BLOCKED.
  - destruct Hna. by exists TASK_WAITING.
  - destruct Hna. by exists TASK_HANGING.
  - by destruct (k_alive _ _ _ Hk t).
Qed.

(** * Properties *)

(** C1. Mutual exclusion: in every state reached from the initial one by any
    interleaving of the threads' calls and the timer interrupt, at most one
    thread owns a lock. *)
Theorem mutual_exclusion (ts : list Z) (fuel : nat) (s0 s : sys) (l t t' : Z) :
  initial ts s0 → (length ts ≤ fuel)%nat → rtc (step fuel) s0 s →
  owns s l t → owns s l t' → t = t'.
Proof.
  intros Hinit Hf Hsteps. destruct (reachable_inv ts fuel s0 s Hinit Hf Hsteps) as [rs Hinv].
  by eapply owns_unique.
Qed.

(** C2. No assertion of sync.c or thread.c fails: in every reachable state every
    event that can happen returns, whatever the interleaving -- in particular the
    assertions on the semaphore's value, on [holder_repeat_cnt] and on the
    queues, and a dispatch node is never put in two queues. *)
Theorem no_assertion_fails (ts : list Z) (fuel : nat) (s0 s : sys) (e : event) (o : outcome sys) :
  initial ts s0 → (length ts ≤ fuel)%nat → rtc (step fuel) s0 s →
  do_event fuel s e = Some o → ∃ s', o = Ok s'.
Proof.
  intros Hinit Hf Hsteps He. destruct (reachable_inv ts fuel s0 s Hinit Hf Hsteps) as [rs Hinv].
  destruct (do_event_inv ts fuel s rs e o Hinv Hf He) as (s' & _ & ? & _). eauto.
Qed.

(** C3. No wake-up is lost: in every reachable state, when the semaphore of a lock
    is free and a thread sleeps in [sema_down] on it, then some thread is on its way
    to take it: it is at the test of the loop, and it runs or is ready to run.
    When the semaphore is taken, some thread owns the lock. *)
Theorem no_lost_wakeup (ts : list Z) (fuel : nat) (s0 s : sys) (l t : Z) (L : lock) :
  initial ts s0 → (length ts ≤ fuel)%nat → rtc (step fuel) s0 s →
  locks s !! l = Some L → in_loop (ctxs s) l t → asleep (kern s) t →
  (value (sema L) = 1 ∧ ∃ t' rs, kinv ts (kern s) rs ∧ in_loop (ctxs s) l t' ∧
     (t' = cur s ∨ t' ∈ rs)) ∨
  (value (sema L) = 0 ∧ ∃ o, owns s l o).
Proof.
  intros Hinit Hf Hsteps HL Hl Has.
  destruct (reachable_inv ts fuel s0 s Hinit Hf Hsteps) as [rs Hinv].
  destruct (i_locks _ _ _ Hinv l L HL) as [(ws & _ & _ & Hws & Hwake) Hown].
  destruct Hown as [(Hv & _)|(Hv & o & c & Ec & Hok & _)].
  - left. split; [done|]. destruct (Hwake Hv) as (t' & Hl' & Hna).
    { intros ->. apply (elem_of_nil t), Hws. done. }
    exists t', rs. split_and!; [apply Hinv|done|].
    apply (awake_runnable ts); [apply Hinv| |done]. apply (c_dom _ _ (i_ctxs _ _ _ Hinv)).
    destruct Hl' as (old & sv & E). eauto.
  - right. split; [done|]. exists o, c, L. split_and!; [done|done|].
    unfold owner_ok, held in Hok. destruct (decide (pc_lock (at_pc c) = Some l)) as [Ep|]; [|tauto].
    destruct (at_pc c); simplify_eq; simpl in *; simplify_eq; tauto.
Qed.

(** Locks are re-entrant: a thread that takes a free lock nobody waits for,
    takes it [n] more times and releases it as often ends in the state it
    started from, and in between it holds the lock. *)
Theorem reentrant_roundtrip (fuel n : nat) (s : sys) (l : Z) (q : general_queue) :
  ctxs s !! cur s = Some (Ctx Client None) → cur s ≠ NULL → cur s ≠ idle_thread (kern s) →
  locks s !! l = Some (Lock NULL (Semaphore 1 q) 0) → queue_len q = 0 →
  Z.of_nat n < 4294967295 →
  ∃ s1, run fuel s (acquire_first l) = Ok s1 ∧ owns s1 l (cur s) ∧
    run fuel s1 (times n (acquire_again l) ++ times n (release_inner l)) = Ok s1 ∧
    run fuel s1 (release_last l) = Ok s.
Proof.
  intros Hc Hnull Hi HL Hq Hn.
  assert (s = at_point s l (kern s) Client (Lock NULL (Semaphore 1 q) 0)) as Es.
  { unfold at_point. rewrite !insert_id by done. by destruct s. }
  exists (at_point s l (kern s) Client (Lock (cur s) (Semaphore 0 q) 1)). split_and!.
  - rewrite Es at 1. unfold acquire_first. rewrite run_call_acquire by (done || simpl; lia).
    by apply acquire_steps.
  - exists (Ctx Client None), (Lock (cur s) (Semaphore 0 q) 1). simpl.
    rewrite !lookup_insert_eq. split_and!; [done|done|by right].
  - apply nested_run; [done|lia|lia].
  - transitivity (Ok (at_point s l (kern s) Client (Lock NULL (Semaphore 1 q) 0)));
      [|by rewrite <- Es].
    unfold release_last. rewrite run_call_release by done.
    by apply release_steps.
Qed.

(** ** Witnesses *)

(** The tasks of [demo_kstate]: one runs, the idle task and another wait for
    their first turn; there is one lock. *)
Definition demo_sys : sys :=
  Sys demo_kstate {[ 100 := lock_init ]}
    {[ 4096 := Ctx Client None; 8192 := Ctx Client (Some true); 12288 := Ctx Client (Some true) ]}.

Lemma demo_initial : initial [4096; 8192; 12288] demo_sys.
Proof.
  split_and!.
  - exists [8192; 12288]. apply demo_kinv.
  - done.
  - intros t. unfold demo_sys. simpl.
    rewrite !lookup_insert, ?lookup_singleton, !elem_of_cons, elem_of_nil.
    repeat case_decide; split; intros Ht; subst; eauto; try lia. by destruct Ht.
  - intros t c. unfold demo_sys. simpl. rewrite !lookup_insert, ?lookup_singleton.
    unfold cur. simpl. repeat case_decide; intros [= <-]; simpl; split; try done; subst;
      split; congruence.
  - intros l L. unfold demo_sys. simpl. rewrite lookup_singleton. case_decide; by intros [= <-].
Qed.

(** The state after a sequence of events, each of which is a step. *)
Definition after (fuel : nat) (es : list event) (s : sys) : sys :=
  match run fuel s es with Ok s' => s' | _ => s end.

Lemma run_rtc fuel s es s' : run fuel s es = Ok s' → rtc (step fuel) s s'.
Proof.
  revert s. induction es as [|e es IH]; intros s; simpl; [by intros [= ->]|].
  destruct (do_event fuel s e) as [[s1| | |]|] eqn:E; simpl; try done.
  intros H. eapply rtc_l; [by exists e|by apply IH].
Qed.

Lemma after_rtc fuel es s : rtc (step fuel) s (after fuel es s).
Proof.
  unfold after. destruct (run fuel s es) eqn:E; [by apply run_rtc with es|done..].
Qed.

(** The first thread takes the lock and is preempted; the idle task blocks
    itself; the third thread asks for the lock and sleeps; the first one runs
    again and is about to release the lock. *)
Definition demo_contention : list event :=
  acquire_first 100 ++ [Tick; Resume; CallBlock TASK_BLOCKED] ++
  [Resume; CallAcquire 100; Step; Step; Step; Resume].
Definition demo_contended : sys := after 3 demo_contention demo_sys.

Lemma mutual_exclusion_witness :
  owns demo_contended 100 4096 ∧ (∀ t, owns demo_contended 100 t → t = 4096).
Proof.
  assert (owns demo_contended 100 4096) as Ho.
  { exists (Ctx Client None), (Lock 4096 (Semaphore 0 (GeneralQueue 12340 1)) 1).
    split_and!; [by vm_compute|by vm_compute|by right]. }
  split; [done|]. intros t Ht.
  by apply (mutual_exclusion [4096; 8192; 12288] 3 demo_sys demo_contended 100 t 4096
    demo_initial ltac:(simpl; lia) (after_rtc 3 demo_contention demo_sys)).
Defined.

Lemma no_assertion_fails_witness :
  ∃ o, do_event 3 demo_contended (CallRelease 100) = Some o ∧ ∃ s', o = Ok s'.
Proof.
  eexists. split; [by vm_compute|].
  eapply (no_assertion_fails [4096; 8192; 12288] 3 demo_sys demo_contended (CallRelease 100));
    [apply demo_initial|simpl; lia|apply after_rtc|by vm_compute].
Defined.

Lemma no_lost_wakeup_witness :
  asleep (kern demo_contended) 12288 ∧ ∃ o, owns demo_contended 100 o.
Proof.
  split; [exists TASK_BLOCKED; split; by vm_compute|].
  destruct (no_lost_wakeup [4096; 8192; 12288] 3 demo_sys demo_contended 100 12288
    (Lock 4096 (Semaphore 0 (GeneralQueue 12340 1)) 1)) as [[H _]|H].
  - apply demo_initial.
  - simpl; lia.
  - apply after_rtc.
  - by vm_compute.
  - exists true, (Some false). by vm_compute.
  - exists TASK_BLOCKED. split; by vm_compute.
  - by vm_compute in H.
  - apply H.
Defined.

Lemma reentrant_roundtrip_witness :
  ∃ s1, run 3 demo_sys (acquire_first 100) = Ok s1 ∧ owns s1 100 4096 ∧
    run 3 s1 (times 2 (acquire_again 100) ++ times 2 (release_inner 100)) = Ok s1 ∧
    run 3 s1 (release_last 100) = Ok demo_sys.
Proof. by apply (reentrant_roundtrip 3 2 demo_sys 100 queue_init). Defined.
