(* ===== verification/IoQueue.v ===== *)
(** The character queue between interrupt handlers and threads
    (device/ioqueue.c): a ring buffer whose users sleep when it is empty or full. *)
From S2P Require Import Prelude KList Thread Sync.
Local Open Scope Z_scope.

Definition QUEUE_BUFF_SIZE : Z := 64.

(** * The ring buffer *)

(** [struct ioqueue]; [producer] and [consumer] are NULL or sleeping tasks. *)
Record ioqueue := IoQueue {
  ioq_lock : lock;
  producer : Z;
  consumer : Z;
  buff : list Z;
  front : Z;
  tail : Z
}.

(** [ioqueue_init], on a structure whose buffer holds [b]. *)
Definition ioqueue_init (b : list Z) : ioqueue := IoQueue lock_init NULL NULL b 0 0.

Definition ioq_next_pos (pos : Z) : Z := u32 (pos + 1) mod QUEUE_BUFF_SIZE.
Definition ioq_full (q : ioqueue) : bool := ioq_next_pos (front q) =? tail q.
Definition ioq_empty (q : ioqueue) : bool := front q =? tail q.

Definition set_lock (q : ioqueue) (L : lock) : ioqueue :=
  IoQueue L (producer q) (consumer q) (buff q) (front q) (tail q).
Definition set_producer (q : ioqueue) (t : Z) : ioqueue :=
  IoQueue (ioq_lock q) t (consumer q) (buff q) (front q) (tail q).
Definition set_consumer (q : ioqueue) (t : Z) : ioqueue :=
  IoQueue (ioq_lock q) (producer q) t (buff q) (front q) (tail q).

(** [ch = buff[tail]; tail = ioq_next_pos(tail)] *)
Definition ring_get (q : ioqueue) : outcome (ioqueue * Z) :=
  match buff q !! Z.to_nat (tail q) with
  | Some ch => Ok (IoQueue (ioq_lock q) (producer q) (consumer q) (buff q) (front q)
                     (ioq_next_pos (tail q)), ch)
  | None => Fault
  end.

(** [buff[front] = ch; front = ioq_next_pos(front)] *)
Definition ring_put (q : ioqueue) (ch : Z) : outcome ioqueue :=
  match buff q !! Z.to_nat (front q) with
  | Some _ => Ok (IoQueue (ioq_lock q) (producer q) (consumer q) (<[Z.to_nat (front q) := ch]> (buff q))
                    (ioq_next_pos (front q)) (tail q))
  | None => Fault
  end.

(** * Locks used with interrupts off *)

Section ioq.
(** Fuel of [list_find_item]. *)
Variable fuel : nat.

(** [lock_acquire] until it returns ([None]) or the caller sleeps in
    [sema_down] ([Some]); with interrupts off it is not interrupted. *)
Definition lock_acquire (k : kstate) (L : lock) : outcome (kstate * lock * option bool) :=
  if negb (holder L =? get_cur_task k) then
    let (k, old_status) := local_irq_disable k in
    let! (k, sem, b) := sema_down_turn fuel k (sema L) in
    match b with
    | Some b => Ok (k, Lock (holder L) sem (holder_repeat_cnt L), Some b)
    | None =>
        let k := set_intr_status k old_status in
        ASSERT (holder_repeat_cnt L =? 0) ;!
        Ok (k, Lock (get_cur_task k) sem 1, None)
    end
  else Ok (k, Lock (holder L) (sema L) (u32 (holder_repeat_cnt L + 1)), None).

Definition lock_release (k : kstate) (L : lock) : outcome (kstate * lock) :=
  ASSERT (holder L =? get_cur_task k) ;!
  if 1 <? holder_repeat_cnt L then
    Ok (k, Lock (holder L) (sema L) (u32 (holder_repeat_cnt L - 1)))
  else
    ASSERT (holder_repeat_cnt L =? 1) ;!
    let! (k, sem) := sema_up fuel k (sema L) in
    Ok (k, Lock NULL sem 0).

(** * Operations *)

(** What a call does before it returns or gives up the processor. *)
Inductive io_result :=
  | Got (ch : Z)           (* the call returned, [Got 0] for [ioq_putchar] *)
  | Sleeping (b : bool)    (* in [ioq_wait], holding the lock *)
  | LockBusy (b : bool).   (* in [lock_acquire] *)

(** [ioq_wait], on the [producer] or [consumer] field read as [waiter]; the
    field gets the current task. *)
Definition ioq_wait (k : kstate) (waiter : Z) : outcome (kstate * Z * bool) :=
  ASSERT (waiter =? NULL) ;!
  let t := get_cur_task k in
  let! (k, b) := thread_block fuel k TASK_BLOCKED in
  Ok (k, t, b).

(** [ioq_wakeup]; the field becomes NULL. *)
Definition ioq_wakeup (k : kstate) (waiter : Z) : outcome kstate :=
  ASSERT (negb (waiter =? NULL)) ;!
  thread_unblock fuel k waiter.

(** A turn of [ioq_getchar]: the test of its loop, then its body up to the
    switch, or the rest of the function. *)
Definition ioq_getchar (k : kstate) (q : ioqueue) : outcome (kstate * ioqueue * io_result) :=
  ASSERT (negb (get_intr_status k)) ;!
  if ioq_empty q then
    let! (k, L, b) := lock_acquire k (ioq_lock q) in
    match b with
    | Some b => Ok (k, set_lock q L, LockBusy b)
    | None =>
        let! (k, t, b) := ioq_wait k (consumer q) in
        Ok (k, set_consumer (set_lock q L) t, Sleeping b)
    end
  else
    let! (q, ch) := ring_get q in
    if negb (producer q =? NULL) then
      let! k := ioq_wakeup k (producer q) in
      Ok (k, set_producer q NULL, Got ch)
    else Ok (k, q, Got ch).

(** A turn of [ioq_putchar]. *)
Definition ioq_putchar (k : kstate) (q : ioqueue) (ch : Z) : outcome (kstate * ioqueue * io_result) :=
  ASSERT (negb (get_intr_status k)) ;!
  if ioq_full q then
    let! (k, L, b) := lock_acquire k (ioq_lock q) in
    match b with
    | Some b => Ok (k, set_lock q L, LockBusy b)
    | None =>
        let! (k, t, b) := ioq_wait k (producer q) in
        Ok (k, set_producer (set_lock q L) t, Sleeping b)
    end
  else
    let! q := ring_put q ch in
    if negb (consumer q =? NULL) then
      let! k := ioq_wakeup k (consumer q) in
      Ok (k, set_consumer q NULL, Got 0)
    else Ok (k, q, Got 0).

(** What follows when a thread that was [Sleeping] is switched to again: the end
    of [thread_block], and [lock_release]; the loop then makes another turn. *)
Definition ioq_resume (k : kstate) (q : ioqueue) (b : bool) : outcome (kstate * ioqueue) :=
  let k := set_intr_status k b in
  let! (k, L) := lock_release k (ioq_lock q) in
  Ok (k, set_lock q L).
End ioq.

(** * The ring holds a queue *)

(** The characters [l] are in the buffer, the oldest at [tail]. *)
Record ring_repr (q : ioqueue) (l : list Z) : Prop := RingRepr {
  r_buff : length (buff q) = 64%nat;
  r_tail : 0 ≤ tail q < 64;
  r_len : Z.of_nat (length l) < 64;
  r_front : front q = (tail q + Z.of_nat (length l)) mod 64;
  r_data : ∀ i ch, l !! i = Some ch →
    buff q !! Z.to_nat ((tail q + Z.of_nat i) mod 64) = Some ch
}.

Lemma ioq_next_pos_eq p : 0 ≤ p < 64 → ioq_next_pos p = (p + 1) mod 64.
Proof. intros. unfold ioq_next_pos, QUEUE_BUFF_SIZE. by rewrite u32_small by lia. Qed.

Lemma ring_empty q l : ring_repr q l → ioq_empty q = bool_decide (l = []).
Proof.
  intros [_ Ht Hl Hf _]. unfold ioq_empty. rewrite Hf.
  destruct l as [|x l]; simpl length in *.
  - rewrite bool_decide_true by done. apply Z.eqb_eq. divlia.
  - rewrite bool_decide_false by done. apply Z.eqb_neq. divlia.
Qed.

Lemma ring_full q l : ring_repr q l → ioq_full q = bool_decide (length l = 63%nat).
Proof.
  intros [_ Ht Hl Hf _]. unfold ioq_full. rewrite Hf. rewrite ioq_next_pos_eq by divlia.
  case_bool_decide as E; [apply Z.eqb_eq|apply Z.eqb_neq]; divlia.
Qed.

Lemma ring_get_spec q ch l : ring_repr q (ch :: l) →
  ∃ q', ring_get q = Ok (q', ch) ∧ ring_repr q' l ∧ ioq_lock q' = ioq_lock q ∧
    producer q' = producer q ∧ consumer q' = consumer q.
Proof.
  intros [Hb Ht Hl Hf Hd]. unfold ring_get. pose proof (Hd 0%nat ch eq_refl) as E.
  rewrite Z.add_0_r, Z.mod_small in E by lia. rewrite E. eexists. split; [done|].
  split_and!; try done. simpl length in *. rewrite ioq_next_pos_eq by lia.
  split; simpl; [done|divlia|lia| |].
  - rewrite Hf. divlia.
  - intros i c Hi. rewrite <- (Hd (S i) c Hi). do 2 f_equal. divlia.
Qed.

Lemma ring_put_spec q ch l : ring_repr q l → length l ≠ 63%nat →
  ∃ q', ring_put q ch = Ok q' ∧ ring_repr q' (l ++ [ch]) ∧ ioq_lock q' = ioq_lock q ∧
    producer q' = producer q ∧ consumer q' = consumer q.
Proof.
  intros [Hb Ht Hl Hf Hd] Hne. unfold ring_put.
  assert (0 ≤ front q < 64) as Hfr by (rewrite Hf; divlia).
  destruct (lookup_lt_is_Some_2 (buff q) (Z.to_nat (front q))) as [x Ex]; [lia|]. rewrite Ex.
  eexists. split; [done|]. split_and!; try done. rewrite ioq_next_pos_eq by done.
  split; simpl; rewrite ?length_insert, ?length_app; simpl; [done|done|lia| |].
  - rewrite Hf. divlia.
  - intros i c Hi. apply lookup_app_Some in Hi as [Hi|[Hge Hi]].
    + pose proof (lookup_lt_Some _ _ _ Hi). rewrite list_lookup_insert_ne; [by apply Hd|].
      rewrite Hf. divlia.
    + apply list_lookup_singleton_Some in Hi as [Hi <-].
      replace ((tail q + Z.of_nat i) mod 64) with (front q) by (rewrite Hf; f_equal; lia).
      apply list_lookup_insert_eq. lia.
Qed.

(** * Calls that find the queue ready *)

Section calls.
Variables (fuel : nat) (k : kstate).
Hypothesis Hoff : intr_on k = false.

Lemma set_intr_off : set_intr k false = k.
Proof using Hoff. rewrite <- Hoff. apply set_intr_id. Qed.

Lemma getchar_ready q ch l : ring_repr q (ch :: l) → producer q = NULL →
  ∃ q', ioq_getchar fuel k q = Ok (k, q', Got ch) ∧ ring_repr q' l ∧
    ioq_lock q' = ioq_lock q ∧ producer q' = NULL ∧ consumer q' = consumer q.
Proof using Hoff.
  intros Hq Hp. unfold ioq_getchar, get_intr_status. rewrite Hoff. simpl.
  rewrite (ring_empty _ _ Hq), bool_decide_false by done.
  destruct (ring_get_spec q ch l Hq) as (q' & -> & Hq' & El & Ep & Ec). simpl.
  rewrite Ep, Hp. simpl. exists q'. by rewrite Ep, Hp.
Qed.

Lemma putchar_ready q ch l : ring_repr q l → length l ≠ 63%nat → consumer q = NULL →
  ∃ q', ioq_putchar fuel k q ch = Ok (k, q', Got 0) ∧ ring_repr q' (l ++ [ch]) ∧
    ioq_lock q' = ioq_lock q ∧ producer q' = producer q ∧ consumer q' = NULL.
Proof using Hoff.
  intros Hq Hne Hc. unfold ioq_putchar, get_intr_status. rewrite Hoff. simpl.
  rewrite (ring_full _ _ Hq), bool_decide_false by done.
  destruct (ring_put_spec q ch l Hq Hne) as (q' & -> & Hq' & El & Ep & Ec). simpl.
  rewrite Ec, Hc. simpl. exists q'. by rewrite Ec, Hc.
Qed.

(** The lock of the queue, free and not waited for, before and after. *)
Lemma lock_acquire_free wq : current_task k ≠ NULL →
  lock_acquire fuel k (Lock NULL (Semaphore 1 wq) 0) =
    Ok (k, Lock (current_task k) (Semaphore 0 wq) 1, None).
Proof using Hoff.
  intros Hn. unfold lock_acquire, get_cur_task. cbn [holder].
  rewrite (proj2 (Z.eqb_neq NULL (current_task k))) by done. cbn [negb].
  rewrite local_irq_disable_eq, set_intr_off. unfold sema_down_turn. simpl.
  rewrite set_intr_status_eq, Hoff, set_intr_off. done.
Qed.

Lemma lock_release_last wq : queue_len wq = 0 →
  lock_release fuel k (Lock (current_task k) (Semaphore 0 wq) 1) =
    Ok (k, Lock NULL (Semaphore 1 wq) 0).
Proof using Hoff.
  intros Hq. unfold lock_release, get_cur_task. simpl. rewrite Z.eqb_refl. simpl.
  unfold sema_up, queue_empty. rewrite local_irq_disable_eq, set_intr_off. simpl. rewrite Hq. simpl.
  rewrite set_intr_status_eq, Hoff, set_intr_off. done.
Qed.
End calls.

(** * Properties *)

(** Calls that do not have to wait; the others are not made. *)
Inductive io_op := Put (ch : Z) | Get.

Fixpoint io_run (fuel : nat) (k : kstate) (q : ioqueue) (ops : list io_op)
    : outcome (kstate * ioqueue * list Z) :=
  match ops with
  | [] => Ok (k, q, [])
  | Put ch :: ops =>
      if ioq_full q then io_run fuel k q ops
      else let! (k, q, _) := ioq_putchar fuel k q ch in io_run fuel k q ops
  | Get :: ops =>
      if ioq_empty q then io_run fuel k q ops
      else
        let! (k, q, r) := ioq_getchar fuel k q in
        let! (k, q, out) := io_run fuel k q ops in
        Ok (k, q, match r with Got ch => ch :: out | _ => out end)
  end.

(** The specification: a first-in first-out queue of at most 63 characters. *)
Fixpoint fifo_run (l : list Z) (ops : list io_op) : list Z * list Z :=
  match ops with
  | [] => (l, [])
  | Put ch :: ops => fifo_run (if decide (length l = 63%nat) then l else l ++ [ch]) ops
  | Get :: ops =>
      match l with
      | [] => fifo_run l ops
      | ch :: l => let (l', out) := fifo_run l ops in (l', ch :: out)
      end
  end.

(** C17. The ring buffer is a queue: any sequence of [ioq_putchar] and
    [ioq_getchar] calls made when the buffer is not full, or not empty, returns the
    characters in the order they were put, and the buffer holds 63 of them at
    most. *)
Theorem ioqueue_fifo (fuel : nat) (k : kstate) (q : ioqueue) (l : list Z) (ops : list io_op) :
  intr_on k = false → ring_repr q l → producer q = NULL → consumer q = NULL →
  ∃ q', io_run fuel k q ops = Ok (k, q', snd (fifo_run l ops)) ∧
    ring_repr q' (fst (fifo_run l ops)) ∧ Z.of_nat (length (fst (fifo_run l ops))) ≤ 63.
Proof.
  intros Hoff. revert q l. induction ops as [|[ch|] ops IH]; intros q l Hq Hp Hc; simpl.
  - exists q. split_and!; [done|done|]. destruct Hq. lia.
  - rewrite (ring_full _ _ Hq). case_decide as E.
    + rewrite bool_decide_true by done. by apply IH.
    + rewrite bool_decide_false by done.
      destruct (putchar_ready fuel k Hoff q ch l Hq E Hc) as (q' & -> & Hq' & _ & Ep & Ec). simpl.
      apply IH; [done|congruence|done].
  - rewrite (ring_empty _ _ Hq). destruct l as [|ch l]; simpl; [by apply IH|].
    destruct (getchar_ready fuel k Hoff q ch l Hq Hp) as (q' & -> & Hq' & _ & Ep & Ec). simpl.
    destruct (IH q' l Hq' Ep) as (q2 & E & Hq2 & Hlen); [congruence|]. rewrite E. simpl.
    destruct (fifo_run l ops) as [l2 out]. simpl in *. exists q2. done.
Qed.

(** A consumer that finds the buffer empty gets the next character: it
    sleeps holding the lock, the next ready task [p] puts [ch], which wakes it, and
    when [p] yields it runs again, ahead of the other tasks, releases the lock
    and returns [ch]. *)
Theorem ioqueue_handoff (ts : list Z) (fuel : nat) (k : kstate) (p : Z) (rs : list Z)
    (q : ioqueue) (wq : general_queue) (ch : Z) :
  kinv ts k (p :: rs) → running k → (length ts ≤ fuel)%nat → intr_on k = false →
  ring_repr q [] → producer q = NULL → consumer q = NULL →
  ioq_lock q = Lock NULL (Semaphore 1 wq) 0 → queue_len wq = 0 →
  ∃ k1 q1 k2 q2 k3 q4 q5,
    ioq_getchar fuel k q = Ok (k1, q1, Sleeping false) ∧ current_task k1 = p ∧
    ioq_putchar fuel k1 q1 ch = Ok (k2, q2, Got 0) ∧
    thread_yield fuel k2 = Ok (k3, false) ∧ current_task k3 = current_task k ∧
    ioq_resume fuel k3 q2 false = Ok (k3, q4) ∧ ioq_lock q4 = ioq_lock q ∧
    ioq_getchar fuel k3 q4 = Ok (k3, q5, Got ch) ∧ ring_repr q5 [] ∧ kinv ts k3 (rs ++ [p]).
Proof.
  intros Hk Hr Hf Hoff Hq Hp Hc HL Hwq.
  pose proof (kinv_pcb Hk _ (k_current _ _ _ Hk)) as [Hcn _].
  destruct (thread_block_switched ts fuel k (p :: rs) TASK_BLOCKED Hk Hr Hf eq_refl) as (k1 & E1 & Hsw1).
  pose proof (switched_running _ _ _ _ _ Hsw1) as Hr1.
  destruct Hsw1 as [(rs1 & Ec1 & Hk1) _ Hi1 Hs1 _]. simpl in Ec1. injection Ec1 as Ep <-.
  assert (current_task k ≠ p) as Hne.
  { intros E. apply (running_not_ready _ _ _ Hk Hr). rewrite E. by left. }
  set (L1 := Lock (current_task k) (Semaphore 0 wq) 1).
  set (q1 := set_consumer (set_lock q L1) (current_task k)).
  assert (ring_repr q1 []) as Hq1 by (destruct Hq; by split).
  destruct (ring_put_spec q1 ch [] Hq1) as (q1' & Eput & Hq1' & El1 & Ep1 & Eco1); [done|].
  destruct (thread_unblock_woken ts fuel k1 rs (current_task k) Hk1 Hf) as
    (k2 & E2 & Hk2 & Ecur2 & _ & Hi2 & Hs2 & _).
  { apply (k_current _ _ _ Hk). }
  { exists TASK_BLOCKED. split; [|done]. rewrite Hs1, decide_False, decide_True by congruence. done. }
  assert (running k2) as Hr2.
  { unfold running. rewrite Hs2, Ecur2, decide_False by congruence. apply Hr1. }
  destruct (thread_yield_switched ts fuel k2 _ Hk2 Hr2 Hf) as (k3 & E3 & [(rs3 & Ec3 & Hk3) _ Hi3 _ _]).
  simpl in Ec3. injection Ec3 as Ec3 <-. rewrite Ecur2, <- Ep in Hk3.
  set (q2 := set_consumer q1' NULL). set (q4 := set_lock q2 (Lock NULL (Semaphore 1 wq) 0)).
  assert (ring_repr q4 [ch]) as Hq4 by (destruct Hq1'; by split).
  destruct (getchar_ready fuel k3 Hi3 q4 ch [] Hq4) as (q5 & E5 & Hq5 & _).
  { simpl. by rewrite Ep1. }
  exists k1, q1, k2, q2, k3, q4, q5. split_and!; try done.
  - unfold ioq_getchar, get_intr_status. rewrite Hoff, (ring_empty _ _ Hq). simpl.
    rewrite HL, (lock_acquire_free fuel k Hoff wq) by (unfold NULL; lia). simpl.
    unfold ioq_wait. rewrite Hc. simpl. rewrite E1. simpl. by rewrite Hoff.
  - unfold ioq_putchar, get_intr_status. rewrite Hi1, (ring_full _ _ Hq1). simpl.
    rewrite Eput. simpl. rewrite Eco1. simpl.
    rewrite (proj2 (Z.eqb_neq (current_task k) NULL)) by (unfold NULL; lia). simpl.
    unfold ioq_wakeup. rewrite (proj2 (Z.eqb_neq (current_task k) NULL)) by (unfold NULL; lia). simpl.
    by rewrite E2.
  - by rewrite E3, Hi2, Hi1.
  - unfold ioq_resume. rewrite set_intr_status_eq, (set_intr_off k3 Hi3).
    change (ioq_lock q2) with (ioq_lock q1'). rewrite El1. change (ioq_lock q1) with L1.
    unfold L1. rewrite Ec3 at 1. rewrite (lock_release_last fuel k3 Hi3 wq Hwq). done.
Qed.

(** ** Witnesses *)

Lemma ioqueue_init_repr b : length b = 64%nat → ring_repr (ioqueue_init b) [].
Proof. intros Hb. split; simpl; [done|lia|lia|done|]. intros i ch. by rewrite lookup_nil. Qed.

Lemma ioqueue_fifo_witness :
  ∃ q', io_run 0 (set_intr demo_kstate false) (ioqueue_init (replicate 64 0))
      [Put 97; Put 98; Get; Put 99; Get; Get; Get] =
      Ok (set_intr demo_kstate false, q', [97; 98; 99]) ∧
    ring_repr q' [] ∧ Z.of_nat 0 ≤ 63.
Proof.
  apply (ioqueue_fifo 0 (set_intr demo_kstate false) (ioqueue_init (replicate 64 0)) []
    [Put 97; Put 98; Get; Put 99; Get; Get; Get]); [done|by apply ioqueue_init_repr|done|done].
Defined.

Lemma ioqueue_handoff_witness :
  let k := set_intr demo_kstate false in let q := ioqueue_init (replicate 64 0) in
  ∃ k1 q1 k2 q2 k3 q4 q5,
    ioq_getchar 3 k q = Ok (k1, q1, Sleeping false) ∧ current_task k1 = 8192 ∧
    ioq_putchar 3 k1 q1 65 = Ok (k2, q2, Got 0) ∧
    thread_yield 3 k2 = Ok (k3, false) ∧ current_task k3 = 4096 ∧
    ioq_resume 3 k3 q2 false = Ok (k3, q4) ∧ ioq_lock q4 = ioq_lock q ∧
    ioq_getchar 3 k3 q4 = Ok (k3, q5, Got 65) ∧ ring_repr q5 [] ∧
    kinv [4096; 8192; 12288] k3 [12288; 8192].
Proof.
  apply (ioqueue_handoff [4096; 8192; 12288] 3 (set_intr demo_kstate false) 8192 [12288]
    (ioqueue_init (replicate 64 0)) queue_init 65);
    first [done | by apply ioqueue_init_repr | apply kinv_set_intr, demo_kinv].
Defined.
