(* ===== verification/Timer.v ===== *)
(** The clock (device/timer.c): time slices, the programming of the 8253, and
    sleeping. *)
From S2P Require Import Prelude KList Thread.
Local Open Scope Z_scope.

Definition IRQ0_FREQUENCY : Z := 100.
Definition INPUT_FREQUENCY : Z := 1193180.
Definition COUNTER0_VALUE : Z := INPUT_FREQUENCY / IRQ0_FREQUENCY.
Definition CONTRER0_PORT : Z := 0x40.
Definition COUNTER0_NO : Z := 0.
Definition COUNTER_MODE : Z := 2.
Definition READ_WRITE_LATCH : Z := 3.
Definition PIT_CONTROL_PORT : Z := 0x43.
Definition millisecond_per_intr : Z := 1000 / IRQ0_FREQUENCY.

(** * The clock interrupt *)

Definition count_tick (x : task_struct) : task_struct :=
  TaskStruct (self_kernel_stack x) (status x) (priority x) (pid x) (Thread.ticks x)
    (u32 (elapsed_ticks x + 1)) (name x) (pde_addr x) (stack_boundary x).
Definition use_tick (x : task_struct) : task_struct :=
  TaskStruct (self_kernel_stack x) (status x) (priority x) (pid x) (u8 (Thread.ticks x - 1))
    (elapsed_ticks x) (name x) (pde_addr x) (stack_boundary x).

(** [clock_service]; the second component is the variable [ticks]. *)
Definition clock_service (fuel : nat) (k : kstate) (ticks : Z) : outcome (kstate * Z) :=
  let cur_thread := get_cur_task k in
  let! x := get_task k cur_thread in
  ASSERT (stack_boundary x =? 0x20130901) ;!
  let! k := update_task k cur_thread count_tick in
  let ticks := u32 (ticks + 1) in
  let! x := get_task k cur_thread in
  if Thread.ticks x =? 0 then
    let! k := schedule fuel k in Ok (k, ticks)
  else
    let! k := update_task k cur_thread use_tick in Ok (k, ticks).

(** Clock interrupts one after the other. *)
Fixpoint clock (fuel n : nat) (k : kstate) (ticks : Z) : outcome (kstate * Z) :=
  match n with
  | O => Ok (k, ticks)
  | S n => let! (k, ticks) := clock_service fuel k ticks in clock fuel n k ticks
  end.

(** * The interval timer *)

(** The bytes [frequency_set] writes, with their ports. *)
Definition frequency_set (counter_port counter_no rwl counter_mode counter_value : Z) : list (Z * Z) :=
  [(PIT_CONTROL_PORT,
      u8 (Z.lor (Z.lor (Z.shiftl counter_no 6) (Z.shiftl rwl 4)) (Z.shiftl counter_mode 1)));
   (counter_port, u8 counter_value);
   (counter_port, u8 (Z.shiftr (u8 counter_value) 8))].

Definition timer_init : list (Z * Z) :=
  frequency_set CONTRER0_PORT COUNTER0_NO READ_WRITE_LATCH COUNTER_MODE COUNTER0_VALUE.

(** What the 8253 makes of such a sequence: with access mode 3 the low byte of
    the reload value is written first, then the high byte; 0 stands for 65536.
    This is the documented behaviour of the device, not code of the kernel. *)
Definition pit_reload (out : list (Z * Z)) : option Z :=
  match out with
  | [(_, c); (_, lo); (_, hi)] =>
      if Z.land (Z.shiftr c 4) 3 =? 3
      then Some (if lo + 256 * hi =? 0 then 65536 else lo + 256 * hi) else None
  | _ => None
  end.

(** * Sleeping *)

(** The loop of [ticks_to_sleep]: [tick_at i] is the variable [ticks] at its
    [i]-th test.  The result is the number of times the caller yields. *)
Fixpoint ticks_to_sleep_loop (fuel : nat) (tick_at : nat → Z) (i : nat)
    (start_ticks sleep_ticks : Z) : outcome nat :=
  match fuel with
  | O => NoFuel
  | S fuel =>
      if u32 (tick_at i - start_ticks) <? sleep_ticks
      then ticks_to_sleep_loop fuel tick_at (S i) start_ticks sleep_ticks
      else Ok i
  end.

Definition ticks_to_sleep (fuel : nat) (ticks : Z) (tick_at : nat → Z) (sleep_ticks : Z) : outcome nat :=
  ticks_to_sleep_loop fuel tick_at 0 ticks sleep_ticks.

(** [DIV_ROUND_UP] on 32-bit unsigned operands. *)
Definition DIV_ROUND_UP (x step : Z) : Z := u32 (x + step - 1) / step.

Definition mil_sleep_ticks (m_second : Z) : Z :=
  DIV_ROUND_UP (u32 (m_second * 100)) millisecond_per_intr.

Definition mil_sleep (fuel : nat) (ticks : Z) (tick_at : nat → Z) (m_second : Z) : outcome nat :=
  let sleep_ticks := mil_sleep_ticks m_second in
  ASSERT (0 <? sleep_ticks) ;!
  ticks_to_sleep fuel ticks tick_at sleep_ticks.

(** * Lemmas *)

Definition same_status (f : task_struct → task_struct) : Prop := ∀ x, status (f x) = status x.

Lemma kinv_same_status ts k rs t f :
  kinv ts k rs → same_status f → kinv ts (set_tasks k (alter f t (tasks k))) rs.
Proof.
  intros [Hpool Hpcb Hdom Hq Hnd Hr Hrun Hc Hi Hal] Hf.
  assert (∀ t', status_of (set_tasks k (alter f t (tasks k))) t' = status_of k t') as Hst.
  { intros t'. unfold status_of. simpl. by apply status_alter_same. }
  split; try done.
  - intros t'. simpl. by rewrite alter_dom.
  - intros t'. by rewrite Hst.
  - intros t'. rewrite Hst. apply Hrun.
  - intros t'. rewrite Hst. apply Hal.
Qed.

Lemma running_same_status k t f :
  running k → same_status f → running (set_tasks k (alter f t (tasks k))).
Proof. intros Hr Hf. unfold running, status_of in *. simpl. by rewrite status_alter_same. Qed.

(** One interrupt in the middle of a time slice. *)
Lemma clock_service_slice ts fuel k rs x tk :
  kinv ts k rs → running k → tasks k !! current_task k = Some x →
  stack_boundary x = 0x20130901 → 0 < Thread.ticks x < 256 →
  ∃ k', clock_service fuel k tk = Ok (k', u32 (tk + 1)) ∧ kinv ts k' rs ∧ running k' ∧
    current_task k' = current_task k ∧ tasks k' !! current_task k = Some (use_tick (count_tick x)).
Proof.
  intros Hk Hr Ex Hb Ht. unfold clock_service, get_cur_task, get_task. rewrite Ex. simpl.
  rewrite Hb. simpl. rewrite update_task_eq by eauto. simpl. rewrite lookup_alter_eq, Ex. simpl.
  rewrite (proj2 (Z.eqb_neq _ 0)) by lia.
  rewrite update_task_eq by (simpl; apply alter_dom; eauto). simpl.
  eexists. split; [done|]. split_and!.
  - refine (kinv_same_status ts (set_tasks k (alter count_tick (current_task k) (tasks k)))
      rs (current_task k) use_tick _ _); [|done]. by apply kinv_same_status.
  - refine (running_same_status (set_tasks k (alter count_tick (current_task k) (tasks k)))
      (current_task k) use_tick _ _); [|done]. by apply running_same_status.
  - done.
  - simpl. by rewrite !lookup_alter_eq, Ex.
Qed.

Lemma clock_slice ts fuel n k rs x tk :
  kinv ts k rs → running k → tasks k !! current_task k = Some x →
  stack_boundary x = 0x20130901 → Z.of_nat n ≤ Thread.ticks x < 256 →
  0 ≤ tk < 4294967296 → 0 ≤ elapsed_ticks x < 4294967296 →
  ∃ k' x', clock fuel n k tk = Ok (k', u32 (tk + Z.of_nat n)) ∧ kinv ts k' rs ∧ running k' ∧
    current_task k' = current_task k ∧ tasks k' !! current_task k = Some x' ∧
    Thread.ticks x' = Thread.ticks x - Z.of_nat n ∧ priority x' = priority x ∧
    stack_boundary x' = 0x20130901 ∧ elapsed_ticks x' = u32 (elapsed_ticks x + Z.of_nat n).
Proof.
  revert k x tk. induction n as [|n IH]; intros k x tk Hk Hr Ex Hb Ht Htk Hel.
  { exists k, x. simpl clock. replace (tk + Z.of_nat 0) with tk by lia.
    replace (elapsed_ticks x + Z.of_nat 0) with (elapsed_ticks x) by lia.
    rewrite !u32_small by lia. split_and!; try done. lia. }
  destruct (clock_service_slice ts fuel k rs x tk) as (k1 & E1 & Hk1 & Hr1 & Ec1 & Ex1); try done; [lia|].
  rewrite <- Ec1 in Ex1.
  destruct (IH k1 _ (u32 (tk + 1)) Hk1 Hr1 Ex1) as (k2 & x2 & E2 & Hk2 & Hr2 & Ec2 & Ex2 & Ht2 & Hp2 & Hb2 & He2);
    [done| |apply u32_range|apply u32_range|].
  { simpl. rewrite u8_small; lia. }
  exists k2, x2. cbn [clock]. rewrite E1. cbn [obind]. rewrite E2, Ec2, Ec1 in *.
  split_and!; try done.
  - f_equal. f_equal. rewrite u32_add_u32. f_equal. lia.
  - rewrite Ht2. simpl. rewrite u8_small; lia.
  - rewrite He2. simpl. rewrite u32_add_u32. f_equal. lia.
Qed.

(** The [while] condition of [ticks_to_sleep] is right when [ticks] wraps. *)
Lemma elapsed_wrap start d : 0 ≤ d < 4294967296 → u32 (u32 (start + d) - start) = d.
Proof.
  intros Hd. unfold u32. rewrite Zminus_mod, Zmod_mod, <- Zminus_mod.
  replace (start + d - start) with d by lia. by apply Z.mod_small.
Qed.

(** * Properties *)

(** A task whose [ticks] field is [n] keeps the processor for [n] clock
    interrupts; the next one puts it last in the ready queue with its ticks reset to
    its priority, and the first ready task runs.  Each interrupt is counted in
    [ticks] and in the task's [elapsed_ticks], modulo 2^32. *)
Theorem time_slice (ts : list Z) (fuel n : nat) (k : kstate) (rs : list Z) (x : task_struct) (tk : Z) :
  kinv ts k rs → running k → (length ts ≤ fuel)%nat → tasks k !! current_task k = Some x →
  stack_boundary x = 0x20130901 → Thread.ticks x = Z.of_nat n → Z.of_nat n < 256 →
  0 ≤ tk < 4294967296 → 0 ≤ elapsed_ticks x < 4294967296 →
  ∃ k1 k2 rs2 x2, clock fuel n k tk = Ok (k1, u32 (tk + Z.of_nat n)) ∧
    current_task k1 = current_task k ∧ kinv ts k1 rs ∧
    clock_service fuel k1 (u32 (tk + Z.of_nat n)) = Ok (k2, u32 (tk + Z.of_nat n + 1)) ∧
    kinv ts k2 rs2 ∧ running k2 ∧ current_task k2 :: rs2 = rs ++ [current_task k] ∧
    tasks k2 !! current_task k = Some x2 ∧ Thread.ticks x2 = u8 (priority x) ∧
    elapsed_ticks x2 = u32 (elapsed_ticks x + Z.of_nat n + 1).
Proof.
  intros Hk Hr Hf Ex Hb Ht Hn Htk Hel.
  destruct (clock_slice ts fuel n k rs x tk) as
    (k1 & x1 & E1 & Hk1 & Hr1 & Ec1 & Ex1 & Ht1 & Hp1 & Hb1 & He1); try done; [lia|].
  set (kc := set_tasks k1 (alter count_tick (current_task k1) (tasks k1))).
  assert (kinv ts kc rs) as Hkc by (by apply kinv_same_status).
  assert (running kc) as Hrc by (by apply running_same_status).
  destruct (schedule_spec ts fuel kc rs Hkc Hf) as (m & q & nt & rs' & Ec & E & Hk' & Hr' & _).
  assert (candidates kc rs = rs ++ [current_task k]) as Ecand.
  { unfold candidates, requeued. rewrite decide_True by exact Hrc. simpl. rewrite Ec1. by destruct rs. }
  assert (candidate_tasks kc rs = requeued_tasks kc) as Ect.
  { unfold candidate_tasks, requeued. rewrite decide_True by exact Hrc. by destruct rs. }
  set (y := with_status TASK_READY (reset_ticks (count_tick x1))).
  eexists k1, _, rs', (if decide (nt = current_task k) then with_status TASK_RUNNING y else y).
  split_and!; [exact E1|exact Ec1|exact Hk1| |exact Hk'|exact Hr'| | | |].
  - unfold clock_service, get_cur_task, get_task. rewrite Ec1, Ex1. simpl. rewrite Hb1. simpl.
    rewrite update_task_eq by eauto. simpl. rewrite lookup_alter_eq, Ex1. simpl.
    rewrite (proj2 (Z.eqb_eq _ 0)) by (rewrite Ht1; lia).
    unfold kc in E. rewrite Ec1 in E. rewrite E. cbn [obind]. rewrite u32_add_u32. unfold kc. by rewrite Ec1.
  - simpl. by rewrite <- Ecand, Ec.
  - simpl. rewrite Ect. unfold requeued_tasks. rewrite decide_True by exact Hrc. simpl. rewrite Ec1.
    destruct (decide (nt = current_task k)) as [->|].
    + by rewrite !lookup_alter_eq, Ex1.
    + by rewrite lookup_alter_ne, !lookup_alter_eq, Ex1.
  - destruct (decide (nt = current_task k)) as [->|]; simpl; by rewrite Hp1.
  - destruct (decide (nt = current_task k)) as [->|]; simpl; rewrite He1;
      rewrite u32_add_u32; f_equal; lia.
Qed.

(** The counter is not programmed with the value asked for: [frequency_set]
    casts it to 8 bits before the shift, so the timer gets the low byte of the value
    (65536 when it is 0).  [timer_init] asks for 100 interrupts per second and
    gets a reload value of 155, which is 7697 per second. *)
Theorem frequency_set_low_byte (port mode value : Z) :
  0 ≤ value < 65536 → 0 ≤ mode < 8 →
  pit_reload (frequency_set port COUNTER0_NO READ_WRITE_LATCH mode value) =
    Some (if value mod 256 =? 0 then 65536 else value mod 256) ∧
  pit_reload timer_init = Some 155 ∧ INPUT_FREQUENCY / 155 = 7697 ∧ COUNTER0_VALUE = 11931.
Proof.
  intros Hv Hm. split_and!; [|by vm_compute..].
  assert (Z.land (Z.shiftr (u8 (Z.lor (Z.lor (Z.shiftl COUNTER0_NO 6)
    (Z.shiftl READ_WRITE_LATCH 4)) (Z.shiftl mode 1))) 4) 3 = 3) as Hc.
  { assert (mode = 0 ∨ mode = 1 ∨ mode = 2 ∨ mode = 3 ∨ mode = 4 ∨ mode = 5 ∨ mode = 6 ∨ mode = 7)
      as Hcases by lia. by destruct_or! Hcases; subst. }
  unfold pit_reload, frequency_set. rewrite Hc. simpl.
  assert (Z.shiftr (u8 value) 8 = 0) as ->.
  { rewrite Z.shiftr_div_pow2 by lia. pose proof (u8_range value). by rewrite Z.div_small by lia. }
  change (u8 0) with 0. rewrite Z.mul_0_r, Z.add_0_r. done.
Qed.

(** [ticks_to_sleep] yields exactly until [sleep_ticks] interrupts have been
    counted since it was called, also when the variable [ticks] wraps around:
    it returns at the first test that sees enough of them.  [e i] is the number
    of interrupts between the call and the [i]-th test. *)
Theorem ticks_to_sleep_exact (fuel n : nat) (ticks sleep_ticks : Z) (tick_at e : nat → Z) :
  (∀ i, (i ≤ n)%nat → tick_at i = u32 (ticks + e i) ∧ 0 ≤ e i < 4294967296) →
  (∀ i, (i < n)%nat → e i < sleep_ticks) → sleep_ticks ≤ e n → (n < fuel)%nat →
  ticks_to_sleep fuel ticks tick_at sleep_ticks = Ok n.
Proof.
  intros He Hlt Hge Hf. unfold ticks_to_sleep.
  assert (∀ j i, (i + j = n)%nat → ∀ fuel, (j < fuel)%nat →
    ticks_to_sleep_loop fuel tick_at i ticks sleep_ticks = Ok n) as H.
  { induction j as [|j IH]; intros i Hi [|f] Hf'; try lia; cbn [ticks_to_sleep_loop];
      (destruct (He i) as [-> Hei]; [lia|]); rewrite elapsed_wrap by done.
    - replace i with n by lia. by rewrite (proj2 (Z.ltb_ge _ _)) by lia.
    - rewrite (proj2 (Z.ltb_lt _ _)) by (apply Hlt; lia). apply IH; lia. }
  apply (H n 0%nat); lia.
Qed.

(** [mil_sleep] asks for ten ticks per millisecond, although a tick is meant to
    last [millisecond_per_intr] = 10 milliseconds: at 100 interrupts per second it
    would sleep a hundred times too long. *)
Theorem mil_sleep_ten_ticks (m_second : Z) :
  0 ≤ m_second → m_second * 100 + 9 < 4294967296 →
  mil_sleep_ticks m_second = 10 * m_second ∧
  mil_sleep_ticks m_second * millisecond_per_intr = 100 * m_second.
Proof.
  intros H0 Hm. unfold mil_sleep_ticks, DIV_ROUND_UP. change millisecond_per_intr with 10.
  rewrite (u32_small (m_second * 100)) by lia. rewrite u32_small by lia.
  assert ((m_second * 100 + 10 - 1) / 10 = 10 * m_second) as -> by divlia. lia.
Qed.

(** ** Witnesses *)

Lemma time_slice_witness :
  ∃ k1 k2 rs2 x2, clock 3 3 demo_kstate 4294967294 = Ok (k1, 1) ∧ current_task k1 = 4096 ∧
    kinv [4096; 8192; 12288] k1 [8192; 12288] ∧ clock_service 3 k1 1 = Ok (k2, 2) ∧
    kinv [4096; 8192; 12288] k2 rs2 ∧ running k2 ∧ current_task k2 :: rs2 = [8192; 12288; 4096] ∧
    tasks k2 !! 4096 = Some x2 ∧ Thread.ticks x2 = 2 ∧ elapsed_ticks x2 = 4.
Proof.
  apply (time_slice [4096; 8192; 12288] 3 3 demo_kstate [8192; 12288]
    (demo_task TASK_RUNNING 258) 4294967294); try done; apply demo_kinv.
Defined.

Lemma frequency_set_low_byte_witness :
  pit_reload (frequency_set 0x40 0 3 2 300) = Some 44.
Proof. apply (frequency_set_low_byte 0x40 2 300); lia. Defined.

Lemma ticks_to_sleep_exact_witness :
  ticks_to_sleep 5 4294967290 (λ i, u32 (4294967290 + 4 * Z.of_nat (i `min` 10))) 10 = Ok 3%nat.
Proof.
  apply (ticks_to_sleep_exact 5 3 4294967290 10 _ (λ i, 4 * Z.of_nat (i `min` 10))); [|lia..].
  intros i Hi. split; [done|lia].
Defined.

Lemma mil_sleep_ten_ticks_witness :
  mil_sleep_ticks 250 = 2500 ∧ mil_sleep_ticks 250 * millisecond_per_intr = 25000.
Proof. apply (mil_sleep_ten_ticks 250); lia. Defined.
