(* ===== verification/Keyboard.v ===== *)
(** The keyboard interrupt (device/keyboard.c): scan codes, modifier keys and the
    characters put in the keyboard buffer. *)
From S2P Require Import Prelude KList Thread Sync IoQueue.
Local Open Scope Z_scope.

(** * Data *)

Definition esc : Z := 27.
Definition enter : Z := 13.
Definition tab : Z := 9.
Definition backspace : Z := 8.

Definition ctrl_l_make : Z := 0x1d.
Definition ctrl_l_break : Z := 0x9d.
Definition alt_l_make : Z := 0x38.
Definition alt_l_break : Z := 0xb8.
Definition shift_r_make : Z := 0x36.
Definition shift_r_break : Z := 0xb6.
Definition shift_l_make : Z := 0x2a.
Definition shift_l_break : Z := 0xaa.
Definition caps_lock_make : Z := 0x3a.

(** The characters of each key, without and with shift, eight keys per line
    (ASCII codes; 0 for the invisible ones). *)
Definition keymap : list (Z * Z) :=
  [
   (0, 0); (esc, esc); (49, 33); (50, 64); (51, 35); (52, 36); (53, 37); (54, 94);
   (55, 38); (56, 42); (57, 40); (48, 41); (45, 95); (61, 43); (backspace, backspace); (tab, tab);
   (113, 81); (119, 87); (101, 69); (114, 82); (116, 84); (121, 89); (117, 85); (105, 73);
   (111, 79); (112, 80); (91, 123); (93, 125); (enter, enter); (0, 0); (97, 65); (115, 83);
   (100, 68); (102, 70); (103, 71); (104, 72); (106, 74); (107, 75); (108, 76); (59, 58);
   (39, 34); (96, 126); (0, 0); (92, 124); (122, 90); (120, 88); (99, 67); (118, 86);
   (98, 66); (110, 78); (109, 77); (44, 60); (46, 62); (47, 63); (0, 0); (42, 42);
   (0, 0); (32, 32); (0, 0); (0, 0); (0, 0); (0, 0); (0, 0); (0, 0);
   (0, 0); (0, 0); (0, 0); (0, 0); (0, 0); (0, 0); (0, 0); (55, 55);
   (56, 56); (57, 57); (45, 45); (52, 52); (53, 53); (54, 54); (43, 43); (49, 49);
   (50, 50); (51, 51); (48, 48); (46, 46)
  ].

Definition SET_BIT (operand nbit : Z) : Z := Z.lor operand (Z.shiftl 1 nbit).
Definition CLEAR_BIT (operand nbit : Z) : Z := Z.land operand (Z.lnot (Z.shiftl 1 nbit)).
Definition GET_BIT (operand nbit : Z) : Z := Z.shiftr (Z.land operand (Z.shiftl 1 nbit)) nbit.

(** The state of the driver: the scheduler's, the buffer [kbd_buff], the signed
    byte [g_key_status], and what was printed, oldest first. *)
Record kbd := Kbd {
  kb_kern : kstate;
  kbd_buff : ioqueue;
  g_key_status : Z;
  screen : list Z
}.

Definition set_status (s : kbd) (v : Z) : kbd := Kbd (kb_kern s) (kbd_buff s) (s8 v) (screen s).

(** * Operations *)

(** [keymap[key_code][i]]; a read past the table is a [Fault]. *)
Definition keymap_at (key_code : Z) (shifted : bool) : outcome Z :=
  match keymap !! Z.to_nat key_code with
  | Some (a, b) => Ok (if shifted then b else a)
  | None => Fault
  end.

Definition key_output (fuel : nat) (s : kbd) (key_code key_status : Z) : outcome kbd :=
  let __shift := u8 (Z.lor (GET_BIT key_status 0) (GET_BIT key_status 3)) in
  let __caps_lock := u8 (GET_BIT key_status 6) in
  let! cur_key :=
    if negb (__caps_lock =? 0) then keymap_at key_code (__shift =? 0)
    else keymap_at key_code (negb (__shift =? 0)) in
  if negb (ioq_full (kbd_buff s)) then
    let! (k, q, _) := ioq_putchar fuel (kb_kern s) (kbd_buff s) cur_key in
    Ok (Kbd k q (g_key_status s) (screen s ++ [cur_key]))
  else Ok s.

(** The code shared by the cases [alt_l_break] and, falling through,
    [ctrl_l_break]. *)
Definition alt_break (s : kbd) (scancode : Z) : kbd :=
  if negb (Z.land scancode 0xff00 =? 0) then set_status s (CLEAR_BIT (g_key_status s) 5)
  else set_status s (CLEAR_BIT (g_key_status s) 2).

(** The [switch] on the modifier keys. *)
Definition modifiers (s : kbd) (scancode : Z) : kbd :=
  let st := g_key_status s in
  let ext := negb (Z.land scancode 0xff00 =? 0) in
  let code := Z.land scancode 0x00ff in
  if code =? ctrl_l_make then
    if ext then set_status s (SET_BIT st 4) else set_status s (SET_BIT st 1)
  else if code =? alt_l_make then
    if ext then set_status s (SET_BIT st 5) else set_status s (SET_BIT st 2)
  else if code =? shift_l_make then set_status s (SET_BIT st 0)
  else if code =? shift_r_make then set_status s (SET_BIT st 3)
  else if code =? caps_lock_make then
    if negb (Z.land st 0x40 =? 0) then set_status s (CLEAR_BIT st 6) else set_status s (SET_BIT st 6)
  else if code =? ctrl_l_break then
    alt_break
      (if ext then set_status s (CLEAR_BIT st 4) else set_status s (CLEAR_BIT st 1)) scancode
  else if code =? alt_l_break then alt_break s scancode
  else if code =? shift_l_break then set_status s (CLEAR_BIT st 0)
  else if code =? shift_r_break then set_status s (CLEAR_BIT st 3)
  else s.

(** [keyboard_service], for the byte [b] read from the keyboard's port. *)
Definition keyboard_service (fuel : nat) (s : kbd) (b : Z) : outcome kbd :=
  if b =? 0xe0 then Ok (set_status s (SET_BIT (g_key_status s) 7))
  else
    let '(s, scancode) :=
      if negb (Z.land (g_key_status s) 0x80 =? 0)
      then (set_status s (CLEAR_BIT (g_key_status s) 7), u16 (b + 0xe000))
      else (s, b) in
    let s := modifiers s scancode in
    if Z.shiftr (Z.land scancode 0x00ff) 7 =? 0
    then key_output fuel s (u8 (Z.land scancode 0x00ff)) (g_key_status s)
    else Ok s.

(** * Bits of the status byte *)

(** The bits, from the lowest: left shift, ctrl and alt, right shift, ctrl and
    alt, caps lock, and the prefix 0xe0. *)
Definition status_bit (s : kbd) (m : Z) : bool := Z.testbit (g_key_status s) m.

Lemma s8_testbit z m : 0 ≤ m < 8 → Z.testbit (s8 z) m = Z.testbit z m.
Proof.
  intros Hm. rewrite <- (Z.mod_pow2_bits_low (s8 z) 8 m), <- (Z.mod_pow2_bits_low z 8 m) by lia.
  f_equal. unfold s8. change (2 ^ 8) with 256. divlia.
Qed.

Lemma set_bit_spec z n m : 0 ≤ n → 0 ≤ m < 8 →
  Z.testbit (s8 (SET_BIT z n)) m = bool_decide (m = n) || Z.testbit z m.
Proof.
  intros Hn Hm. rewrite s8_testbit by done. unfold SET_BIT.
  rewrite Z.lor_spec, testbit_shiftl1 by done. apply orb_comm.
Qed.

Lemma clear_bit_spec z n m : 0 ≤ n → 0 ≤ m < 8 →
  Z.testbit (s8 (CLEAR_BIT z n)) m = negb (bool_decide (m = n)) && Z.testbit z m.
Proof.
  intros Hn Hm. rewrite s8_testbit by done. unfold CLEAR_BIT.
  rewrite Z.land_spec, Z.lnot_spec, testbit_shiftl1 by lia. apply andb_comm.
Qed.

Lemma land_bit z n : 0 ≤ n → (Z.land z (Z.shiftl 1 n) =? 0) = negb (Z.testbit z n).
Proof. apply land_pow2_testbit. Qed.

Lemma get_bit_spec z n : 0 ≤ n → GET_BIT z n = Z.b2z (Z.testbit z n).
Proof.
  intros Hn. unfold GET_BIT. apply Z.bits_inj_iff'. intros i Hi.
  rewrite Z.shiftr_spec, Z.land_spec, testbit_shiftl1 by done.
  destruct (decide (i = 0)) as [->|].
  - rewrite bool_decide_true by lia. rewrite andb_true_r. rewrite Z.add_0_l. by destruct (Z.testbit z n).
  - rewrite bool_decide_false, andb_false_r by lia. symmetry.
    destruct (Z.testbit z n); simpl; [|apply Z.bits_0]. apply Z.bits_above_log2; simpl; lia.
Qed.

(** A scan code and its prefix. *)
Definition scancode_of (ext : bool) (b : Z) : Z := if ext then b + 0xe000 else b.

Lemma scancode_low ext b : 0 ≤ b < 256 → Z.land (scancode_of ext b) 0x00ff = b.
Proof.
  intros Hb. change 0x00ff with (2 ^ 8 - 1). rewrite land_ones_mod by lia. change (2 ^ 8) with 256.
  unfold scancode_of. destruct ext; divlia.
Qed.

Lemma scancode_high ext b : 0 ≤ b < 256 → (Z.land (scancode_of ext b) 0xff00 =? 0) = negb ext.
Proof.
  intros Hb. change 0xff00 with (Z.shiftl 255 8).
  assert (Z.land (scancode_of ext b) (Z.shiftl 255 8) =
    Z.shiftl (Z.land (scancode_of ext b / 256) 255) 8) as ->.
  { apply Z.bits_inj_iff'. intros i Hi. rewrite Z.land_spec, !Z.shiftl_spec by done.
    rewrite Z.land_spec. destruct (Z.lt_ge_cases i 8).
    - rewrite !(Z.testbit_neg_r _ (i - 8)) by lia. by rewrite !andb_false_r.
    - rewrite <- (Z.shiftr_div_pow2 _ 8), Z.shiftr_spec by lia. do 2 f_equal. lia. }
  unfold scancode_of. destruct ext.
  - replace ((b + 0xe000) / 256) with 0xe0 by divlia. done.
  - by rewrite Z.div_small by done.
Qed.

(** * The modifier keys *)

(** The bit [m] of the status after the byte [b], with prefix 0xe0 or not, when it
    was [old]: make codes set, break codes clear, caps lock toggles.  The break
    code of a ctrl key also clears the bit of the alt key on the same side. *)
Definition key_bit (ext : bool) (b m : Z) (old : bool) : bool :=
  let ctrl := if ext then 4 else 1 in
  let alt := if ext then 5 else 2 in
  if decide ((b = 0x1d ∧ m = ctrl) ∨ (b = 0x38 ∧ m = alt) ∨ (b = 0x2a ∧ m = 0) ∨ (b = 0x36 ∧ m = 3))
  then true
  else if decide ((b = 0x9d ∧ (m = ctrl ∨ m = alt)) ∨ (b = 0xb8 ∧ m = alt) ∨
                  (b = 0xaa ∧ m = 0) ∨ (b = 0xb6 ∧ m = 3)) then false
  else if decide (b = 0x3a ∧ m = 6) then negb old else old.

Ltac key_bits :=
  unfold status_bit, set_status; cbn [g_key_status];
  rewrite ?set_bit_spec, ?clear_bit_spec by lia;
  unfold key_bit; repeat case_decide; repeat case_bool_decide; subst; try lia;
  simpl; rewrite ?orb_true_r, ?andb_true_r; done.

Lemma modifiers_spec s ext b m : 0 ≤ b < 256 → 0 ≤ m < 8 →
  status_bit (modifiers s (scancode_of ext b)) m = key_bit ext b m (status_bit s m).
Proof.
  intros Hb Hm. unfold modifiers, alt_break. rewrite scancode_low, !scancode_high by done.
  rewrite negb_involutive.
  unfold ctrl_l_make, alt_l_make, shift_l_make, shift_r_make, caps_lock_make, ctrl_l_break,
    alt_l_break, shift_l_break, shift_r_break.
  destruct (Z.eqb_spec b 0x1d); [subst b; destruct ext; key_bits|].
  destruct (Z.eqb_spec b 0x38); [subst b; destruct ext; key_bits|].
  destruct (Z.eqb_spec b 0x2a); [subst b; key_bits|].
  destruct (Z.eqb_spec b 0x36); [subst b; key_bits|].
  destruct (Z.eqb_spec b 0x3a).
  { subst b. change (Z.land (g_key_status s) 0x40) with (Z.land (g_key_status s) (Z.shiftl 1 6)).
    rewrite (land_bit (g_key_status s) 6), negb_involutive by lia.
    destruct (Z.testbit (g_key_status s) 6) eqn:E6; unfold status_bit, set_status; cbn [g_key_status];
      rewrite ?set_bit_spec, ?clear_bit_spec by lia; unfold key_bit; repeat case_decide;
      repeat case_bool_decide; subst; try lia; rewrite ?E6; done. }
  destruct (Z.eqb_spec b 0x9d); [subst b; destruct ext; key_bits|].
  destruct (Z.eqb_spec b 0xb8); [subst b; destruct ext; key_bits|].
  destruct (Z.eqb_spec b 0xaa); [subst b; key_bits|].
  destruct (Z.eqb_spec b 0xb6); [subst b; key_bits|].
  key_bits.
Qed.

(** The status after a byte that is not the prefix: the prefix is used up. *)
Definition bit_after (s : kbd) (b m : Z) : bool :=
  key_bit (status_bit s 7) b m (if decide (m = 7) then false else status_bit s m).

(** The two cases of [keyboard_service] for such a byte. *)
Lemma keyboard_service_eq fuel s b : 0 ≤ b < 256 → b ≠ 0xe0 →
  ∃ s1, kb_kern s1 = kb_kern s ∧ kbd_buff s1 = kbd_buff s ∧ screen s1 = screen s ∧
    (∀ m, 0 ≤ m < 8 → status_bit s1 m = bit_after s b m) ∧
    keyboard_service fuel s b = if b <? 0x80 then key_output fuel s1 b (g_key_status s1) else Ok s1.
Proof.
  intros Hb Hne. unfold keyboard_service. rewrite (proj2 (Z.eqb_neq b 0xe0)) by done.
  change (Z.land (g_key_status s) 0x80) with (Z.land (g_key_status s) (Z.shiftl 1 7)).
  rewrite (land_bit (g_key_status s) 7), negb_involutive by lia. fold (status_bit s 7).
  assert (∀ s ext, kb_kern (modifiers s (scancode_of ext b)) = kb_kern s ∧
    kbd_buff (modifiers s (scancode_of ext b)) = kbd_buff s ∧
    screen (modifiers s (scancode_of ext b)) = screen s) as Hkeep.
  { intros s' ext. unfold modifiers, alt_break, set_status. repeat case_match; done. }
  assert (∀ ext, (Z.shiftr (Z.land (scancode_of ext b) 0x00ff) 7 =? 0) = (b <? 0x80)) as Hmake.
  { intros ext. rewrite scancode_low, Z.shiftr_div_pow2 by done. change (2 ^ 7) with 128.
    destruct (Z.ltb_spec b 128); [apply Z.eqb_eq|apply Z.eqb_neq]; divlia. }
  set (s0 := if status_bit s 7 then set_status s (CLEAR_BIT (g_key_status s) 7) else s).
  exists (modifiers s0 (scancode_of (status_bit s 7) b)).
  assert (∀ m, 0 ≤ m < 8 → status_bit s0 m = if decide (m = 7) then false else status_bit s m) as H0.
  { intros m Hm. subst s0. destruct (status_bit s 7) eqn:E7.
    - unfold status_bit, set_status. cbn [g_key_status]. rewrite clear_bit_spec by lia.
      case_bool_decide; case_decide; done.
    - case_decide; [by subst|done]. }
  split_and!; try (rewrite (proj1 (Hkeep _ _)) || rewrite (proj1 (proj2 (Hkeep _ _))) ||
    rewrite (proj2 (proj2 (Hkeep _ _)))); try (subst s0; by destruct (status_bit s 7)).
  - intros m Hm. rewrite modifiers_spec by done. unfold bit_after. by rewrite H0.
  - subst s0. unfold scancode_of in *. destruct (status_bit s 7).
    + rewrite (u16_small (b + 0xe000)) by lia. rewrite (Hmake true).
      pose proof (scancode_low true b Hb) as El. simpl in El. rewrite El, u8_small by done. done.
    + rewrite (Hmake false).
      pose proof (scancode_low false b Hb) as El. simpl in El. rewrite El, u8_small by done. done.
Qed.

(** * The character of a key *)

(** The character of the key at [key], shifted or not; caps lock swaps the two
    columns for every key, not only for the letters. *)
Definition key_char (key : Z) (shift caps : bool) : option Z :=
  '(a, b) ← keymap !! Z.to_nat key; Some (if xorb shift caps then b else a).

Lemma key_output_char s fuel key st :
  key_output fuel s key st =
    match key_char key (Z.testbit st 0 || Z.testbit st 3) (Z.testbit st 6) with
    | None => Fault
    | Some ch =>
        if ioq_full (kbd_buff s) then Ok s
        else
          let! (k, q, _) := ioq_putchar fuel (kb_kern s) (kbd_buff s) ch in
          Ok (Kbd k q (g_key_status s) (screen s ++ [ch]))
    end.
Proof.
  unfold key_output, key_char, keymap_at. rewrite !get_bit_spec by lia.
  destruct (keymap !! Z.to_nat key) as [[a b]|], (Z.testbit st 0), (Z.testbit st 3), (Z.testbit st 6);
    simpl; by destruct (ioq_full (kbd_buff s)).
Qed.

Lemma key_char_Some key shift caps : 0 ≤ key < 0x54 → is_Some (key_char key shift caps).
Proof.
  intros Hk. unfold key_char. destruct (lookup_lt_is_Some_2 keymap (Z.to_nat key)) as [[a b] E].
  { change (length keymap) with 84%nat. lia. }
  rewrite E. simpl. by eexists.
Qed.

Lemma key_char_None key shift caps : 0x54 ≤ key → key_char key shift caps = None.
Proof.
  intros Hk. unfold key_char. rewrite lookup_ge_None_2; [done|].
  change (length keymap) with 84%nat. lia.
Qed.

(** What a byte other than the prefix puts in the buffer. *)
Definition typed (s : kbd) (b : Z) (l : list Z) : list Z :=
  if decide (b < 0x80 ∧ length l ≠ 63%nat)
  then option_list (key_char b (bit_after s b 0 || bit_after s b 3) (bit_after s b 6)) else [].

Lemma keyboard_service_types fuel s b l :
  0 ≤ b < 256 → b ≠ 0xe0 → b < 0x54 ∨ 0x80 ≤ b → intr_on (kb_kern s) = false →
  ring_repr (kbd_buff s) l → consumer (kbd_buff s) = NULL →
  ∃ s', keyboard_service fuel s b = Ok s' ∧
    ring_repr (kbd_buff s') (l ++ typed s b l) ∧ screen s' = screen s ++ typed s b l ∧
    (b < 0x80 → length l ≠ 63%nat → length (typed s b l) = 1%nat) ∧
    kb_kern s' = kb_kern s ∧ consumer (kbd_buff s') = NULL ∧
    producer (kbd_buff s') = producer (kbd_buff s).
Proof.
  intros Hb He Hrange Hoff Hq Hc. unfold typed.
  destruct (keyboard_service_eq fuel s b Hb He) as (s1 & Ek & Eb & Es & Hst & Eq). rewrite Eq.
  destruct (Z.ltb_spec b 0x80).
  2:{ exists s1. rewrite decide_False by lia. simpl. rewrite Eb, Es, !app_nil_r.
      split_and!; (done || lia || congruence). }
  rewrite key_output_char. fold (status_bit s1 0) (status_bit s1 3) (status_bit s1 6).
  rewrite !Hst by lia.
  destruct (key_char_Some b (bit_after s b 0 || bit_after s b 3) (bit_after s b 6)) as [ch Ech]; [lia|].
  rewrite Ech, Eb, (ring_full _ _ Hq). case_bool_decide as Hl.
  - exists s1. rewrite decide_False by (by intros [_ ?]). simpl. rewrite Eb, Es, !app_nil_r. by split_and!.
  - rewrite decide_True by done. simpl. rewrite Ek.
    destruct (putchar_ready fuel (kb_kern s) Hoff (kbd_buff s) ch l Hq Hl Hc) as (q' & E & Hq' & _ & Ep & Ec).
    rewrite E. simpl. eexists. split; [done|]. simpl. rewrite Es. by split_and!.
Qed.

(** * Properties *)

(** Scan codes are handled as the modifier table says: a byte other than the
    prefix, of which the service returns, leaves in the status byte exactly the bits of
    [key_bit], and the prefix is used up; the prefix itself sets bit 7 and
    nothing else.  Releasing a ctrl key also clears alt. *)
Theorem keyboard_status (fuel : nat) (s s' : kbd) (b m : Z) :
  0 ≤ b < 256 → 0 ≤ m < 8 → keyboard_service fuel s b = Ok s' →
  status_bit s' m =
    if decide (b = 0xe0) then bool_decide (m = 7) || status_bit s m
    else key_bit (status_bit s 7) b m (if decide (m = 7) then false else status_bit s m).
Proof.
  intros Hb Hm E. case_decide as He.
  - subst b. unfold keyboard_service in E. simpl in E. injection E as <-.
    unfold status_bit, set_status. cbn [g_key_status]. by apply set_bit_spec.
  - destruct (keyboard_service_eq fuel s b Hb He) as (s1 & Ek & Eb & Es & Hst & Eq).
    rewrite Eq in E. fold (bit_after s b m). rewrite <- Hst by done.
    destruct (b <? 0x80); [|by injection E as <-].
    rewrite key_output_char in E. destruct (key_char _ _ _) as [ch|]; [|done].
    destruct (ioq_full _); [by injection E as <-|]. okinv. by destruct r as [[k q] r]; simplify_eq.
Qed.

(** C27. A key typed: the make code of a key of [keymap] appends one character to
    the keyboard buffer and to the screen, the one in the shifted column when
    exactly one of shift and caps lock is on after the byte; when the buffer is
    full the key is dropped.  Break codes change neither. *)
Theorem keyboard_types (fuel : nat) (s : kbd) (b : Z) (l : list Z) :
  0 ≤ b < 256 → b ≠ 0xe0 → b < 0x54 ∨ 0x80 ≤ b → intr_on (kb_kern s) = false →
  ring_repr (kbd_buff s) l → consumer (kbd_buff s) = NULL →
  ∃ s', keyboard_service fuel s b = Ok s' ∧
    let typed := if decide (b < 0x80 ∧ length l ≠ 63%nat)
      then option_list (key_char b (bit_after s b 0 || bit_after s b 3) (bit_after s b 6)) else [] in
    ring_repr (kbd_buff s') (l ++ typed) ∧ screen s' = screen s ++ typed ∧
    (b < 0x80 → length l ≠ 63%nat → length typed = 1%nat).
Proof.
  intros Hb He Hrange Hoff Hq Hc.
  destruct (keyboard_service_types fuel s b l Hb He Hrange Hoff Hq Hc) as (s' & ? & ? & ? & ? & _). by exists s'.
Qed.

(** The make codes 0x54 to 0x7f (among them those of F11 and F12) read past
    the end of [keymap]. *)
Theorem keyboard_overrun (fuel : nat) (s : kbd) (b : Z) :
  0x54 ≤ b < 0x80 → keyboard_service fuel s b = Fault.
Proof.
  intros Hb. destruct (keyboard_service_eq fuel s b) as (s1 & _ & _ & _ & _ & Eq); [lia..|].
  rewrite Eq, (proj2 (Z.ltb_lt b 0x80)) by lia. by rewrite key_output_char, key_char_None by lia.
Qed.

(** ** Witnesses *)

Definition demo_kbd (st : Z) : kbd :=
  Kbd (set_intr demo_kstate false) (ioqueue_init (replicate 64 0)) st [].

(** Left ctrl and alt are down; ctrl is released: alt is up too. *)
Lemma keyboard_status_witness :
  ∃ s', keyboard_service 3 (demo_kbd 6) 0x9d = Ok s' ∧ status_bit (demo_kbd 6) 2 = true ∧
    status_bit s' 2 = false.
Proof.
  exists (Kbd (set_intr demo_kstate false) (ioqueue_init (replicate 64 0)) 0 []).
  split_and!; [by vm_compute|done|].
  rewrite (keyboard_status 3 (demo_kbd 6) (Kbd (set_intr demo_kstate false)
    (ioqueue_init (replicate 64 0)) 0 []) 0x9d 2); [done|lia|lia|by vm_compute].
Defined.

(** Caps lock is on and shift is pressed: the digit key gives a digit. *)
Lemma keyboard_types_witness :
  ∃ s', keyboard_service 3 (demo_kbd 0x41) 0x02 = Ok s' ∧ ring_repr (kbd_buff s') [49] ∧
    screen s' = [49] ∧ (0x02 < 0x80 → 0%nat ≠ 63%nat → 1%nat = 1%nat).
Proof.
  apply (keyboard_types 3 (demo_kbd 0x41) 0x02 []);
    [lia|lia|by left|done|by apply ioqueue_init_repr|done].
Defined.

Lemma keyboard_overrun_witness : keyboard_service 3 (demo_kbd 0) 0x57 = Fault.
Proof. apply (keyboard_overrun 3 (demo_kbd 0) 0x57). lia. Defined.
