(* ===== verification/Desc.v ===== *)
(** Tables the processor reads: segment descriptors and the task state segment
    (userprog/tss.c), interrupt gates, the handler table and the interrupt
    controllers (kernel/interrupt.c). *)
From Stdlib Require Export String.
From S2P Require Import Prelude.
Local Open Scope Z_scope.

(** * Segment descriptors *)

(** [struct gdt_desc] *)
Record gdt_desc := GdtDesc {
  limit_low_16 : Z;
  base_low_16 : Z;
  base_mid_8 : Z;
  attr_low_8 : Z;
  limit_high_attr_high_8 : Z;
  base_high_8 : Z
}.

Definition creat_gdt_desc (desc_addr limit attr_low attr_high : Z) : gdt_desc :=
  let desc_base := desc_addr in
  GdtDesc
    (u16 (Z.land limit 0x0000ffff))
    (u16 (Z.land desc_base 0x0000ffff))
    (u8 (Z.shiftr (Z.land desc_base 0x00ff0000) 16))
    (u8 attr_low)
    (u8 (Z.shiftr (Z.land limit 0x000f0000) 16 + u8 attr_high))
    (u8 (Z.shiftr desc_base 24)).

(** The attributes of include/os/global.h. *)
Definition GDT_ATTR_HIGH : Z :=
  Z.shiftl 1 7 + Z.shiftl 1 6 + Z.shiftl 0 5 + Z.shiftl 0 4.
Definition GDT_CODE_ATTR_LOW_DPL3 : Z :=
  Z.shiftl 1 7 + Z.shiftl 3 5 + Z.shiftl 1 4 + 8.
Definition GDT_DATA_ATTR_LOW_DPL3 : Z :=
  Z.shiftl 1 7 + Z.shiftl 3 5 + Z.shiftl 1 4 + 2.
Definition TSS_ATTR_HIGH : Z :=
  Z.shiftl 1 7 + Z.shiftl 0 6 + Z.shiftl 0 5 + Z.shiftl 0 4 + 0x0.
Definition TSS_ATTR_LOW : Z :=
  Z.shiftl 1 7 + Z.shiftl 0 5 + Z.shiftl 0 4 + 9.
Definition SELECTOR_K_CODE : Z := Z.shiftl 1 3 + Z.shiftl 0 2 + 0.
Definition SELECTOR_K_STACK : Z := Z.shiftl 2 3 + Z.shiftl 0 2 + 0.

(** [struct tss], as the list of its words in the order of its fields; the kernel sets
    these three. *)
Definition esp0 : nat := 1.
Definition ss0 : nat := 2.
Definition io_base : nat := 26.
Definition tss_words : nat := 27.
Definition sizeof_tss : Z := 4 * Z.of_nat tss_words.

Definition set_tss_esp0 (ptask : Z) (t : list Z) : list Z := <[esp0 := u32 (ptask + 4096)]> t.

(** [tss_init], with the variable [tss] at [tss_addr]: the structure, the
    descriptors stored at 0xc0000920, 0xc0000928 and 0xc0000930, and the operand of
    [lgdt]. *)
Definition tss_init (tss_addr : Z) : list Z * list gdt_desc * Z :=
  let tss_size := sizeof_tss in
  let tss := replicate tss_words 0 in
  let tss := <[ss0 := SELECTOR_K_STACK]> tss in
  let tss := <[io_base := tss_size]> tss in
  let descs :=
    [creat_gdt_desc tss_addr (tss_size - 1) TSS_ATTR_LOW TSS_ATTR_HIGH;
     creat_gdt_desc 0 0xfffff GDT_CODE_ATTR_LOW_DPL3 GDT_ATTR_HIGH;
     creat_gdt_desc 0 0xfffff GDT_DATA_ATTR_LOW_DPL3 GDT_ATTR_HIGH] in
  let gdt_addr := Z.lor (8 * 7 - 1) (u64 (Z.shiftl 0xc0000900 16)) in
  (tss, descs, gdt_addr).

(** The descriptor of the task state segment. *)
Definition tss_desc (tss_addr : Z) : gdt_desc :=
  creat_gdt_desc tss_addr (sizeof_tss - 1) TSS_ATTR_LOW TSS_ATTR_HIGH.

(** ** What the processor reads in a descriptor *)

Definition seg_base (d : gdt_desc) : Z :=
  base_low_16 d + 65536 * base_mid_8 d + 16777216 * base_high_8 d.
Definition seg_limit (d : gdt_desc) : Z :=
  limit_low_16 d + 65536 * (limit_high_attr_high_8 d mod 16).
Definition seg_access (d : gdt_desc) : Z := attr_low_8 d.
Definition seg_flags (d : gdt_desc) : Z := limit_high_attr_high_8 d / 16 * 16.
(** The offset of the last byte: with the G flag the limit counts 4 KB units. *)
Definition seg_last (d : gdt_desc) : Z :=
  if Z.testbit (seg_flags d) 7 then seg_limit d * 4096 + 4095 else seg_limit d.

(** How the processor decides whether code of ring 3 may access the byte at
    [port], its I/O privilege level being 0: the 16-bit field at offset 102 of the
    task state segment is the offset of a bitmap in the segment, a clear bit
    permits the access, and both the byte of the bit and the next must be inside
    the segment.  [None]: the bit is outside [struct tss]. *)
Definition io_map (t : list Z) : Z := Z.shiftr (default 0 (t !! 25%nat)) 16.
Definition io_allowed (t : list Z) (d : gdt_desc) (port : Z) : option bool :=
  if seg_last d <? io_map t + port / 8 + 1 then Some false
  else let bit := 8 * io_map t + port in
    t !! Z.to_nat (bit / 32) ≫= λ w, Some (negb (Z.testbit w (bit mod 32))).

(** * Interrupt gates *)

Definition IDT_DESC_CNT : Z := 0x81.
Definition SYSCALL_NUMBER : Z := 0x80.
Definition IDT_ATTR_DPL0 : Z := Z.shiftl 1 7 + Z.shiftl 0 5 + Z.shiftl 0 4 + 0xe.
Definition IDT_ATTR_DPL3 : Z := Z.shiftl 1 7 + Z.shiftl 3 5 + Z.shiftl 0 4 + 0xe.

(** [struct gate_descr] *)
Record gate_descr := GateDescr {
  func_offest_low_word : Z;
  selector : Z;
  dcount : Z;
  attribute : Z;
  func_offest_high_word : Z
}.

Definition create_idt_desc (attr intr_func : Z) : gate_descr :=
  GateDescr (u16 (Z.land intr_func 0x0000ffff)) SELECTOR_K_CODE 0 (u8 attr)
    (u16 (Z.shiftr (Z.land intr_func 0xffff0000) 16)).

(** Entry point and privilege level of a gate. *)
Definition gate_offset (g : gate_descr) : Z :=
  func_offest_low_word g + 65536 * func_offest_high_word g.
Definition gate_dpl (g : gate_descr) : Z := attribute g / 32 mod 4.

Section interrupts.
(** The assembly of kernel/interrupt_s.S: the entry of each vector, and of the
    system calls; and the address of [ignore_intr_handler]. *)
Variable intr_entry_table : Z → Z.
Variable syscall_handler ignore_intr_handler : Z.

(** [idt_init], as the loop over the vectors and the system call gate. *)
Definition idt_init (idt : list gate_descr) : list gate_descr :=
  let idt := for_range 0 (Z.to_nat IDT_DESC_CNT) (λ i idt,
    <[Z.to_nat i := create_idt_desc IDT_ATTR_DPL0 (intr_entry_table i)]> idt) idt in
  <[Z.to_nat SYSCALL_NUMBER := create_idt_desc IDT_ATTR_DPL3 syscall_handler]> idt.

(** The names [trap_init] gives to some vectors. *)
Definition trap_names : list (Z * string) :=
  [(0, "#DE Divide Error"%string);
   (1, "#DB Debug Exception"%string);
   (2, "NMI Interrupt"%string);
   (3, "#BP Breakpoint Exception"%string);
   (4, "#OF Overflow Exception"%string);
   (5, "#BR BOUND Range Exceeded Exception"%string);
   (6, "#UD Invalid Opcode Exception"%string);
   (7, "#NM Device Not Available Exception"%string);
   (8, "#DF Double Fault Exception"%string);
   (9, "Coprocessor Segment Overrun"%string);
   (10, "#TS Invalid TSS Exception"%string);
   (11, "#NP Segment Not Present"%string);
   (12, "#SS Stack Fault Exception"%string);
   (13, "#GP General Protection Exception"%string);
   (14, "#PF Page-Fault Exception"%string);
   (16, "#MF x87 FPU Floating-Point Error"%string);
   (17, "#AC Alignment Check Exception"%string);
   (18, "#MC Machine-Check Exception"%string);
   (19, "#XF SIMD Floating-Point Exception"%string);
   (0x20, "clock Interrupt"%string);
   (0x21, "keyboard Interrupt"%string)].

(** [trap_init]: the tables of handlers and of names. *)
Definition trap_init (irqaction_t : list Z) (trap_name : list string) : list Z * list string :=
  let '(irqaction_t, trap_name) := for_range 0 (Z.to_nat IDT_DESC_CNT) (λ i '(t, names),
    (<[Z.to_nat i := ignore_intr_handler]> t,
     <[Z.to_nat i := "Unknow interrupt"%string]> names)) (irqaction_t, trap_name) in
  (irqaction_t, foldl (λ names e, <[Z.to_nat e.1 := e.2]> names) trap_name trap_names).

(** [register_irq_handler]; the table is indexed without a check. *)
Definition register_irq_handler (irqaction_t : list Z) (vector_no handler : Z) : outcome (list Z) :=
  ASSERT (negb (handler =? NULL)) ;!
  match irqaction_t !! Z.to_nat (u8 vector_no) with
  | Some _ => Ok (<[Z.to_nat (u8 vector_no) := handler]> irqaction_t)
  | None => Fault
  end.

(** The operand of [lidt] for the table at [idt]. *)
Definition idt_addr (idt : Z) : Z := Z.lor (8 * IDT_DESC_CNT - 1) (u64 (Z.shiftl idt 16)).
End interrupts.

(** What the function [ignore_intr_handler] does: [None] if it returns, else what it
    prints before it loops for ever.  [cr2] is the address of a page fault. *)
Inductive printed :=
  | put_char (c : string)
  | put_hex (n : Z)
  | put_str (s : string).

Definition ignored (trap_name : list string) (cr2 ver_n : Z) : outcome (option (list printed)) :=
  if (ver_n =? 0x27) || (ver_n =? 0x2f) then Ok None
  else
    let fault := if ver_n =? 14 then [put_str "
Page Fault CR2: 0x"%string; put_hex cr2] else [] in
    match trap_name !! Z.to_nat ver_n with
    | Some name => Ok (Some (fault ++ [put_char "
"%string; put_hex ver_n; put_str name]))
    | None => Fault
    end.

(** [pic_8259A_init]: the bytes written, with their ports. *)
Definition pic_8259A_init : list (Z * Z) :=
  [(0x20, 0x11); (0x21, 0x20); (0x21, 0x04); (0x21, 0x01);
   (0xa0, 0x11); (0xa1, 0x28); (0xa1, 0x02); (0xa1, 0x01);
   (0x21, 0xf8); (0xa1, 0xbf)].

(** The vectors of the interrupt lines, 0 to 7 on the first controller and 8 to
    15 on the second, which is attached to line 2: the second byte after 0x11 is the
    base vector, the last byte the mask.  This is the documented behaviour of
    the 8259A. *)
Definition bytes_to (port : Z) (out : list (Z * Z)) : list Z := snd <$> filter (λ p, p.1 = port) out.
Definition pic_vector (out : list (Z * Z)) (line : Z) : option Z :=
  match bytes_to 0x21 out, bytes_to 0xa1 out with
  | [mbase; _; _; mmask], [sbase; _; _; smask] =>
      if line <? 8 then if Z.testbit mmask line then None else Some (mbase + line)
      else if Z.testbit mmask 2 || Z.testbit smask (line - 8) then None
      else Some (sbase + (line - 8))
  | _, _ => None
  end.

(** What the kernel means to receive: the clock, the keyboard and the disk. *)
Definition delivered (line : Z) : option Z :=
  if decide (line = 0) then Some 0x20 else if decide (line = 1) then Some 0x21
  else if decide (line = 14) then Some 0x2e else None.

(** The name of a vector, after [trap_init]. *)
Definition name_of (i : Z) : string :=
  match filter (λ e, e.1 = i) trap_names with
  | e :: _ => e.2
  | [] => "Unknow interrupt"%string
  end.

(** * Lemmas *)

Lemma land_low a n : 0 ≤ n → Z.land a (2 ^ n - 1) = a mod 2 ^ n.
Proof. apply land_ones_mod. Qed.

(** A field of [w] bits starting at bit [n]. *)
Lemma field a n w : 0 ≤ n → 0 ≤ w →
  Z.shiftr (Z.land a (Z.shiftl (2 ^ w - 1) n)) n = a / 2 ^ n mod 2 ^ w.
Proof.
  intros Hn Hw. rewrite <- land_ones_mod, <- Z.shiftr_div_pow2 by done.
  apply Z.bits_inj_iff'. intros i Hi.
  rewrite Z.shiftr_spec, !Z.land_spec, Z.shiftl_spec, Z.shiftr_spec by lia.
  by replace (i + n - n) with i by lia.
Qed.

Lemma creat_gdt_desc_eq base limit lo hi :
  0 ≤ base < 4294967296 → 0 ≤ limit < 1048576 → 0 ≤ lo < 256 → 0 ≤ hi < 16 →
  creat_gdt_desc base limit lo (16 * hi) =
    GdtDesc (limit mod 65536) (base mod 65536) (base / 65536 mod 256) lo
      (limit / 65536 + 16 * hi) (base / 16777216).
Proof.
  intros Hb Hl Hlo Hhi. unfold creat_gdt_desc.
  change 0x0000ffff with (2 ^ 16 - 1). change 0x00ff0000 with (Z.shiftl (2 ^ 8 - 1) 16).
  change 0x000f0000 with (Z.shiftl (2 ^ 4 - 1) 16).
  rewrite !land_low, !field by lia. change (2 ^ 16) with 65536. change (2 ^ 8) with 256.
  change (2 ^ 4) with 16. rewrite Z.shiftr_div_pow2 by lia. change (2 ^ 24) with 16777216.
  assert (limit / 65536 mod 16 = limit / 65536) as -> by divlia.
  rewrite (u8_small (16 * hi)) by lia. f_equal.
  - apply u16_small. divlia.
  - apply u16_small. divlia.
  - apply u8_small. divlia.
  - by apply u8_small.
  - apply u8_small. divlia.
  - apply u8_small. divlia.
Qed.

Lemma gate_offset_eq attr f : 0 ≤ f < 4294967296 → gate_offset (create_idt_desc attr f) = f.
Proof.
  intros Hf. unfold gate_offset. simpl.
  change 65535 with (2 ^ 16 - 1). change 4294901760 with (Z.shiftl (2 ^ 16 - 1) 16).
  rewrite land_low, field by lia. change (2 ^ 16) with 65536.
  rewrite !u16_small by divlia. divlia.
Qed.

Lemma creat_gdt_desc_reads base limit lo hi :
  0 ≤ base < 4294967296 → 0 ≤ limit < 1048576 → 0 ≤ lo < 256 → 0 ≤ hi < 16 →
  let d := creat_gdt_desc base limit lo (16 * hi) in
  seg_base d = base ∧ seg_limit d = limit ∧ seg_access d = lo ∧ seg_flags d = 16 * hi.
Proof.
  intros Hb Hl Hlo Hhi. cbv zeta. rewrite creat_gdt_desc_eq by done.
  unfold seg_base, seg_limit, seg_access, seg_flags. simpl.
  split_and!; [divlia|divlia|done|divlia].
Qed.

Lemma tss_desc_reads tss_addr : 0 ≤ tss_addr < 4294967296 →
  let d := tss_desc tss_addr in
  seg_base d = tss_addr ∧ seg_limit d = 107 ∧ seg_last d = 108 * 4096 - 1.
Proof.
  intros Ht. cbv zeta.
  destruct (creat_gdt_desc_reads tss_addr 107 137 8) as (Hb & Hl & _ & Hf); [done|lia|lia|lia|].
  change (creat_gdt_desc tss_addr 107 137 (16 * 8)) with (tss_desc tss_addr) in *.
  unfold seg_last. rewrite Hb, Hf, Hl. done.
Qed.

Lemma io_allowed_word tss_addr ptask port :
  0 ≤ tss_addr < 4294967296 → 0 ≤ port < 864 →
  let t := set_tss_esp0 ptask (fst (fst (tss_init tss_addr))) in
  io_allowed t (tss_desc tss_addr) port =
    (t !! Z.to_nat (port / 32) ≫= λ w, Some (negb (Z.testbit w (port mod 32)))).
Proof.
  intros Ht Hp. cbv zeta. destruct (tss_desc_reads tss_addr Ht) as (_ & _ & Hlast).
  unfold io_allowed. rewrite Hlast.
  change (io_map (set_tss_esp0 ptask (fst (fst (tss_init tss_addr))))) with 0.
  rewrite (proj2 (Z.ltb_ge _ _)) by divlia. done.
Qed.

(** The bits of [esp0] the stack of a page sets, and the others. *)
Lemma esp0_ports tss_addr ptask port :
  0 ≤ ptask < 4294963200 → 44 ≤ port < 44 + 20 →
  (set_tss_esp0 ptask (fst (fst (tss_init tss_addr))) !! Z.to_nat (port / 32) ≫=
    λ w, Some (negb (Z.testbit w (port mod 32)))) =
  Some (bool_decide (port ≠ 68 ∧ (port ∉ [834; 835; 837; 838]) ∧
    ¬ (44 ≤ port < 64 ∧ Z.testbit (ptask + 4096) (port - 32) = true))).
Proof.
  intros Hp Hport. assert (port / 32 = 1) as -> by divlia.
  assert (port mod 32 = port - 32) as -> by divlia.
  change (set_tss_esp0 ptask (fst (fst (tss_init tss_addr))) !! Z.to_nat 1) with (Some (u32 (ptask + 4096))).
  cbn [mbind option_bind]. rewrite u32_small by lia. f_equal.
  assert (port ∉ [834; 835; 837; 838]) by (rewrite !not_elem_of_cons, elem_of_nil; lia).
  destruct (Z.testbit _ _); symmetry.
  - apply bool_decide_eq_false. intros (_ & _ & []). split; [lia|done].
  - apply bool_decide_eq_true. split_and!; [lia|done|]. by intros [_ ?].
Qed.

Lemma other_ports tss_addr ptask port :
  0 ≤ ptask < 4294963200 → ptask mod 4096 = 0 → 0 ≤ port < 864 → port ∉ seqZ 44 20 →
  (set_tss_esp0 ptask (fst (fst (tss_init tss_addr))) !! Z.to_nat (port / 32) ≫=
    λ w, Some (negb (Z.testbit w (port mod 32)))) = Some (bool_decide (port ∉ [68; 834; 835; 837; 838])).
Proof.
  intros Hp Hal Hport Hne. destruct (decide (32 ≤ port < 44)) as [Hesp|Hesp].
  - assert (port / 32 = 1) as -> by divlia. assert (port mod 32 = port - 32) as -> by divlia.
    change (set_tss_esp0 ptask (fst (fst (tss_init tss_addr))) !! Z.to_nat 1)
      with (Some (u32 (ptask + 4096))).
    cbn [mbind option_bind]. rewrite u32_small by lia.
    replace (ptask + 4096) with ((ptask / 4096 + 1) * 2 ^ 12) by divlia.
    rewrite Z.mul_pow2_bits_low by lia. f_equal. symmetry. apply bool_decide_eq_true.
    rewrite !not_elem_of_cons, elem_of_nil. lia.
  - assert (port / 32 ≠ 1) as Hw.
    { intros E. apply Hne, elem_of_seqZ. divlia. }
    unfold set_tss_esp0, esp0. rewrite list_lookup_insert_ne by divlia.
    change (fst (fst (tss_init tss_addr))) with (fst (fst (tss_init 0))).
    assert (port ∈ seqZ 0 864) as Hin by (apply elem_of_seqZ; lia). clear - Hin.
    revert port Hin. apply Forall_forall. apply (bool_decide_unpack _). by vm_compute.
Qed.

(** A loop that fills a table. *)
Lemma fill_table_spec {A} (f : Z → A) n (l : list A) : (n ≤ length l)%nat →
  let l' := for_range 0 n (λ i l, <[Z.to_nat i := f i]> l) l in
  length l' = length l ∧ ∀ i, 0 ≤ i < Z.of_nat n → l' !! Z.to_nat i = Some (f i).
Proof.
  intros Hn l'. subst l'.
  pose proof (for_range_inv (λ k l', length l' = length l ∧
    ∀ i, 0 ≤ i < k → l' !! Z.to_nat i = Some (f i)) 0 n (λ i l, <[Z.to_nat i := f i]> l) l) as H.
  rewrite Z.add_0_l in H. apply H.
  - split; [done|lia].
  - intros k l1 Hk [Hlen Hl1]. rewrite length_insert. split; [done|]. intros i Hi.
    destruct (decide (i = k)) as [->|].
    + apply list_lookup_insert_eq. lia.
    + rewrite list_lookup_insert_ne by lia. apply Hl1. lia.
Qed.

Lemma for_range_pair {A B} (f : Z → A → A) (g : Z → B → B) lo n a b :
  for_range lo n (λ i '(a, b), (f i a, g i b)) (a, b) = (for_range lo n f a, for_range lo n g b).
Proof. revert lo a b. induction n as [|n IH]; intros lo a b; [done|]. apply IH. Qed.

Lemma trap_init_spec ignore acts names :
  length acts = 129%nat → length names = 129%nat →
  let '(acts', names') := trap_init ignore acts names in
  length acts' = 129%nat ∧ length names' = 129%nat ∧
  ∀ i, 0 ≤ i < 129 → acts' !! Z.to_nat i = Some ignore ∧ names' !! Z.to_nat i = Some (name_of i).
Proof.
  intros Hacts Hnames. unfold trap_init, IDT_DESC_CNT. rewrite for_range_pair.
  destruct (fill_table_spec (λ _, ignore) (Z.to_nat 0x81) acts) as [Ha1 Ha2]; [lia|].
  destruct (fill_table_spec (λ _, "Unknow interrupt"%string) (Z.to_nat 0x81) names)
    as [Hn1 Hn2]; [lia|].
  assert (for_range 0 (Z.to_nat 129) (λ i l, <[Z.to_nat i := "Unknow interrupt"%string]> l) names =
    replicate 129 "Unknow interrupt"%string) as ->.
  { eapply list_eq_same_length; [reflexivity|by rewrite Hn1, Hnames|]. intros i x y Hi.
    rewrite ?length_replicate in Hi. specialize (Hn2 (Z.of_nat i)). rewrite Nat2Z.id in Hn2. rewrite Hn2 by lia.
    rewrite lookup_replicate_2 by lia. congruence. }
  rewrite Ha1. split_and!; [done|done|]. intros i Hi. split; [apply Ha2; lia|].
  assert (i ∈ seqZ 0 129) as Hin by (apply elem_of_seqZ; lia). clear - Hin.
  revert i Hin. apply Forall_forall. apply (bool_decide_unpack _). by vm_compute.
Qed.

Lemma register_spec acts ignore vector handler :
  handler ≠ NULL → 0 ≤ vector < 256 → length acts = 129%nat →
  (∀ i, 0 ≤ i < 129 → acts !! Z.to_nat i = Some ignore) →
  if decide (vector < 0x81)
  then ∃ acts', register_irq_handler acts vector handler = Ok acts' ∧
    ∀ i, 0 ≤ i < 0x81 → acts' !! Z.to_nat i = Some (if decide (i = vector) then handler else ignore)
  else register_irq_handler acts vector handler = Fault.
Proof.
  intros Hh Hv Hlen Hall. unfold register_irq_handler.
  rewrite ASSERT_true by (by rewrite (proj2 (Z.eqb_neq _ _))).
  cbn [obind]. rewrite (u8_small vector) by done. case_decide.
  - rewrite Hall by lia. eexists. split; [done|]. intros i Hi.
    case_decide; [subst; apply list_lookup_insert_eq; lia|].
    rewrite list_lookup_insert_ne by lia. by apply Hall.
  - by rewrite lookup_ge_None_2 by lia.
Qed.

Lemma ignored_spec names cr2 i name : names !! Z.to_nat i = Some name →
  ignored names cr2 i =
    if decide (i = 0x27 ∨ i = 0x2f) then Ok None
    else Ok (Some ((if decide (i = 14) then [put_str "
Page Fault CR2: 0x"%string; put_hex cr2] else []) ++ [put_char "
"%string; put_hex i; put_str name])).
Proof.
  intros Hn. unfold ignored. rewrite Hn.
  destruct (Z.eqb_spec i 0x27), (Z.eqb_spec i 0x2f), (Z.eqb_spec i 14);
    repeat case_decide; cbn [orb]; first [reflexivity | lia].
Qed.

Lemma idt_init_spec entry syscall idt i :
  (∀ i, 0 ≤ i < 0x81 → 0 ≤ entry i < 4294967296) → 0 ≤ syscall < 4294967296 → length idt = 129%nat →
  0 ≤ i < 0x81 → ∃ g, idt_init entry syscall idt !! Z.to_nat i = Some g ∧
    gate_offset g = (if decide (i = 0x80) then syscall else entry i) ∧
    gate_dpl g = (if decide (i = 0x80) then 3 else 0).
Proof.
  intros Hentry Hsys Hidt Hi. unfold idt_init, IDT_DESC_CNT, SYSCALL_NUMBER.
  destruct (fill_table_spec (λ i, create_idt_desc IDT_ATTR_DPL0 (entry i)) (Z.to_nat 0x81) idt)
    as [Hlen Hl]; [lia|].
  case_decide as E.
  - subst i. rewrite list_lookup_insert_eq by lia. eexists. split_and!; [done| |done].
    by apply gate_offset_eq.
  - rewrite list_lookup_insert_ne by lia. rewrite Hl by lia. eexists. split_and!; [done| |done].
    apply gate_offset_eq. by apply Hentry.
Qed.

Lemma lines_delivered :
  Forall (λ line, line ≠ 2 → pic_vector pic_8259A_init line = delivered line) (seqZ 0 16).
Proof. apply (bool_decide_unpack _). by vm_compute. Qed.

(** * Properties *)

(** C35. The processor reads in a descriptor built by [creat_gdt_desc] the base,
    the 20-bit limit and the attributes it was built from; in particular
    [tss_init] makes the user segments cover the whole address space and the
    task state segment start at its variable -- but with the G flag its limit of
    107 counts pages, so the segment is 108 pages long instead of 108 bytes. *)
Theorem segment_descriptors (base limit lo hi tss_addr : Z) :
  0 ≤ base < 4294967296 → 0 ≤ limit < 1048576 → 0 ≤ lo < 256 → 0 ≤ hi < 16 →
  0 ≤ tss_addr < 4294967296 →
  (let d := creat_gdt_desc base limit lo (16 * hi) in
   seg_base d = base ∧ seg_limit d = limit ∧ seg_access d = lo ∧ seg_flags d = 16 * hi) ∧
  ∃ t c d, snd (fst (tss_init tss_addr)) = [t; c; d] ∧
    seg_base t = tss_addr ∧ seg_limit t = 107 ∧ seg_last t = 108 * 4096 - 1 ∧
    seg_base c = 0 ∧ seg_last c = 4294967295 ∧ seg_base d = 0 ∧ seg_last d = 4294967295 ∧
    snd (tss_init tss_addr) = 0xc0000900 * 65536 + 55.
Proof.
  intros Hb Hl Hlo Hhi Ht. split; [by apply creat_gdt_desc_reads|].
  destruct (tss_desc_reads tss_addr Ht) as (? & ? & ?).
  eexists _, _, _. split; [reflexivity|]. split_and!; first [assumption | reflexivity].
Qed.

(** A user program may access the ports of the devices: [tss_init] stores the
    size of the structure in [io_base], at offset 104, but the processor takes
    the offset of the permission bitmap from the upper half of [trace], which is 0, so
    the fields of [struct tss] are the bitmap.  Of the ports whose bits are in the
    structure, just port 68, four from 834 on, and those of the bits of [esp0]
    that are set (none below 44) are denied; the interrupt controllers,
    the timer, the keyboard and the disk are all permitted. *)
Theorem user_port_access (tss_addr ptask port : Z) :
  0 ≤ tss_addr < 4294967296 → 0 ≤ ptask < 4294963200 → ptask mod 4096 = 0 → 0 ≤ port < 864 →
  let t := set_tss_esp0 ptask (fst (fst (tss_init tss_addr))) in
  ∃ d, snd (fst (tss_init tss_addr)) !! 0%nat = Some d ∧
    io_allowed t d port = Some (bool_decide (port ≠ 68 ∧ (port ∉ [834; 835; 837; 838]) ∧
      ¬ (44 ≤ port < 64 ∧ Z.testbit (ptask + 4096) (port - 32) = true))) ∧
    Forall (λ p, io_allowed t d p = Some true)
      ([0x20; 0x21; 0xa0; 0xa1] ++ [0x40; 0x43] ++ [0x60; 0x64] ++ seqZ 0x1f0 8).
Proof.
  intros Ht Hp Hal Hport t. subst t.
  destruct (tss_desc_reads tss_addr Ht) as (_ & _ & Hlast).
  eexists. split; [reflexivity|].
  assert (∀ p, 0 ≤ p < 864 → p ∉ seqZ 44 20 → io_allowed (set_tss_esp0 ptask (fst (fst (tss_init tss_addr))))
      (tss_desc tss_addr) p = Some (bool_decide (p ∉ [68; 834; 835; 837; 838]))) as Hout.
  { intros p Hp0 Hp1. rewrite io_allowed_word by done. by apply other_ports. }
  split; [|apply Forall_forall; intros p Hin].
  - destruct (decide (port ∈ seqZ 44 20)) as [Hin%elem_of_seqZ|Hin].
    + rewrite io_allowed_word by done. by apply esp0_ports.
    + rewrite Hout by done. f_equal. apply bool_decide_ext.
      rewrite elem_of_seqZ in Hin. rewrite !not_elem_of_cons, !elem_of_nil. intuition lia.
  - assert (0 ≤ p < 864 ∧ (p ∉ seqZ 44 20) ∧ p ∉ [68; 834; 835; 837; 838]) as (? & ? & ?).
    { revert p Hin. apply Forall_forall. apply (bool_decide_unpack _). by vm_compute. }
    rewrite Hout by done. by rewrite bool_decide_true.
Qed.

(** Interrupt tables: after [idt_init] every vector below 0x80 leads to its
    entry in the assembly and can be used from ring 0 only, and vector 0x80 to
    the system call entry, from ring 3; [register_irq_handler] changes just the
    handler of its vector, all the others being [ignore_intr_handler] after
    [trap_init], and writes past the table for a vector above 0x80;
    [ignore_intr_handler] returns for the vectors 0x27 and 0x2f and otherwise
    prints the vector and its name and stops; and the controllers deliver the clock, the keyboard and the disk as vectors 0x20,
    0x21 and 0x2e, and no other device. *)
Theorem interrupt_tables (entry : Z → Z) (syscall ignore handler vector : Z)
    (idt : list gate_descr) (acts : list Z) (names : list string) (cr2 : Z) :
  (∀ i, 0 ≤ entry i < 4294967296) → 0 ≤ syscall < 4294967296 → handler ≠ NULL →
  0 ≤ vector < 256 → length idt = 129%nat → length acts = 129%nat → length names = 129%nat →
  (∀ i, 0 ≤ i < 0x81 → ∃ g, idt_init entry syscall idt !! Z.to_nat i = Some g ∧
     gate_offset g = (if decide (i = 0x80) then syscall else entry i) ∧
     gate_dpl g = (if decide (i = 0x80) then 3 else 0)) ∧
  (let '(acts, names) := trap_init ignore acts names in
   (if decide (vector < 0x81)
    then ∃ acts', register_irq_handler acts vector handler = Ok acts' ∧
      ∀ i, 0 ≤ i < 0x81 → acts' !! Z.to_nat i = Some (if decide (i = vector) then handler else ignore)
    else register_irq_handler acts vector handler = Fault) ∧
   ∀ i, 0 ≤ i < 0x81 → ignored names cr2 i =
     if decide (i = 0x27 ∨ i = 0x2f) then Ok None
     else Ok (Some ((if decide (i = 14) then [put_str "
Page Fault CR2: 0x"%string; put_hex cr2] else []) ++ [put_char "
"%string; put_hex i; put_str (name_of i)]))) ∧
  (∀ line, 0 ≤ line < 16 → line ≠ 2 → pic_vector pic_8259A_init line =
     delivered line).
Proof.
  intros Hentry Hsys Hh Hv Hidt Hacts Hnames. split_and!.
  - intros i Hi. by apply idt_init_spec.
  - pose proof (trap_init_spec ignore acts names Hacts Hnames) as Hinit.
    destruct (trap_init ignore acts names) as [acts1 names1]. destruct Hinit as (Hlen & _ & Hall).
    split; [apply register_spec; [done..|]; by apply Hall|].
    intros i Hi. apply ignored_spec, Hall, Hi.
  - intros line Hline H2.
    apply (proj1 (Forall_forall _ _) lines_delivered); [|done].
    apply elem_of_seqZ. lia.
Qed.

(** ** Witnesses *)

Lemma segment_descriptors_witness :
  (let d := creat_gdt_desc 0x12345678 0xabcde 0xfa (16 * 12) in
   seg_base d = 0x12345678 ∧ seg_limit d = 0xabcde ∧ seg_access d = 0xfa ∧ seg_flags d = 16 * 12) ∧
  ∃ t c d, snd (fst (tss_init 0xc0012340)) = [t; c; d] ∧
    seg_base t = 0xc0012340 ∧ seg_limit t = 107 ∧ seg_last t = 108 * 4096 - 1 ∧
    seg_base c = 0 ∧ seg_last c = 4294967295 ∧ seg_base d = 0 ∧ seg_last d = 4294967295 ∧
    snd (tss_init 0xc0012340) = 0xc0000900 * 65536 + 55.
Proof. apply (segment_descriptors 0x12345678 0xabcde 0xfa 12 0xc0012340); lia. Defined.

Lemma user_port_access_witness :
  let t := set_tss_esp0 0xc0100000 (fst (fst (tss_init 0xc0012340))) in
  ∃ d, snd (fst (tss_init 0xc0012340)) !! 0%nat = Some d ∧
    io_allowed t d 0x60 = Some (bool_decide (0x60 ≠ 68 ∧ (0x60 ∉ [834; 835; 837; 838]) ∧
      ¬ (44 ≤ 0x60 < 64 ∧ Z.testbit (0xc0100000 + 4096) (0x60 - 32) = true))) ∧
    Forall (λ p, io_allowed t d p = Some true)
      ([0x20; 0x21; 0xa0; 0xa1] ++ [0x40; 0x43] ++ [0x60; 0x64] ++ seqZ 0x1f0 8).
Proof. apply (user_port_access 0xc0012340 0xc0100000 0x60); first [reflexivity | lia]. Defined.

Lemma interrupt_tables_witness :
  (∀ i, 0 ≤ i < 0x81 → ∃ g,
     idt_init (λ i, u32 (0xc0001000 + 16 * i)) 0xc0002000
       (replicate 129 (GateDescr 0 0 0 0 0)) !! Z.to_nat i = Some g ∧
     gate_offset g = (if decide (i = 0x80) then 0xc0002000 else u32 (0xc0001000 + 16 * i)) ∧
     gate_dpl g = (if decide (i = 0x80) then 3 else 0)) ∧
  register_irq_handler (fst (trap_init 0xc0003000 (replicate 129 0) (replicate 129 EmptyString)))
    0x90 0xc0004000 = Fault.
Proof.
  destruct (interrupt_tables (λ i, u32 (0xc0001000 + 16 * i)) 0xc0002000 0xc0003000 0xc0004000 0x90
    (replicate 129 (GateDescr 0 0 0 0 0)) (replicate 129 0) (replicate 129 EmptyString) 0)
    as (H1 & (H2 & _) & _); [intros i; apply u32_range|lia|done|lia|done|done|done|].
  split; [exact H1|exact H2].
Defined.
