(* ===== verification/Idle.v ===== *)
(** The idle thread ([cpu_idle] of thread/thread.c) as a state machine: its statements, the
    interrupts that may come between any two of them, and the operations of the other threads.
    [thread_block] is followed by [put_str] and [sti; hlt] with the interrupts on, so that what the
    thread saw in the ready queue may have changed when it stops the processor. *)
From S2P Require Import Prelude KList Thread Sync Timer Desc.
Local Open Scope Z_scope.
Local Abbreviation length := List.length.

(** * State *)

(** Where the idle thread is: before [thread_block(TASK_BLOCKED)], before [put_str], before
    [sti; hlt], or stopped in [hlt]. *)
Inductive idle_pc := IdleBlock | IdlePrint | IdleHlt | Halted.
#[export] Instance idle_pc_eq_dec : EqDecision idle_pc.
Proof. solve_decision. Defined.

(** Its program point; the interrupt status that it restores, while it is suspended in [switch_to]
    (in [thread_block], or in an interrupt at the end of its time slice; a new thread is there too,
    and enables the interrupts in [kernel_func]); what it has printed; the variable [ticks]. *)
Record idle_thread_state := IdleState { i_pc : idle_pc; i_susp : option bool; i_out : list printed; i_ticks : Z }.

(** The idle thread as [thread_init] leaves it. *)
Definition idle_new (ticks : Z) : idle_thread_state := IdleState IdleBlock (Some true) [] ticks.

Definition istate : Type := kstate * idle_thread_state.

Definition to_pc (p : idle_pc) (sv : option bool) (i : idle_thread_state) : idle_thread_state := IdleState p sv (i_out i) (i_ticks i).
Definition suspended (b : bool) (i : idle_thread_state) : idle_thread_state := to_pc (i_pc i) (Some b) i.

(** * Steps *)

Section steps.
Variable fuel : nat.

(** The next statement of the loop of [cpu_idle]; a thread that was switched to first leaves
    [switch_to].  In [hlt] it has none. *)
Definition cpu_idle (s : istate) : outcome istate :=
  let (k, i) := s in
  match i_susp i with
  | Some old_status => Ok (set_intr_status k old_status, to_pc (i_pc i) None i)
  | None =>
      match i_pc i with
      | IdleBlock =>
          let! (k, old_status) := thread_block fuel k TASK_BLOCKED in
          Ok (k, to_pc IdlePrint (Some old_status) i)
      | IdlePrint => Ok (k, IdleState IdleHlt None (i_out i ++ [put_str "CPU IDLE
"]) (i_ticks i))
      | IdleHlt => Ok (fst (local_irq_enable k), to_pc Halted None i)
      | Halted => Ok (k, i)
      end
  end.

(** An interrupt ends [hlt]. *)
Definition end_hlt (i : idle_thread_state) : idle_thread_state :=
  if decide (i_pc i = Halted) then to_pc IdleBlock (i_susp i) i else i.

(** An interrupt of the clock: the gate clears the interrupt flag.  At the end of the time slice the
    thread that runs is suspended in [schedule], and [intr_exit] will set the flag again; else this
    happens at once. *)
Definition clock_interrupt (s : istate) : outcome istate :=
  let (k, i) := s in
  let k := Thread.set_intr k false in
  let cur_thread := get_cur_task k in
  let! x := get_task k cur_thread in
  let! (k', ticks) := clock_service fuel k (i_ticks i) in
  let i := end_hlt (IdleState (i_pc i) (i_susp i) (i_out i) ticks) in
  if Thread.ticks x =? 0 then
    Ok (k', if cur_thread =? idle_thread k then suspended true i else i)
  else Ok (Thread.set_intr k' true, i).

(** Another interrupt, with its handler. *)
Definition device_interrupt (handler : kstate → outcome kstate) (s : istate) : outcome istate :=
  let (k, i) := s in
  let! k := handler (Thread.set_intr k false) in
  Ok (Thread.set_intr k true, end_hlt i).

(** * What can happen *)

(** The operations of the other threads on the scheduler, and their changes of the interrupt flag. *)
Inductive thread_op := OpBlock (st : task_status) | OpYield | OpUnblock (t : Z) | OpIrq (b : bool).

(** [Go]: the next statement of the idle thread.  [Clock]: an interrupt of the clock.  [Device]: one
    of another device, whose handler may wake a thread.  [Run]: an operation of the thread that
    runs, if this is not the idle thread. *)
Inductive idle_event := Go | Clock | Device (wake : option Z) | Run (op : thread_op).

(** Code wakes only threads that blocked themselves, and only [schedule] wakes the idle thread. *)
Definition may_wake (k : kstate) (t : Z) : bool :=
  negb (t =? idle_thread k) &&
  match tasks k !! t with Some x => blocking (status x) | None => false end.

Definition do_op (k : kstate) (op : thread_op) : option (outcome kstate) :=
  match op with
  | OpBlock st => if blocking st then Some (let! (k, _) := thread_block fuel k st in Ok k) else None
  | OpYield => Some (let! (k, _) := thread_yield fuel k in Ok k)
  | OpUnblock t => if may_wake k t then Some (thread_unblock fuel k t) else None
  | OpIrq b => Some (Ok (Thread.set_intr k b))
  end.

(** [None]: the event cannot happen in this state. *)
Definition happen (s : istate) (e : idle_event) : option (outcome istate) :=
  let (k, i) := s in
  let running_idle := current_task k =? idle_thread k in
  match e with
  | Go => if running_idle then Some (cpu_idle s) else None
  | Clock => if intr_on k then Some (clock_interrupt s) else None
  | Device None => if intr_on k then Some (device_interrupt Ok s) else None
  | Device (Some t) =>
      if intr_on k && may_wake k t then Some (device_interrupt (λ k, thread_unblock fuel k t) s) else None
  | Run op => if running_idle then None else o ← do_op k op; Some (let! k := o in Ok (k, i))
  end.

(** For the theorems: has an interrupt come since the idle thread last entered [thread_block]? *)
Definition disturbed (d : bool) (s : istate) (e : idle_event) : bool :=
  match e with
  | Clock | Device _ => true
  | Go => if bool_decide (i_pc s.2 = IdleBlock ∧ i_susp s.2 = None) then false else d
  | Run _ => d
  end.

Inductive istep : istate * bool → istate * bool → Prop :=
  | istep_event s d e s' : happen s e = Some (Ok s') → istep (s, d) (s', disturbed d s e).
End steps.

(** Events one after the other, each of which can happen. *)
Fixpoint irun (fuel : nat) (s : istate) (es : list idle_event) : option istate :=
  match es with
  | [] => Some s
  | e :: es => match happen fuel s e with Some (Ok s) => irun fuel s es | _ => None end
  end.

(** * Lemmas *)

(** ** Stack boundaries *)

(** No operation of the scheduler touches the marks below the stacks, which [clock_service] checks. *)
Definition bounded (k : kstate) : Prop := ∀ t x, tasks k !! t = Some x → stack_boundary x = 0x20130901.
Definition same_bounds (k k' : kstate) : Prop :=
  ∀ t, stack_boundary <$> tasks k' !! t = stack_boundary <$> tasks k !! t.

#[export] Instance same_bounds_preorder : PreOrder same_bounds.
Proof. split; [by intros k t|]. intros k1 k2 k3 H12 H23 t. by rewrite H23, H12. Qed.

Lemma bounded_same k k' : bounded k → same_bounds k k' → bounded k'.
Proof.
  intros Hb Hs t x E. specialize (Hs t). rewrite E in Hs. cbn in Hs.
  destruct (tasks k !! t) as [y|] eqn:Ey; [|done]. injection Hs as ->. by apply (Hb t).
Qed.

Lemma update_bounds k k' t f : (∀ x, stack_boundary (f x) = stack_boundary x) →
  update_task k t f = Ok k' → same_bounds k k'.
Proof.
  intros Hf E u. unfold update_task, get_task in E. destruct (tasks k !! t) as [x|] eqn:Ex; [|done].
  injection E as <-. cbn. destruct (decide (u = t)) as [->|]; [by rewrite lookup_insert_eq, Ex; cbn; rewrite Hf|].
  by rewrite lookup_insert_ne.
Qed.

(** Take apart a computation that returned, and go on with its changes. *)
Ltac bounds_step := match goal with
  | E : Ok _ = Ok _ |- _ => injection E as <-
  | E : obind _ _ = Ok _ |- _ => apply obind_Ok_inv in E as (? & ? & E)
  | E : (let (_, _) := ?p in _) = Ok _ |- _ => destruct p
  | E : (if ?b then _ else _) = Ok _ |- _ => destruct b
  | E : update_task _ _ _ = Ok _ |- _ => apply update_bounds in E; [|done]
  end.
Ltac bounds := intros; repeat first [discriminate | bounds_step]; intros u;
  repeat match goal with H : same_bounds _ _ |- _ => specialize (H u); cbn in H end; rewrite ?set_intr_status_eq; cbn; congruence.

Lemma unblock_bounds fuel k t k' : thread_unblock fuel k t = Ok k' → same_bounds k k'.
Proof. unfold thread_unblock. rewrite local_irq_disable_eq. bounds. Qed.

Lemma schedule_bounds fuel k k' : schedule fuel k = Ok k' → same_bounds k k'.
Proof.
  unfold schedule. rewrite local_irq_disable_eq. intros E. apply obind_Ok_inv in E as (_ & _ & E).
  apply obind_Ok_inv in E as (x & _ & E). apply obind_Ok_inv in E as (k1 & E1 & E).
  apply obind_Ok_inv in E as (k2 & E2 & E).
  assert (same_bounds k k1) as H1 by (revert E1; bounds).
  assert (same_bounds k1 k2) as H2 by (destruct (_ =? 0); [by eapply unblock_bounds|by injection E2 as <-]).
  rewrite H1, H2. revert E. clear E1 E2 H1 H2. bounds.
Qed.

Lemma block_bounds fuel k st k' b : thread_block fuel k st = Ok (k', b) → same_bounds k k'.
Proof.
  unfold thread_block. rewrite local_irq_disable_eq. intros E. apply obind_Ok_inv in E as (_ & _ & E).
  apply obind_Ok_inv in E as (k1 & E1 & E). apply obind_Ok_inv in E as (k2 & E2 & [= <- _]).
  rewrite <- (schedule_bounds _ _ _ E2). revert E1. bounds.
Qed.

Lemma yield_bounds fuel k k' b : thread_yield fuel k = Ok (k', b) → same_bounds k k'.
Proof.
  unfold thread_yield. rewrite local_irq_disable_eq. intros E. apply obind_Ok_inv in E as (f & _ & E).
  apply obind_Ok_inv in E as (_ & _ & E). apply obind_Ok_inv in E as (mq & _ & E).
  apply obind_Ok_inv in E as (k1 & E1 & E). apply obind_Ok_inv in E as (k2 & E2 & [= <- _]).
  rewrite <- (schedule_bounds _ _ _ E2). revert E1. bounds.
Qed.

(** ** The clock *)

(** The clock interrupt: the ticks are counted, and at the end of the slice the next task runs. *)
Lemma clock_service_spec ts fuel k rs tk : kinv ts k rs → running k → bounded k → (length ts ≤ fuel)%nat →
  ∃ x k', tasks k !! current_task k = Some x ∧ clock_service fuel k tk = Ok (k', u32 (tk + 1)) ∧
    same_bounds k k' ∧
    if Thread.ticks x =? 0 then
      switched ts k k' (rs ++ [current_task k]) (λ t, if decide (t = current_task k) then Some TASK_READY else status_of k t)
    else kinv ts k' rs ∧ running k' ∧ current_task k' = current_task k ∧ idle_thread k' = idle_thread k ∧
      nodes k' = nodes k ∧ intr_on k' = intr_on k ∧ ∀ t, status_of k' t = status_of k t.
Proof.
  intros Hk Hr Hb Hf. destruct (kinv_task Hk _ (k_current _ _ _ Hk)) as [x Ex].
  set (kc := set_tasks k (alter count_tick (current_task k) (tasks k))).
  assert (kinv ts kc rs) as Hkc by (by apply kinv_same_status).
  assert (running kc) as Hrc by (by apply running_same_status).
  assert (∀ t, status_of kc t = status_of k t) as Hst
    by (intros t; unfold status_of, kc; cbn; by apply status_alter_same).
  assert (update_task k (current_task k) count_tick = Ok kc) as Ec by (apply update_task_eq; eauto).
  assert (same_bounds k kc) as Hbc by (by refine (update_bounds _ _ _ _ _ Ec)).
  exists x. unfold clock_service, get_cur_task, get_task. rewrite Ex. cbn [obind].
  rewrite (Hb _ _ Ex). cbn [Z.eqb]. change (0x20130901 =? 0x20130901) with true. cbn [ASSERT obind].
  rewrite Ec. cbn [obind]. unfold get_task. subst kc. cbn [tasks set_tasks]. rewrite lookup_alter_eq, Ex. cbn [fmap option_fmap option_map obind].
  change (Thread.ticks (count_tick x)) with (Thread.ticks x). set (kc := set_tasks k _) in *.
  destruct (Thread.ticks x =? 0).
  - destruct (schedule_switched ts fuel kc rs Hkc Hf) as (k' & E & Hsw). exists k'. rewrite E. cbn [obind].
    split_and!; [done|done|by rewrite Hbc, (schedule_bounds _ _ _ E)|].
    assert (candidates kc rs = rs ++ [current_task k]) as Ecand.
    { unfold candidates, requeued. rewrite decide_True by exact Hrc. by destruct rs. }
    rewrite Ecand in Hsw. destruct Hsw as [S1 S2 S3 S4 S5]. split; try done. intros t. rewrite S4.
    change (current_task kc) with (current_task k). rewrite (Hst t). destruct (decide (t = current_task k)) as [->|].
    + by rewrite (decide_True (P := _ ∧ _)) by done.
    + by rewrite (decide_False (P := _ ∧ _)) by (by intros [? _]).
  - rewrite update_task_eq by (apply alter_dom; eauto). cbn [obind].
    set (ku := set_tasks kc _). exists ku.
    assert (update_task kc (current_task k) use_tick = Ok ku) as Eu by (apply update_task_eq, alter_dom; eauto).
    split_and!; [done|done|by rewrite Hbc, (update_bounds _ _ _ use_tick (λ _, eq_refl) Eu)| | |done..|].
    + by apply (kinv_same_status ts kc rs).
    + by apply (running_same_status kc).
    + intros t. rewrite <- Hst. unfold status_of, ku. cbn. by apply status_alter_same.
Qed.

(** ** The invariant *)

(** [rs] are the ready threads; [d]: an interrupt has come since the thread last entered [thread_block].
    If not, and it is behind [thread_block], then it runs because no thread is ready, or still sleeps there. *)
Record iinv (ts : list Z) (s : istate) (d : bool) (rs : list Z) : Prop := {
  ii_kern : kinv ts s.1 rs;
  ii_run : running s.1;
  ii_bounds : bounded s.1;
  ii_cpu : i_susp s.2 = None → current_task s.1 = idle_thread s.1 ∧ intr_on s.1 = true;
  ii_susp b : i_susp s.2 = Some b →
    b = true ∧ i_pc s.2 ≠ Halted ∧ (current_task s.1 = idle_thread s.1 → intr_on s.1 = false);
  ii_quiet : d = false → i_pc s.2 ≠ IdleBlock →
    if decide (current_task s.1 = idle_thread s.1) then rs = [] else asleep s.1 (idle_thread s.1)
}.

Section machine.
Context (ts : list Z) (fuel : nat) (Hf : (length ts ≤ fuel)%nat).

(** Switching back to the idle thread. *)
Lemma go_resume k i b : i_susp i = Some b → cpu_idle fuel (k, i) = Ok (Thread.set_intr k b, to_pc (i_pc i) None i).
Proof using. intros E. unfold cpu_idle. by rewrite E, set_intr_status_eq. Qed.

Lemma go_block k i rs : kinv ts k rs → running k → i_susp i = None → i_pc i = IdleBlock →
  ∃ k', cpu_idle fuel (k, i) = Ok (k', to_pc IdlePrint (Some (intr_on k)) i) ∧ same_bounds k k' ∧
    switched ts k k' (or_idle k rs) (λ t, if decide (t = current_task k) then Some TASK_BLOCKED else status_of k t).
Proof using Hf.
  intros Hk Hr Es Ep. destruct (thread_block_switched ts fuel k rs TASK_BLOCKED Hk Hr Hf eq_refl) as (k' & E & Hsw).
  exists k'. unfold cpu_idle. rewrite Es, Ep, E. cbn [obind]. split; [done|]. split; [by eapply block_bounds|done].
Qed.

(** After a switch by [thread_block], the idle thread sleeps or runs alone. *)
Lemma block_quiet k k' rs st : kinv ts k rs → running k → blocking st = true →
  (current_task k ≠ idle_thread k → asleep k (idle_thread k)) →
  switched ts k k' (or_idle k rs) (λ t, if decide (t = current_task k) then Some st else status_of k t) →
  ∃ rs', kinv ts k' rs' ∧ or_idle k rs = current_task k' :: rs' ∧
    if decide (current_task k' = idle_thread k') then rs' = [] else asleep k' (idle_thread k').
Proof using.
  intros Hk Hr Hst Has [(rs' & E & Hk') Ei _ Hs _]. exists rs'. split; [done|]. split; [done|]. rewrite Ei.
  assert (idle_thread k ∉ rs) as Hni.
  { destruct (decide (current_task k = idle_thread k)) as [Ec|Ec].
    - rewrite <- Ec. by apply (running_not_ready ts).
    - intros Hin. by apply (ready_not_asleep ts k rs _ Hk Hin), Has. }
  case_decide as Hd.
  - destruct rs as [|t rs]; cbn in E; injection E as E1 E2; [done|]. destruct Hni. rewrite <- Hd, <- E1. by left.
  - unfold asleep. rewrite Hs, decide_False by congruence. case_decide as Hc; [by exists st|].
    by apply Has.
Qed.

(** The next statement: at [thread_block] the processor goes to the first ready thread, or stays with the idle
    thread; the others leave the scheduler as it is. *)
Lemma go_inv k i d rs : iinv ts (k, i) d rs → current_task k = idle_thread k →
  ∃ s' rs', cpu_idle fuel (k, i) = Ok s' ∧ iinv ts s' (disturbed d (k, i) Go) rs' ∧
    idle_thread s'.1 = idle_thread k ∧ upd_nodes (nodes k) (nodes s'.1) (dispatch_node <$> or_idle k rs) ∧
    if decide (i_pc i = IdleBlock ∧ i_susp i = None) then
      or_idle k rs = current_task s'.1 :: rs' ∧ intr_on s'.1 = false ∧ i_pc s'.2 = IdlePrint ∧ i_susp s'.2 = Some true
    else rs' = rs ∧ current_task s'.1 = current_task k ∧ i_susp s'.2 = None ∧
      i_pc s'.2 = match i_susp i, i_pc i with Some _, p => p | None, IdlePrint => IdleHlt | None, _ => Halted end.
Proof using Hf.
  intros [Hk Hr Hb Hcpu Hsusp Hq] Hc. cbn [fst snd] in *. unfold disturbed. cbn [snd].
  destruct (i_susp i) as [b|] eqn:Es.
  { rewrite (go_resume k i b Es). destruct (Hsusp b eq_refl) as (-> & Hp & _). eexists _, rs. split; [done|].
    rewrite bool_decide_false by (by intros [_ ?]). rewrite decide_False by (by intros [_ ?]).
    split; [split; cbn; try done; by apply kinv_set_intr|]. cbn. split_and!; [done|apply upd_nodes_refl|done..]. }
  destruct (Hcpu eq_refl) as [_ Hon]. destruct (i_pc i) eqn:Ep.
  - destruct (go_block k i rs Hk Hr Es Ep) as (k' & E & Hbs & Hsw). rewrite E.
    destruct (block_quiet k k' rs TASK_BLOCKED Hk Hr eq_refl ltac:(done) Hsw) as (rs' & Hk' & El & Hquiet).
    pose proof Hsw as [_ Hid Hoff _ Hu].
    eexists _, rs'. split; [done|]. rewrite Hon, decide_True by done. cbn [fst snd to_pc i_pc i_susp].
    split; [|by split_and!].
    split; cbn; try done; [by eapply switched_running|by eapply bounded_same|].
    intros b [= <-]. split_and!; [done|done|]. intros _. by destruct Hsw.
  - unfold cpu_idle. rewrite Es, Ep. eexists _, rs. split; [done|]. rewrite bool_decide_false, decide_False by (by intros [? _]).
    split; [|cbn; split_and!; [done|apply upd_nodes_refl|done..]].
    split; cbn; try done. intros Hd _. by apply Hq.
  - unfold cpu_idle. rewrite Es, Ep. eexists _, rs. split; [done|]. rewrite bool_decide_false, decide_False by (by intros [? _]).
    rewrite local_irq_enable_eq. split; [|cbn; split_and!; [done|apply upd_nodes_refl|done..]].
    split; cbn; try done; [by apply kinv_set_intr|].
    intros Hd _. by apply Hq.
  - unfold cpu_idle. rewrite Es, Ep. eexists _, rs. split; [done|]. rewrite bool_decide_false, decide_False by (by intros [? _]).
    split; [|cbn; split_and!; [done|apply upd_nodes_refl|done..]].
    split; cbn; rewrite ?Es, ?Ep; done.
Qed.

Lemma end_hlt_susp i : i_susp (end_hlt i) = i_susp i.
Proof using. unfold end_hlt. by case_decide. Qed.
Lemma end_hlt_pc i : i_pc (end_hlt i) ≠ Halted.
Proof using. unfold end_hlt. by case_decide. Qed.

(** A clock interrupt: the same thread goes on, or the first of the ready threads. *)
Lemma clock_spec k i d rs : iinv ts (k, i) d rs → intr_on k = true →
  ∃ k' i' rs', clock_interrupt fuel (k, i) = Ok (k', i') ∧ iinv ts (k', i') true rs' ∧
    i_pc i' = i_pc (end_hlt i) ∧ idle_thread k' = idle_thread k ∧
    upd_nodes (nodes k) (nodes k') (dispatch_node <$> rs ++ [current_task k]) ∧
    (current_task k' = current_task k ∧ rs' = rs ∧ i_susp i' = i_susp i ∧ intr_on k' = true ∨
     current_task k' :: rs' = rs ++ [current_task k] ∧ intr_on k' = false ∧
       (current_task k = idle_thread k → i_susp i' = Some true)).
Proof using Hf.
  intros [Hk Hr Hb Hcpu Hsusp _] Hon. cbn [fst snd] in *. unfold clock_interrupt, get_cur_task.
  set (k0 := Thread.set_intr k false). change (current_task k0) with (current_task k). change (idle_thread k0) with (idle_thread k).
  destruct (clock_service_spec ts fuel k0 rs (i_ticks i)) as (x & k' & Ex & E & Hbs & Hcase);
    [by apply kinv_set_intr|exact Hr|exact Hb|done|].
  change (current_task k0) with (current_task k) in *. unfold get_task. rewrite Ex. cbn [obind]. rewrite E. cbn [obind].
  set (i0 := IdleState (i_pc i) (i_susp i) (i_out i) (u32 (i_ticks i + 1))).
  assert (i_susp (end_hlt i0) = i_susp i ∧ i_pc (end_hlt i0) = i_pc (end_hlt i)) as [Esu Epc]
    by (unfold end_hlt, i0; cbn; by repeat case_decide).
  assert (bounded k') as Hb' by (by eapply bounded_same).
  destruct (Thread.ticks x =? 0).
  - destruct Hcase as [(rs' & El & Hk') Ei Hoff Hst Hu]. change (idle_thread k0) with (idle_thread k) in Ei.
    assert (running k') as Hr' by (unfold running; rewrite Hst; by rewrite decide_True).
    eexists k', _, rs'. split; [reflexivity|]. split; [|split; [|split; [done|split; [done|right; split; [done|split; [done|]]]]]].
    + split; cbn [fst snd]; try done.
      * intros Hs. exfalso. destruct (Z.eqb_spec (current_task k) (idle_thread k)); [done|].
        rewrite Esu in Hs. by destruct (Hcpu Hs).
      * intros b Hs. destruct (Z.eqb_spec (current_task k) (idle_thread k)).
        -- injection Hs as <-. split_and!; [done| |done]. cbn. rewrite Epc. apply end_hlt_pc.
        -- rewrite Esu in Hs. destruct (Hsusp b Hs) as (-> & _ & _). split_and!; [done| |done]. rewrite Epc. apply end_hlt_pc.
    + destruct (_ =? _); [|exact Epc]. cbn. exact Epc.
    + intros ->. by rewrite Z.eqb_refl.
  - destruct Hcase as (Hk' & Hr' & Ec & Ei & Em & _ & Hst). change (idle_thread k0) with (idle_thread k) in Ei.
    change (current_task k0) with (current_task k) in Ec.
    eexists _, _, rs. split; [reflexivity|]. split; [|split; [exact Epc|split; [exact Ei|split; [cbn; rewrite Em; apply upd_nodes_refl|left; by split_and!]]]].
    split; cbn [fst snd]; try done; [by apply kinv_set_intr| |].
    + rewrite Esu. intros Hs. cbn. rewrite Ec, Ei. split; [by apply Hcpu|done].
    + rewrite Esu, Epc. intros b Hs. destruct (Hsusp b Hs) as (-> & _ & Hoff).
      split_and!; [done|apply end_hlt_pc|]. cbn. rewrite Ec, Ei. intros Hc. rewrite (Hoff Hc) in Hon. done.
Qed.

(** An interrupt of a device whose handler puts threads into the ready queue. *)
Lemma device_inv k i d rs rs' handler k' : iinv ts (k, i) d rs → intr_on k = true →
  handler (Thread.set_intr k false) = Ok k' → kinv ts k' rs' → running k' → bounded k' →
  current_task k' = current_task k → idle_thread k' = idle_thread k →
  device_interrupt handler (k, i) = Ok (Thread.set_intr k' true, end_hlt i) ∧
  iinv ts (Thread.set_intr k' true, end_hlt i) true rs'.
Proof using.
  intros [Hk Hr Hb Hcpu Hsusp _] Hon E Hk' Hr' Hb' Ec Ei. cbn [fst snd] in *. unfold device_interrupt. rewrite E. cbn [obind].
  split; [done|]. split; cbn [fst snd]; try done; [by apply kinv_set_intr| |].
  - rewrite end_hlt_susp. intros Hs. cbn. rewrite Ec, Ei. split; [by apply Hcpu|done].
  - rewrite end_hlt_susp. intros b Hs. destruct (Hsusp b Hs) as (-> & _ & Hoff).
    split_and!; [done|apply end_hlt_pc|]. cbn. rewrite Ec, Ei. intros Hc. rewrite (Hoff Hc) in Hon. done.
Qed.

Lemma may_wake_spec k rs t : kinv ts k rs → may_wake k t = true → t ≠ idle_thread k ∧ t ∈ ts ∧ asleep k t.
Proof using.
  intros Hk Hw. unfold may_wake in Hw. apply andb_prop in Hw as [Hi Hb]. apply negb_true_iff, Z.eqb_neq in Hi.
  destruct (tasks k !! t) as [x|] eqn:Ex; [|done]. split_and!; [done|apply (k_dom _ _ _ Hk); by rewrite Ex|].
  exists (status x). unfold status_of, status_in. by rewrite Ex.
Qed.

(** Waking a thread, by a handler or by a thread. *)
Lemma wake_spec k rs t : kinv ts k rs → running k → bounded k → may_wake k t = true →
  ∃ k', thread_unblock fuel k t = Ok k' ∧ kinv ts k' (t :: rs) ∧ running k' ∧ bounded k' ∧
    current_task k' = current_task k ∧ idle_thread k' = idle_thread k ∧ intr_on k' = intr_on k ∧
    (asleep k (idle_thread k) → asleep k' (idle_thread k)).
Proof using Hf.
  intros Hk Hr Hb Hw. destruct (may_wake_spec k rs t Hk Hw) as (Hne & Ht & Has).
  destruct (thread_unblock_woken ts fuel k rs t Hk Hf Ht Has) as (k' & E & Hk' & Ec & Ei & Eon & Hst & _).
  exists k'. split_and!; try done.
  - unfold running in *. rewrite Ec, Hst, decide_False; [done|]. intros Et. rewrite <- Et in Has.
    by apply (running_not_asleep k).
  - eapply bounded_same; [done|by eapply unblock_bounds].
  - unfold asleep. by rewrite Hst, decide_False by done.
Qed.

Lemma op_inv k i d rs op o : iinv ts (k, i) d rs → current_task k ≠ idle_thread k → do_op fuel k op = Some o →
  ∃ k' rs', o = Ok k' ∧ iinv ts (k', i) d rs'.
Proof using Hf.
  intros [Hk Hr Hb Hcpu Hsusp Hq] Hc Ho. cbn [fst snd] in *.
  assert (is_Some (i_susp i)) as [b0 Es] by (destruct (i_susp i); [by eexists|by destruct Hcpu]).
  destruct (Hsusp b0 Es) as (-> & Hp & _). rewrite decide_False in Hq by done.
  assert (∀ k' rs', kinv ts k' rs' → running k' → bounded k' → 
    (current_task k' = idle_thread k' → intr_on k' = false) →
    (d = false → i_pc i ≠ IdleBlock →
      if decide (current_task k' = idle_thread k') then rs' = [] else asleep k' (idle_thread k')) →
    iinv ts (k', i) d rs') as Hmk.
  { intros k' rs' H1 H2 H3 H4 H5. split; cbn [fst snd]; try done; [by rewrite Es|].
    intros b Eb. rewrite Es in Eb. injection Eb as <-. by split_and!. }
  destruct op as [st| |t|b]; cbn [do_op] in Ho.
  - destruct (blocking st) eqn:Hst; [|done]. injection Ho as <-.
    destruct (thread_block_switched ts fuel k rs st Hk Hr Hf Hst) as (k' & E & Hsw). rewrite E. cbn [obind].
    pose proof Hsw as [(rs' & El & Hk') Ei Hoff _ _]. exists k', rs'. split; [done|].
    apply Hmk; [done|by eapply switched_running|by eapply bounded_same, block_bounds|done|].
    intros Hd Hpc. destruct (block_quiet k k' rs st Hk Hr Hst) as (rs2 & _ & El2 & Hquiet); [by intros _; apply Hq|done|].
    rewrite El in El2. injection El2 as <-. exact Hquiet.
  - injection Ho as <-. destruct (thread_yield_switched ts fuel k rs Hk Hr Hf) as (k' & E & Hsw). rewrite E. cbn [obind].
    pose proof Hsw as [(rs' & El & Hk') Ei Hoff Hst _]. exists k', rs'. split; [done|].
    apply Hmk; [done|by eapply switched_running|by eapply bounded_same, yield_bounds|done|].
    intros Hd Hpc. specialize (Hq Hd Hpc). rewrite Ei.
    assert (idle_thread k ∉ rs ++ [current_task k]) as Hni.
    { rewrite elem_of_app, list_elem_of_singleton. intros [Hin|Hin]; [|done]. by apply (ready_not_asleep ts k rs _ Hk Hin). }
    rewrite decide_False by (intros Ec; apply Hni; rewrite El, <- Ec; by left).
    destruct Hq as (st & Hs1 & Hs2). exists st. split; [|done]. rewrite Hst.
    rewrite decide_False by (intros Ec; apply Hni; rewrite El, Ec; by left). by rewrite decide_False by done.
  - destruct (may_wake k t) eqn:Hw; [|done]. injection Ho as <-.
    destruct (wake_spec k rs t Hk Hr Hb Hw) as (k' & E & Hk' & Hr' & Hb' & Ec & Ei & Eon & Has). exists k', (t :: rs).
    split; [done|]. apply Hmk; [done..|by rewrite Ec, Ei|].
    intros Hd Hpc. rewrite Ec, Ei, decide_False by done. apply Has. by apply Hq.
  - injection Ho as <-. exists (Thread.set_intr k b), rs. split; [done|].
    apply Hmk; [by apply kinv_set_intr|done|done|done|]. intros Hd Hpc. cbn. rewrite decide_False by done. by apply Hq.
Qed.

(** Every event keeps the invariant, and no assertion fails. *)
Lemma happen_inv s d rs e o : iinv ts s d rs → happen fuel s e = Some o →
  ∃ s' rs', o = Ok s' ∧ iinv ts s' (disturbed d s e) rs'.
Proof using Hf.
  destruct s as [k i]. intros Hi. pose proof Hi as [Hk Hr Hb _ _ _]. cbn [fst] in *. unfold happen.
  destruct e as [| |[t|]|op].
  - destruct (Z.eqb_spec (current_task k) (idle_thread k)) as [Hc|]; [|done]. intros [= <-].
    destruct (go_inv k i d rs Hi Hc) as (s' & rs' & E & Hi' & _). by exists s', rs'.
  - destruct (intr_on k) eqn:Hon; [|done]. intros [= <-].
    destruct (clock_spec k i d rs Hi Hon) as (k' & i' & rs' & E & Hi' & _). by exists (k', i'), rs'.
  - destruct (intr_on k) eqn:Hon; [|done]. destruct (may_wake k t) eqn:Hw; [|done]. cbn [andb]. intros [= <-].
    destruct (wake_spec (Thread.set_intr k false) rs t) as (k' & E & Hk' & Hr' & Hb' & Ec & Ei & _);
      [by apply kinv_set_intr|done..|].
    destruct (device_inv k i d rs (t :: rs) (λ k, thread_unblock fuel k t) k' Hi Hon E) as [E' Hi']; [done..|].
    by eexists _, (t :: rs).
  - destruct (intr_on k) eqn:Hon; [|done]. intros [= <-].
    destruct (device_inv k i d rs rs Ok (Thread.set_intr k false) Hi Hon eq_refl) as [E' Hi'];
      [by apply kinv_set_intr|done..|]. by eexists _, rs.
  - destruct (Z.eqb_spec (current_task k) (idle_thread k)) as [|Hc]; [done|].
    destruct (do_op fuel k op) as [o'|] eqn:Eo; [|done]. cbn. intros [= <-].
    destruct (op_inv k i d rs op o' Hi Hc Eo) as (k' & rs' & -> & Hi'). by exists (k', i), rs'.
Qed.

Lemma steps_inv s0 d0 rs0 s d : iinv ts s0 d0 rs0 → rtc (istep fuel) (s0, d0) (s, d) → ∃ rs, iinv ts s d rs.
Proof using Hf.
  intros Hi Hsteps. remember (s0, d0) as x0 eqn:E0. remember (s, d) as x eqn:E.
  revert s0 d0 rs0 E0 Hi. induction Hsteps as [x|x y z [s1 d1 e s2 He] _ IH]; intros s0 d0 rs0 E0 Hi; subst.
  - injection E0 as <- <-. by exists rs0.
  - injection E0 as <- <-. destruct (happen_inv _ _ _ _ _ Hi He) as (s' & rs' & [= <-] & Hi').
    by eapply (IH eq_refl).
Qed.

Lemma idle_new_inv k tk rs : kinv ts k rs → running k → bounded k → current_task k ≠ idle_thread k →
  iinv ts (k, idle_new tk) false rs.
Proof using. intros. split; cbn; try done. by intros b [= <-]. Qed.

(** ** One turn of the loop *)

(** Before [thread_block], with a ready thread: this thread runs. *)
Lemma turn_ready k i d t rs : iinv ts (k, i) d (t :: rs) → current_task k = idle_thread k → i_pc i = IdleBlock → i_susp i = None →
  ∃ s', happen fuel (k, i) Go = Some (Ok s') ∧ current_task s'.1 = t ∧ kinv ts s'.1 rs ∧ running s'.1 ∧
    status_of s'.1 (idle_thread k) = Some TASK_BLOCKED.
Proof using Hf.
  intros [Hk Hr Hb _ _ _] Hc Ep Es. cbn [fst snd] in *.
  destruct (go_block k i (t :: rs) Hk Hr Es Ep) as (k' & E & _ & [(rs' & El & Hk') _ _ Hst _]).
  cbn in El. injection El as Et <-. unfold happen. rewrite Hc, Z.eqb_refl, E.
  eexists. split; [done|]. cbn [fst]. split_and!; [done|done| |].
  - unfold running. rewrite Hst. by rewrite decide_True.
  - rewrite Hst, decide_False, decide_True; [done|done|]. rewrite <- Hc, <- Et. intros Ec.
    apply (running_not_ready ts k _ Hk Hr). rewrite Ec. by left.
Qed.

(** With none, it prints its line and stops the processor. *)
Lemma turn_empty k i d : iinv ts (k, i) d [] → current_task k = idle_thread k → i_pc i = IdleBlock → i_susp i = None →
  ∃ k', irun fuel (k, i) [Go; Go; Go; Go] =
      Some (k', IdleState Halted None (i_out i ++ [put_str "CPU IDLE
"]) (i_ticks i)) ∧
    current_task k' = idle_thread k' ∧ idle_thread k' = idle_thread k ∧ intr_on k' = true ∧ kinv ts k' [].
Proof using Hf.
  intros [Hk Hr Hb Hcpu _ _] Hc Ep Es. cbn [fst snd] in *.
  destruct (go_block k i [] Hk Hr Es Ep) as (k' & E & _ & [(rs' & El & Hk') Ei _ _ _]). cbn in El. injection El as Et <-.
  destruct (Hcpu Es) as [_ Hon]. rewrite Hon in E. exists (Thread.set_intr (Thread.set_intr k' true) true).
  cbn [irun]. unfold happen at 1. rewrite Hc, Z.eqb_refl, E. cbn [irun].
  unfold happen at 1. rewrite <- Et, Ei, Z.eqb_refl, (go_resume k' _ true) by done. cbn [irun].
  unfold happen at 1. cbn [current_task idle_thread Thread.set_intr]. rewrite <- Et, Ei, Z.eqb_refl. cbn [cpu_idle to_pc i_susp i_pc irun i_out i_ticks].
  unfold happen at 1. cbn [current_task idle_thread Thread.set_intr]. rewrite <- Et, Ei, Z.eqb_refl. cbn [cpu_idle to_pc i_susp i_pc irun i_out i_ticks].
  rewrite local_irq_enable_eq. split_and!; [done..|by do 2 apply kinv_set_intr].
Qed.
End machine.

(** * Properties *)

(** C32. The idle thread, from its start on, whatever interrupts come between its statements and
    whatever the other threads do.  No assertion fails, and the ready queue stays exact.  When the processor
    is stopped, the idle thread runs, interrupts are on, and no thread is ready, unless an interrupt has come
    since the idle thread last entered [thread_block]: then it did not look at the queue again, and a thread can be ready
    (see the example below).  Such a thread waits for the next interrupt at most: if this is one of the clock, the first
    ready thread runs at once or as soon as the idle thread executes its next statement; if it is one of a device that wakes a
    thread, this thread runs next.  At [thread_block] the idle thread gives way to the first ready thread
    and sleeps; with none, it goes on by itself, prints its line, and stops the processor. *)
Theorem idle_thread_halts ts fuel k0 t0 rs0 s d :
  kinv ts k0 rs0 → running k0 → bounded k0 → current_task k0 ≠ idle_thread k0 → (length ts ≤ fuel)%nat →
  rtc (istep fuel) ((k0, idle_new t0), false) (s, d) →
  (∀ e o, happen fuel s e = Some o → ∃ s', o = Ok s') ∧
  ∃ rs, kinv ts s.1 rs ∧ running s.1 ∧
    (i_pc s.2 = Halted →
      current_task s.1 = idle_thread s.1 ∧ intr_on s.1 = true ∧ (rs = [] ∨ d = true) ∧
      (∀ t rs', rs = t :: rs' → ∃ s1, happen fuel s Clock = Some (Ok s1) ∧
         (current_task s1.1 = t ∨ ∃ s2, happen fuel s1 Go = Some (Ok s2) ∧ current_task s2.1 = t)) ∧
      (∀ w, may_wake s.1 w = true → ∃ s1 s2, happen fuel s (Device (Some w)) = Some (Ok s1) ∧
         happen fuel s1 Go = Some (Ok s2) ∧ current_task s2.1 = w)) ∧
    (i_pc s.2 = IdleBlock → i_susp s.2 = None →
      match rs with
      | t :: rs' => ∃ s', happen fuel s Go = Some (Ok s') ∧ current_task s'.1 = t ∧ kinv ts s'.1 rs' ∧
          status_of s'.1 (idle_thread s.1) = Some TASK_BLOCKED
      | [] => ∃ k', irun fuel s [Go; Go; Go; Go] =
            Some (k', IdleState Halted None (i_out s.2 ++ [put_str "CPU IDLE
"]) (i_ticks s.2)) ∧ current_task k' = idle_thread k' ∧ intr_on k' = true ∧ kinv ts k' []
      end).
Proof.
  intros Hk Hr Hb Hc Hf Hsteps.
  destruct (steps_inv ts fuel Hf _ _ rs0 s d (idle_new_inv ts k0 t0 rs0 Hk Hr Hb Hc) Hsteps) as (rs & Hi).
  split. { intros e o He. destruct (happen_inv ts fuel Hf _ _ _ _ _ Hi He) as (s' & _ & -> & _). by exists s'. }
  exists rs. destruct s as [k i]. pose proof Hi as [Hk' Hr' Hb' Hcpu Hsusp Hq]. cbn [fst snd] in *.
  split; [done|]. split; [done|]. split.
  - intros Hp. assert (i_susp i = None) as Es.
    { destruct (i_susp i) as [b|] eqn:E; [|done]. destruct (Hsusp b eq_refl) as (_ & ? & _). done. }
    destruct (Hcpu Es) as [Hcur Hon]. split; [done|]. split; [done|]. split_and!.
    + destruct d; [by right|left]. rewrite Hp, Hcur, decide_True in Hq by done. by apply Hq.
    + intros t rs' ->. destruct (clock_spec ts fuel Hf k i d _ Hi Hon) as (k1 & i1 & rs1 & E1 & Hi1 & Ep1 & Ei1 & _ & Hcase).
      exists (k1, i1). unfold happen at 1. rewrite Hon, E1. split; [done|]. cbn [fst].
      destruct Hcase as [(Ec & -> & Es1 & _)|[El _]]; [right|left; by injection El].
      destruct (turn_ready ts fuel Hf k1 i1 true t rs' Hi1) as (s2 & E2 & Ht & _); [by rewrite Ec, Ei1| |by rewrite Es1|by exists s2].
      rewrite Ep1. unfold end_hlt. by rewrite decide_True.
    + intros w Hw. destruct (wake_spec ts fuel Hf (Thread.set_intr k false) rs w) as (k1 & E1 & Hk1 & Hr1 & Hb1 & Ec & Ei & _);
        [by apply kinv_set_intr|done..|].
      destruct (device_inv ts k i d rs (w :: rs) (λ k, thread_unblock fuel k w) k1 Hi Hon E1) as [Ed Hi1]; [done..|].
      destruct (turn_ready ts fuel Hf _ _ true w rs Hi1) as (s2 & E2 & Ht & _).
      { cbn. by rewrite Ec, Ei. } { unfold end_hlt. by rewrite decide_True. } { by rewrite end_hlt_susp. }
      eexists _, s2. unfold happen at 1. rewrite Hon, Hw. cbn [andb]. split; [by rewrite Ed|]. split; [exact E2|exact Ht].
  - intros Hp Es. destruct (Hcpu Es) as [Hcur _]. destruct rs as [|t rs'].
    + destruct (turn_empty ts fuel Hf k i d Hi Hcur Hp Es) as (k' & E & ? & _ & ? & ?). by exists k'.
    + destruct (turn_ready ts fuel Hf k i d t rs' Hi Hcur Hp Es) as (s' & E & Ht & Hk1 & _ & Hst). by exists s'.
Qed.

(** * The hypotheses can be met *)

(** The threads of [Thread.demo_kstate]: 4096 runs, the idle thread 8192 and 12288 are ready. *)
Lemma demo_bounded : bounded demo_kstate.
Proof.
  intros t x E. unfold demo_kstate in E. cbn in E.
  rewrite !lookup_insert_Some, lookup_singleton_Some in E. naive_solver.
Qed.

(** 4096 blocks, the idle thread starts and gives way to 12288, which blocks too; the idle thread runs
    again, and is about to stop the processor when a device wakes 12288: it stops it all the same. *)
Definition demo_race : list idle_event :=
  [Run (OpBlock TASK_BLOCKED); Go; Go; Run (OpBlock TASK_WAITING); Go; Device (Some 12288); Go; Go].

Lemma irun_steps fuel es s d s' : irun fuel s es = Some s' → ∃ d', rtc (istep fuel) (s, d) (s', d').
Proof.
  revert s d. induction es as [|e es IH]; intros s d E; cbn [irun] in E.
  - injection E as <-. by exists d.
  - destruct (happen fuel s e) as [[s1| | |]|] eqn:He; try done.
    destruct (IH s1 (disturbed d s e) E) as (d' & Hsteps). exists d'. eapply rtc_l; [|exact Hsteps]. by constructor.
Qed.

Definition demo_stopped : istate := default (demo_kstate, idle_new 0) (irun 3 (demo_kstate, idle_new 0) demo_race).
Lemma demo_stopped_eq : irun 3 (demo_kstate, idle_new 0) demo_race = Some demo_stopped.
Proof. by vm_compute. Qed.

Lemma idle_thread_halts_witness : i_pc demo_stopped.2 = Halted ∧ queue_len (thread_ready_queue demo_stopped.1) = 1 ∧
  ∃ s1 t, happen 3 demo_stopped Clock = Some (Ok s1) ∧
    (current_task s1.1 = t ∨ ∃ s2, happen 3 s1 Go = Some (Ok s2) ∧ current_task s2.1 = t).
Proof.
  assert (i_pc demo_stopped.2 = Halted) as Hp by (by vm_compute).
  assert (queue_len (thread_ready_queue demo_stopped.1) = 1) as Hlen by (by vm_compute).
  split; [exact Hp|]. split; [exact Hlen|].
  destruct (irun_steps 3 demo_race (demo_kstate, idle_new 0) false demo_stopped demo_stopped_eq) as (d & Hsteps).
  destruct (idle_thread_halts [4096; 8192; 12288] 3 demo_kstate 0 [8192; 12288] demo_stopped d)
    as (_ & rs & Hk & _ & Hh & _); [exact demo_kinv|reflexivity|exact demo_bounded|discriminate|apply Nat.le_refl|exact Hsteps|].
  destruct (Hh Hp) as (_ & _ & _ & Hclock & _).
  pose proof (qs_len _ _ _ (k_queue _ _ _ Hk)) as Hl. rewrite Hlen in Hl.
  destruct rs as [|t rs']; [discriminate Hl|]. destruct (Hclock t rs' eq_refl) as (s1 & E1 & Hrun).
  exists s1, t. split; [exact E1|exact Hrun].
Defined.
