(* ===== verification/Stdio.v ===== *)
(** Formatted output: lib/stdio.c and lib/kernel/kstdio.c, on the byte memory of
    [CString].  The arguments are on the stack, one after the other. *)
From S2P Require Import Prelude CString.
Local Open Scope Z_scope.

(** * Operations *)

(** [itoa]; [value] and [radix] are unsigned, [buf] is [*buf]. *)
Fixpoint itoa (fuel : nat) (m : mem) (value buf radix : Z) : outcome (mem * Z) :=
  match fuel with
  | O => NoFuel
  | S fuel =>
      if radix =? 0 then Fault else
      let _m := value mod radix in
      let _i := value / radix in
      let! (m, buf) := if negb (_i =? 0) then itoa fuel m _i buf radix else Ok (m, buf) in
      let! m := store_char m buf (if _m <? 10 then _m + 48 else _m - 10 + 65) in
      Ok (m, ptr_inc buf)
  end.

(** Every radix from 2 on needs at most one call per bit. *)
Definition itoa_fuel : nat := 32.

(** A word of the stack. *)
Definition load_word (m : mem) (p : Z) : outcome Z :=
  let! b0 := load m p in
  let! b1 := load m (u32 (p + 1)) in
  let! b2 := load m (u32 (p + 2)) in
  let! b3 := load m (u32 (p + 3)) in
  Ok (b0 + 256 * b1 + 65536 * b2 + 16777216 * b3).

(** [va_start], [va_arg] for [int], [char] and [char *]. *)
Definition va_start (v : Z) : Z := v.
Definition va_arg_int (m : mem) (ap : Z) : outcome (Z * Z) :=
  let ap := u32 (ap + 4) in let! w := load_word m ap in Ok (s32 w, ap).
Definition va_arg_char (m : mem) (ap : Z) : outcome (Z * Z) :=
  let ap := u32 (ap + 4) in let! c := load_char m ap in Ok (c, ap).
Definition va_arg_str (m : mem) (ap : Z) : outcome (Z * Z) :=
  let ap := u32 (ap + 4) in let! w := load_word m ap in Ok (w, ap).

(** The next character: [index_char = *(++index_ptr)]. *)
Definition next_char (m : mem) (index_ptr : Z) : outcome (Z * Z) :=
  let index_ptr := ptr_inc index_ptr in
  let! c := load_char m index_ptr in Ok (index_ptr, c).

Section format.
(** Fuel of the string routines. *)
Variable fuel : nat.

(** The cases of the [switch], up to the advance of [index_ptr] they all end with:
    the memory, [buf_ptr] and [ap]. *)
Definition case_x (m : mem) (buf_ptr ap : Z) : outcome (mem * Z * Z) :=
  let! (arg_int, ap) := va_arg_int m ap in
  let! (m, buf_ptr) := itoa itoa_fuel m (u32 arg_int) buf_ptr 16 in
  Ok (m, buf_ptr, ap).

Definition case_s (m : mem) (buf_ptr ap : Z) : outcome (mem * Z * Z) :=
  let! (arg_str, ap) := va_arg_str m ap in
  let! (m, _) := strcpy fuel m buf_ptr arg_str in
  let! len := strlen fuel m arg_str in
  Ok (m, u32 (buf_ptr + len), ap).

Definition case_c (m : mem) (buf_ptr ap : Z) : outcome (mem * Z * Z) :=
  let! (c, ap) := va_arg_char m ap in
  let! m := store_char m buf_ptr c in
  Ok (m, ptr_inc buf_ptr, ap).

Definition case_d (m : mem) (buf_ptr ap : Z) : outcome (mem * Z * Z) :=
  let! (arg_int, ap) := va_arg_int m ap in
  let! (m, buf_ptr, arg_int) :=
    if arg_int <? 0 then
      let arg_int := s32 (0 - arg_int) in
      let! m := store_char m buf_ptr 45 in Ok (m, ptr_inc buf_ptr, arg_int)
    else Ok (m, buf_ptr, arg_int) in
  let! (m, buf_ptr) := itoa itoa_fuel m (u32 arg_int) buf_ptr 10 in
  Ok (m, buf_ptr, ap).

Definition conversion (index_char : Z) : option (mem → Z → Z → outcome (mem * Z * Z)) :=
  if index_char =? 120 then Some case_x
  else if index_char =? 115 then Some case_s
  else if index_char =? 99 then Some case_c
  else if index_char =? 100 then Some case_d
  else None.

Fixpoint vsprintf_loop (n : nat) (m : mem) (buf_ptr index_ptr index_char ap : Z)
    : outcome (mem * Z) :=
  match n with
  | O => NoFuel
  | S n =>
    if index_char =? 0 then Ok (m, buf_ptr)
    else if negb (index_char =? 37) then
      let! m := store_char m buf_ptr index_char in
      let! (index_ptr, index_char) := next_char m index_ptr in
      vsprintf_loop n m (ptr_inc buf_ptr) index_ptr index_char ap
    else
      let! (index_ptr, index_char) := next_char m index_ptr in
      match conversion index_char with
      | Some case =>
          let! (m, buf_ptr, ap) := case m buf_ptr ap in
          let! (index_ptr, index_char) := next_char m index_ptr in
          vsprintf_loop n m buf_ptr index_ptr index_char ap
      | None => vsprintf_loop n m buf_ptr index_ptr index_char ap
      end
  end.

Definition vsprintf (m : mem) (res_buf format ap : Z) : outcome (mem * Z) :=
  let! index_char := load_char m format in
  let! (m, _) := vsprintf_loop fuel m res_buf format index_char ap in
  let! len := strlen fuel m res_buf in
  Ok (m, len).

(** [sprintf], its parameters being on the stack from [frame] on. *)
Definition sprintf (m : mem) (frame : Z) : outcome (mem * Z) :=
  let! res_buf := load_word m frame in
  let! format := load_word m (u32 (frame + 4)) in
  let args := va_start (u32 (frame + 4)) in
  vsprintf m res_buf format args.

Definition MAX_BUFFER : Z := 1024.

(** [printf] and [printk], up to the call of [write] or [console_str] with
    [res_buf], the address of their local array. *)
Definition printf (m : mem) (res_buf frame : Z) : outcome (mem * Z) :=
  let! format := load_word m frame in
  let args := va_start frame in
  let! m := memset_loop (Z.to_nat MAX_BUFFER) m res_buf 0 in
  let! (m, _) := vsprintf m res_buf format args in
  Ok (m, res_buf).
Definition printk := printf.
End format.

(** * What the output should be *)

(** The digits of [v] in base [r]. *)
Definition digit (d : Z) : Z := if d <? 10 then d + 48 else d - 10 + 65.
Fixpoint digits (fuel : nat) (r v : Z) : list Z :=
  match fuel with
  | O => []
  | S fuel => (if negb (v / r =? 0) then digits fuel r (v / r) else []) ++ [digit (v mod r)]
  end.

(** Reading a numeral. *)
Definition digit_value (c : Z) : Z := if c <? 65 then c - 48 else c - 65 + 10.
Definition value_of (r : Z) (ds : list Z) : Z := foldl (λ v c, v * r + digit_value c) 0 ds.

(** An argument: a word, or the string at an address. *)
Inductive arg := AWord (w : Z) | AStr (p : Z) (s : list Z).
Definition arg_word (a : arg) : Z := match a with AWord w => w | AStr p _ => p end.

Definition decimal (w : Z) : list Z :=
  if s32 w <? 0 then 45 :: digits itoa_fuel 10 (- s32 w) else digits itoa_fuel 10 w.

(** The output of a format for some arguments, and whether the last piece put a
    terminator behind the output ([b]: whether there is one before). *)
Fixpoint render (fmt : list Z) (args : list arg) (b : bool) : option (list Z * bool) :=
  match fmt with
  | [] => Some ([], b)
  | c :: fmt =>
    if decide (c = 37) then
      match fmt with
      | [] => Some ([], b)
      | k :: fmt' =>
        if decide (k = 120) then
          match args with
          | AWord w :: args => prod_map (app (digits itoa_fuel 16 w)) id <$> render fmt' args false
          | _ => None
          end
        else if decide (k = 115) then
          match args with
          | AStr _ s :: args => prod_map (app s) id <$> render fmt' args true
          | _ => None
          end
        else if decide (k = 99) then
          match args with
          | AWord w :: args => prod_map (app [u8 w]) id <$> render fmt' args false
          | _ => None
          end
        else if decide (k = 100) then
          match args with
          | AWord w :: args => prod_map (app (decimal w)) id <$> render fmt' args false
          | _ => None
          end
        else render fmt args b
      end
    else prod_map (app [c]) id <$> render fmt args false
  end.

Definition term (b : bool) : list Z := if b then [0] else [].

(** The arguments on the stack: the one after [ap] is at [ap + 4]. *)
Definition word_bytes (w : Z) : list Z :=
  [w mod 256; w / 256 mod 256; w / 65536 mod 256; w / 16777216].
Definition word_at (m : mem) (p w : Z) : Prop :=
  0 ≤ w < 4294967296 ∧ fits p 4 ∧ bytes_at m p (word_bytes w).
Fixpoint args_at (m : mem) (ap : Z) (args : list arg) : Prop :=
  match args with
  | [] => True
  | a :: args =>
      0 ≤ ap ∧ word_at m (ap + 4) (arg_word a) ∧
      match a with AWord _ => True | AStr p s => cstr m p s end ∧
      args_at m (ap + 4) args
  end.
Definition short (n : nat) (a : arg) : Prop :=
  match a with AWord _ => True | AStr _ s => (length s < n)%nat end.

(** [n] bytes from [p] on, in the memory but not in its read-only part. *)
Definition buffer (ro m : mem) (p n : Z) : Prop :=
  fits p n ∧ alloc m p n ∧ ∀ a, p ≤ a < p + n → ro !! a = None.

(** * Lemmas *)

(** ** Memory *)

Lemma write_bytes_app m p l1 l2 :
  write_bytes m p (l1 ++ l2) = write_bytes (write_bytes m p l1) (p + Z.of_nat (length l1)) l2.
Proof.
  revert m p. induction l1 as [|x l1 IH]; intros m p; simpl; [by rewrite Z.add_0_r|].
  rewrite IH. f_equal. lia.
Qed.

Lemma bytes_at_subseteq ro m p l : ro ⊆ m → bytes_at ro p l → bytes_at m p l.
Proof.
  intros Hsub. revert p. induction l as [|x l IH]; intros p; simpl; [done|].
  intros (E & Hx & H). split_and!; [by eapply lookup_weaken|done|by apply IH].
Qed.

Lemma cstr_subseteq ro m p s : ro ⊆ m → cstr ro p s → cstr m p s.
Proof. intros Hsub (H & Hn & Hf). split_and!; [by eapply bytes_at_subseteq|done..]. Qed.

Lemma word_at_subseteq ro m p w : ro ⊆ m → word_at ro p w → word_at m p w.
Proof. intros Hsub (? & ? & ?). split; [done|]. split; [done|]. by eapply bytes_at_subseteq. Qed.

Lemma alloc_write m p n q l : alloc m p n → alloc (write_bytes m q l) p n.
Proof.
  revert m q. induction l as [|x l IH]; intros m q H; simpl; [done|].
  by apply IH, alloc_insert.
Qed.

Lemma subseteq_write ro m p l :
  ro ⊆ m → (∀ a, p ≤ a < p + Z.of_nat (length l) → ro !! a = None) → ro ⊆ write_bytes m p l.
Proof.
  revert m p. induction l as [|x l IH]; intros m p Hsub Hn; simpl in *; [done|].
  apply IH; [|intros a ?; apply Hn; lia]. apply insert_subseteq_r; [apply Hn; lia|done].
Qed.

(** Room that is left after writing [l]. *)
Lemma buffer_write ro m p n l :
  buffer ro m p n → Z.of_nat (length l) ≤ n →
  buffer ro (write_bytes m p l) (p + Z.of_nat (length l)) (n - Z.of_nat (length l)).
Proof.
  intros (Hf & Ha & Hn) Hl. split_and!; [unfold fits in *; lia| |intros a ?; apply Hn; lia].
  apply alloc_write. intros a ?. apply Ha. lia.
Qed.

Lemma buffer_sub ro m p n l :
  buffer ro m p n → Z.of_nat (length l) ≤ n → ro ⊆ m → ro ⊆ write_bytes m p l.
Proof. intros (_ & _ & Hn) Hl Hsub. apply subseteq_write; [done|]. intros a ?. apply Hn. lia. Qed.

Lemma load_word_eq m p w : word_at m p w → load_word m p = Ok w.
Proof.
  intros (Hw & Hf & H). unfold load_word. cbn [bytes_at word_bytes] in H.
  destruct H as (E0 & _ & E1 & _ & E2 & _ & E3 & _ & _).
  rewrite !u32_small by (unfold fits in *; lia).
  replace (p + 1 + 1) with (p + 2) in * by lia. replace (p + 2 + 1) with (p + 3) in * by lia.
  rewrite (load_Some _ _ _ E0). cbn [obind]. rewrite (load_Some _ _ _ E1). cbn [obind].
  rewrite (load_Some _ _ _ E2). cbn [obind]. rewrite (load_Some _ _ _ E3). cbn [obind].
  f_equal. divlia.
Qed.

Lemma store_char_buffer ro m p n c :
  buffer ro m p n → 0 < n → store_char m p c = Ok (<[p := u8 c]> m).
Proof. intros (_ & Ha & _) Hn. unfold store_char. apply store_is_Some, Ha. lia. Qed.

Lemma buffer_inc ro m p n : buffer ro m p n → 0 < n → ptr_inc p = p + 1.
Proof. intros (Hf & _) Hn. by apply (ptr_inc_eq p n). Qed.

(** ** Digits *)

Lemma digit_value_digit d : 0 ≤ d < 36 → digit_value (digit d) = d.
Proof.
  intros. unfold digit, digit_value.
  destruct (Z.ltb_spec d 10), (Z.ltb_spec (d + 48) 65), (Z.ltb_spec (d - 10 + 65) 65); lia.
Qed.

Lemma value_of_snoc r ds c : value_of r (ds ++ [c]) = value_of r ds * r + digit_value c.
Proof. unfold value_of. by rewrite foldl_app. Qed.

Lemma digits_nonempty f r v : (0 < f)%nat → digits f r v ≠ [].
Proof. destruct f; [lia|]. simpl. by destruct (if negb _ then _ else _). Qed.

Lemma digits_spec f r v k :
  2 ≤ r ≤ 36 → 0 ≤ v < r ^ Z.of_nat (S k) → (k < f)%nat →
  let ds := digits f r v in
  value_of r ds = v ∧ (length ds ≤ S k)%nat ∧
  Forall (λ c, ∃ d, c = digit d ∧ 0 ≤ d < r) ds ∧ (v ≠ 0 → head ds ≠ Some 48).
Proof.
  intros Hr. revert v k. induction f as [|f IH]; intros v k Hv Hk; [lia|].
  cbn [digits]. cbv zeta. pose proof (Z.mod_pos_bound v r ltac:(lia)) as Hmod.
  assert (Forall (λ c, ∃ d, c = digit d ∧ 0 ≤ d < r) [digit (v mod r)]) as Hlast by eauto.
  destruct (Z.eqb_spec (v / r) 0) as [E|E]; cbn [negb app].
  - assert (v mod r = v) as Em by (pose proof (Z.div_mod v r); lia). rewrite Em in *.
    split_and!; [|simpl; lia|done|].
    + unfold value_of. simpl. by rewrite digit_value_digit by lia.
    + intros Hne [=H]. revert H. unfold digit. destruct (Z.ltb_spec v 10); lia.
  - assert (0 ≤ v / r) by (apply Z.div_pos; lia).
    destruct k as [|k].
    { exfalso. apply E. apply Z.div_small. change (Z.of_nat 1) with 1 in Hv. lia. }
    destruct (IH (v / r) k) as (IHv & IHl & IHd & IHh).
    { split; [done|]. apply Z.div_lt_upper_bound; [lia|].
      rewrite (Nat2Z.inj_succ (S k)), Z.pow_succ_r in Hv; lia. }
    { lia. }
    split_and!.
    + rewrite value_of_snoc, IHv, digit_value_digit by lia. pose proof (Z.div_mod v r). lia.
    + rewrite length_app. simpl. lia.
    + by apply Forall_app_2.
    + intros _. pose proof (digits_nonempty f r (v / r) ltac:(lia)).
      specialize (IHh E). destruct (digits f r (v / r)); [done|]. done.
Qed.

Lemma digit_byte d : 0 ≤ d < 36 → byte (digit d).
Proof. intros. unfold digit, byte. destruct (d <? 10); lia. Qed.

Lemma itoa_eq ro f m v p r n :
  2 ≤ r ≤ 36 → 0 ≤ v < r ^ Z.of_nat f → buffer ro m p n → Z.of_nat (length (digits f r v)) ≤ n →
  (0 < f)%nat →
  itoa f m v p r = Ok (write_bytes m p (digits f r v), p + Z.of_nat (length (digits f r v))).
Proof.
  intros Hr. revert m v p n. induction f as [|f IH]; intros m v p n Hv Hb Hn Hf; [lia|].
  pose proof (Z.mod_pos_bound v r ltac:(lia)) as Hmod. cbn [itoa digits] in *.
  rewrite (proj2 (Z.eqb_neq r 0)) by lia. cbv zeta. fold (digit (v mod r)).
  rewrite length_app in Hn. cbn [length] in Hn.
  assert (u8 (digit (v mod r)) = digit (v mod r)) as Hd by (apply u8_small, digit_byte; lia).
  destruct (Z.eqb_spec (v / r) 0) as [E|E]; cbn [negb obind app length] in *.
  - rewrite (store_char_buffer _ _ _ _ _ Hb), Hd by lia. cbn [obind].
    by rewrite (buffer_inc _ _ _ _ Hb) by lia.
  - assert (0 ≤ v / r) by (apply Z.div_pos; lia). destruct f as [|f].
    { exfalso. apply E. apply Z.div_small. change (Z.of_nat 1) with 1 in Hv. lia. }
    rewrite (IH m (v / r) p n); [|split; [done|]|done|lia|lia].
    2:{ apply Z.div_lt_upper_bound; [lia|].
        rewrite (Nat2Z.inj_succ (S f)), Z.pow_succ_r in Hv; lia. }
    cbn [obind]. pose proof (buffer_write _ _ _ _ (digits (S f) r (v / r)) Hb ltac:(lia)) as Hb'.
    rewrite (store_char_buffer _ _ _ _ _ Hb'), Hd by lia. cbn [obind].
    rewrite (buffer_inc _ _ _ _ Hb') by lia. rewrite write_bytes_app, length_app. cbn [write_bytes length].
    do 2 f_equal. lia.
Qed.

Lemma word_range r w : 2 ≤ r → 0 ≤ w < 4294967296 → 0 ≤ w < r ^ Z.of_nat itoa_fuel.
Proof.
  intros Hr Hw. pose proof (Z.pow_le_mono_l 2 r (Z.of_nat itoa_fuel) ltac:(lia)) as H.
  change (2 ^ Z.of_nat itoa_fuel) with 4294967296 in H. lia.
Qed.

Lemma itoa_word ro m w p r n :
  2 ≤ r ≤ 36 → 0 ≤ w < 4294967296 → buffer ro m p n →
  Z.of_nat (length (digits itoa_fuel r w)) ≤ n →
  itoa itoa_fuel m w p r = Ok (write_bytes m p (digits itoa_fuel r w),
    p + Z.of_nat (length (digits itoa_fuel r w))).
Proof.
  intros Hr Hw Hb Hn. eapply itoa_eq; [done| |done|done|unfold itoa_fuel; lia].
  apply word_range; lia.
Qed.

(** ** Reading the format and the arguments *)

Definition first (s : list Z) : Z := hd 0 s.

Lemma cstr_first m p s : cstr m p s → load_char m p = Ok (s8 (first s)).
Proof.
  destruct s as [|x s]; intros H; apply load_char_eq; [by apply cstr_nil|].
  by apply cstr_cons in H as (E & _).
Qed.

Lemma next_char_eq ro m idx c s : ro ⊆ m → cstr ro idx (c :: s) →
  next_char m idx = Ok (idx + 1, s8 (first s)) ∧ cstr ro (idx + 1) s ∧ byte c ∧ c ≠ 0.
Proof.
  intros Hsub Hs. apply cstr_cons in Hs as (E & Hc & Hc0 & Ep & Hs).
  split_and!; try done. unfold next_char. rewrite Ep.
  by rewrite (cstr_first m _ s) by (by eapply cstr_subseteq).
Qed.

Lemma char_eqb c k : byte c → 0 ≤ k < 128 → (s8 c =? k) = bool_decide (c = k).
Proof.
  intros Hc Hk. rewrite <- (s8_small k) at 1 by lia. apply s8_eqb; [done|unfold byte; lia].
Qed.

Lemma args_at_cons ro m ap a args : ro ⊆ m → args_at ro ap (a :: args) →
  u32 (ap + 4) = ap + 4 ∧ word_at m (ap + 4) (arg_word a) ∧ args_at ro (ap + 4) args.
Proof.
  intros Hsub (H0 & (Hw & Hf & Hb) & _ & Hargs). split; [|split]; [| |done].
  - apply u32_small. unfold fits in *. lia.
  - split; [done|]. split; [done|]. by eapply bytes_at_subseteq.
Qed.

Lemma va_arg_int_eq ro m ap a args : ro ⊆ m → args_at ro ap (a :: args) →
  va_arg_int m ap = Ok (s32 (arg_word a), ap + 4).
Proof.
  intros Hsub (E & Hw & _)%(args_at_cons ro m); [|done]. unfold va_arg_int.
  by rewrite E, (load_word_eq _ _ _ Hw).
Qed.

Lemma va_arg_str_eq ro m ap a args : ro ⊆ m → args_at ro ap (a :: args) →
  va_arg_str m ap = Ok (arg_word a, ap + 4).
Proof.
  intros Hsub (E & Hw & _)%(args_at_cons ro m); [|done]. unfold va_arg_str.
  by rewrite E, (load_word_eq _ _ _ Hw).
Qed.

Lemma va_arg_char_eq ro m ap a args : ro ⊆ m → args_at ro ap (a :: args) →
  va_arg_char m ap = Ok (s8 (arg_word a mod 256), ap + 4).
Proof.
  intros Hsub (E & (_ & _ & Hb) & _)%(args_at_cons ro m); [|done]. unfold va_arg_char.
  rewrite E. destruct Hb as (E0 & _). by rewrite (load_char_eq _ _ _ E0).
Qed.

(** ** The loop *)

Lemma prefixed l (r : option (list Z * bool)) out t :
  prod_map (app l) id <$> r = Some (out, t) → ∃ out', r = Some (out', t) ∧ out = l ++ out'.
Proof. destruct r as [[out' t']|]; intros [=<- <-]; eauto. Qed.

Lemma render_terminated n fmt args out :
  (length fmt < n)%nat → render fmt args true = Some (out, false) → out ≠ [].
Proof.
  revert fmt args out. induction n as [|n IH]; intros fmt args out Hn; [lia|].
  destruct fmt as [|c fmt]; [done|]. cbn [render length] in *.
  assert (∀ (l : list Z) (r : option (list Z * bool)), l ≠ [] →
    prod_map (app l) id <$> r = Some (out, false) → out ≠ []) as Hpre.
  { intros l r Hl (out' & _ & ->)%prefixed. by destruct l. }
  case_decide; [|apply (Hpre [c]); done].
  destruct fmt as [|k fmt']; [done|]. cbn [length] in *.
  case_decide; [destruct args as [|[]]; try done; apply Hpre; by apply digits_nonempty, Nat.lt_0_succ|].
  case_decide.
  { destruct args as [|[w|p s] args]; try done.
    destruct (render fmt' args true) as [[out' t']|] eqn:E; [|done]. intros [=<- ->].
    assert (out' ≠ []) by (eapply IH; [|done]; lia). destruct s; [done|]. by intros [=]. }
  case_decide; [destruct args as [|[]]; try done; by apply (Hpre [_])|].
  case_decide; [destruct args as [|[]]; try done; apply Hpre|apply IH; simpl; lia].
  unfold decimal. case_match; [done|by apply digits_nonempty, Nat.lt_0_succ].
Qed.

Section loop.
Variable fuel : nat.
Variable ro : mem.

(** The loop is about to format [fmt] at [p]; the rest of the output is [out]. *)
Record ready (m : mem) (p : Z) (fmt : list Z) (args : list arg) (idx ap : Z) (b : bool)
    (out : list Z) (t : bool) : Prop := Ready {
  r_fmt : cstr ro idx fmt;
  r_args : args_at ro ap args;
  r_short : Forall (short fuel) args;
  r_sub : ro ⊆ m;
  r_render : render fmt args b = Some (out, t);
  r_buffer : buffer ro m p (Z.of_nat (length out) + 1);
  r_term : b = true → m !! p = Some 0
}.

Definition loop_spec (n : nat) : Prop :=
  ∀ m p fmt args idx ap b out t, (length fmt < n)%nat → ready m p fmt args idx ap b out t →
  vsprintf_loop fuel n m p idx (s8 (first fmt)) ap =
    Ok (write_bytes m p (out ++ term t), p + Z.of_nat (length out)).

(** The rest of the loop, after the output [l]. *)
Lemma loop_rest n m p l fmt args idx ap out t :
  loop_spec n → (length fmt < n)%nat → cstr ro idx fmt → args_at ro ap args →
  Forall (short fuel) args → ro ⊆ m → render fmt args false = Some (out, t) →
  buffer ro m p (Z.of_nat (length (l ++ out)) + 1) →
  vsprintf_loop fuel n (write_bytes m p l) (p + Z.of_nat (length l)) idx (s8 (first fmt)) ap =
    Ok (write_bytes m p ((l ++ out) ++ term t), p + Z.of_nat (length (l ++ out))).
Proof.
  intros IH Hn Hf Ha Hs Hsub Hr Hb. rewrite length_app in Hb.
  rewrite (IH _ _ fmt args idx ap false out t); [|done|].
  - rewrite <- app_assoc, (write_bytes_app m p l), length_app. do 2 f_equal. lia.
  - split; try done; [eapply buffer_sub; [exact Hb|lia|done]|].
    pose proof Hb as Hb'. eapply (buffer_write _ _ _ _ l) in Hb'; [|lia].
    by replace (Z.of_nat (length l + length out) + 1 - Z.of_nat (length l))
      with (Z.of_nat (length out) + 1) in Hb' by lia.
Qed.

Lemma ro_apart m p n src s : cstr ro src s → buffer ro m p n → 0 < n →
  p ≤ src ∨ src + Z.of_nat (length s) + 1 ≤ p.
Proof.
  intros (Hs & _) (_ & _ & Hn) H0. apply bytes_at_alloc in Hs.
  destruct (decide (p ≤ src)); [by left|]. right.
  destruct (decide (src + Z.of_nat (length s) + 1 ≤ p)); [done|].
  destruct (Hs p) as [x Hx]; [rewrite length_app; simpl; lia|].
  by rewrite Hn in Hx by lia.
Qed.

(** The same after a string, whose terminator will be overwritten or stay. *)
Lemma loop_rest_str n m p l fmt args idx ap out t :
  loop_spec n → (length fmt < n)%nat → cstr ro idx fmt → args_at ro ap args →
  Forall (short fuel) args → ro ⊆ m → render fmt args true = Some (out, t) →
  buffer ro m p (Z.of_nat (length (l ++ out)) + 1) →
  vsprintf_loop fuel n (write_bytes m p (l ++ [0])) (p + Z.of_nat (length l)) idx
      (s8 (first fmt)) ap =
    Ok (write_bytes m p ((l ++ out) ++ term t), p + Z.of_nat (length (l ++ out))).
Proof.
  intros IH Hn Hf Ha Hs Hsub Hr Hb. rewrite length_app in Hb.
  rewrite write_bytes_app. cbn [write_bytes].
  pose proof Hb as Hb'. eapply (buffer_write _ _ _ _ l) in Hb'; [|lia].
  replace (Z.of_nat (length l + length out) + 1 - Z.of_nat (length l))
    with (Z.of_nat (length out) + 1) in Hb' by lia.
  set (q := p + Z.of_nat (length l)) in *. set (m1 := write_bytes m p l) in *.
  assert (ro ⊆ m1) as Hsub1 by (eapply buffer_sub; [done|lia|done]).
  rewrite (IH _ _ fmt args idx ap true out t); [|done|].
  - rewrite <- app_assoc, (write_bytes_app m p l), length_app. fold m1 q. f_equal. f_equal; [|lia].
    assert (out ++ term t ≠ []) as Hne.
    { destruct t; [by destruct out|]. rewrite app_nil_r. by eapply render_terminated. }
    destruct (out ++ term t) as [|x X]; [done|]. cbn [write_bytes]. by rewrite insert_insert_eq.
  - destruct Hb' as (Hfit & Hall & Hro). split; try done.
    + apply insert_subseteq_r; [apply Hro; lia|done].
    + split_and!; [done|by apply alloc_insert|done].
    + intros _. apply lookup_insert_eq.
Qed.

(** The pieces: what each conversion writes before the loop goes on. *)
Lemma conversion_decimal m p n ap w args :
  ro ⊆ m → args_at ro ap (AWord w :: args) → buffer ro m p n →
  Z.of_nat (length (decimal w)) ≤ n →
  case_d m p ap =
  Ok (write_bytes m p (decimal w), p + Z.of_nat (length (decimal w)), ap + 4).
Proof.
  intros Hsub Ha Hb Hn. unfold case_d. pose proof (args_at_cons ro m _ _ _ Hsub Ha) as (_ & [Hw _] & _).
  rewrite (va_arg_int_eq _ _ _ _ _ Hsub Ha). cbn [obind arg_word] in *. unfold decimal in *.
  destruct (Z.ltb_spec (s32 w) 0) as [Hneg|Hpos]; cbn [obind].
  - assert (-2147483648 ≤ s32 w) by (unfold s32; pose proof (Z.mod_pos_bound
      (w + 2147483648) 4294967296); lia).
    cbn [length] in Hn. rewrite (store_char_buffer _ _ _ _ _ Hb) by lia. cbn [obind].
    rewrite (buffer_inc _ _ _ _ Hb) by lia. change (u8 45) with 45.
    pose proof (buffer_write _ _ _ _ [45] Hb ltac:(simpl; lia)) as Hb'.
    change (write_bytes m p [45]) with (<[p := 45]> m) in Hb'.
    change (Z.of_nat (length [45])) with 1 in Hb'.
    assert (u32 (s32 (0 - s32 w)) = - s32 w) as ->.
    { rewrite u32_s32. apply u32_small. lia. }
    rewrite (itoa_word _ _ (- s32 w) _ 10 _ ltac:(lia) ltac:(lia) Hb') by lia.
    cbn [obind write_bytes length]. do 3 f_equal. lia.
  - rewrite u32_s32, u32_small by done.
    by rewrite (itoa_word _ _ w _ 10 _ ltac:(lia) Hw Hb) by lia.
Qed.

Lemma conversion_hex m p n ap w args :
  ro ⊆ m → args_at ro ap (AWord w :: args) → buffer ro m p n →
  Z.of_nat (length (digits itoa_fuel 16 w)) ≤ n →
  case_x m p ap =
  Ok (write_bytes m p (digits itoa_fuel 16 w),
    p + Z.of_nat (length (digits itoa_fuel 16 w)), ap + 4).
Proof.
  intros Hsub Ha Hb Hn. unfold case_x. pose proof (args_at_cons ro m _ _ _ Hsub Ha) as (_ & [Hw _] & _).
  rewrite (va_arg_int_eq _ _ _ _ _ Hsub Ha). cbn [obind arg_word] in *.
  rewrite u32_s32, u32_small by done. by rewrite (itoa_word _ _ w _ 16 _ ltac:(lia) Hw Hb) by lia.
Qed.

Lemma conversion_char m p n ap w args :
  ro ⊆ m → args_at ro ap (AWord w :: args) → buffer ro m p n → 0 < n →
  case_c m p ap =
  Ok (write_bytes m p [u8 w], p + 1, ap + 4).
Proof.
  intros Hsub Ha Hb Hn. unfold case_c. rewrite (va_arg_char_eq _ _ _ _ _ Hsub Ha). cbn [obind arg_word].
  rewrite (store_char_buffer _ _ _ _ _ Hb) by lia. cbn [obind].
  rewrite (buffer_inc _ _ _ _ Hb) by lia. rewrite u8_s8. unfold u8. by rewrite Zmod_mod.
Qed.

Lemma conversion_str m p n ap q s args :
  ro ⊆ m → args_at ro ap (AStr q s :: args) → buffer ro m p n →
  Z.of_nat (length s) < n → (length s < fuel)%nat →
  case_s fuel m p ap =
  Ok (write_bytes m p (s ++ [0]), p + Z.of_nat (length s), ap + 4).
Proof.
  intros Hsub Ha Hb Hn Hs. unfold case_s. rewrite (va_arg_str_eq _ _ _ _ _ Hsub Ha). cbn [obind arg_word].
  destruct Ha as (_ & _ & Hq & _). pose proof Hq as (_ & _ & Hfq). pose proof Hb as (Hfb & Hab & _).
  unfold strcpy. rewrite (ASSERT_true _ (fits_not_null2 _ _ _ _ Hfb Hfq)). cbn [obind].
  rewrite (copy_loop_eq _ _ _ _ s);
    [|done|by eapply cstr_subseteq|unfold fits in *; lia|intros a ?; apply Hab; lia|].
  2:{ eapply ro_apart; [done..|lia]. }
  cbn [obind]. rewrite (strlen_eq _ _ _ s); [|done|].
  2:{ eapply cstr_subseteq; [|done]. eapply buffer_sub; [done| |done].
      rewrite length_app. simpl. lia. }
  cbn [obind]. rewrite u32_small; [done|]. unfold fits in Hfb. lia.
Qed.

Lemma conversion_eq k : byte k → conversion fuel (s8 k) =
  if decide (k = 120) then Some case_x
  else if decide (k = 115) then Some (case_s fuel)
  else if decide (k = 99) then Some case_c
  else if decide (k = 100) then Some case_d
  else None.
Proof.
  intros Hk. unfold conversion. rewrite !char_eqb by (done || lia).
  repeat case_decide; subst; repeat case_bool_decide; done.
Qed.

(** The next argument, and the rest of the output. *)
Ltac next_argument ro args Hr Ha Hs Hsub :=
  destruct args as [|[w|q s] args]; try done; apply prefixed in Hr as (out' & Hr & ->);
  pose proof (args_at_cons ro _ _ _ _ Hsub Ha) as (_ & _ & Ha');
  apply Forall_cons in Hs as [Hshort Hs].

(** A conversion: the character [k] after a percent sign. *)
Lemma loop_conversion n m p k fmt args idx ap b out t :
  loop_spec n → (S (length fmt) < n)%nat →
  ready m p (37 :: k :: fmt) args idx ap b out t →
  vsprintf_loop fuel (S n) m p idx 37 ap =
    Ok (write_bytes m p (out ++ term t), p + Z.of_nat (length out)).
Proof.
  intros IH Hn [Hf Ha Hs Hsub Hr Hb Ht].
  destruct (next_char_eq _ m _ _ _ Hsub Hf) as (Hnext & Hf1 & _).
  destruct (next_char_eq _ m _ _ _ Hsub Hf1) as (_ & Hf2 & Hk & Hk0).
  assert (∀ l, Z.of_nat (length l) ≤ Z.of_nat (length out) + 1 →
    next_char (write_bytes m p l) (idx + 1) = Ok (idx + 1 + 1, s8 (first fmt))) as Hnext2.
  { intros l Hl. eapply next_char_eq; [|exact Hf1]. by eapply buffer_sub. }
  cbn [vsprintf_loop]. change (37 =? 0) with false. change (negb (37 =? 37)) with false. cbv iota.
  rewrite Hnext. cbn [obind first hd]. rewrite conversion_eq by done.
  cbn [render] in Hr. rewrite decide_True in Hr by done.
  destruct (decide (k = 120)); [|destruct (decide (k = 115));
    [|destruct (decide (k = 99)); [|destruct (decide (k = 100))]]];
    cbv iota beta; [next_argument ro args Hr Ha Hs Hsub; rewrite length_app in Hnext2..|].
  - rewrite (conversion_hex _ _ _ _ _ _ Hsub Ha Hb) by (rewrite length_app; lia). cbn [obind].
    rewrite Hnext2 by lia. cbn [obind]. apply (loop_rest _ _ _ _ fmt args); auto with lia.
  - rewrite (conversion_str _ _ _ _ _ _ _ Hsub Ha Hb) by (done || rewrite length_app; lia).
    cbn [obind]. rewrite Hnext2 by (rewrite length_app; simpl; lia). cbn [obind].
    apply (loop_rest_str _ _ _ _ fmt args); auto with lia.
  - rewrite (conversion_char _ _ _ _ _ _ Hsub Ha Hb) by lia. cbn [obind].
    rewrite Hnext2 by (simpl; lia). cbn [obind].
    apply (loop_rest _ _ _ [u8 w] fmt args); auto with lia.
  - rewrite (conversion_decimal _ _ _ _ _ _ Hsub Ha Hb) by (rewrite length_app; lia). cbn [obind].
    rewrite Hnext2 by lia. cbn [obind]. apply (loop_rest _ _ _ _ fmt args); auto with lia.
  - apply (IH _ _ (k :: fmt) args _ _ b); [done|]. by split.
Qed.

Lemma loop_ok n : loop_spec n.
Proof.
  induction n as [|n IH]; intros m p fmt args idx ap b out t Hn Hready; [lia|].
  destruct fmt as [|c fmt].
  - destruct Hready as [_ _ _ _ Hr Hb Ht]. injection Hr as <- <-. cbn. rewrite Z.add_0_r.
    destruct b; simpl; [|done]. by rewrite insert_id by auto.
  - cbn [length] in Hn. pose proof Hready as [Hf Ha Hs Hsub Hr Hb _].
    destruct (next_char_eq _ m _ _ _ Hsub Hf) as (_ & Hf1 & Hc & Hc0).
    destruct (decide (c = 37)) as [->|Hne].
    + change (s8 (first (37 :: fmt))) with 37. destruct fmt as [|k fmt].
      * cbn [vsprintf_loop]. change (37 =? 0) with false. cbn [negb Z.eqb].
        destruct (next_char_eq _ m _ _ _ Hsub Hf) as (-> & _).
        apply (IH _ _ [] args _ _ b); [simpl; lia|]. destruct Hready. by split.
      * apply (loop_conversion _ _ _ k fmt args idx ap b out t IH); [simpl in Hn; lia|done].
    + cbn [vsprintf_loop first hd]. rewrite !char_eqb, !bool_decide_false by (done || lia).
      cbn [negb]. cbn [render] in Hr. rewrite decide_False in Hr by done.
      apply prefixed in Hr as (out' & Hr & ->). rewrite length_app in Hb. cbn [length] in Hb.
      rewrite (store_char_buffer _ _ _ _ _ Hb), u8_s8, byte_u8 by (done || lia). cbn [obind].
      destruct (next_char_eq ro (<[p := c]> m) _ _ _
        (buffer_sub _ _ _ _ [c] Hb ltac:(simpl; lia) Hsub) Hf) as (-> & _).
      cbn [obind]. rewrite (buffer_inc _ _ _ _ Hb) by lia.
      apply (loop_rest _ _ _ [c] fmt args); auto with lia.
Qed.
End loop.

(** The output consists of bytes. *)
Lemma digits_byte f r v : 2 ≤ r ≤ 36 → Forall byte (digits f r v).
Proof.
  intros Hr. revert v. induction f as [|f IH]; intros v; [constructor|]. cbn [digits].
  apply Forall_app_2; [destruct (negb _); [apply IH|constructor]|].
  constructor; [|constructor]. apply digit_byte. pose proof (Z.mod_pos_bound v r). lia.
Qed.

Lemma decimal_byte w : Forall byte (decimal w).
Proof.
  unfold decimal. destruct (_ <? 0); [constructor; [unfold byte; lia|]|]; apply digits_byte; lia.
Qed.

Lemma render_byte ro n fmt args ap b out t :
  (length fmt < n)%nat → Forall byte fmt → args_at ro ap args →
  render fmt args b = Some (out, t) → Forall byte out.
Proof.
  revert fmt args ap b out. induction n as [|n IH]; intros fmt args ap b out Hn Hf Ha; [lia|].
  destruct fmt as [|c fmt]; [intros [=<- <-]; constructor|].
  apply Forall_cons in Hf as [Hc Hf]. cbn [render length] in *.
  destruct (decide (c = 37)).
  2:{ intros (out' & Hr & ->)%prefixed. apply Forall_app_2; [by apply Forall_singleton|].
      eapply IH; [|done..]. lia. }
  destruct fmt as [|k fmt]; [intros [=<- <-]; constructor|].
  pose proof Hf as [_ Hf']%Forall_cons. cbn [length] in *.
  destruct (decide (k = 120)); [|destruct (decide (k = 115));
    [|destruct (decide (k = 99)); [|destruct (decide (k = 100))]]].
  5:{ apply (IH _ _ ap); [simpl; lia|done..]. }
  all: destruct args as [|[w|q s] args]; try done; intros (out' & Hr & ->)%prefixed;
    destruct Ha as (_ & _ & Hstr & Ha);
    apply Forall_app_2; [|eapply IH; [|exact Hf'|exact Ha|exact Hr]; lia].
  - apply digits_byte. lia.
  - by eapply cstr_byte.
  - constructor; [apply u8_range|constructor].
  - apply decimal_byte.
Qed.

(** [vsprintf] when the bytes behind the output are the string [rest]; a string
    conversion at the end puts its own terminator there. *)
Lemma vsprintf_eq fuel ro m res format ap fmt args out t rest :
  cstr ro format fmt → args_at ro ap args → Forall (short fuel) args → ro ⊆ m →
  render fmt args false = Some (out, t) →
  buffer ro m res (Z.of_nat (length out) + 1) → 0 ∉ out →
  (if t then rest = [] else cstr m (res + Z.of_nat (length out)) rest) →
  (length fmt < fuel)%nat → (length out + length rest < fuel)%nat →
  let m' := write_bytes m res (out ++ term t) in
  vsprintf fuel m res format ap = Ok (m', Z.of_nat (length out + length rest)) ∧
  cstr m' res (out ++ rest).
Proof.
  intros Hf Ha Hs Hsub Hr Hb Hn Hrest Hfuel Hlen m'.
  assert (Forall byte out) as Hby by (apply (render_byte ro fuel fmt args ap false out t); [lia|by eapply cstr_byte|done..]).
  assert (cstr m' res (out ++ rest)) as Hres.
  { destruct Hb as (Hfit & _). subst m'. destruct t; cbn [term].
    - subst rest. rewrite app_nil_r. by apply cstr_after_write.
    - rewrite app_nil_r. destruct Hrest as (Hr1 & Hr2 & Hr3). split_and!.
      + rewrite <- app_assoc. apply bytes_at_app. split; [by apply write_bytes_at|].
        apply write_bytes_other; [left; lia|done].
      + set_solver.
      + rewrite length_app. unfold fits in *. lia. }
  split; [|done]. unfold vsprintf.
  rewrite (cstr_first _ _ fmt) by (by eapply cstr_subseteq). cbn [obind].
  rewrite (loop_ok fuel ro fuel m res fmt args format ap false out t) by (done || by split).
  cbn [obind]. fold m'. rewrite (strlen_eq _ _ _ (out ++ rest)); [|rewrite length_app; lia|done].
  cbn [obind]. by rewrite length_app.
Qed.

(** * Properties *)

(** [itoa] writes a numeral of the number it is given, in any base from 2 to
    36 and within one call per digit: reading it back gives the number, it has at most the
    digits the number needs and no leading zero, and nothing else is written. *)
Theorem itoa_roundtrip (m : mem) (v p r : Z) (k : nat) :
  2 ≤ r ≤ 36 → 0 ≤ v < r ^ Z.of_nat (S k) → (k < 32)%nat →
  fits p (Z.of_nat (S k)) → alloc m p (Z.of_nat (S k)) →
  ∃ ds, itoa itoa_fuel m v p r = Ok (write_bytes m p ds, p + Z.of_nat (length ds)) ∧
    value_of r ds = v ∧ (0 < length ds ≤ S k)%nat ∧
    Forall (λ c, 0 ≤ digit_value c < r) ds ∧ (v ≠ 0 → head ds ≠ Some 48).
Proof.
  intros Hr Hv Hk Hf Ha. exists (digits itoa_fuel r v).
  destruct (digits_spec itoa_fuel r v k Hr Hv Hk) as (Hval & Hlen & Hds & Hhd).
  split_and!; try done.
  - assert (r ^ Z.of_nat (S k) ≤ r ^ Z.of_nat itoa_fuel)
      by (apply Z.pow_le_mono_r; unfold itoa_fuel; lia).
    apply (itoa_eq ∅ _ _ _ _ _ (Z.of_nat (S k))); [done|lia| |lia|unfold itoa_fuel; lia].
    split_and!; [done|done|]. intros a _. apply lookup_empty.
  - pose proof (digits_nonempty itoa_fuel r v ltac:(unfold itoa_fuel; lia)).
    destruct (digits itoa_fuel r v); [done|simpl; lia].
  - eapply Forall_impl; [done|]. intros c (d & -> & Hd). simpl. rewrite digit_value_digit; lia.
Qed.

(** C26. [sprintf] writes the output its format and arguments call for, in
    hexadecimal, decimal with sign, characters and strings, and nothing else;
    but it writes no terminator, unless the last thing it wrote is a string: the
    result goes on with the string [rest] that happened to be in the buffer
    behind the output, and its length is counted in. *)
Theorem sprintf_formats (fuel : nat) (ro m : mem) (frame res format : Z)
    (fmt : list Z) (args : list arg) (out : list Z) (t : bool) (rest : list Z) :
  word_at ro frame res → word_at ro (frame + 4) format →
  cstr ro format fmt → args_at ro (frame + 4) args → Forall (short fuel) args → ro ⊆ m →
  render fmt args false = Some (out, t) →
  buffer ro m res (Z.of_nat (length out) + 1) → 0 ∉ out →
  (if t then rest = [] else cstr m (res + Z.of_nat (length out)) rest) →
  (length fmt < fuel)%nat → (length out + length rest < fuel)%nat →
  ∃ m', sprintf fuel m frame = Ok (m', Z.of_nat (length out + length rest)) ∧
    cstr m' res (out ++ rest) ∧
    ∀ a, a < res ∨ res + Z.of_nat (length out) < a → m' !! a = m !! a.
Proof.
  intros Hres Hformat Hf Ha Hs Hsub Hr Hb Hn Hrest Hfuel Hlen.
  destruct (vsprintf_eq _ _ _ _ _ _ _ _ _ _ _ Hf Ha Hs Hsub Hr Hb Hn Hrest Hfuel Hlen)
    as [Heq Hcstr].
  eexists. split_and!; [|exact Hcstr|].
  - unfold sprintf, va_start. rewrite (load_word_eq m frame res) by (by eapply word_at_subseteq).
    cbn [obind]. rewrite u32_small by (destruct Hformat as (_ & ? & _), Hres as (_ & ? & _);
      unfold fits in *; lia).
    by rewrite (load_word_eq m (frame + 4) format) by (by eapply word_at_subseteq).
  - intros a Hout. rewrite write_bytes_lookup, decide_False; [done|].
    rewrite length_app. destruct t; simpl; lia.
Qed.

(** [printk], and [printf] for user programs, hand exactly the output to the
    console, whatever was on the stack, as long as it has at most 1023
    characters (there is no check that it has not). *)
Theorem printk_prints (fuel : nat) (ro m : mem) (frame res format : Z)
    (fmt : list Z) (args : list arg) (out : list Z) (t : bool) :
  word_at ro frame format → cstr ro format fmt → args_at ro frame args →
  Forall (short fuel) args → ro ⊆ m → render fmt args false = Some (out, t) →
  buffer ro m res MAX_BUFFER → Z.of_nat (length out) < MAX_BUFFER → 0 ∉ out →
  (length fmt < fuel)%nat → (length out < fuel)%nat →
  ∃ m', printk fuel m res frame = Ok (m', res) ∧ cstr m' res out ∧
    ∀ a, a < res ∨ res + MAX_BUFFER ≤ a → m' !! a = m !! a.
Proof.
  unfold MAX_BUFFER. intros Hformat Hf Ha Hs Hsub Hr Hb Hlen Hn Hfuel Hout.
  set (m0 := write_bytes m res (replicate (Z.to_nat 1024) 0)).
  assert (m0 !! (res + Z.of_nat (length out)) = Some 0) as Hzero.
  { subst m0. rewrite write_bytes_lookup, length_replicate, decide_True by lia.
    apply lookup_replicate_2. lia. }
  assert (ro ⊆ m0) as Hsub0 by (eapply buffer_sub; [done|by rewrite length_replicate|done]).
  assert (buffer ro m0 res (Z.of_nat (length out) + 1)) as Hb0.
  { destruct Hb as (? & Hall & Hro). split_and!; [unfold fits in *; lia| |intros a ?; apply Hro; lia].
    apply alloc_write. intros a ?. apply Hall. lia. }
  destruct (vsprintf_eq fuel ro m0 res format frame fmt args out t []) as [Heq Hcstr];
    [exact Hf|exact Ha|exact Hs|exact Hsub0|exact Hr|exact Hb0|exact Hn| |exact Hfuel|simpl; lia|].
  { destruct t; [done|]. destruct Hb as (Hfit & _). split_and!; [|by apply not_elem_of_nil|].
    - simpl. split_and!; [done|unfold byte; lia|done].
    - unfold fits in *. simpl. lia. }
  rewrite app_nil_r in Hcstr. eexists. split_and!; [|exact Hcstr|].
  - unfold printk, printf, va_start, MAX_BUFFER.
    rewrite (load_word_eq m frame format) by (by eapply word_at_subseteq). cbn [obind].
    destruct Hb as (Hfit & Hall & _).
    pose proof (memset_loop_eq (Z.to_nat 1024) m res 0) as Hset. rewrite Z2Nat.id in Hset by lia.
    change (s8 0) with 0 in Hset. change (u8 0) with 0 in Hset.
    rewrite Hset by done. cbn [obind]. fold m0. by rewrite Heq.
  - intros a Ha'. rewrite write_bytes_lookup, decide_False.
    2:{ rewrite length_app. destruct t; simpl; lia. }
    subst m0. by rewrite write_bytes_lookup, decide_False by (rewrite length_replicate; lia).
Qed.

(** ** Witnesses *)

(** The format [%s=%d%x] at 1000, the string [ok] at 1100, the stack of a call
    with the arguments [ok], -5 and 255 at 2000, and a buffer full of [Z] at 3000. *)
Definition demo_fmt : list Z := [37; 115; 61; 37; 100; 37; 120].
Definition demo_args : list arg := [AStr 1100 [111; 107]; AWord 4294967291; AWord 255].
Definition demo_ro : mem := list_to_map
  (zip (seqZ 1000 8) (demo_fmt ++ [0]) ++ zip (seqZ 1100 3) [111; 107; 0] ++
   zip (seqZ 2000 20) (word_bytes 3000 ++ word_bytes 1000 ++ word_bytes 1100 ++
     word_bytes 4294967291 ++ word_bytes 255)).
Definition demo_mem : mem :=
  demo_ro ∪ list_to_map (zip (seqZ 3000 1024) (replicate 9 90 ++ [0] ++ replicate 1014 0)).
Definition demo_out : list Z := [111; 107; 61; 45; 53; 70; 70].

Lemma demo_sub : demo_ro ⊆ demo_mem.
Proof. apply map_union_subseteq_l. Qed.
Lemma demo_format : cstr demo_ro 1000 demo_fmt.
Proof. split_and!; [bytes|set_solver|unfold fits; simpl; lia..]. Qed.
Lemma demo_str : cstr demo_ro 1100 [111; 107].
Proof. split_and!; [bytes|set_solver|unfold fits; simpl; lia..]. Qed.
Lemma demo_words p w : (p, w) ∈ [(2000, 3000); (2004, 1000); (2008, 1100); (2012, 4294967291); (2016, 255)] →
  word_at demo_ro p w.
Proof.
  rewrite !elem_of_cons, elem_of_nil.
  intros [[= -> ->]|[[= -> ->]|[[= -> ->]|[[= -> ->]|[[= -> ->]|[]]]]]];
    (split; [lia|split; [unfold fits; lia|unfold word_bytes; bytes]]).
Qed.
Lemma demo_args_at : args_at demo_ro 2004 demo_args.
Proof.
  unfold demo_args. cbn [args_at arg_word].
  split_and!; try lia; try exact demo_str; try exact I; apply demo_words; set_solver.
Qed.
Lemma demo_buffer n : n ≤ 1024 → buffer demo_ro demo_mem 3000 n.
Proof.
  intros Hn. split_and!; [unfold fits; lia..| |].
  - intros a Ha. assert (Forall (λ a, is_Some (demo_mem !! a)) (seqZ 3000 1024)) as H.
    { apply (bool_decide_unpack _). by vm_compute. }
    rewrite Forall_forall in H. apply H. apply elem_of_seqZ. lia.
  - intros a Ha. assert (Forall (λ a, demo_ro !! a = None) (seqZ 3000 1024)) as H.
    { apply (bool_decide_unpack _). by vm_compute. }
    rewrite Forall_forall in H. apply H. apply elem_of_seqZ. lia.
Qed.
Lemma demo_short : Forall (short 64) demo_args.
Proof. repeat constructor. Qed.
Lemma demo_out_no_nul : 0 ∉ demo_out.
Proof. unfold demo_out. rewrite !not_elem_of_cons, elem_of_nil. lia. Qed.
Lemma demo_rest : cstr demo_mem 3007 [90; 90].
Proof. split_and!; [bytes|set_solver|unfold fits; simpl; lia..]. Qed.

Lemma itoa_roundtrip_witness :
  ∃ ds, itoa itoa_fuel demo_mem 4096 3000 10 =
      Ok (write_bytes demo_mem 3000 ds, 3000 + Z.of_nat (length ds)) ∧
    value_of 10 ds = 4096 ∧ (0 < length ds ≤ 4)%nat ∧
    Forall (λ c, 0 ≤ digit_value c < 10) ds ∧ (4096 ≠ 0 → head ds ≠ Some 48).
Proof.
  apply (itoa_roundtrip demo_mem 4096 3000 10 3); [lia|simpl; lia|lia|unfold fits; lia|].
  apply (demo_buffer 4). lia.
Defined.

Lemma sprintf_formats_witness :
  ∃ m', sprintf 64 demo_mem 2000 = Ok (m', 9) ∧ cstr m' 3000 (demo_out ++ [90; 90]) ∧
    ∀ a, a < 3000 ∨ 3000 + 7 < a → m' !! a = demo_mem !! a.
Proof.
  apply (sprintf_formats 64 demo_ro demo_mem 2000 3000 1000 demo_fmt demo_args demo_out false [90; 90]);
    [apply demo_words; set_solver|apply demo_words; set_solver|exact demo_format|exact demo_args_at
    |exact demo_short|exact demo_sub|by vm_compute|apply demo_buffer; simpl; lia
    |exact demo_out_no_nul|exact demo_rest|simpl; lia..].
Defined.

Lemma printk_prints_witness :
  ∃ m', printk 64 demo_mem 3000 2004 = Ok (m', 3000) ∧ cstr m' 3000 demo_out ∧
    ∀ a, a < 3000 ∨ 3000 + MAX_BUFFER ≤ a → m' !! a = demo_mem !! a.
Proof.
  apply (printk_prints 64 demo_ro demo_mem 2004 3000 1000 demo_fmt demo_args demo_out false);
    [apply demo_words; set_solver|exact demo_format|exact demo_args_at|exact demo_short|exact demo_sub
    |by vm_compute|apply demo_buffer; unfold MAX_BUFFER; lia|unfold MAX_BUFFER; simpl; lia
    |exact demo_out_no_nul|simpl; lia..].
Defined.
