(* ===== verification/Mutex.v ===== *)
(** A lock as the thread that uses it sees it, between one statement of its own
    and the next: what the components that take locks are built on.  [Sync] has
    the same operations statement by statement, with the other threads in between;
    [mutex_is_lock] relates the two. *)
From S2P Require Import Prelude KList Thread Sync.
Local Open Scope Z_scope.

(** * State and operations *)

(** [struct lock], with the value of its semaphore; the queue of its waiters belongs
    to [Sync]. *)
Record mutex := Mutex { m_holder : Z; m_value : Z; m_repeat_cnt : Z }.
Definition unlocked : mutex := Mutex NULL 1 0.

(** The lock from the point of view of the thread that uses it: where [sema_down]
    would block, because another thread has the lock, the call does not return
    ([NoFuel]); the blocking and the waking of the waiters are the subject of [Sync]. *)
Definition sema_down (value : Z) : outcome Z :=
  if value =? 0 then NoFuel
  else let value := u8 (value - 1) in ASSERT (value =? 0) ;! Ok value.
Definition sema_up (value : Z) : outcome Z :=
  ASSERT (value =? 0) ;!
  let value := u8 (value + 1) in ASSERT (value =? 1) ;! Ok value.

Definition mutex_acquire (l : mutex) (cur_task : Z) : outcome mutex :=
  if negb (m_holder l =? cur_task) then
    let! v := sema_down (m_value l) in
    ASSERT (m_repeat_cnt l =? 0) ;!
    Ok (Mutex cur_task v 1)
  else Ok (Mutex (m_holder l) (m_value l) (u32 (m_repeat_cnt l + 1))).
Definition mutex_release (l : mutex) (cur_task : Z) : outcome mutex :=
  ASSERT (m_holder l =? cur_task) ;!
  if 1 <? m_repeat_cnt l then Ok (Mutex (m_holder l) (m_value l) (u32 (m_repeat_cnt l - 1)))
  else
    ASSERT (m_repeat_cnt l =? 1) ;!
    let! v := sema_up (m_value l) in
    Ok (Mutex NULL v 0).

(** * Laws *)

(** The lock, taken once by the thread [cur]. *)
Definition locked_by (cur : Z) : mutex := Mutex cur 0 1.

Lemma mutex_acquire_unlocked cur : cur ≠ NULL → mutex_acquire unlocked cur = Ok (locked_by cur).
Proof. intros H. unfold mutex_acquire. cbn [unlocked m_holder]. by rewrite (proj2 (Z.eqb_neq NULL cur)). Qed.

Lemma mutex_release_locked cur : mutex_release (locked_by cur) cur = Ok unlocked.
Proof. unfold mutex_release. cbn [locked_by m_holder]. by rewrite Z.eqb_refl. Qed.

(** * The machine of [Sync] *)

(** The lock [L] of the machine, as a mutex. *)
Definition mutex_of (L : lock) : mutex := Mutex (holder L) (value (sema L)) (holder_repeat_cnt L).

(** The lock is free, or held. *)
Definition settled (L : lock) : Prop :=
  (holder L = NULL ∧ value (sema L) = 1 ∧ holder_repeat_cnt L = 0) ∨
  (holder L ≠ NULL ∧ value (sema L) = 0 ∧ 1 ≤ holder_repeat_cnt L < 4294967295).

(** [es] takes [s], with the lock [L] at [l], to the same state with a lock at [l]
    that looks like [m]. *)
Definition lock_becomes (fuel : nat) (s : sys) (l : Z) (es : list event) (L : lock) (m : mutex) : Prop :=
  ∃ L', run fuel s es = Ok (with_lock s l L') ∧ mutex_of L' = m ∧
    waiter_queue (sema L') = waiter_queue (sema L).

Section machine.
Context (fuel : nat) (s : sys) (l : Z) (L : lock).
Hypothesis Hclient : ctxs s !! cur s = Some (Ctx Client None).
Hypothesis HL : locks s !! l = Some L.

Lemma at_client L' : with_lock s l L' = at_point s l (kern s) Client L'.
Proof using Hclient. unfold with_lock, at_point. by rewrite (insert_id (ctxs s)). Qed.

Lemma at_start : s = at_point s l (kern s) Client L.
Proof using Hclient HL. rewrite <- at_client. unfold with_lock. rewrite insert_id by done. by destruct s. Qed.

Lemma becomes es L' : run fuel (at_point s l (kern s) Client L) es = Ok (at_point s l (kern s) Client L') →
  waiter_queue (sema L') = waiter_queue (sema L) → lock_becomes fuel s l es L (mutex_of L').
Proof using Hclient HL.
  intros Hrun Hq. exists L'. rewrite at_client. split; [|done]. by rewrite at_start at 1.
Qed.
End machine.

(** C13. [mutex_acquire] and [mutex_release] are what [lock_acquire] and
    [lock_release] of the machine of threads do: from a lock that is free or held,
    with nobody waiting, whenever the function returns a lock, the statements of the
    machine, run one after the other by the current thread, end in the same state
    with that lock; and when the function does not return, or panics, it is because
    the current thread does not hold the lock, and for [mutex_acquire] another does. *)
Theorem mutex_is_lock (fuel : nat) (s : sys) (l : Z) (L : lock) :
  ctxs s !! cur s = Some (Ctx Client None) → cur s ≠ NULL → cur s ≠ idle_thread (kern s) →
  locks s !! l = Some L → settled L → queue_len (waiter_queue (sema L)) = 0 →
  match mutex_acquire (mutex_of L) (cur s) with
  | Ok m => ∃ n, lock_becomes fuel s l (CallAcquire l :: replicate n Step) L m
  | _ => holder L ≠ NULL ∧ holder L ≠ cur s
  end ∧
  match mutex_release (mutex_of L) (cur s) with
  | Ok m => ∃ n, lock_becomes fuel s l (CallRelease l :: replicate n Step) L m
  | _ => holder L ≠ cur s
  end.
Proof.
  intros Hc Hnull Hi HL Hset Hq. destruct L as [h [v q] n]. unfold settled in Hset. 
  cbn [holder sema value waiter_queue holder_repeat_cnt] in *. split.
  - unfold mutex_acquire, mutex_of. cbn [m_holder m_value m_repeat_cnt holder sema value holder_repeat_cnt].
    destruct (Z.eqb_spec h (cur s)) as [->|Hne]; cbn [negb].
    + destruct Hset as [(? & _)|(_ & -> & Hn)]; [done|]. rewrite u32_small by lia. exists 2%nat.
      apply (becomes fuel s l _ Hc HL _ (Lock (cur s) (Semaphore 0 q) (n + 1))); [|done].
      rewrite run_call_acquire by (done || simpl; lia). apply again_steps; [done|lia].
    + destruct Hset as [(-> & -> & ->)|(Hh & -> & Hn)]; [|done]. exists 5%nat.
      apply (becomes fuel s l _ Hc HL _ (Lock (cur s) (Semaphore 0 q) 1)); [|done].
      rewrite run_call_acquire by (done || simpl; lia). by apply acquire_steps.
  - unfold mutex_release, mutex_of. cbn [m_holder m_value m_repeat_cnt holder sema value holder_repeat_cnt].
    destruct (Z.eqb_spec h (cur s)) as [->|Hne]; [|done]. cbn [ASSERT obind].
    destruct Hset as [(? & _)|(_ & -> & Hn)]; [done|]. destruct (Z.ltb_spec 1 n).
    + rewrite u32_small by lia. exists 3%nat.
      apply (becomes fuel s l _ Hc HL _ (Lock (cur s) (Semaphore 0 q) (n - 1))); [|done].
      rewrite run_call_release by done. apply unnest_steps; [done|lia].
    + assert (n = 1) as -> by lia. exists 6%nat.
      apply (becomes fuel s l _ Hc HL _ (Lock NULL (Semaphore 1 q) 0)); [|done].
      rewrite run_call_release by done. by apply release_steps.
Qed.

Lemma mutex_is_lock_witness : ∃ n m,
  lock_becomes 3 demo_sys 100 (CallAcquire 100 :: replicate n Step) lock_init m ∧ m = locked_by 4096.
Proof.
  destruct (mutex_is_lock 3 demo_sys 100 lock_init) as [[n Hn] _]; [done|done|done|done|by left|done|].
  by exists n, (locked_by 4096).
Defined.
