(* ===== verification/Heap.v ===== *)
(** The heap on top of the pages (the second half of mm/memory.c): whole pages,
    and blocks of seven sizes cut from arenas of one page. *)
From stdpp Require Import functions.
From S2P Require Import Prelude Bitmap KList Pool Mutex.
Local Open Scope Z_scope.

(** * State *)

(** The memory holds one 32-bit word per address, as in [KList]: the list nodes
    of the free blocks, the headers of the arenas and the block descriptors lie in
    it.  A page is 1024 words. *)

(** [struct arena]: [desc] at 0 and [cnt] at 4. *)
Definition desc_off : Z := 0.
Definition cnt_off : Z := 4.
Definition sizeof_arena : Z := 8.

(** [struct mem_block_desc]: [block_size] at 0, [blocks_each_arena] at 4 and
    [free_list] at 8. *)
Definition block_size_off : Z := 0.
Definition blocks_each_arena_off : Z := 4.
Definition free_list_off : Z := 8.
Definition sizeof_desc : Z := 16.
Definition MEM_DESC_CNT : Z := 7.

(** The address of entry [i] of an array of descriptors. *)
Definition desc_at (array i : Z) : Z := array + sizeof_desc * i.

(** The global state: the pools, the memory, the locks of the two physical pools,
    and the interrupt flag. *)
Record heap := Heap {
  h_pools : pools;
  h_mem : mem;
  kernel_lock : mutex;
  user_lock : mutex;
  h_intr : bool
}.

(** What the allocator reads of the running task: the address of its PCB,
    [pde_addr] and the address of its [user_block_desc_array]. *)
Record task := Task { self : Z; pde_addr : Z; user_block_desc_array : Z }.

Definition set_mem (s : heap) (m : mem) : heap :=
  Heap (h_pools s) m (kernel_lock s) (user_lock s) (h_intr s).
Definition set_pools (s : heap) (p : pools) : heap :=
  Heap p (h_mem s) (kernel_lock s) (user_lock s) (h_intr s).
Definition set_intr (s : heap) (b : bool) : heap :=
  Heap (h_pools s) (h_mem s) (kernel_lock s) (user_lock s) b.
Definition set_lock (s : heap) (pf : pool_flags) (b : mutex) : heap :=
  match pf with
  | PF_KERNEL => Heap (h_pools s) (h_mem s) b (user_lock s) (h_intr s)
  | PF_USER => Heap (h_pools s) (h_mem s) (kernel_lock s) b (h_intr s)
  end.
Definition get_lock (s : heap) (pf : pool_flags) : mutex :=
  match pf with PF_KERNEL => kernel_lock s | PF_USER => user_lock s end.

(** [lock_acquire] and [lock_release] of the lock of a pool, by the running task. *)
Definition lock_acquire (t : task) (s : heap) (pf : pool_flags) : outcome heap :=
  let! l := mutex_acquire (get_lock s pf) (self t) in Ok (set_lock s pf l).
Definition lock_release (t : task) (s : heap) (pf : pool_flags) : outcome heap :=
  let! l := mutex_release (get_lock s pf) (self t) in Ok (set_lock s pf l).

(** [memset(p, 0, 4 * n)] *)
Fixpoint zero_words (n : nat) (m : mem) (p : Z) : outcome mem :=
  match n with
  | O => Ok m
  | S n => let! m := store m p 0 in zero_words n m (u32 (p + 4))
  end.
Definition memset_zero (m : mem) (p count : Z) : outcome mem :=
  ASSERT (negb (p =? NULL)) ;! zero_words (Z.to_nat (count / 4)) m p.

(** * Operations *)

(** One iteration of the loop of [mem_block_desc_init]. *)
Definition init_desc (m : mem) (desc block_size : Z) : outcome mem :=
  let! m := store m (desc + block_size_off) block_size in
  let! m := store m (desc + blocks_each_arena_off) (u32 (PAGE_SIZE - sizeof_arena) / block_size) in
  list_init m (desc + free_list_off).

Fixpoint init_descs (n : nat) (m : mem) (array desc_idx block_size : Z) : outcome mem :=
  match n with
  | O => Ok m
  | S n =>
      let! m := init_desc m (desc_at array desc_idx) block_size in
      init_descs n m array (u8 (desc_idx + 1)) (u16 (block_size * 2))
  end.

Definition mem_block_desc_init (m : mem) (block_desc_array : Z) : outcome mem :=
  init_descs (Z.to_nat MEM_DESC_CNT) m block_desc_array 0 16.

Definition arena_2_block (m : mem) (arena idx : Z) : outcome Z :=
  let! desc := load m (arena + desc_off) in
  let! block_size := load m (desc + block_size_off) in
  Ok (u32 (arena + sizeof_arena + idx * block_size)).

Definition block_2_arena (block : Z) : Z := Z.land block PAGE_MASK.

Definition DIV_ROUND_UP (x step : Z) : Z := u32 (x + step - 1) / step.

Section heap.
(** Fuel of [bitmap_apply] and of the list routines. *)
Variable fuel : nat.
(** The address of [kernel_block_desc_array]. *)
Variable kernel_block_desc_array : Z.

(** [get_kernel_pages] and [get_user_pages] *)
Definition get_pages (pf : pool_flags) (t : task) (s : heap) (pages : Z) : outcome (heap * Z) :=
  let! s := lock_acquire t s pf in
  let! (p, vaddr) := page_alloc fuel (h_pools s) pf pages in
  let s := set_pools s p in
  let! s := if negb (vaddr =? NULL)
            then let! m := memset_zero (h_mem s) vaddr (u32 (pages * PAGE_SIZE)) in Ok (set_mem s m)
            else Ok s in
  let! s := lock_release t s pf in
  Ok (s, vaddr).
Definition get_kernel_pages := get_pages PF_KERNEL.
Definition get_user_pages := get_pages PF_USER.

(** The pool and the descriptors of the running task. *)
Definition task_pool (t : task) : pool_flags :=
  if pde_addr t =? NULL then PF_KERNEL else PF_USER.
Definition task_descs (t : task) : Z :=
  if pde_addr t =? NULL then kernel_block_desc_array else user_block_desc_array t.
Definition task_pool_size (s : heap) (t : task) : Z :=
  match task_pool t with
  | PF_KERNEL => pool_size (kernel_pool (h_pools s))
  | PF_USER => pool_size (user_pool (h_pools s))
  end.

(** The loop that looks for the descriptor of the smallest blocks that are big
    enough; its result is [MEM_DESC_CNT] if there is none. *)
Fixpoint find_desc (n : nat) (m : mem) (block_desc size desc_idx : Z) : outcome Z :=
  match n with
  | O => Ok desc_idx
  | S n =>
      let! block_size := load m (desc_at block_desc desc_idx + block_size_off) in
      if size <=? block_size then Ok desc_idx
      else find_desc n m block_desc size (u8 (desc_idx + 1))
  end.

(** The loop that puts the blocks of a new arena on the free list; [n] bounds the
    number of iterations. *)
Fixpoint fill_arena (n : nat) (m : mem) (desc arena block_idx : Z) : outcome mem :=
  match n with
  | O => NoFuel
  | S n =>
      let! blocks := load m (desc + blocks_each_arena_off) in
      if block_idx <? blocks then
        let! block := arena_2_block m arena block_idx in
        let! d := load m (arena + desc_off) in
        let! found := list_find_item fuel m (d + free_list_off) block in
        ASSERT (negb found) ;!
        let! m := list_add_prev m (d + free_list_off) block in
        fill_arena n m desc arena (u32 (block_idx + 1))
      else Ok m
  end.

(** More than 1024 bytes: whole pages, the header in front. *)
Definition malloc_pages (pf : pool_flags) (t : task) (s : heap) (size : Z) : outcome (heap * Z) :=
  let page_cnt := DIV_ROUND_UP (u32 (size + sizeof_arena)) PAGE_SIZE in
  let! (p, arena) := page_alloc fuel (h_pools s) pf page_cnt in
  let s := set_pools s p in
  if arena =? NULL then
    let! s := lock_release t s pf in Ok (s, NULL)
  else
    let! m := memset_zero (h_mem s) arena (u32 (page_cnt * PAGE_SIZE)) in
    let! m := store m (arena + desc_off) NULL in
    let! m := store m (arena + cnt_off) page_cnt in
    let! s := lock_release t (set_mem s m) pf in
    Ok (s, u32 (arena + sizeof_arena)).

(** A new arena for the descriptor [desc]: [false] if there is no page. *)
Definition new_arena (pf : pool_flags) (s : heap) (desc : Z) : outcome (heap * bool) :=
  let! (p, arena) := page_alloc fuel (h_pools s) pf 1 in
  let s := set_pools s p in
  if arena =? NULL then Ok (s, false)
  else
    let! m := memset_zero (h_mem s) arena PAGE_SIZE in
    let! m := store m (arena + desc_off) desc in
    let! blocks := load m (desc + blocks_each_arena_off) in
    let! m := store m (arena + cnt_off) blocks in
    let old_intr := h_intr s in
    let s := set_intr s false in
    let! m := fill_arena (S fuel) m desc arena 0 in
    Ok (set_intr (set_mem s m) old_intr, true).

(** The first free block of the descriptor [desc]. *)
Definition take_block (m : mem) (desc : Z) : outcome (mem * Z) :=
  let! (m, block) := list_pop m (desc + free_list_off) in
  let! block_size := load m (desc + block_size_off) in
  let! m := memset_zero m block block_size in
  let arena := block_2_arena block in
  let! cnt := load m (arena + cnt_off) in
  let! m := store m (arena + cnt_off) (u32 (cnt - 1)) in
  Ok (m, block).

Definition malloc_block (pf : pool_flags) (t : task) (s : heap) (block_desc size : Z) : outcome (heap * Z) :=
  let! desc_idx := find_desc (Z.to_nat MEM_DESC_CNT) (h_mem s) block_desc size 0 in
  let desc := desc_at block_desc desc_idx in
  let! empty := list_empty fuel (h_mem s) (desc + free_list_off) in
  let! (s, ok) := if empty then new_arena pf s desc else Ok (s, true) in
  if negb ok then let! s := lock_release t s pf in Ok (s, NULL)
  else
    let! (m, block) := take_block (h_mem s) desc in
    let! s := lock_release t (set_mem s m) pf in
    Ok (s, block).

Definition sys_malloc (s : heap) (t : task) (size : Z) : outcome (heap * Z) :=
  let pf := task_pool t in
  if (task_pool_size s t <? size) || (size <=? 0) then Ok (s, NULL)
  else
    let! s := lock_acquire t s pf in
    if 1024 <? size then malloc_pages pf t s size
    else malloc_block pf t s (task_descs t) size.

(** The loop that takes the blocks of an arena off the free list. *)
Fixpoint drain_arena (n : nat) (m : mem) (arena block_idx : Z) : outcome mem :=
  match n with
  | O => NoFuel
  | S n =>
      let! cnt := load m (arena + cnt_off) in
      if block_idx <? cnt then
        let! p_block := arena_2_block m arena block_idx in
        let! m := list_del_safe m p_block in
        drain_arena n m arena (u32 (block_idx + 1))
      else Ok m
  end.

(** A block goes back to the free list of its descriptor, and its arena to the
    pool when it was the last. *)
Definition free_block (pf : pool_flags) (s : heap) (arena desc ptr : Z) : outcome heap :=
  let! m := list_add_prev (h_mem s) (desc + free_list_off) ptr in
  let! cnt := load m (arena + cnt_off) in
  let! m := store m (arena + cnt_off) (u32 (cnt + 1)) in
  let! blocks := load m (desc + blocks_each_arena_off) in
  if u32 (cnt + 1) =? blocks then
    let! m := drain_arena (S fuel) m arena 0 in
    let! p := page_free (h_pools s) pf ptr 1 in
    Ok (set_pools (set_mem s m) p)
  else Ok (set_mem s m).

Definition sys_free (s : heap) (t : task) (ptr : Z) : outcome heap :=
  ASSERT (negb (ptr =? NULL)) ;!
  let pf := task_pool t in
  (match pf with
   | PF_KERNEL => ASSERT (KERNEL_HEAP_BASE <=? ptr)
   | PF_USER => Ok tt
   end) ;!
  let! s := lock_acquire t s pf in
  let arena := block_2_arena ptr in
  let! desc := load (h_mem s) (arena + desc_off) in
  let! s :=
    if desc =? NULL then
      let! cnt := load (h_mem s) (arena + cnt_off) in
      let! p := page_free (h_pools s) pf ptr cnt in Ok (set_pools s p)
    else free_block pf s arena desc ptr in
  lock_release t s pf.
End heap.

(** ** The lock of a pool *)

(** [t] is a kernel thread. *)
Definition kernel_thread (t : task) : Prop := pde_addr t = NULL ∧ self t ≠ NULL.

(** The lock, taken once by [t]. *)
Definition taken (t : task) : mutex := locked_by (self t).

Lemma lock_acquire_unlocked t s : self t ≠ NULL → kernel_lock s = unlocked →
  lock_acquire t s PF_KERNEL = Ok (set_lock s PF_KERNEL (taken t)).
Proof. intros Ht Hl. unfold lock_acquire. cbn [get_lock]. by rewrite Hl, mutex_acquire_unlocked. Qed.

Lemma lock_release_taken t s : kernel_lock s = taken t →
  lock_release t s PF_KERNEL = Ok (set_lock s PF_KERNEL unlocked).
Proof. intros Hl. unfold lock_release. cbn [get_lock]. rewrite Hl. unfold taken. by rewrite mutex_release_locked. Qed.

(** * The heap as arenas and free blocks *)

(** The sizes of the blocks and their number in an arena, for the seven classes. *)
Definition bsz (i : nat) : Z := 2 ^ (Z.of_nat i + 4).
Definition nb (i : nat) : Z := 4088 / bsz i.

(** Block [k] of an arena of class [i] in page [r] of the kernel heap. *)
Definition blk (r : Z) (i : nat) (k : Z) : Z := page_addr r + 8 + k * bsz i.

(** What an arena is: blocks of class [i], or [n] pages given out as a whole. *)
Inductive arena_kind := Small (i : nat) | Large (n : Z).
#[export] Instance arena_kind_eq_dec : EqDecision arena_kind.
Proof. solve_decision. Defined.
Definition pages_of (k : arena_kind) : Z := match k with Small _ => 1 | Large n => n end.

Definition in_page (r b : Z) : Prop := page_addr r ≤ b < page_addr r + 4096.

(** The address of the head of the free list of class [i]. *)
Definition free_head (kd : Z) (i : nat) : Z := desc_at kd (Z.of_nat i) + free_list_off.

(** Free blocks of class [i] in page [r]. *)
Definition free_cnt (F : nat → list Z) (r : Z) (i : nat) : Z :=
  Z.of_nat (length (filter (in_page r) (F i))).

(** The first two words of an arena. *)
Definition header (kd : Z) (m : mem) (F : nat → list Z) (r : Z) (k : arena_kind) : Prop :=
  match k with
  | Small i => m !! (page_addr r + desc_off) = Some (desc_at kd (Z.of_nat i)) ∧
               m !! (page_addr r + cnt_off) = Some (free_cnt F r i)
  | Large n => m !! (page_addr r + desc_off) = Some NULL ∧ m !! (page_addr r + cnt_off) = Some n
  end.

(** The arenas [A] are disjoint runs of used pages. *)
Record arenas_ok (p : pools) (A : gmap Z arena_kind) : Prop := {
  ao_range r k : A !! r = Some k → 0 ≤ r ∧ 1 ≤ pages_of k ∧ r + pages_of k ≤ kernel_total p;
  ao_class r i : A !! r = Some (Small i) → (i < 7)%nat;
  ao_used r k j : A !! r = Some k → r ≤ j < r + pages_of k → vm_page p j = true;
  ao_disj r k r' k' : A !! r = Some k → A !! r' = Some k' → r ≠ r' →
    r + pages_of k ≤ r' ∨ r' + pages_of k' ≤ r
}.

(** Every free block of class [i] is a block of an arena of that class; the
    descriptors are below the heap.  The heap ends below 0xffc00000: with more pages it would reach the window
    through which the processor's page tables are seen ([PageTable.heap_reaches_page_tables]), which are no plain
    words. *)
Record shape (kd : Z) (p : pools) (F : nat → list Z) (A : gmap Z arena_kind) : Prop := {
  sh_kd : 0 < kd ∧ kd + 112 ≤ KERNEL_HEAP_BASE;
  sh_pools : kernel_wf p;
  sh_total : kernel_total p ≤ 257024;
  sh_arenas : arenas_ok p A;
  sh_free i b : (i < 7)%nat → (b ∈ F i) →
    ∃ r k, A !! r = Some (Small i) ∧ 0 ≤ k < nb i ∧ b = blk r i k
}.

(** The memory holds the free lists [F] and the headers of the arenas. *)
Record mem_ok (kd : Z) (m : mem) (F : nat → list Z) (A : gmap Z arena_kind) : Prop := {
  mo_ring i : (i < 7)%nat → ring m (free_head kd i :: F i);
  mo_desc i : (i < 7)%nat →
    m !! (desc_at kd (Z.of_nat i) + block_size_off) = Some (bsz i) ∧
    m !! (desc_at kd (Z.of_nat i) + blocks_each_arena_off) = Some (nb i);
  mo_header r k : A !! r = Some k → header kd m F r k
}.

(** The pages of the heap are in the memory. *)
Definition mapped (total : Z) (m : mem) : Prop :=
  ∀ r j, 0 ≤ r < total → 0 ≤ j < 1024 → is_Some (m !! (page_addr r + 4 * j)).

(** The state of the kernel heap. *)
Record heap_inv (kd : Z) (s : heap) (F : nat → list Z) (A : gmap Z arena_kind) : Prop := {
  hi_shape : shape kd (h_pools s) F A;
  hi_mem : mem_ok kd (h_mem s) F A;
  hi_mapped : mapped (kernel_total (h_pools s)) (h_mem s)
}.

(** The block at [p], of [sz] bytes, is given out. *)
Definition allocated (F : nat → list Z) (A : gmap Z arena_kind) (p sz : Z) : Prop :=
  (∃ r i k, A !! r = Some (Small i) ∧ 0 ≤ k < nb i ∧ p = blk r i k ∧ (p ∉ F i) ∧ sz = bsz i) ∨
  (∃ r n, A !! r = Some (Large n) ∧ p = page_addr r + sizeof_arena ∧ sz = n * 4096 - 8).

(** ** Geometry *)

Lemma bsz_facts i : (i < 7)%nat →
  16 ≤ bsz i ≤ 1024 ∧ bsz i mod 8 = 0 ∧ 3 ≤ nb i ≤ 255 ∧ nb i * bsz i ≤ 4088.
Proof. intros Hi. do 7 (destruct i as [|i]; [by vm_compute|]). lia. Qed.

Lemma page_addr_eq r : page_addr r = 3238002688 + r * 4096.
Proof. done. Qed.

(** Block [k] is inside its page, behind the header. *)
Lemma blk_range r i k : (i < 7)%nat → 0 ≤ k < nb i →
  page_addr r + 8 ≤ blk r i k ∧ blk r i k + bsz i ≤ page_addr r + 4096.
Proof. intros Hi Hk. pose proof (bsz_facts i Hi). unfold blk. nia. Qed.

Lemma blk_in_page r i k : (i < 7)%nat → 0 ≤ k < nb i → in_page r (blk r i k).
Proof. intros Hi Hk. pose proof (blk_range r i k Hi Hk). pose proof (bsz_facts i Hi). unfold in_page. lia. Qed.

Lemma in_page_inj r r' b : in_page r b → in_page r' b → r = r'.
Proof. unfold in_page. rewrite !page_addr_eq. lia. Qed.

Lemma blk_inj r i k r' i' k' : (i < 7)%nat → 0 ≤ k < nb i → (i' < 7)%nat → 0 ≤ k' < nb i' →
  blk r i k = blk r' i' k' → r = r'.
Proof.
  intros Hi Hk Hi' Hk' E. apply (in_page_inj r r' (blk r i k)); [by apply blk_in_page|].
  rewrite E. by apply blk_in_page.
Qed.

(** Two blocks of the same size do not overlap. *)
Lemma blk_apart r i k k' : (i < 7)%nat → 0 ≤ k → 0 ≤ k' → k ≠ k' →
  blk r i k + bsz i ≤ blk r i k' ∨ blk r i k' + bsz i ≤ blk r i k.
Proof. intros Hi Hk Hk' Hne. pose proof (bsz_facts i Hi). unfold blk. nia. Qed.

Lemma block_2_arena_eq b r : 0 ≤ r → page_addr r < 4294967296 → in_page r b →
  block_2_arena b = page_addr r.
Proof.
  intros Hr Hlim Hin. unfold block_2_arena, PAGE_MASK, in_page in *.
  rewrite page_addr_eq in *. rewrite land_page_mask by lia. divlia.
Qed.

(** ** Pages *)

(** [page_alloc] handed out the [n] pages from [r] on. *)
Record page_got (p p' : pools) (r n : Z) : Prop := {
  pg_wf : kernel_wf p';
  pg_range : 0 ≤ r ∧ r + n ≤ kernel_total p;
  pg_free j : r ≤ j < r + n → vm_page p j = false;
  pg_vm j : 0 ≤ j → vm_page p' j = if decide (r ≤ j < r + n) then true else vm_page p j;
  pg_total : kernel_total p' = kernel_total p
}.

Definition can_fit (p : pools) (n : Z) : Prop := ∃ r, fit (vm_bitmap (kernel_vm_pool p)) n r.

Lemma page_alloc_fits fuel p n : kernel_wf p → 1 ≤ n < 4294967296 →
  kernel_total p ≤ Z.of_nat fuel → can_fit p n →
  ∃ p' r, page_alloc fuel p PF_KERNEL n = Ok (p', page_addr r) ∧ page_got p p' r n.
Proof.
  intros Hp Hn Hf Hfit.
  destruct (page_alloc_kernel_spec fuel p n Hp Hn Hf Hfit)
    as (p' & r & E & Hp' & (Hr0 & Hr1 & Hfree) & _ & Hvm & _ & _ & _ & Ht).
  exists p', r. split; [done|]. split; try done. unfold kernel_total. lia.
Qed.

Lemma page_alloc_cases fuel p n p' v : kernel_wf p → 1 ≤ n < 4294967296 →
  kernel_total p ≤ Z.of_nat fuel → page_alloc fuel p PF_KERNEL n = Ok (p', v) →
  (v = NULL ∧ p' = p ∧ ¬ can_fit p n) ∨
  (can_fit p n ∧ ∃ r, v = page_addr r ∧ page_got p p' r n).
Proof.
  intros Hp Hn Hf Hok.
  pose proof (bitmap_apply_post fuel (vm_bitmap (kernel_vm_pool p)) n (kw_vm p Hp) Hn
    (λ _ _, Hf)) as Hpost.
  destruct (bitmap_apply fuel (vm_bitmap (kernel_vm_pool p)) n) as [r| | |] eqn:E;
    cbn [apply_post] in Hpost;
    [|by unfold page_alloc, vaddr_alloc in Hok; rewrite E in Hok..].
  destruct Hpost as [[-> Hno]|[Hfit _]].
  - left. unfold page_alloc, vaddr_alloc in Hok. rewrite E in Hok. cbn in Hok.
    injection Hok as <- <-. split_and!; [done|done|]. intros [r Hr]. by apply (Hno r).
  - right. destruct (page_alloc_fits fuel p n Hp Hn Hf) as (p1 & r1 & E1 & Hgot); [by exists r|].
    rewrite E1 in Hok. injection Hok as <- <-. split; [by exists r|eauto].
Qed.

(** Without a free page the answer is NULL. *)
Lemma page_alloc_full fuel p n : kernel_wf p → 0 < kernel_total p →
  (∀ j, 0 ≤ j < kernel_total p → vm_page p j = true) →
  page_alloc fuel p PF_KERNEL n = Ok (p, NULL).
Proof.
  intros Hp Ht Hfull. unfold page_alloc, vaddr_alloc, bitmap_apply.
  destruct (buffer_wf _ (kw_vm p Hp)) as (l & -> & _). cbn [obind].
  destruct (find_next_zero_bit_spec (vm_bitmap (kernel_vm_pool p)) 0) as (b & -> & Hb);
    [apply (kw_vm p Hp)|unfold kernel_total in Ht; lia|].
  destruct Hb as [[-> _]|(Hr & Hclr & _)]; [done|].
  exfalso. unfold vm_page in Hfull. rewrite Hfull in Hclr by done. done.
Qed.

(** ** Zeroing *)

Definition zeroed (p n a : Z) : Prop := p ≤ a < p + 4 * n ∧ (a - p) mod 4 = 0.

Lemma zero_words_spec n m p :
  0 ≤ p → p + 4 * Z.of_nat n ≤ 4294967296 →
  (∀ j, 0 ≤ j < Z.of_nat n → is_Some (m !! (p + 4 * j))) →
  ∃ m', zero_words n m p = Ok m' ∧
    ∀ a, m' !! a = if decide (p ≤ a < p + 4 * Z.of_nat n ∧ (a - p) mod 4 = 0)
                   then Some 0 else m !! a.
Proof.
  revert m p. induction n as [|n IH]; intros m p Hp Hend Hsome; cbn [zero_words].
  { exists m. split; [done|]. intros a. rewrite decide_False; [done|lia]. }
  rewrite store_is_Some by (destruct (Hsome 0) as [x Hx]; [lia|]; rewrite Z.add_0_r in Hx; eauto).
  cbn [obind]. destruct (decide (n = 0%nat)) as [->|Hn].
  { eexists. split; [done|]. intros a. rewrite lookup_insert. repeat case_decide; try done; subst; divlia. }
  rewrite u32_small by lia.
  destruct (IH (<[p := 0]> m) (p + 4)) as (m' & -> & Hm'); [lia|lia| |].
  { intros j Hj. apply is_Some_insert. replace (p + 4 + 4 * j) with (p + 4 * (j + 1)) by lia.
    apply Hsome. lia. }
  exists m'. split; [done|]. intros a. rewrite Hm', lookup_insert.
  repeat case_decide; try done; subst; exfalso; divlia.
Qed.

(** Zeroing [4 * n] bytes that lie in the memory. *)
Lemma memset_zero_spec m p n :
  0 < p → 0 ≤ n → p + 4 * n ≤ 4294967296 → (∀ j, 0 ≤ j < n → is_Some (m !! (p + 4 * j))) →
  ∃ m', memset_zero m p (4 * n) = Ok m' ∧
    (∀ j, 0 ≤ j < n → m' !! (p + 4 * j) = Some 0) ∧
    (∀ a, a < p ∨ p + 4 * n ≤ a → m' !! a = m !! a) ∧
    (∀ a, is_Some (m !! a) → is_Some (m' !! a)).
Proof.
  intros Hp Hn Hend Hsome. unfold memset_zero.
  rewrite ASSERT_true by (unfold NULL; destruct (Z.eqb_spec p 0); [lia|done]). cbn [obind].
  replace (4 * n / 4) with n by (rewrite Z.mul_comm, Z.div_mul; lia).
  destruct (zero_words_spec (Z.to_nat n) m p) as (m' & -> & Hm'); [lia|lia|intros; apply Hsome; lia|].
  exists m'. split; [done|]. split_and!.
  - intros j Hj. rewrite Hm', decide_True; [done|]. split; [lia|].
    replace (p + 4 * j - p) with (j * 4) by lia. apply Z.mod_mul. lia.
  - intros a Ha. rewrite Hm', decide_False; [done|]. lia.
  - intros a Ha. rewrite Hm'. case_decide; [by eexists|done].
Qed.

(** ** Frames: which words the representation depends on *)

Lemma ring_same m m' l :
  (∀ p, p ∈ l → m' !! (p + prev_off) = m !! (p + prev_off) ∧
                m' !! (p + next_off) = m !! (p + next_off)) →
  ring m l → ring m' l.
Proof.
  intros Hsame Hr. destruct (ring_head_last m l Hr) as (h & p & Hh & Hp & Hhl & Hpl).
  rewrite ring_open in * by done. destruct Hr as (Hpath & [Hn Hv] & Hap & Had).
  split_and!; [|split|done|done].
  - eapply path_frame; [by apply apart_NoDup|done| |]; intros x Hx _; by apply Hsame.
  - by rewrite (proj2 (Hsame p Hpl)).
  - by rewrite (proj1 (Hsame h Hhl)).
Qed.

(** The words of class [i]: its descriptor, its free blocks. *)
Definition class_word (kd : Z) (F : nat → list Z) (i : nat) (a : Z) : Prop :=
  ∃ p, p ∈ free_head kd i :: F i ∧ (a = p + prev_off ∨ a = p + next_off).
Definition desc_word (kd : Z) (a : Z) : Prop :=
  ∃ i, (i < 7)%nat ∧ (a = desc_at kd (Z.of_nat i) + block_size_off ∨
                      a = desc_at kd (Z.of_nat i) + blocks_each_arena_off).
Definition header_word (A : gmap Z arena_kind) (a : Z) : Prop :=
  ∃ r, is_Some (A !! r) ∧ (a = page_addr r + desc_off ∨ a = page_addr r + cnt_off).

(** All words of the representation. *)
Definition meta (kd : Z) (F : nat → list Z) (A : gmap Z arena_kind) (a : Z) : Prop :=
  desc_word kd a ∨ header_word A a ∨ ∃ i, (i < 7)%nat ∧ class_word kd F i a.

Lemma header_same kd m m' F r k :
  m' !! (page_addr r + desc_off) = m !! (page_addr r + desc_off) →
  m' !! (page_addr r + cnt_off) = m !! (page_addr r + cnt_off) →
  header kd m F r k → header kd m' F r k.
Proof. intros E1 E2. destruct k; simpl; by rewrite E1, E2. Qed.

(** Class [i] changes to the free list [l]; the other classes, and the arenas of
    other kinds, stay as they are. *)
Lemma mem_ok_class kd m m' F A A' i l : mem_ok kd m F A → (i < 7)%nat →
  ring m' (free_head kd i :: l) →
  (∀ a, desc_word kd a → m' !! a = m !! a) →
  (∀ j a, (j < 7)%nat → j ≠ i → class_word kd F j a → m' !! a = m !! a) →
  (∀ r k, A' !! r = Some k → header kd m' (<[i := l]> F) r k ∨
     (k ≠ Small i ∧ A !! r = Some k ∧
      m' !! (page_addr r + desc_off) = m !! (page_addr r + desc_off) ∧
      m' !! (page_addr r + cnt_off) = m !! (page_addr r + cnt_off))) →
  mem_ok kd m' (<[i := l]> F) A'.
Proof.
  intros [Hring Hdesc Hhdr] Hi Hr Hd Hc Hh.
  split.
  - intros j Hj. destruct (decide (j = i)) as [->|Hne]; [by rewrite fn_lookup_insert|].
    rewrite fn_lookup_insert_ne by done. eapply ring_same; [|by apply Hring].
    intros p Hp. split; apply (Hc j); try done; exists p; auto.
  - intros j Hj. rewrite !Hd; [by apply Hdesc|by exists j; auto..].
  - intros r k Hk. destruct (Hh r k Hk) as [?|(Hne & HAr & E1 & E2)]; [done|].
    pose proof (header_same kd m m' F r k E1 E2 (Hhdr r k HAr)) as Hk'.
    destruct k as [j|n]; [|done]. simpl in *. unfold free_cnt in *.
    rewrite fn_lookup_insert_ne by congruence. done.
Qed.

Lemma mem_ok_frame kd m m' F A : mem_ok kd m F A →
  (∀ a, meta kd F A a → m' !! a = m !! a) → mem_ok kd m' F A.
Proof.
  intros [Hring Hdesc Hhdr] Hm. split.
  - intros i Hi. eapply ring_same; [|by apply Hring].
    intros p Hp. split; apply Hm; right; right; exists i; (split; [done|]); exists p; auto.
  - intros i Hi. rewrite !Hm; [by apply Hdesc|left; exists i; auto..].
  - intros r k Hk. apply (header_same kd m); [| |by apply Hhdr];
      apply Hm; right; left; exists r; rewrite Hk; eauto.
Qed.

Lemma mem_ok_add_large kd m F A r n : mem_ok kd m F A → A !! r = None →
  header kd m F r (Large n) → mem_ok kd m F (<[r := Large n]> A).
Proof.
  intros [Hring Hdesc Hhdr] Hr Hh. split; [done|done|].
  intros r' k'. rewrite lookup_insert. case_decide; [by intros [= <-]; subst|apply Hhdr].
Qed.

Lemma mem_ok_del_large kd m F A r n : mem_ok kd m F A → A !! r = Some (Large n) →
  mem_ok kd m F (delete r A).
Proof.
  intros [Hring Hdesc Hhdr] Hr. split; [done|done|].
  intros r' k' Hk. apply lookup_delete_Some in Hk as [_ Hk]. by apply Hhdr.
Qed.

(** ** Arenas *)

Lemma arenas_fresh p p' A r n : arenas_ok p A → page_got p p' r n → 1 ≤ n → A !! r = None.
Proof.
  intros HA Hg Hn. destruct (A !! r) as [k|] eqn:E; [|done].
  destruct (ao_range p A HA r k E) as (H0 & H1 & H2).
  pose proof (pg_free _ _ _ _ Hg r) as Hf. rewrite (ao_used p A HA r k r E) in Hf by lia.
  discriminate Hf. lia.
Qed.

(** The pages of the arenas are not among the pages that were free. *)
Lemma arenas_apart p p' A r n r' k : arenas_ok p A → page_got p p' r n → 1 ≤ n →
  A !! r' = Some k → r + n ≤ r' ∨ r' + pages_of k ≤ r.
Proof.
  intros HA Hg Hn E. destruct (ao_range p A HA r' k E) as (H0 & H1 & H2).
  destruct (decide (r + n ≤ r' ∨ r' + pages_of k ≤ r)) as [?|Hno]; [done|exfalso].
  pose proof (pg_free _ _ _ _ Hg (Z.max r r') ltac:(lia)) as Hf.
  rewrite (ao_used p A HA r' k (Z.max r r') E) in Hf by lia. done.
Qed.

Lemma arenas_add p p' A r k : arenas_ok p A → page_got p p' r (pages_of k) → 1 ≤ pages_of k →
  (∀ i, k = Small i → (i < 7)%nat) → arenas_ok p' (<[r := k]> A).
Proof.
  intros HA Hg Hn Hk. pose proof (pg_range _ _ _ _ Hg) as [Hr0 Hr1].
  assert (∀ r' k', <[r := k]> A !! r' = Some k' → (r' = r ∧ k' = k) ∨ (r' ≠ r ∧ A !! r' = Some k'))
    as Hcase.
  { intros r' k'. rewrite lookup_insert. case_decide; [intros [= <-]; auto|auto]. }
  split.
  - intros r' k' [[-> ->]|[_ E]]%Hcase; rewrite (pg_total _ _ _ _ Hg); [lia|].
    by apply (ao_range p A HA).
  - intros r' i [[_ <-]|[_ E]]%Hcase; [by apply Hk|by apply (ao_class p A HA r')].
  - intros r' k' j E Hj. apply Hcase in E as [[-> ->]|[_ E]].
    + rewrite (pg_vm _ _ _ _ Hg), decide_True by lia. done.
    + destruct (ao_range p A HA r' k' E). rewrite (pg_vm _ _ _ _ Hg) by lia.
      case_decide; [done|]. by apply (ao_used p A HA r' k').
  - intros r1 k1 r2 k2 [[-> ->]|[Hn1 E1]]%Hcase [[-> ->]|[Hn2 E2]]%Hcase Hne; [done|..].
    + pose proof (arenas_apart _ _ _ _ _ _ _ HA Hg Hn E2). lia.
    + pose proof (arenas_apart _ _ _ _ _ _ _ HA Hg Hn E1). lia.
    + by apply (ao_disj p A HA).
Qed.

Lemma arenas_del p p' A r k : arenas_ok p A → A !! r = Some k →
  (∀ j, 0 ≤ j → vm_page p' j = if decide (j = r) then false else vm_page p j) →
  kernel_total p' = kernel_total p → arenas_ok p' (delete r A).
Proof.
  intros HA Hr Hvm Ht. split.
  - intros r' k' [Hne E]%lookup_delete_Some. rewrite Ht. by apply (ao_range p A HA).
  - intros r' i [Hne E]%lookup_delete_Some. by apply (ao_class p A HA r').
  - intros r' k' j [Hne E]%lookup_delete_Some Hj.
    destruct (ao_range p A HA r' k' E) as (? & ? & _). destruct (ao_range p A HA r k Hr) as (? & ? & _).
    rewrite Hvm by lia. case_decide as Ej; [exfalso|by apply (ao_used p A HA r' k')].
    destruct (ao_disj p A HA r' k' r k E Hr); [congruence|lia|lia].
  - intros r1 k1 r2 k2 [_ E1]%lookup_delete_Some [_ E2]%lookup_delete_Some. by apply (ao_disj p A HA).
Qed.

(** ** Where the words of the representation are *)

Section positions.
Variables (kd : Z) (p0 : pools) (F : nat → list Z) (A : gmap Z arena_kind).
Hypothesis Hinv : shape kd p0 F A.

Lemma arena_page r k : A !! r = Some k →
  0 ≤ r ∧ 1 ≤ pages_of k ∧ r + pages_of k ≤ kernel_total p0 ∧
  page_addr r + pages_of k * 4096 ≤ 4294967296.
Proof.
  intros E. destruct (ao_range _ _ (sh_arenas _ _ _ _ Hinv) r k E) as (? & ? & ?).
  pose proof (kernel_total_range _ (sh_pools _ _ _ _ Hinv)).
  pose proof (kw_end _ (sh_pools _ _ _ _ Hinv)) as He.
  unfold kernel_total, KERNEL_HEAP_BASE, PAGE_SIZE in *. rewrite page_addr_eq. lia.
Qed.

(** A free block lies in an arena of its class. *)
Lemma free_block_in i b : (i < 7)%nat → b ∈ F i →
  ∃ r k, A !! r = Some (Small i) ∧ 0 ≤ k < nb i ∧ b = blk r i k ∧ in_page r b.
Proof.
  intros Hi Hb. destruct (sh_free _ _ _ _ Hinv i b Hi Hb) as (r & k & E & Hk & ->).
  exists r, k. split_and!; try done; lia || by apply blk_in_page.
Qed.

(** Below the heap, or in an arena: at its header or in a free block. *)
Lemma meta_position a : meta kd F A a →
  (kd ≤ a < kd + 112) ∨
  ∃ r k, A !! r = Some k ∧ (a = page_addr r ∨ a = page_addr r + 4 ∨
    ∃ i b, k = Small i ∧ b ∈ F i ∧ in_page r b ∧ (a = b ∨ a = b + 4)).
Proof.
  intros [(i & Hi & Ha)|[(r & [k Hk] & Ha)|(i & Hi & p & [->|Hp]%elem_of_cons & Ha)]].
  - left. unfold desc_at, sizeof_desc, block_size_off, blocks_each_arena_off in Ha. lia.
  - right. exists r, k. unfold desc_off, cnt_off in Ha. split; [done|]. lia.
  - left. unfold free_head, desc_at, sizeof_desc, free_list_off, prev_off, next_off in Ha. lia.
  - right. destruct (free_block_in i p Hi Hp) as (r & k & E & Hk & Ep & Hin).
    exists r, (Small i). split; [done|]. right. right. exists i, p.
    unfold prev_off, next_off in Ha. split_and!; try done; lia.
Qed.

(** The extent of an allocated block is inside its arena, behind the header. *)
Lemma allocated_position p sz : allocated F A p sz →
  ∃ r k, A !! r = Some k ∧ page_addr r + 8 ≤ p ∧ p + sz ≤ page_addr r + pages_of k * 4096 ∧
    0 < sz ∧ p mod 4 = 0.
Proof.
  intros [(r & i & k & E & Hk & -> & Hn & ->)|(r & n & E & -> & ->)].
  - pose proof (ao_class _ _ (sh_arenas _ _ _ _ Hinv) r i E) as Hi.
    pose proof (blk_range r i k Hi Hk). pose proof (bsz_facts i Hi) as (? & Hm & _).
    exists r, (Small i). simpl. split_and!; try done; try lia.
    unfold blk. rewrite page_addr_eq. apply Z.mod_divide in Hm as [q ->]; [|done].
    replace (3238002688 + r * 4096 + 8 + k * (q * 8))
      with ((809500672 + r * 1024 + 2 + k * q * 2) * 4) by lia.
    by apply Z.mod_mul.
  - destruct (arena_page r _ E) as (? & ? & _). unfold sizeof_arena. simpl in *.
    exists r, (Large n). simpl. split_and!; try done; try lia.
    rewrite page_addr_eq. divlia.
Qed.

(** The representation does not use the allocated blocks. *)
Lemma allocated_not_meta p sz a : allocated F A p sz → p ≤ a < p + sz → ¬ meta kd F A a.
Proof.
  intros Hal Ha Hmeta. pose proof (sh_kd _ _ _ _ Hinv) as [_ Hkd].
  destruct (allocated_position p sz Hal) as (r & k & E & Hp1 & Hp2 & _).
  destruct (arena_page r k E) as (Hr0 & _).
  destruct (meta_position a Hmeta) as [Hlow|(r' & k' & E' & Hpos)].
  { unfold KERNEL_HEAP_BASE in Hkd. rewrite page_addr_eq in *. lia. }
  destruct (arena_page r' k' E') as (_ & Hk' & _).
  assert (page_addr r' ≤ a < page_addr r' + pages_of k' * 4096) as Ha'.
  { destruct Hpos as [->|[->|(i & b & -> & Hb & Hin & Hab)]]; [lia|lia|]. simpl.
    pose proof (ao_class _ _ (sh_arenas _ _ _ _ Hinv) r' i E') as Hi.
    destruct (free_block_in i b Hi Hb) as (r2 & k2 & _ & Hk2 & -> & Hin2).
    pose proof (blk_range r2 i k2 Hi Hk2). pose proof (bsz_facts i Hi).
    rewrite (in_page_inj _ _ _ Hin Hin2). lia. }
  destruct (decide (r = r')) as [<-|Hne].
  2:{ destruct (ao_disj _ _ (sh_arenas _ _ _ _ Hinv) r k r' k' E E' Hne);
        rewrite !page_addr_eq in *; lia. }
  destruct Hpos as [->|[->|(i & b & -> & Hb & Hin & Hab)]]; [lia|lia|].
  pose proof (ao_class _ _ (sh_arenas _ _ _ _ Hinv) r i E') as Hi.
  destruct (free_block_in i b Hi Hb) as (r2 & k2 & _ & Hk2 & -> & Hin2).
  pose proof (in_page_inj _ _ _ Hin Hin2) as <-. rewrite E in E'. injection E' as ->.
  pose proof (bsz_facts i Hi).
  destruct Hal as [(r1 & i1 & k1 & E1 & Hk1 & -> & Hn1 & ->)|(r1 & n & E1 & -> & ->)].
  - assert (i1 < 7)%nat as Hi1 by (by apply (ao_class _ _ (sh_arenas _ _ _ _ Hinv) r1)).
    pose proof (blk_range r1 i1 k1 Hi1 Hk1). pose proof (bsz_facts i1 Hi1).
    assert (r1 = r) as -> by (simpl in Hp2; rewrite !page_addr_eq in *; lia).
    rewrite E in E1. injection E1 as <-.
    assert (k1 ≠ k2) by (intros ->; by apply Hn1).
    destruct (blk_apart r i k1 k2 Hi ltac:(lia) ltac:(lia)); [done|lia|lia].
  - simpl in Hp2. assert (r1 = r) as -> by (destruct (arena_page r1 _ E1) as (_ & Hn1 & _);
      simpl in Hn1; rewrite !page_addr_eq in *; unfold sizeof_arena in *; lia). congruence.
Qed.

(** The arena an allocated block belongs to. *)
Lemma allocated_arena p sz : allocated F A p sz → ∃ r k, A !! r = Some k ∧
  page_addr r + 8 ≤ p ∧ p + sz ≤ page_addr r + pages_of k * 4096 ∧
  match k with
  | Small i => (i < 7)%nat ∧ ∃ j, 0 ≤ j < nb i ∧ p = blk r i j ∧ sz = bsz i
  | Large n => p = page_addr r + sizeof_arena ∧ sz = n * 4096 - 8
  end.
Proof.
  intros [(r & i & k & E & Hk & -> & Hn & ->)|(r & n & E & -> & ->)].
  - pose proof (ao_class _ _ (sh_arenas _ _ _ _ Hinv) r i E) as Hi.
    pose proof (blk_range r i k Hi Hk). pose proof (bsz_facts i Hi).
    exists r, (Small i). simpl. split_and!; try done; try lia. eauto.
  - destruct (arena_page r _ E) as (? & ? & _). unfold sizeof_arena. simpl in *.
    exists r, (Large n). simpl. split_and!; try done; lia.
Qed.

(** Allocated blocks do not overlap. *)
Lemma allocated_apart p sz q z : allocated F A p sz → allocated F A q z → p ≠ q →
  p + sz ≤ q ∨ q + z ≤ p.
Proof.
  intros Hp Hq Hne.
  destruct (allocated_arena p sz Hp) as (r & k & E & Hp1 & Hp2 & Hpk).
  destruct (allocated_arena q z Hq) as (r' & k' & E' & Hq1 & Hq2 & Hqk).
  destruct (decide (r = r')) as [<-|Hr].
  2:{ destruct (ao_disj _ _ (sh_arenas _ _ _ _ Hinv) r k r' k' E E' Hr);
        rewrite !page_addr_eq in *; lia. }
  rewrite E in E'. injection E' as <-. destruct k as [i|n]; [|lia].
  destruct Hpk as (Hi & j & Hj & -> & ->), Hqk as (_ & j' & Hj' & -> & ->).
  apply blk_apart; [done|lia|lia|by intros ->].
Qed.

(** Free blocks, and the heads of the free lists, do not overlap. *)
Lemma class_word_apart i j p q : (i < 7)%nat → (j < 7)%nat → p ≠ q →
  p ∈ free_head kd i :: F i → q ∈ free_head kd j :: F j → sep p q.
Proof.
  intros Hi Hj Hne. pose proof (sh_kd _ _ _ _ Hinv) as [_ Hkd].
  unfold KERNEL_HEAP_BASE in Hkd.
  assert (∀ i b, (i < 7)%nat → b ∈ F i → kd + 112 ≤ b) as Hhigh.
  { intros i' b Hi' Hb. destruct (free_block_in i' b Hi' Hb) as (r & k & E & _ & _ & Hin).
    destruct (arena_page r _ E) as (? & _). unfold in_page in Hin. rewrite page_addr_eq in Hin. lia. }
  unfold sep, free_head, desc_at, sizeof_desc, free_list_off in *.
  intros [->|Hp]%elem_of_cons [->|Hq]%elem_of_cons.
  - lia.
  - specialize (Hhigh j q Hj Hq). lia.
  - specialize (Hhigh i p Hi Hp). lia.
  - destruct (free_block_in i p Hi Hp) as (r & k & E & Hk & -> & Hin).
    destruct (free_block_in j q Hj Hq) as (r' & k' & E' & Hk' & -> & Hin').
    pose proof (bsz_facts i Hi). pose proof (bsz_facts j Hj).
    pose proof (blk_range r i k Hi Hk). pose proof (blk_range r' j k' Hj Hk').
    destruct (decide (r = r')) as [<-|Hr]; [|rewrite !page_addr_eq in *; lia].
    rewrite E in E'. injection E' as <-. destruct (blk_apart r i k k' Hi); try lia.
    by intros ->.
Qed.

(** A free block is in the heap, above the descriptors. *)
Lemma free_block_high i b : (i < 7)%nat → b ∈ F i → kd + 112 ≤ b.
Proof.
  intros Hi Hb. pose proof (sh_kd _ _ _ _ Hinv) as [_ Hkd]. unfold KERNEL_HEAP_BASE in Hkd.
  destruct (free_block_in i b Hi Hb) as (r & k & E & _ & _ & Hin).
  destruct (arena_page r _ E) as (? & _). unfold in_page in Hin. rewrite page_addr_eq in Hin. lia.
Qed.

Lemma class_disjoint i j p q : (i < 7)%nat → (j < 7)%nat → i ≠ j →
  p ∈ free_head kd i :: F i → q ∈ free_head kd j :: F j → sep p q.
Proof.
  intros Hi Hj Hne Hp Hq. apply (class_word_apart i j); try done. intros ->.
  apply elem_of_cons in Hp as [Ep|Hp]; apply elem_of_cons in Hq as [Eq|Hq].
  - unfold free_head, desc_at, sizeof_desc, free_list_off in *. lia.
  - pose proof (free_block_high j q Hj Hq).
    unfold free_head, desc_at, sizeof_desc, free_list_off in *. lia.
  - pose proof (free_block_high i q Hi Hp).
    unfold free_head, desc_at, sizeof_desc, free_list_off in *. lia.
  - destruct (free_block_in i q Hi Hp) as (r & k & E & _ & _ & Hin).
    destruct (free_block_in j q Hj Hq) as (r' & k' & E' & _ & _ & Hin').
    rewrite (in_page_inj _ _ _ Hin Hin') in E. congruence.
Qed.

(** The words of the descriptors and of the headers are in no node. *)
Lemma desc_not_class a i : (i < 7)%nat → desc_word kd a → ¬ class_word kd F i a.
Proof.
  intros Hi (j & Hj & Ha) (p & [->|Hp]%elem_of_cons & Hap);
    [|pose proof (free_block_high i p Hi Hp)];
    unfold free_head, desc_at, sizeof_desc, free_list_off, block_size_off, blocks_each_arena_off,
      prev_off, next_off in *; lia.
Qed.

Lemma header_not_class a i : (i < 7)%nat → header_word A a → ¬ class_word kd F i a.
Proof.
  intros Hi (r & [k E] & Ha) (p & [->|Hp]%elem_of_cons & Hap);
    destruct (arena_page r _ E) as (Hr & _).
  - pose proof (sh_kd _ _ _ _ Hinv) as [_ Hkd]. unfold KERNEL_HEAP_BASE in Hkd.
    unfold free_head, desc_at, sizeof_desc, free_list_off, desc_off, cnt_off, prev_off,
      next_off in *. rewrite page_addr_eq in Ha. lia.
  - destruct (free_block_in i p Hi Hp) as (r' & k' & E' & Hk' & -> & _).
    pose proof (blk_range r' i k' Hi Hk'). pose proof (bsz_facts i Hi).
    unfold desc_off, cnt_off, prev_off, next_off in *.
    destruct (decide (r = r')) as [<-|]; rewrite !page_addr_eq in *; lia.
Qed.

Lemma desc_not_header a : desc_word kd a → ¬ header_word A a.
Proof.
  intros (j & Hj & Ha) (r & [k E] & Hr). destruct (arena_page r _ E) as (Hr0 & _).
  pose proof (sh_kd _ _ _ _ Hinv) as [_ Hkd]. unfold KERNEL_HEAP_BASE in Hkd.
  unfold desc_at, sizeof_desc, block_size_off, blocks_each_arena_off, desc_off, cnt_off in *.
  rewrite page_addr_eq in Hr. lia.
Qed.

(** What an update of nodes of class [i] leaves alone. *)
Lemma class_frame m m' i l : (i < 7)%nat → upd_nodes m m' l →
  (∀ p, p ∈ l → p ∈ free_head kd i :: F i) →
  ∀ a, ¬ class_word kd F i a → m' !! a = m !! a.
Proof.
  intros Hi [_ Hupd] Hl a Ha. apply Hupd. intros p Hp. split; intros ->; apply Ha;
    exists p; split; auto.
Qed.

Lemma class_frame_other m m' i j l a : (i < 7)%nat → (j < 7)%nat → j ≠ i → upd_nodes m m' l →
  (∀ p, p ∈ l → p ∈ free_head kd i :: F i) → class_word kd F j a → m' !! a = m !! a.
Proof.
  intros Hi Hj Hne Hupd Hl (q & Hq & Ha). apply (class_frame m m' i l Hi Hupd Hl).
  intros (p & Hp & Hap). pose proof (class_disjoint i j p q Hi Hj ltac:(congruence) Hp Hq) as Hs.
  unfold sep, prev_off, next_off in *. lia.
Qed.

(** The blocks of an arena, and how many of them may be free. *)
Lemma free_cnt_le r i : (i < 7)%nat → A !! r = Some (Small i) → NoDup (F i) →
  free_cnt F r i ≤ nb i.
Proof.
  intros Hi E Hnd. pose proof (bsz_facts i Hi) as (_ & _ & ? & _).
  assert (filter (in_page r) (F i) ⊆+ (blk r i <$> seqZ 0 (nb i))) as Hsub.
  { apply NoDup_submseteq; [by apply NoDup_filter|]. intros b [Hin Hb]%list_elem_of_filter.
    destruct (free_block_in i b Hi Hb) as (r' & k & E' & Hk & -> & Hin').
    rewrite (in_page_inj _ _ _ Hin Hin'). apply list_elem_of_fmap_2, elem_of_seqZ. lia. }
  apply submseteq_length in Hsub. rewrite length_fmap, length_seqZ in Hsub.
  unfold free_cnt. lia.
Qed.

Lemma free_list_length i : (i < 7)%nat → NoDup (F i) →
  Z.of_nat (length (F i)) ≤ kernel_total p0 * 4096.
Proof.
  intros Hi Hnd.
  assert (F i ⊆+ seqZ KERNEL_HEAP_BASE (kernel_total p0 * 4096)) as Hsub.
  { apply NoDup_submseteq; [done|]. intros b Hb. apply elem_of_seqZ.
    destruct (free_block_in i b Hi Hb) as (r & k & E & _ & _ & Hin).
    destruct (arena_page r _ E) as (? & ? & ? & _). unfold in_page, KERNEL_HEAP_BASE in *.
    rewrite page_addr_eq in Hin. simpl in *. lia. }
  apply submseteq_length in Hsub. rewrite length_seqZ in Hsub.
  pose proof (kernel_total_range _ (sh_pools _ _ _ _ Hinv)). lia.
Qed.
End positions.

Lemma mapped_at total m r a : mapped total m → 0 ≤ r < total →
  page_addr r ≤ a < page_addr r + 4096 → a mod 4 = 0 → is_Some (m !! a).
Proof.
  intros Hm Hr Ha Hal. replace a with (page_addr r + 4 * ((a - page_addr r) / 4)).
  - apply Hm; [done|]. divlia.
  - rewrite page_addr_eq. divlia.
Qed.

(** Words that lie in a run of pages. *)
Lemma mapped_run total m r n a : mapped total m → 0 ≤ r → r + n ≤ total →
  page_addr r ≤ a < page_addr r + n * 4096 → a mod 4 = 0 → is_Some (m !! a).
Proof.
  intros Hm Hr Hn Ha Hal. rewrite page_addr_eq in Ha.
  apply (mapped_at total m ((a - 3238002688) / 4096)); [done|divlia| |done].
  rewrite page_addr_eq. divlia.
Qed.

Lemma mapped_mono total m m' : mapped total m → (∀ a, is_Some (m !! a) → is_Some (m' !! a)) →
  mapped total m'.
Proof. intros Hm H r j Hr Hj. by apply H, Hm. Qed.

(** ** Taking a block *)

Lemma shape_sub kd p F A i l : shape kd p F A → (i < 7)%nat → (∀ b, b ∈ l → b ∈ F i) →
  shape kd p (<[i := l]> F) A.
Proof.
  intros [Hkd Hp Htot HA Hf] Hi Hl. split; try done. intros j b Hj Hb.
  destruct (decide (j = i)) as [->|Hne].
  - rewrite fn_lookup_insert in Hb. by apply Hf, Hl.
  - rewrite fn_lookup_insert_ne in Hb by done. by apply Hf.
Qed.

Lemma free_cnt_other F i j l r : j ≠ i → free_cnt (<[i := l]> F) r j = free_cnt F r j.
Proof. intros Hne. unfold free_cnt. by rewrite fn_lookup_insert_ne by done. Qed.

Lemma free_cnt_cons F i x l r : F i = x :: l →
  free_cnt F r i = (if decide (in_page r x) then 1 else 0) + free_cnt (<[i := l]> F) r i.
Proof.
  intros E. unfold free_cnt. rewrite E, fn_lookup_insert, filter_cons.
  destruct (decide (in_page r x)); cbn [length]; lia.
Qed.

(** The free list of class [i] becomes [l], and the counter of the arena [r]
    changes with it: what has to be checked of the new memory. *)
Lemma mem_ok_count kd p m m' F A i l r : shape kd p F A → mem_ok kd m F A → (i < 7)%nat →
  shape kd p (<[i := l]> F) A →
  ring m' (free_head kd i :: l) →
  (∀ a, meta kd F A a → ¬ class_word kd F i a → a ≠ page_addr r + cnt_off → m' !! a = m !! a) →
  A !! r = Some (Small i) → m' !! (page_addr r + cnt_off) = Some (free_cnt (<[i := l]> F) r i) →
  (∀ r', r' ≠ r → free_cnt (<[i := l]> F) r' i = free_cnt F r' i) →
  mem_ok kd m' (<[i := l]> F) A.
Proof.
  intros Hsh Hm Hi Hsh' Hring Hframe Hr Hcnt Hother.
  assert (header_word A (page_addr r + cnt_off)) as Hw by (exists r; rewrite Hr; eauto).
  assert (∀ r' a, is_Some (A !! r') → a = page_addr r' + desc_off ∨ a = page_addr r' + cnt_off →
    a ≠ page_addr r + cnt_off → m' !! a = m !! a) as Hhdr.
  { intros r' a Hr' Ha Hne. assert (header_word A a) by (by exists r').
    apply Hframe; [by right; left|by eapply header_not_class|done]. }
  apply (mem_ok_class kd m m' F A A i l Hm Hi Hring).
  - intros a Ha. apply Hframe; [by left|by eapply desc_not_class|].
    intros ->. by apply (desc_not_header kd p F A Hsh _ Ha).
  - intros j a Hj Hne Ha. apply Hframe.
    + right; right. eauto.
    + destruct Ha as (q & Hq & Ha). intros (q' & Hq' & Ha').
      pose proof (class_disjoint kd p F A Hsh i j q' q Hi Hj ltac:(congruence) Hq' Hq) as Hs.
      unfold sep, prev_off, next_off in *. lia.
    + intros ->. by apply (header_not_class kd p F A Hsh _ j Hj Hw).
  - intros r' k Hr'. assert (page_addr r' + desc_off ≠ page_addr r + cnt_off) as Hne1.
    { unfold desc_off, cnt_off. rewrite !page_addr_eq. lia. }
    assert (m' !! (page_addr r' + desc_off) = m !! (page_addr r' + desc_off)) as E1 by eauto.
    destruct (decide (k = Small i)) as [->|Hne]; [left|right; split; [done|split; [done|split; [done|]]]].
    + pose proof (mo_header _ _ _ _ Hm r' _ Hr') as [Hd Hc]. split; [by rewrite E1|].
      destruct (decide (r' = r)) as [->|Hnr]; [done|]. rewrite (Hhdr r'); [|by eauto|by auto|].
      * by rewrite Hother.
      * unfold cnt_off. rewrite !page_addr_eq. lia.
    + apply (Hhdr r'); [by eauto|by auto|]. unfold cnt_off. rewrite !page_addr_eq.
      intros E. assert (r' = r) as -> by lia. congruence.
Qed.

Lemma take_block_spec kd p m F A i x l : shape kd p F A → mem_ok kd m F A →
  mapped (kernel_total p) m → (i < 7)%nat → F i = x :: l →
  let F' := <[i := l]> F in
  ∃ m', take_block m (desc_at kd (Z.of_nat i)) = Ok (m', x) ∧
    shape kd p F' A ∧ mem_ok kd m' F' A ∧ mapped (kernel_total p) m' ∧
    allocated F' A x (bsz i) ∧
    (∀ j, 0 ≤ j < bsz i / 4 → m' !! (x + 4 * j) = Some 0) ∧
    (∀ a, ¬ meta kd F A a → ¬ (x ≤ a < x + bsz i) → m' !! a = m !! a).
Proof.
  intros Hsh Hm Hmap Hi EF F'. pose proof (mo_ring _ _ _ _ Hm i Hi) as Hring. rewrite EF in Hring.
  pose proof (bsz_facts i Hi) as (Hb1 & Hb2 & _).
  assert (shape kd p F' A) as Hsh'.
  { apply shape_sub; try done. intros b Hb. rewrite EF. by right. }
  destruct (free_block_in kd p F A Hsh i x Hi) as (r & k & Er & Hk & Ex & Hin);
    [rewrite EF; by left|].
  destruct (arena_page kd p F A Hsh r _ Er) as (Hr0 & _ & Hr1 & Hr2). simpl in Hr1, Hr2.
  pose proof (blk_range r i k Hi Hk) as Hxr. rewrite <- Ex in Hxr.
  assert (NoDup (x :: l)) as [Hxl Hl]%NoDup_cons.
  { apply ring_apart in Hring as [_ ?]. by apply apart_NoDup. }
  assert (allocated F' A x (bsz i)) as Hal.
  { left. exists r, i, k. subst F'. rewrite fn_lookup_insert. done. }
  destruct (list_pop_spec m (free_head kd i) x l Hring) as (m1 & Epop & Hring1 & Hupd).
  assert (∀ a, ¬ class_word kd F i a → m1 !! a = m !! a) as Hf1.
  { apply (class_frame kd F m m1 i _ Hi Hupd). by rewrite EF. }
  destruct (memset_zero_spec m1 x (bsz i / 4)) as (m2 & Eset & Hz & Hf2 & Hmono2);
    [rewrite page_addr_eq in *; lia|divlia|rewrite page_addr_eq in *; divlia| |].
  { intros j Hj. apply Hupd. apply (mapped_at (kernel_total p) m r); [done|lia|divlia|].
    subst x. unfold blk. rewrite page_addr_eq. divlia. }
  replace (4 * (bsz i / 4)) with (bsz i) in * by divlia.
  assert (header_word A (page_addr r + cnt_off)) as Hw by (exists r; rewrite Er; eauto).
  assert (∀ a, meta kd F' A a → a < x ∨ x + bsz i ≤ a) as Hout.
  { intros a Ha. destruct (decide (x ≤ a < x + bsz i)) as [Hx|]; [|lia].
    by destruct (allocated_not_meta kd p F' A Hsh' x (bsz i) a Hal Hx). }
  assert (m2 !! (page_addr r + cnt_off) = Some (free_cnt F r i)) as Ecnt.
  { rewrite Hf2 by (apply Hout; by right; left). rewrite Hf1 by (by eapply header_not_class).
    by apply (mo_header _ _ _ _ Hm r _ Er). }
  assert (free_cnt F r i = 1 + free_cnt F' r i) as Ecc
    by (subst F'; rewrite (free_cnt_cons F i x l r EF), decide_True; done).
  assert (free_cnt F r i ≤ 255) as Hcnt.
  { pose proof (bsz_facts i Hi) as (_ & _ & ? & _). assert (NoDup (F i)) as Hnd by (rewrite EF; by constructor).
    pose proof (free_cnt_le kd p F A Hsh r i Hi Er Hnd). lia. }
  exists (<[page_addr r + cnt_off := free_cnt F' r i]> m2).
  split_and!; try done.
  - unfold take_block. fold (free_head kd i). rewrite Epop. cbn [obind].
    rewrite (load_Some m1 _ (bsz i)).
    2:{ rewrite Hf1 by (eapply desc_not_class; [done..|exists i; auto]). by apply (mo_desc _ _ _ _ Hm). }
    cbn [obind]. rewrite Eset. cbn [obind].
    rewrite (block_2_arena_eq x r) by (done || rewrite page_addr_eq in *; lia).
    rewrite (load_Some _ _ _ Ecnt). cbn [obind]. rewrite (store_Some _ _ _ _ Ecnt). cbn [obind].
    rewrite u32_small by (unfold free_cnt in *; lia). do 3 f_equal. lia.
  - apply (mem_ok_count kd p m _ F A i l r Hsh Hm Hi Hsh'); try done.
    + eapply ring_same; [|done]. intros q Hq.
      assert (∀ a, class_word kd F' i a → <[page_addr r + cnt_off := free_cnt F' r i]> m2 !! a = m1 !! a)
        as Hsame.
      { intros a Ha. rewrite lookup_insert_ne, Hf2; [done| |].
        - apply Hout. right; right. eauto.
        - intros <-. by apply (header_not_class kd p F' A Hsh' _ i Hi Hw). }
      split; apply Hsame; exists q; (split; [|auto]); subst F'; by rewrite fn_lookup_insert.
    + intros a Ha Hnc Hne. rewrite lookup_insert_ne by done. rewrite Hf2; [by apply Hf1|].
      apply Hout. destruct Ha as [?|[?|(j & Hj & Hc)]]; [by left|by right; left|].
      right; right. exists j. split; [done|]. destruct (decide (j = i)) as [->|Hji]; [done|].
      unfold class_word in *. subst F'. by rewrite fn_lookup_insert_ne by done.
    + by rewrite lookup_insert_eq.
    + intros r' Hr'. rewrite (free_cnt_cons F i x l r' EF), decide_False; [done|].
      intros Hin'. by rewrite (in_page_inj _ _ _ Hin Hin') in Hr'.
  - apply (mapped_mono _ m); [done|]. intros a Ha. apply is_Some_insert, Hmono2, Hupd, Ha.
  - intros j Hj. rewrite lookup_insert_ne by (unfold cnt_off; lia). by apply Hz.
  - intros a Ha Hx. rewrite lookup_insert_ne, Hf2; [|lia|].
    + apply Hf1. intros Hc. apply Ha. right; right. eauto.
    + intros <-. apply Ha. by right; left.
Qed.

(** ** A new arena *)

Definition blocks (r : Z) (i : nat) (n : Z) : list Z := blk r i <$> seqZ 0 n.
Definition outside (r a : Z) : Prop := a < page_addr r ∨ page_addr r + 4096 ≤ a.

Lemma elem_of_blocks r i n b : b ∈ blocks r i n ↔ ∃ k, 0 ≤ k < n ∧ b = blk r i k.
Proof.
  unfold blocks. rewrite list_elem_of_fmap. split.
  - intros (k & -> & Hk%elem_of_seqZ). exists k. split; [lia|done].
  - intros (k & Hk & ->). exists k. split; [done|]. apply elem_of_seqZ. lia.
Qed.

Lemma blocks_snoc r i n : 0 ≤ n → blocks r i (n + 1) = blocks r i n ++ [blk r i n].
Proof.
  intros Hn. unfold blocks. rewrite seqZ_app by lia. rewrite fmap_app. f_equal.
Qed.

Lemma length_blocks r i n : 0 ≤ n → Z.of_nat (length (blocks r i n)) = n.
Proof. intros Hn. unfold blocks. rewrite length_fmap, length_seqZ. lia. Qed.

Lemma elem_of_removelast {A} (l : list A) x : x ∈ removelast l → x ∈ l.
Proof.
  induction l as [|y [|z l] IH]; [done|by intros ?%elem_of_nil|].
  change (removelast (y :: z :: l)) with (y :: removelast (z :: l)).
  intros [->|H]%elem_of_cons; [by left|right; auto].
Qed.

Lemma filter_true {A} (P : A → Prop) `{!∀ x, Decision (P x)} l : Forall P l → filter P l = l.
Proof. induction 1; [done|]. rewrite filter_cons_True by done. by f_equal. Qed.

Lemma filter_false {A} (P : A → Prop) `{!∀ x, Decision (P x)} l :
  (∀ x, x ∈ l → ¬ P x) → filter P l = [].
Proof.
  induction l as [|x l IH]; intros Hno; [done|].
  rewrite filter_cons_False by (apply Hno; by left).
  apply IH. intros y Hy. apply Hno. by right.
Qed.

(** The free blocks of a page that is entirely free, and of another page. *)
Lemma blocks_cnt F r r' i : (i < 7)%nat →
  free_cnt (<[i := blocks r i (nb i)]> F) r' i = if decide (r' = r) then nb i else 0.
Proof.
  intros Hi. unfold free_cnt. rewrite fn_lookup_insert. pose proof (bsz_facts i Hi) as (_ & _ & Hn & _).
  case_decide as Er.
  - subst r'. rewrite filter_true; [apply length_blocks; lia|].
    apply Forall_forall. intros b (k & Hk & ->)%elem_of_blocks. by apply blk_in_page.
  - rewrite filter_false; [done|]. intros b (k & Hk & ->)%elem_of_blocks Hin.
    by rewrite (in_page_inj _ _ _ Hin (blk_in_page r i k Hi Hk)) in Er.
Qed.

Section fill.
Variables (kd r : Z) (i : nat).
Hypothesis Hi : (i < 7)%nat.
Hypothesis Hkd : 0 < kd ∧ kd + 112 ≤ KERNEL_HEAP_BASE.
Hypothesis Hr : 0 ≤ r ∧ page_addr r + 4096 ≤ 4294967296.

(** A page whose header is written, the first [k] blocks being on the free list. *)
Record filling (m : mem) (k : Z) : Prop := {
  fl_ring : ring m (free_head kd i :: blocks r i k);
  fl_header : m !! (page_addr r + desc_off) = Some (desc_at kd (Z.of_nat i));
  fl_size : m !! (desc_at kd (Z.of_nat i) + block_size_off) = Some (bsz i);
  fl_blocks : m !! (desc_at kd (Z.of_nat i) + blocks_each_arena_off) = Some (nb i);
  fl_page j : 0 ≤ j < 1024 → is_Some (m !! (page_addr r + 4 * j))
}.

Lemma head_low : free_head kd i + 8 ≤ page_addr r ∧ addr (free_head kd i).
Proof.
  unfold free_head, desc_at, sizeof_desc, free_list_off, addr, KERNEL_HEAP_BASE in *.
  rewrite page_addr_eq. lia.
Qed.

(** The words outside the page, the header and the head do not change. *)
Definition fill_frame (m m' : mem) : Prop :=
  (∀ a, is_Some (m !! a) → is_Some (m' !! a)) ∧
  (∀ a, a < page_addr r + 8 ∨ page_addr r + 4096 ≤ a →
     a ≠ free_head kd i + prev_off → a ≠ free_head kd i + next_off → m' !! a = m !! a).

Lemma filling_upd m m' k :
  filling m k → fill_frame m m' → ring m' (free_head kd i :: blocks r i (k + 1)) →
  filling m' (k + 1).
Proof.
  intros [Hring Hh Hs Hb Hp] [Hmono Hframe] Hring'. pose proof head_low as [Hlow _].
  unfold free_head, desc_at, sizeof_desc, free_list_off, desc_off, block_size_off,
    blocks_each_arena_off, prev_off, next_off in *.
  split; [done| | | |]; unfold desc_at, sizeof_desc, desc_off, block_size_off, blocks_each_arena_off;
    rewrite ?Hframe; try done; try lia.
  intros j Hj. apply Hmono, Hp, Hj.
Qed.

Variable fuel : nat.
Hypothesis Hfuel : (255 < fuel)%nat.

Lemma fill_step m k : filling m k → 0 ≤ k < nb i →
  ∃ m', list_find_item fuel m (free_head kd i) (blk r i k) = Ok false ∧
    list_add_prev m (free_head kd i) (blk r i k) = Ok m' ∧ filling m' (k + 1) ∧ fill_frame m m'.
Proof.
  intros Hfl Hk. pose proof head_low as [Hlow Haddr].
  pose proof (blk_range r i k Hi Hk). pose proof (bsz_facts i Hi) as (Hb1 & Hb2 & Hnb & _).
  assert (addr (blk r i k)) as Ha by (unfold addr in *; lia).
  assert (Forall (sep (blk r i k)) (free_head kd i :: blocks r i k)) as Hsep.
  { constructor; [unfold sep; lia|]. apply Forall_forall. intros b (k' & Hk' & ->)%elem_of_blocks.
    destruct (blk_apart r i k k' Hi); unfold sep; lia. }
  assert (insertable m (free_head kd i :: blocks r i k) (blk r i k)) as Hins.
  { assert (∀ a, page_addr r ≤ a < page_addr r + 4096 → (a - page_addr r) mod 4 = 0 →
      is_Some (m !! a)) as Hw.
    { intros a Ha' Hm. replace a with (page_addr r + 4 * ((a - page_addr r) / 4)) by divlia.
      apply (fl_page _ _ Hfl). divlia. }
    assert ((blk r i k - page_addr r) mod 4 = 0).
    { unfold blk. apply Z.mod_divide in Hb2 as [q Eq]; [|done]. rewrite Eq.
      replace (page_addr r + 8 + k * (q * 8) - page_addr r) with ((2 + k * q * 2) * 4) by lia.
      by apply Z.mod_mul. }
    split; [|done]. split; apply Hw; unfold prev_off, next_off; try lia; divlia. }
  destruct (list_add_prev_spec m _ _ _ (fl_ring _ _ Hfl) Hins) as (m' & Eadd & Hring' & Hupd).
  rewrite <- blocks_snoc in Hring' by lia.
  assert (fill_frame m m') as Hframe.
  { destruct Hupd as [Hmono Hsame]. split; [done|]. intros a Ha' Hn1 Hn2. apply Hsame.
    intros p [->|[->|(k' & Hk' & ->)%elem_of_blocks]%elem_of_cons]%elem_of_cons;
      unfold prev_off, next_off in *; [lia|lia|].
    pose proof (blk_range r i k' Hi ltac:(lia)). lia. }
  exists m'. split_and!; try done; [|by eapply filling_upd].
  rewrite (list_find_item_ring fuel m _ (blocks r i k)); [|apply (fl_ring _ _ Hfl)|done|].
  - f_equal. apply bool_decide_eq_false. intros Hin%elem_of_removelast.
    rewrite Forall_forall in Hsep. by apply (sep_irrefl (blk r i k)), Hsep.
  - pose proof (length_blocks r i k). lia.
Qed.

Lemma fill_arena_spec n m k : filling m k → 0 ≤ k ≤ nb i → nb i - k < Z.of_nat n →
  ∃ m', fill_arena fuel n m (desc_at kd (Z.of_nat i)) (page_addr r) k = Ok m' ∧
    filling m' (nb i) ∧ fill_frame m m'.
Proof.
  revert m k. induction n as [|n IH]; intros m k Hfl Hk Hn; [lia|]. cbn [fill_arena].
  pose proof (bsz_facts i Hi) as (Hb1 & _ & Hnb & _).
  rewrite (load_Some _ _ _ (fl_blocks _ _ Hfl)). cbn [obind].
  destruct (Z.ltb_spec k (nb i)) as [Hlt|Hge].
  2:{ exists m. replace k with (nb i) in Hfl by lia. split_and!; [done|done|by split]. }
  unfold arena_2_block.
  rewrite (load_Some _ _ _ (fl_header _ _ Hfl)). cbn [obind].
  rewrite (load_Some _ _ _ (fl_size _ _ Hfl)). cbn [obind].
  pose proof (blk_range r i k Hi ltac:(lia)) as Hrange. unfold sizeof_arena.
  fold (blk r i k). rewrite u32_small by (rewrite page_addr_eq in *; lia). cbn [obind].
  fold (free_head kd i).
  destruct (fill_step m k Hfl ltac:(lia)) as (m1 & -> & -> & Hfl1 & Hfr1).
  cbn [obind negb ASSERT]. rewrite u32_small by lia.
  destruct (IH m1 (k + 1) Hfl1) as (m2 & -> & Hfl2 & Hfr2); [lia|lia|].
  exists m2. split_and!; [done|done|]. destruct Hfr1 as [D1 F1], Hfr2 as [D2 F2].
  split; [auto|]. intros a ???. by rewrite F2, F1.
Qed.
End fill.

Lemma shape_new_arena kd p p' F A i r : shape kd p F A → page_got p p' r 1 → (i < 7)%nat →
  F i = [] → shape kd p' (<[i := blocks r i (nb i)]> F) (<[r := Small i]> A).
Proof.
  intros [Hkd Hp Htot HA Hf] Hg Hi EF.
  pose proof (arenas_fresh _ _ _ _ _ HA Hg ltac:(lia)) as Hfresh.
  split; [done|apply Hg|by rewrite (pg_total _ _ _ _ Hg)| |].
  - apply (arenas_add p p' A r (Small i)); [done|done|simpl; lia|by intros ? [= <-]].
  - intros j b Hj Hb. destruct (decide (j = i)) as [->|Hne].
    + rewrite fn_lookup_insert in Hb. apply elem_of_blocks in Hb as (k & Hk & ->).
      exists r, k. by rewrite lookup_insert_eq.
    + rewrite fn_lookup_insert_ne in Hb by done. destruct (Hf j b Hj Hb) as (r' & k & E & ?).
      exists r', k. split; [|done]. by rewrite lookup_insert_ne by congruence.
Qed.

(** A word of an arena is not in a page that was free. *)
Lemma meta_outside kd p p' F A a r n : shape kd p F A → page_got p p' r n → 1 ≤ n →
  meta kd F A a → a < page_addr r ∨ page_addr r + n * 4096 ≤ a.
Proof.
  intros Hsh Hg Hn Ha. pose proof (sh_kd _ _ _ _ Hsh) as [_ Hkd]. unfold KERNEL_HEAP_BASE in Hkd.
  pose proof (pg_range _ _ _ _ Hg) as [Hr0 _].
  destruct (meta_position kd p F A Hsh a Ha) as [Hlow|(r' & k & E & Hpos)];
    [rewrite page_addr_eq; lia|].
  pose proof (arenas_apart _ _ _ _ _ _ _ (sh_arenas _ _ _ _ Hsh) Hg Hn E) as Hap.
  destruct (ao_range _ _ (sh_arenas _ _ _ _ Hsh) r' k E) as (_ & Hk & _).
  assert (page_addr r' ≤ a < page_addr r' + 4096) as Hin.
  { destruct Hpos as [->|[->|(i & b & -> & Hb & Hin & Hab)]]; [lia|lia|].
    pose proof (ao_class _ _ (sh_arenas _ _ _ _ Hsh) r' i E) as Hi.
    destruct (free_block_in kd p F A Hsh i b Hi Hb) as (r2 & k2 & _ & Hk2 & -> & Hin2).
    pose proof (blk_range r2 i k2 Hi Hk2). pose proof (bsz_facts i Hi).
    rewrite (in_page_inj _ _ _ Hin Hin2). lia. }
  rewrite !page_addr_eq in *. lia.
Qed.

Lemma page_got_bounds kd p p' F A r n : shape kd p F A → page_got p p' r n →
  0 ≤ r ∧ r + n ≤ kernel_total p ∧ page_addr r + n * 4096 ≤ 4294967296.
Proof.
  intros Hsh Hg. pose proof (pg_range _ _ _ _ Hg) as [H0 H1].
  pose proof (kw_end _ (sh_pools _ _ _ _ Hsh)) as He.
  unfold kernel_total, KERNEL_HEAP_BASE, PAGE_SIZE in *. rewrite page_addr_eq. lia.
Qed.

(** The memory of a new arena. *)
Lemma mem_ok_new_arena kd p p' m m' F A i r : shape kd p F A → mem_ok kd m F A →
  page_got p p' r 1 → (i < 7)%nat → F i = [] → filling kd r i m' (nb i) →
  m' !! (page_addr r + cnt_off) = Some (nb i) →
  (∀ a, outside r a → a ≠ free_head kd i + prev_off → a ≠ free_head kd i + next_off →
    m' !! a = m !! a) →
  mem_ok kd m' (<[i := blocks r i (nb i)]> F) (<[r := Small i]> A).
Proof.
  intros Hsh Hm Hg Hi EF Hfl Hcnt Hframe. pose proof (bsz_facts i Hi) as (_ & _ & Hnb & _).
  assert (∀ a, meta kd F A a → ¬ class_word kd F i a → m' !! a = m !! a) as Hsame.
  { intros a Ha Hc. pose proof (meta_outside kd p p' F A a r 1 Hsh Hg ltac:(lia) Ha).
    apply Hframe; [unfold outside; lia|..]; intros ->; apply Hc; exists (free_head kd i);
      (split; [by left|auto]). }
  apply (mem_ok_class kd m m' F A _ i _ Hm Hi); [apply (fl_ring _ _ _ _ _ Hfl)|..].
  - intros a Ha. apply Hsame; [by left|by eapply desc_not_class].
  - intros j a Hj Hne Ha. apply Hsame; [right; right; eauto|]. destruct Ha as (q & Hq & Ha).
    intros (q' & Hq' & Ha').
    pose proof (class_disjoint kd p F A Hsh i j q' q Hi Hj ltac:(congruence) Hq' Hq) as Hs.
    unfold sep, prev_off, next_off in *. lia.
  - intros r' k. rewrite lookup_insert. case_decide as Er.
    + intros [= <-]. subst r'. left. split; [apply (fl_header _ _ _ _ _ Hfl)|].
      rewrite Hcnt. by rewrite blocks_cnt, decide_True.
    + intros Hk.
      assert (∀ a, a = page_addr r' + desc_off ∨ a = page_addr r' + cnt_off → m' !! a = m !! a) as Hh.
      { intros a Ha. assert (header_word A a) by (by exists r'; rewrite Hk; eauto).
        apply Hsame; [by right; left|by eapply header_not_class]. }
      pose proof (mo_header _ _ _ _ Hm r' k Hk) as Hhdr.
      destruct (decide (k = Small i)) as [->|Hne]; [left|right; auto 10].
      destruct Hhdr as [Hd Hc]. split; rewrite Hh by auto; [done|].
      rewrite Hc, blocks_cnt, decide_False by done. unfold free_cnt. by rewrite EF.
Qed.

Lemma new_arena_spec fuel kd s F A i r p' :
  heap_inv kd s F A → (i < 7)%nat → F i = [] → (255 < fuel)%nat →
  page_alloc fuel (h_pools s) PF_KERNEL 1 = Ok (p', page_addr r) → page_got (h_pools s) p' r 1 →
  let F' := <[i := blocks r i (nb i)]> F in let A' := <[r := Small i]> A in
  ∃ m', new_arena fuel PF_KERNEL s (desc_at kd (Z.of_nat i)) = Ok (set_mem (set_pools s p') m', true) ∧
    heap_inv kd (set_mem (set_pools s p') m') F' A' ∧
    (∀ a, ¬ meta kd F A a → outside r a → m' !! a = h_mem s !! a).
Proof.
  intros [Hsh Hm Hmap] Hi EF Hfuel Hpa Hg F' A'.
  destruct (page_got_bounds kd _ p' F A r 1 Hsh Hg) as (Hr0 & Hr1 & Hr2).
  pose proof (sh_kd _ _ _ _ Hsh) as Hkd. pose proof (bsz_facts i Hi) as (_ & _ & Hnb & _).
  destruct (mo_desc _ _ _ _ Hm i Hi) as [Hsize Hblocks].
  assert (∀ a, desc_word kd a → a < page_addr r) as Hdlow.
  { intros a (j & Hj & Ha). unfold KERNEL_HEAP_BASE, desc_at, sizeof_desc, block_size_off,
      blocks_each_arena_off in *. rewrite page_addr_eq. lia. }
  assert (desc_word kd (desc_at kd (Z.of_nat i) + block_size_off)) as Hw1 by (exists i; auto).
  assert (desc_word kd (desc_at kd (Z.of_nat i) + blocks_each_arena_off)) as Hw2 by (exists i; auto).
  pose proof (Hdlow _ Hw1). pose proof (Hdlow _ Hw2).
  destruct (head_low kd r i Hi Hkd) as [Hhl Hha]; [lia|].
  unfold new_arena. rewrite Hpa. cbn [obind h_pools h_mem h_intr set_pools set_mem set_intr].
  unfold NULL. rewrite (proj2 (Z.eqb_neq (page_addr r) 0)) by (rewrite page_addr_eq; lia).
  destruct (memset_zero_spec (h_mem s) (page_addr r) 1024) as (m1 & Ez & Hz & Hf1 & Hmono1);
    [rewrite page_addr_eq; lia|lia|lia|intros j Hj; apply Hmap; lia|].
  change PAGE_SIZE with (4 * 1024). rewrite Ez. cbn [obind].
  rewrite (store_Some m1 (page_addr r + desc_off) _ 0) by (by apply (Hz 0)). cbn [obind].
  set (m2 := <[page_addr r + desc_off := desc_at kd (Z.of_nat i)]> m1).
  assert (m2 !! (desc_at kd (Z.of_nat i) + blocks_each_arena_off) = Some (nb i)) as E2.
  { subst m2. rewrite lookup_insert_ne by (unfold desc_off; lia). by rewrite Hf1 by lia. }
  rewrite (load_Some _ _ _ E2). cbn [obind].
  rewrite (store_Some m2 (page_addr r + cnt_off) _ 0).
  2:{ subst m2. rewrite lookup_insert_ne by (unfold desc_off, cnt_off; lia). by apply (Hz 1). }
  cbn [obind]. set (m3 := <[page_addr r + cnt_off := nb i]> m2).
  assert (∀ a, a < page_addr r ∨ page_addr r + 4096 ≤ a → m3 !! a = h_mem s !! a) as Hout3.
  { intros a Ha. subst m3 m2. unfold desc_off, cnt_off.
    rewrite !lookup_insert_ne by lia. by rewrite Hf1 by lia. }
  assert (∀ a, is_Some (h_mem s !! a) → is_Some (m3 !! a)) as Hmono3.
  { intros a Ha. subst m3 m2. by apply is_Some_insert, is_Some_insert, Hmono1. }
  assert (filling kd r i m3 0) as Hfl.
  { split.
    - change (blocks r i 0) with (@nil Z). pose proof (mo_ring _ _ _ _ Hm i Hi) as Hring.
      rewrite EF in Hring. eapply ring_same; [|done]. intros q [->|[]%elem_of_nil]%elem_of_cons.
      unfold prev_off, next_off. rewrite !Hout3 by lia. done.
    - subst m3 m2. unfold desc_off, cnt_off. rewrite lookup_insert_ne by lia.
      by rewrite lookup_insert_eq.
    - by rewrite Hout3 by lia.
    - by rewrite Hout3 by lia.
    - intros j Hj. apply Hmono3, Hmap; lia. }
  destruct (fill_arena_spec kd r i Hi Hkd ltac:(lia) fuel Hfuel (S fuel) m3 0 Hfl) as
    (m4 & -> & Hfl4 & Hmono4 & Hf4); [lia|lia|].
  cbn [obind]. exists m4. split; [by destruct s|].
  assert (∀ a, outside r a → a ≠ free_head kd i + prev_off → a ≠ free_head kd i + next_off →
    m4 !! a = h_mem s !! a) as Hframe.
  { intros a [Ha|Ha] Hn1 Hn2; rewrite Hf4, Hout3 by (done || lia); done. }
  split; [split|].
  - by apply (shape_new_arena kd (h_pools s)).
  - eapply mem_ok_new_arena; try done. rewrite Hf4;
      [|unfold cnt_off; lia|unfold cnt_off, prev_off; lia|unfold cnt_off, next_off; lia].
    subst m3. by rewrite lookup_insert_eq.
  - cbn [set_mem set_pools h_pools h_mem]. rewrite (pg_total _ _ _ _ Hg).
    apply (mapped_mono _ (h_mem s)); [done|]. intros a Ha. by apply Hmono4, Hmono3.
  - intros a Hna Ha. apply Hframe; [done|..]; intros ->; apply Hna; right; right; exists i;
      (split; [done|]); exists (free_head kd i); (split; [by left|auto]).
Qed.

(** ** What [sys_malloc] does *)

(** [p] was given out: it is a block of at least [size] bytes, all zero, that
    was not given out before; the other blocks that are given out are the same, and
    so are their contents. *)
Definition malloced (kd : Z) (s s' : heap) (F : nat → list Z) (A : gmap Z arena_kind)
    (size p : Z) : Prop :=
  ∃ F' A' sz, heap_inv kd s' F' A' ∧ size ≤ sz ∧
    (∀ q z, allocated F' A' q z ↔ allocated F A q z ∨ (q = p ∧ z = sz)) ∧
    (∀ q z, allocated F A q z → q ≠ p) ∧
    (∀ j, 0 ≤ j < sz / 4 → h_mem s' !! (p + 4 * j) = Some 0) ∧
    (∀ q z a, allocated F A q z → q ≤ a < q + z → h_mem s' !! a = h_mem s !! a).

Lemma allocated_take F A i x l r k q z : F i = x :: l → x ∉ l → A !! r = Some (Small i) →
  0 ≤ k < nb i → x = blk r i k →
  (∀ r' j k', A !! r' = Some (Small j) → 0 ≤ k' < nb j → x = blk r' j k' → r' = r) →
  allocated (<[i := l]> F) A q z ↔ allocated F A q z ∨ (q = x ∧ z = bsz i).
Proof.
  intros EF Hx Er Hk Ex Huniq. split.
  - intros [(r' & j & k' & E & Hk' & Eq & Hn & ->)|Hl]; [|left; by right].
    destruct (decide (q = x)) as [->|Hne].
    + right. pose proof (Huniq r' j k' E Hk' Eq) as ->. rewrite E in Er. by injection Er as ->.
    + left. left. exists r', j, k'. split_and!; try done; try lia.
      destruct (decide (j = i)) as [->|Hji].
      * rewrite fn_lookup_insert in Hn. rewrite EF. by intros [?|?]%elem_of_cons.
      * by rewrite fn_lookup_insert_ne in Hn.
  - intros [[(r' & j & k' & E & Hk' & Eq & Hn & ->)|Hl]|[-> ->]]; [left|by right|left].
    + exists r', j, k'. split_and!; try done; try lia. destruct (decide (j = i)) as [->|Hji].
      * rewrite fn_lookup_insert. rewrite EF in Hn. intros Hin. apply Hn. by right.
      * by rewrite fn_lookup_insert_ne.
    + exists r, i, k. by rewrite fn_lookup_insert.
Qed.

Lemma take_block_malloced kd s F A i x l b : heap_inv kd s F A → (i < 7)%nat → F i = x :: l →
  ∃ m', take_block (h_mem s) (desc_at kd (Z.of_nat i)) = Ok (m', x) ∧
    malloced kd s (set_lock (set_mem s m') PF_KERNEL b) F A (bsz i) x.
Proof.
  intros [Hsh Hm Hmap] Hi EF.
  destruct (take_block_spec kd _ _ F A i x l Hsh Hm Hmap Hi EF)
    as (m' & E & Hsh' & Hm' & Hmap' & Hal & Hz & Hframe).
  exists m'. split; [done|].
  destruct (free_block_in kd _ F A Hsh i x Hi) as (r & k & Er & Hk & Ex & Hin);
    [rewrite EF; by left|].
  pose proof (mo_ring _ _ _ _ Hm i Hi) as Hring. rewrite EF in Hring.
  apply ring_apart in Hring as [_ [Hxl _]%apart_NoDup%NoDup_cons].
  assert (∀ q z, allocated (<[i := l]> F) A q z ↔ allocated F A q z ∨ (q = x ∧ z = bsz i)) as Hiff.
  { intros q z. apply (allocated_take F A i x l r k); try done.
    intros r' j k' E' Hk' Eb. assert (j < 7)%nat by (by apply (ao_class _ _ (sh_arenas _ _ _ _ Hsh) r')).
    apply (in_page_inj _ _ x); [|done]. rewrite Eb. by apply blk_in_page. }
  assert (∀ q z, allocated F A q z → q ≠ x) as Hnew.
  { intros q z [(r' & j & k' & E' & Hk' & Eq & Hn & _)|(r' & n & E' & Eq & _)] ->.
    - assert (j < 7)%nat by (by apply (ao_class _ _ (sh_arenas _ _ _ _ Hsh) r')).
      assert (r' = r) as ->.
      { apply (in_page_inj _ _ x); [|done]. rewrite Eq. by apply blk_in_page. }
      rewrite E' in Er. injection Er as ->. apply Hn. rewrite EF. by left.
    - assert (r' = r) as ->; [|congruence]. apply (in_page_inj _ _ x); [|done].
      rewrite Eq. unfold in_page, sizeof_arena. lia. }
  exists (<[i := l]> F), A, (bsz i). split_and!; try done.
  intros q z a Hq Ha. apply Hframe; [by eapply allocated_not_meta|].
  assert (allocated (<[i := l]> F) A q z) as Hq' by (apply Hiff; by left).
  destruct (allocated_apart kd _ _ A Hsh' q z x (bsz i) Hq' Hal); [by eapply Hnew|lia|lia].
Qed.

Lemma allocated_new_arena kd p p' F A i r q z : shape kd p F A → page_got p p' r 1 →
  (i < 7)%nat → F i = [] →
  allocated (<[i := blocks r i (nb i)]> F) (<[r := Small i]> A) q z ↔ allocated F A q z.
Proof.
  intros Hsh Hg Hi EF.
  pose proof (arenas_fresh _ _ _ _ _ (sh_arenas _ _ _ _ Hsh) Hg ltac:(lia)) as Hfresh. split.
  - intros [(r' & j & k & E & Hk & -> & Hn & ->)|(r' & n & E & -> & ->)];
      rewrite lookup_insert in E; case_decide as Er.
    + injection E as <-. subst r'. exfalso. apply Hn. rewrite fn_lookup_insert.
      apply elem_of_blocks. eauto.
    + left. exists r', j, k. split_and!; try done; try lia. destruct (decide (j = i)) as [->|Hne].
      * rewrite EF. apply not_elem_of_nil.
      * by rewrite fn_lookup_insert_ne in Hn.
    + done.
    + right. eauto.
  - intros [(r' & j & k & E & Hk & -> & Hn & ->)|(r' & n & E & -> & ->)].
    + assert (j < 7)%nat as Hj by (by apply (ao_class _ _ (sh_arenas _ _ _ _ Hsh) r')).
      left. exists r', j, k. rewrite lookup_insert_ne by congruence. split_and!; try done; try lia.
      destruct (decide (j = i)) as [->|Hne]; [|by rewrite fn_lookup_insert_ne].
      rewrite fn_lookup_insert. intros (k' & Hk' & Eb)%elem_of_blocks.
      rewrite (blk_inj r' i k r i k') in E by done. congruence.
    + right. exists r', n. by rewrite lookup_insert_ne by congruence.
Qed.

(** The smallest class that is big enough. *)
Lemma find_desc_spec m kd size n k : (n + k = 7)%nat →
  (∀ i, (i < 7)%nat → m !! (desc_at kd (Z.of_nat i) + block_size_off) = Some (bsz i)) →
  size ≤ 1024 → (∀ j, (j < k)%nat → bsz j < size) →
  ∃ i, (i < 7)%nat ∧ find_desc n m kd size (Z.of_nat k) = Ok (Z.of_nat i) ∧ size ≤ bsz i ∧
    ∀ j, (j < i)%nat → bsz j < size.
Proof.
  revert k. induction n as [|n IH]; intros k Hnk Hm Hsize Hlow; cbn [find_desc].
  - exfalso. specialize (Hlow 6%nat ltac:(lia)). change (bsz 6) with 1024 in Hlow. lia.
  - rewrite (load_Some _ _ _ (Hm k ltac:(lia))). cbn [obind].
    destruct (Z.leb_spec size (bsz k)).
    + exists k. split_and!; [lia|done|done|done].
    + rewrite u8_small by lia. replace (Z.of_nat k + 1) with (Z.of_nat (S k)) by lia.
      apply IH; [lia|done|done|]. intros j Hj. destruct (decide (j = k)) as [->|]; [done|].
      apply Hlow. lia.
Qed.

Definition class_of (size : Z) (i : nat) : Prop :=
  (i < 7)%nat ∧ size ≤ bsz i ∧ ∀ j, (j < i)%nat → bsz j < size.

Lemma class_find kd m F A size : mem_ok kd m F A → size ≤ 1024 →
  ∃ i, class_of size i ∧ find_desc (Z.to_nat MEM_DESC_CNT) m kd size 0 = Ok (Z.of_nat i).
Proof.
  intros Hm Hsize. destruct (find_desc_spec m kd size 7 0) as (i & Hi & E & Hs & Hl);
    [done|intros i Hi; by apply (mo_desc _ _ _ _ Hm)|done|lia|].
  exists i. by split.
Qed.

Lemma class_of_unique size i j : class_of size i → class_of size j → i = j.
Proof.
  intros (Hi & Hs & Hl) (Hj & Hs' & Hl'). destruct (Nat.lt_trichotomy i j) as [H|[H|H]]; [|done|].
  - specialize (Hl' i H). lia.
  - specialize (Hl j H). lia.
Qed.

Lemma malloced_trans kd s s1 s2 F A F' A' size size' p :
  malloced kd s1 s2 F' A' size' p → size ≤ size' →
  (∀ q z, allocated F' A' q z ↔ allocated F A q z) →
  (∀ q z a, allocated F A q z → q ≤ a < q + z → h_mem s1 !! a = h_mem s !! a) →
  malloced kd s s2 F A size p.
Proof.
  intros (F2 & A2 & sz & Hinv & Hsz & Hal & Hnew & Hz & Hsame) Hle Hiff Hframe.
  exists F2, A2, sz. split_and!; try done; try lia.
  - intros q z. by rewrite Hal, Hiff.
  - intros q z Hq. apply (Hnew q z). by apply Hiff.
  - intros q z a Hq Ha. rewrite (Hsame q z a) by (done || by apply Hiff). by apply (Hframe q z).
Qed.

(** Blocks that are given out are not in pages that were free. *)
Lemma allocated_outside kd p p' F A r n q z a : shape kd p F A → page_got p p' r n → 1 ≤ n →
  allocated F A q z → q ≤ a < q + z → a < page_addr r ∨ page_addr r + n * 4096 ≤ a.
Proof.
  intros Hsh Hg Hn Hal Ha.
  destruct (allocated_position kd p F A Hsh q z Hal) as (r' & k & E & H1 & H2 & _).
  pose proof (arenas_apart _ _ _ _ _ _ _ (sh_arenas _ _ _ _ Hsh) Hg Hn E).
  rewrite !page_addr_eq in *. lia.
Qed.

(** Fuel that is enough for every loop of the allocator. *)
Definition enough_fuel (fuel : nat) (p : pools) : Prop :=
  kernel_total p * 4096 + 256 < Z.of_nat fuel.

Lemma list_empty_class fuel kd s F A i : heap_inv kd s F A → (i < 7)%nat →
  enough_fuel fuel (h_pools s) →
  list_empty fuel (h_mem s) (desc_at kd (Z.of_nat i) + free_list_off) = Ok (bool_decide (F i = [])).
Proof.
  intros [Hsh Hm _] Hi Hfuel. pose proof (mo_ring _ _ _ _ Hm i Hi) as Hring.
  assert (NoDup (F i)) as Hnd by (apply ring_apart in Hring as [_ ?]; by apply apart_NoDup).
  pose proof (free_list_length kd _ F A Hsh i Hi Hnd) as Hlen.
  pose proof (kernel_total_range _ (sh_pools _ _ _ _ Hsh)). unfold enough_fuel in Hfuel.
  apply list_empty_spec; [done|lia|lia].
Qed.

(** Whether [sys_malloc] finds a block of class [i]: there is a free one, or a
    page for a new arena. *)
Definition can_take (fuel : nat) (s : heap) (F : nat → list Z) (i : nat) : Prop :=
  F i ≠ [] ∨ ∃ p' r, page_alloc fuel (h_pools s) PF_KERNEL 1 = Ok (p', page_addr r) ∧
    page_got (h_pools s) p' r 1.

Lemma malloc_block_spec fuel kd t s F A i size :
  heap_inv kd s F A → kernel_lock s = taken t → class_of size i → size ≤ 1024 →
  enough_fuel fuel (h_pools s) → can_take fuel s F i →
  ∃ s' p, malloc_block fuel PF_KERNEL t s kd size = Ok (s', p) ∧ malloced kd s s' F A size p ∧
    kernel_lock s' = unlocked ∧ user_lock s' = user_lock s ∧ h_intr s' = h_intr s.
Proof.
  intros Hinv Hlock Hc Hsize Hfuel Hcan. pose proof Hinv as [Hsh Hm Hmap].
  destruct (class_find kd _ F A size Hm Hsize) as (j & Hj & Ej).
  rewrite (class_of_unique _ _ _ Hj Hc) in Ej. clear j Hj. destruct Hc as (Hi & Hs & _).
  unfold malloc_block. rewrite Ej. cbn [obind].
  rewrite (list_empty_class fuel kd s F A i) by done. cbn [obind].
  destruct (F i) as [|x l] eqn:EF.
  - rewrite bool_decide_true by done. destruct Hcan as [?|(p' & r & Hpa & Hg)]; [done|].
    pose proof (kernel_total_range _ (sh_pools _ _ _ _ Hsh)). unfold enough_fuel in Hfuel.
    destruct (new_arena_spec fuel kd s F A i r p') as (m1 & -> & Hinv1 & Hf1); try done; [lia|].
    cbn [obind negb].
    destruct (take_block_malloced kd (set_mem (set_pools s p') m1) (<[i := blocks r i (nb i)]> F)
      (<[r := Small i]> A) i (blk r i 0) (blk r i <$> seqZ 1 (nb i - 1)) unlocked Hinv1 Hi)
      as (m2 & -> & Hmal).
    { rewrite fn_lookup_insert. unfold blocks. pose proof (bsz_facts i Hi).
      rewrite seqZ_cons by lia. by rewrite fmap_cons, Z.sub_1_r. }
    cbn [obind]. rewrite (lock_release_taken t) by done. cbn [obind]. eexists _, _. split; [done|]. split; [|by split_and!].
    eapply malloced_trans; [exact Hmal|done| |].
    + intros q z. by eapply (allocated_new_arena kd (h_pools s)).
    + intros q z a Hq Ha. apply Hf1; [by eapply allocated_not_meta|].
      destruct (allocated_outside kd _ _ F A r 1 q z a Hsh Hg); (done || lia || (unfold outside; lia)).
  - rewrite bool_decide_false by done. cbn [obind negb].
    destruct (take_block_malloced kd s F A i x l unlocked Hinv Hi EF) as (m2 & -> & Hmal).
    cbn [obind]. rewrite (lock_release_taken t) by done. cbn [obind]. eexists _, _. split; [done|]. split; [|by split_and!].
    by eapply malloced_trans.
Qed.

(** ** Whole pages *)

Definition pages_for (size : Z) : Z := (size + 4103) / 4096.

Lemma pages_for_eq size : 0 < size ≤ 2147483648 →
  DIV_ROUND_UP (u32 (size + sizeof_arena)) PAGE_SIZE = pages_for size ∧ 1 ≤ pages_for size ∧
  size ≤ pages_for size * 4096 - 8.
Proof.
  intros Hs. unfold DIV_ROUND_UP, pages_for, sizeof_arena, PAGE_SIZE.
  rewrite (u32_small (size + 8)), u32_small by lia.
  replace (size + 8 + 4096 - 1) with (size + 4103) by lia. split; [done|]. divlia.
Qed.

Lemma shape_large kd p p' F A r n : shape kd p F A → page_got p p' r n → 1 ≤ n →
  shape kd p' F (<[r := Large n]> A).
Proof.
  intros [Hkd Hp Htot HA Hf] Hg Hn. pose proof (arenas_fresh _ _ _ _ _ HA Hg Hn) as Hfresh.
  split; [done|apply Hg|by rewrite (pg_total _ _ _ _ Hg)| |].
  - by apply (arenas_add p p' A r (Large n)).
  - intros j b Hj Hb. destruct (Hf j b Hj Hb) as (r' & k & E & ?). exists r', k. split; [|done].
    by rewrite lookup_insert_ne by congruence.
Qed.

Lemma allocated_large F A r n q z : A !! r = None →
  allocated F (<[r := Large n]> A) q z ↔
  allocated F A q z ∨ (q = page_addr r + sizeof_arena ∧ z = n * 4096 - 8).
Proof.
  intros Hr. split.
  - intros [(r' & j & k & E & Hk & -> & Hn & ->)|(r' & n' & E & -> & ->)];
      rewrite lookup_insert in E; case_decide as Er; [done| |injection E as <-; subst r'; by right|].
    + left. left. exists r', j, k. split_and!; try done; lia.
    + left. right. eauto.
  - intros [[(r' & j & k & E & Hk & -> & Hn & ->)|(r' & n' & E & -> & ->)]|[-> ->]].
    + left. exists r', j, k. rewrite lookup_insert_ne by congruence. split_and!; try done; lia.
    + right. exists r', n'. by rewrite lookup_insert_ne by congruence.
    + right. exists r, n. by rewrite lookup_insert_eq.
Qed.

Lemma malloc_pages_spec fuel kd t s F A size r p' :
  heap_inv kd s F A → kernel_lock s = taken t → 0 < size ≤ 2147483648 →
  page_alloc fuel (h_pools s) PF_KERNEL (pages_for size) = Ok (p', page_addr r) →
  page_got (h_pools s) p' r (pages_for size) →
  ∃ s', malloc_pages fuel PF_KERNEL t s size = Ok (s', page_addr r + sizeof_arena) ∧
    malloced kd s s' F A size (page_addr r + sizeof_arena) ∧
    kernel_lock s' = unlocked ∧ user_lock s' = user_lock s ∧ h_intr s' = h_intr s.
Proof.
  intros [Hsh Hm Hmap] Hlock Hsize Hpa Hg. destruct (pages_for_eq size Hsize) as (En & Hn & Hfit).
  set (n := pages_for size) in *.
  destruct (page_got_bounds kd _ p' F A r n Hsh Hg) as (Hr0 & Hr1 & Hr2).
  pose proof (arenas_fresh _ _ _ _ _ (sh_arenas _ _ _ _ Hsh) Hg Hn) as Hfresh.
  assert (page_addr r > 0) as Hpos by (rewrite page_addr_eq; lia).
  unfold malloc_pages. rewrite En, Hpa. cbn [obind].
  unfold NULL at 1. rewrite (proj2 (Z.eqb_neq (page_addr r) 0)) by lia.
  destruct (memset_zero_spec (h_mem s) (page_addr r) (n * 1024)) as (m1 & Ez & Hz & Hf1 & Hmono1);
    [lia|lia|lia| |].
  { intros j Hj. apply (mapped_run (kernel_total (h_pools s)) _ r n); [done|done|done|lia|].
    rewrite page_addr_eq. divlia. }
  unfold PAGE_SIZE. rewrite u32_small by (rewrite page_addr_eq in *; lia).
  replace (4 * (n * 1024)) with (n * 4096) in * by lia. cbn [h_mem set_pools]. rewrite Ez.
  cbn [obind]. unfold desc_off, cnt_off.
  rewrite (store_Some m1 (page_addr r + 0) _ 0) by (apply (Hz 0); lia). cbn [obind].
  rewrite (store_Some (<[page_addr r + 0 := NULL]> m1) (page_addr r + 4) _ 0).
  2:{ rewrite lookup_insert_ne by lia. apply (Hz 1). lia. }
  cbn [obind]. rewrite (lock_release_taken t) by done. cbn [obind]. unfold sizeof_arena.
  rewrite u32_small by (rewrite page_addr_eq in *; lia).
  set (m3 := <[page_addr r + 4 := n]> (<[page_addr r + 0 := NULL]> m1)).
  assert (∀ a, a < page_addr r ∨ page_addr r + n * 4096 ≤ a → m3 !! a = h_mem s !! a) as Hout.
  { intros a Ha. subst m3. rewrite !lookup_insert_ne by lia. apply Hf1. lia. }
  eexists. split; [done|]. split; [|by split_and!].
  exists F, (<[r := Large n]> A), (n * 4096 - 8). split_and!; [split|done|..].
  - by apply (shape_large kd (h_pools s)).
  - apply mem_ok_add_large; [|done|].
    + apply (mem_ok_frame kd (h_mem s)); [done|]. intros a Ha. apply Hout.
      by apply (meta_outside kd (h_pools s) p' F A).
    + simpl. unfold desc_off, cnt_off. subst m3. rewrite lookup_insert_ne by lia.
      by rewrite !lookup_insert_eq.
  - cbn. rewrite (pg_total _ _ _ _ Hg). apply (mapped_mono _ (h_mem s)); [done|].
    intros a Ha. subst m3. by apply is_Some_insert, is_Some_insert, Hmono1.
  - intros q z. by apply allocated_large.
  - intros q z Hq ->. destruct (allocated_outside kd _ _ F A r n _ z (page_addr r + 8) Hsh Hg Hn Hq);
      [|lia|lia]. destruct (allocated_position kd _ F A Hsh _ _ Hq) as (? & ? & _ & _ & _ & ? & _). lia.
  - intros j Hj. cbn [h_mem set_lock set_mem]. subst m3. rewrite !lookup_insert_ne by lia.
    replace (page_addr r + 8 + 4 * j) with (page_addr r + 4 * (j + 2)) by lia. apply Hz.
    pose proof (Z.mul_div_le (n * 4096 - 8) 4). lia.
  - intros q z a Hq Ha. apply Hout. by eapply allocated_outside.
Qed.

(** ** What [sys_free] does *)

(** Pages were given back, and none was taken. *)
Definition fewer_pages (p p' : pools) : Prop :=
  kernel_total p' = kernel_total p ∧ ∀ j, 0 ≤ j → vm_page p' j = true → vm_page p j = true.

(** [p] was given back; the other blocks keep their contents. *)
Definition freed (kd : Z) (s s' : heap) (F : nat → list Z) (A : gmap Z arena_kind) (p : Z) : Prop :=
  ∃ F' A', heap_inv kd s' F' A' ∧
    (∀ q z, allocated F' A' q z ↔ allocated F A q z ∧ q ≠ p) ∧
    (∀ q z a, allocated F A q z → q ≠ p → q ≤ a < q + z → h_mem s' !! a = h_mem s !! a) ∧
    fewer_pages (h_pools s) (h_pools s').

Lemma del_safe_in m h l1 x l2 : ring m (h :: l1 ++ x :: l2) →
  ∃ m', list_del_safe m x = Ok m' ∧ ring m' (h :: l1 ++ l2) ∧
    upd_nodes m m' (h :: l1 ++ x :: l2).
Proof.
  intros Hr. apply (ring_rotate m (h :: l1) (x :: l2)) in Hr.
  destruct (list_del_safe_spec m x (l2 ++ h :: l1) Hr) as (m' & E & Hr' & _ & Hupd); [by destruct l2|].
  exists m'. split_and!; [done|by apply (ring_rotate m' l2 (h :: l1))|].
  eapply upd_nodes_mono; [|done]. set_solver.
Qed.

Lemma filter_remove (l1 l2 : list Z) x : NoDup (l1 ++ x :: l2) →
  filter (λ b, b ≠ x) (l1 ++ x :: l2) = l1 ++ l2.
Proof.
  intros Hnd. apply NoDup_app in Hnd as (_ & Hx & Hnd). apply NoDup_cons in Hnd as [Hx2 _].
  rewrite filter_app, filter_cons_False by (intros Hn; by apply Hn).
  rewrite !filter_true; [done|apply Forall_forall..].
  - intros b Hb ->. done.
  - intros b Hb ->. apply (Hx x); [done|by left].
Qed.

(** The free list without the blocks of one arena. *)
Definition without (r : Z) (i : nat) (k : Z) (l : list Z) : list Z :=
  filter (λ b, b ∉ blocks r i k) l.

Lemma without_0 r i l : without r i 0 l = l.
Proof. apply filter_true, Forall_forall. intros b _. apply not_elem_of_nil. Qed.

Lemma without_step r i k l1 l2 l : 0 ≤ k → NoDup l → without r i k l = l1 ++ blk r i k :: l2 →
  without r i (k + 1) l = l1 ++ l2.
Proof.
  intros Hk Hnd E. rewrite <- (filter_remove l1 l2 (blk r i k)).
  - rewrite <- E. unfold without. rewrite list_filter_filter. apply list_filter_iff. intros b.
    rewrite blocks_snoc by done. rewrite not_elem_of_app, list_elem_of_singleton. tauto.
  - rewrite <- E. by apply NoDup_filter.
Qed.

Section drain.
Variables (kd r : Z) (i : nat).
Hypothesis Hi : (i < 7)%nat.
Hypothesis Hr : 0 ≤ r ∧ page_addr r + 4096 ≤ 4294967296.

(** While the blocks of the arena are taken off the free list [l]. *)
Record draining (m : mem) (l : list Z) (k : Z) : Prop := {
  dr_ring : ring m (free_head kd i :: without r i k l);
  dr_desc : m !! (page_addr r + desc_off) = Some (desc_at kd (Z.of_nat i));
  dr_cnt : m !! (page_addr r + cnt_off) = Some (nb i);
  dr_size : m !! (desc_at kd (Z.of_nat i) + block_size_off) = Some (bsz i)
}.

(** The words no node of the free list contains. *)
Definition not_node (l : list Z) (a : Z) : Prop :=
  ∀ p, p ∈ free_head kd i :: l → a ≠ p + prev_off ∧ a ≠ p + next_off.

Lemma drain_arena_spec n m l k :
  draining m l k → NoDup l → (∀ j, 0 ≤ j < nb i → blk r i j ∈ l) →
  not_node l (page_addr r + desc_off) → not_node l (page_addr r + cnt_off) →
  not_node l (desc_at kd (Z.of_nat i) + block_size_off) →
  0 ≤ k ≤ nb i → nb i - k < Z.of_nat n →
  ∃ m', drain_arena n m (page_addr r) k = Ok m' ∧ draining m' l (nb i) ∧
    upd_nodes m m' (free_head kd i :: l).
Proof.
  intros Hdr Hnd Hall Hn1 Hn2 Hn3. revert m k Hdr.
  induction n as [|n IH]; intros m k Hdr Hk Hn; [lia|]. cbn [drain_arena].
  pose proof (bsz_facts i Hi) as (Hb1 & _ & Hnb & _).
  rewrite (load_Some _ _ _ (dr_cnt _ _ _ Hdr)). cbn [obind].
  destruct (Z.ltb_spec k (nb i)) as [Hlt|Hge].
  2:{ exists m. replace k with (nb i) in Hdr by lia. split_and!; [done|done|apply upd_nodes_refl]. }
  unfold arena_2_block. rewrite (load_Some _ _ _ (dr_desc _ _ _ Hdr)). cbn [obind].
  rewrite (load_Some _ _ _ (dr_size _ _ _ Hdr)). cbn [obind].
  pose proof (blk_range r i k Hi ltac:(lia)) as Hrange. unfold sizeof_arena. fold (blk r i k).
  rewrite u32_small by (rewrite page_addr_eq in *; lia).
  assert (blk r i k ∈ without r i k l) as Hin.
  { apply list_elem_of_filter. split; [|apply Hall; lia].
    intros (k' & Hk' & E)%elem_of_blocks. destruct (blk_apart r i k k' Hi); lia. }
  apply list_elem_of_split in Hin as (l1 & l2 & El).
  pose proof (dr_ring _ _ _ Hdr) as Hring. rewrite El in Hring.
  destruct (del_safe_in m _ _ _ _ Hring) as (m1 & -> & Hring1 & Hupd).
  cbn [obind]. rewrite u32_small by lia.
  assert (upd_nodes m m1 (free_head kd i :: l)) as Hupd1.
  { eapply upd_nodes_mono; [|done]. rewrite <- El.
    intros p [->|Hp]%elem_of_cons; [by left|right]. by apply list_elem_of_filter in Hp as [_ ?]. }
  rewrite <- (without_step r i k l1 l2 l) in Hring1 by (done || lia).
  destruct (IH m1 (k + 1)) as (m2 & -> & Hdr2 & Hupd2); [|lia|lia|].
  { destruct Hupd1 as [_ Hsame]. split; [done|rewrite Hsame..]; try done; apply Hdr. }
  exists m2. split_and!; [done|done|]. by eapply upd_nodes_trans.
Qed.
End drain.

Lemma free_cnt_snoc F i x r :
  free_cnt (<[i := F i ++ [x]]> F) r i = free_cnt F r i + (if decide (in_page r x) then 1 else 0).
Proof.
  unfold free_cnt. rewrite fn_lookup_insert, filter_app, length_app, filter_cons, filter_nil.
  destruct (decide (in_page r x)); cbn [length]; lia.
Qed.

(** The abstract heap after block [b] is put back. *)
Lemma shape_put kd p F A r i k : shape kd p F A → A !! r = Some (Small i) → 0 ≤ k < nb i →
  shape kd p (<[i := F i ++ [blk r i k]]> F) A.
Proof.
  intros [Hkd Hp Htot HA Hf] Er Hk. split; try done. intros j b Hj Hb.
  destruct (decide (j = i)) as [->|Hne]; [|rewrite fn_lookup_insert_ne in Hb by done; by apply Hf].
  rewrite fn_lookup_insert in Hb. apply elem_of_app in Hb as [Hb|Hb%list_elem_of_singleton].
  - by apply Hf.
  - exists r, k. done.
Qed.

Lemma allocated_put kd p F A r i k q z : shape kd p F A → A !! r = Some (Small i) → 0 ≤ k < nb i →
  allocated (<[i := F i ++ [blk r i k]]> F) A q z ↔ allocated F A q z ∧ q ≠ blk r i k.
Proof.
  intros Hsh Er Hk. pose proof (sh_arenas _ _ _ _ Hsh) as HA.
  assert (i < 7)%nat as Hi by (by eapply ao_class). split.
  - intros [(r' & j & k' & E & Hk' & -> & Hn & ->)|(r' & n & E & -> & ->)].
    + assert (j < 7)%nat as Hj by (by apply (ao_class _ _ HA r')). split.
      * left. exists r', j, k'. split_and!; try done; try lia.
        destruct (decide (j = i)) as [->|Hne]; [|by rewrite fn_lookup_insert_ne in Hn].
        rewrite fn_lookup_insert in Hn. intros Hin. apply Hn, elem_of_app. by left.
      * intros Eb. pose proof (blk_inj _ _ _ _ _ _ Hj Hk' Hi Hk Eb) as ->. rewrite Er in E.
        injection E as <-. apply Hn. rewrite fn_lookup_insert, Eb. apply elem_of_app. right.
        by left.
    + split; [right; eauto|]. intros Eb.
      assert (r' = r) as ->; [|congruence]. apply (in_page_inj _ _ (blk r i k)); [|by apply blk_in_page].
      rewrite <- Eb. unfold in_page, sizeof_arena. lia.
  - intros [[(r' & j & k' & E & Hk' & -> & Hn & ->)|Hl] Hne]; [left|by right].
    exists r', j, k'. split_and!; try done; try lia.
    destruct (decide (j = i)) as [->|Hji]; [|by rewrite fn_lookup_insert_ne].
    rewrite fn_lookup_insert. by intros [?|?%list_elem_of_singleton]%elem_of_app.
Qed.

Section put.
Variables (kd : Z) (p : pools) (m : mem) (F : nat → list Z) (A : gmap Z arena_kind).
Variables (r : Z) (i : nat) (k : Z).
Hypothesis Hsh : shape kd p F A.
Hypothesis Hm : mem_ok kd m F A.
Hypothesis Hmap : mapped (kernel_total p) m.
Hypothesis Er : A !! r = Some (Small i).
Hypothesis Hk : 0 ≤ k < nb i.
Hypothesis Hnot : blk r i k ∉ F i.
Let b : Z := blk r i k.
Let F1 : nat → list Z := <[i := F i ++ [b]]> F.

Lemma put_class : (i < 7)%nat.
Proof. apply (ao_class _ _ (sh_arenas _ _ _ _ Hsh) r i Er). Qed.

Lemma put_allocated : allocated F A b (bsz i).
Proof. left. exists r, i, k. done. Qed.

Lemma put_insertable : insertable m (free_head kd i :: F i) b.
Proof.
  pose proof put_class as Hi. pose proof (blk_range r i k Hi Hk) as Hrange.
  pose proof (bsz_facts i Hi) as (Hb1 & Hb2 & _). fold b in Hrange.
  destruct (arena_page kd p F A Hsh r _ Er) as (Hr0 & _ & Hr1 & Hr2). simpl in *.
  destruct (allocated_position kd p F A Hsh _ _ put_allocated) as (_ & _ & _ & _ & _ & _ & Hal).
  assert (∀ a, a = b ∨ a = b + 4 → is_Some (m !! a)) as Hw.
  { intros a Ha. apply (mapped_at (kernel_total p) m r); [done|lia|lia|]. destruct Ha as [->| ->]; divlia. }
  split; [split; apply Hw; unfold prev_off, next_off; lia|].
  split; [unfold addr; rewrite page_addr_eq in *; lia|].
  apply Forall_forall. intros q Hq.
  assert (meta kd F A (q + prev_off) ∧ meta kd F A (q + next_off)) as [H1 H2].
  { split; right; right; exists i; (split; [done|]); exists q; auto. }
  assert (∀ a, meta kd F A a → a < b ∨ b + bsz i ≤ a) as Hout.
  { intros a Ha. destruct (decide (b ≤ a < b + bsz i)) as [Hin|]; [|lia].
    by destruct (allocated_not_meta kd p F A Hsh _ _ a put_allocated Hin). }
  pose proof (Hout _ H1). pose proof (Hout _ H2).
  apply elem_of_cons in Hq as [->|Hq].
  - pose proof (head_low kd r i Hi (sh_kd _ _ _ _ Hsh)) as [? _]; [lia|]. unfold sep. lia.
  - destruct (free_block_in kd p F A Hsh i q Hi Hq) as (r' & k' & E' & Hk' & -> & _).
    pose proof (blk_range r' i k' Hi Hk'). unfold sep.
    destruct (decide (r' = r)) as [->|Hne]; [|rewrite !page_addr_eq in *; lia].
    destruct (blk_apart r i k k' Hi); [lia|lia| | |]; [|unfold b in *; lia..].
    intros ->. by apply Hnot.
Qed.

Lemma put_cnt : 0 ≤ free_cnt F r i ∧ free_cnt F1 r i = free_cnt F r i + 1 ∧ free_cnt F1 r i ≤ nb i.
Proof.
  pose proof put_class as Hi. split; [unfold free_cnt; lia|]. split.
  - unfold F1. rewrite free_cnt_snoc, decide_True by (by apply blk_in_page). done.
  - apply (free_cnt_le kd p F1 A); [by apply shape_put|done|done|].
    unfold F1. rewrite fn_lookup_insert. pose proof (mo_ring _ _ _ _ Hm i Hi) as Hring.
    apply ring_apart in Hring as [_ Hnd%apart_NoDup]. apply NoDup_app. split_and!; [done| |].
    + intros x Hx ->%list_elem_of_singleton. by apply Hnot.
    + apply NoDup_singleton.
Qed.

(** The block is put back and counted. *)
Lemma put_back_spec : ∃ m1, list_add_prev m (free_head kd i) b = Ok m1 ∧
  m1 !! (page_addr r + cnt_off) = Some (free_cnt F r i) ∧
  let m2 := <[page_addr r + cnt_off := free_cnt F1 r i]> m1 in
  mem_ok kd m2 F1 A ∧ mapped (kernel_total p) m2 ∧
  (∀ a, ¬ meta kd F A a → ¬ (b ≤ a < b + bsz i) → m2 !! a = m !! a).
Proof.
  pose proof put_class as Hi. pose proof (bsz_facts i Hi) as (Hb1 & _).
  destruct (list_add_prev_spec m _ _ b (mo_ring _ _ _ _ Hm i Hi) put_insertable)
    as (m1 & Eadd & Hring & Hupd).
  assert (shape kd p F1 A) as Hsh1 by (by apply shape_put).
  assert (∀ a, ¬ class_word kd F i a → ¬ (b ≤ a < b + bsz i) → m1 !! a = m !! a) as Hf1.
  { intros a Hc Ha. apply Hupd. intros q [->|Hq]%elem_of_cons.
    - unfold prev_off, next_off. lia.
    - split; intros ->; apply Hc; exists q; auto. }
  assert (∀ a, meta kd F A a → ¬ (b ≤ a < b + bsz i)) as Hout.
  { intros a Ha Hin. by apply (allocated_not_meta kd p F A Hsh _ _ a put_allocated Hin). }
  assert (header_word A (page_addr r + cnt_off)) as Hw by (exists r; rewrite Er; eauto).
  exists m1. split; [done|]. split.
  { rewrite Hf1; [|by eapply header_not_class|apply Hout; by right; left].
    by apply (mo_header _ _ _ _ Hm r _ Er). }
  cbv zeta. split_and!.
  - apply (mem_ok_count kd p m _ F A i _ r Hsh Hm Hi Hsh1); try done.
    + eapply ring_same; [|done]. intros q Hq.
      assert (∀ a, class_word kd F1 i a → a ≠ page_addr r + cnt_off) as Hne.
      { intros a Ha ->. by apply (header_not_class kd p F1 A Hsh1 _ i Hi Hw). }
      split; apply lookup_insert_ne; intros E; eapply Hne; try symmetry; try exact E;
        exists q; (split; [|auto]); unfold F1; by rewrite fn_lookup_insert.
    + intros a Ha Hc Hne. rewrite lookup_insert_ne by done. apply Hf1; [done|by apply Hout].
    + by rewrite lookup_insert_eq.
    + intros r' Hr'. unfold F1. rewrite free_cnt_snoc, decide_False; [lia|].
      intros Hin. by rewrite (in_page_inj _ _ _ Hin (blk_in_page r i k Hi Hk)) in Hr'.
  - apply (mapped_mono _ m); [done|]. intros a Ha. by apply is_Some_insert, Hupd.
  - intros a Ha Hin. rewrite lookup_insert_ne.
    + apply Hf1; [|done]. intros Hc. apply Ha. right; right. eauto.
    + intros <-. apply Ha. by right; left.
Qed.
End put.

Section give_back.
Variables (kd : Z) (p : pools) (m : mem) (F : nat → list Z) (A : gmap Z arena_kind).
Variables (r : Z) (i : nat).
Hypothesis Hsh : shape kd p F A.
Hypothesis Hm : mem_ok kd m F A.
Hypothesis Hmap : mapped (kernel_total p) m.
Hypothesis Er : A !! r = Some (Small i).
Hypothesis Hfull : free_cnt F r i = nb i.
Let F2 : nat → list Z := <[i := without r i (nb i) (F i)]> F.

Lemma back_class : (i < 7)%nat.
Proof. apply (ao_class _ _ (sh_arenas _ _ _ _ Hsh) r i Er). Qed.

Lemma back_NoDup : NoDup (F i).
Proof.
  pose proof (mo_ring _ _ _ _ Hm i back_class) as Hring.
  apply ring_apart in Hring as [_ ?]. by apply apart_NoDup.
Qed.

(** All blocks of the arena are free. *)
Lemma back_all j : 0 ≤ j < nb i → blk r i j ∈ F i.
Proof.
  intros Hj. pose proof back_class as Hi. pose proof (bsz_facts i Hi) as (_ & _ & Hnb & _).
  assert (filter (in_page r) (F i) ⊆+ blocks r i (nb i)) as Hsub.
  { apply NoDup_submseteq; [apply NoDup_filter, back_NoDup|].
    intros b [Hin Hb]%list_elem_of_filter.
    destruct (free_block_in kd p F A Hsh i b Hi Hb) as (r' & k & E' & Hk & -> & Hin').
    rewrite (in_page_inj _ _ _ Hin Hin'). apply elem_of_blocks. eauto. }
  assert (filter (in_page r) (F i) ≡ₚ blocks r i (nb i)) as Hperm.
  { apply submseteq_length_Permutation; [done|]. pose proof (length_blocks r i (nb i)).
    unfold free_cnt in Hfull. lia. }
  assert (blk r i j ∈ blocks r i (nb i)) as Hin by (apply elem_of_blocks; eauto).
  rewrite <- Hperm in Hin. by apply list_elem_of_filter in Hin as [_ ?].
Qed.

Lemma without_elem b : b ∈ without r i (nb i) (F i) ↔ b ∈ F i ∧ ¬ in_page r b.
Proof.
  unfold without. rewrite list_elem_of_filter, elem_of_blocks. pose proof back_class as Hi. split.
  - intros [Hn Hb]. split; [done|]. intros Hin. apply Hn.
    destruct (free_block_in kd p F A Hsh i b Hi Hb) as (r' & k & E' & Hk & -> & Hin').
    rewrite (in_page_inj _ _ _ Hin Hin'). eauto.
  - intros [Hb Hn]. split; [|done]. intros (k & Hk & ->). by apply Hn, blk_in_page.
Qed.

Lemma back_shape p' : kernel_wf p' → kernel_total p' = kernel_total p →
  (∀ j, 0 ≤ j → vm_page p' j = if decide (j = r) then false else vm_page p j) →
  shape kd p' F2 (delete r A).
Proof.
  intros Hp' Ht Hvm. pose proof back_class as Hi. destruct Hsh as [Hkd Hp Htot HA Hf]. split; try done.
  - by rewrite Ht.
  - by apply (arenas_del p p' A r (Small i)).
  - intros j b Hj Hb. unfold F2 in Hb. destruct (decide (j = i)) as [->|Hne].
    + rewrite fn_lookup_insert in Hb. apply without_elem in Hb as [Hb Hn].
      destruct (Hf i b Hi Hb) as (r' & k & E & Hk & ->). exists r', k.
      rewrite lookup_delete_ne by (intros <-; by apply Hn, blk_in_page). done.
    + rewrite fn_lookup_insert_ne in Hb by done.
      destruct (Hf j b Hj Hb) as (r' & k & E & Hk & ->). exists r', k.
      by rewrite lookup_delete_ne by congruence.
Qed.

Lemma back_allocated q z : allocated F2 (delete r A) q z ↔ allocated F A q z.
Proof.
  pose proof back_class as Hi. unfold F2. split.
  - intros [(r' & j & k & [Hne E]%lookup_delete_Some & Hk & -> & Hn & ->)|
            (r' & n & [Hne E]%lookup_delete_Some & -> & ->)]; [left|right; eauto].
    exists r', j, k. split_and!; try done; try lia. destruct (decide (j = i)) as [->|Hji].
    + rewrite fn_lookup_insert, without_elem in Hn. intros Hb. apply Hn. split; [done|].
      intros Hin. apply Hne. apply (in_page_inj _ _ _ Hin). by apply blk_in_page.
    + by rewrite fn_lookup_insert_ne in Hn.
  - intros [(r' & j & k & E & Hk & -> & Hn & ->)|(r' & n & E & -> & ->)].
    + left. exists r', j, k. destruct (decide (r' = r)) as [->|Hne].
      { rewrite Er in E. injection E as <-. by destruct (Hn (back_all k Hk)). }
      rewrite lookup_delete_ne by done. split_and!; try done; try lia.
      destruct (decide (j = i)) as [->|Hji]; [|by rewrite fn_lookup_insert_ne].
      rewrite fn_lookup_insert, without_elem. by intros [? _].
    + right. exists r', n. by rewrite lookup_delete_ne by congruence.
Qed.

Lemma give_back_spec fuel : (255 < fuel)%nat →
  ∃ m', drain_arena (S fuel) m (page_addr r) 0 = Ok m' ∧
    mem_ok kd m' F2 (delete r A) ∧ mapped (kernel_total p) m' ∧
    (∀ a, ¬ meta kd F A a → m' !! a = m !! a).
Proof.
  intros Hfuel. pose proof back_class as Hi. pose proof (bsz_facts i Hi) as (_ & _ & Hnb & _).
  destruct (arena_page kd p F A Hsh r _ Er) as (Hr0 & _ & Hr1 & Hr2). simpl in *.
  destruct (mo_header _ _ _ _ Hm r _ Er) as [Hd Hc]. destruct (mo_desc _ _ _ _ Hm i Hi) as [Hs _].
  assert (∀ a, ¬ class_word kd F i a → not_node kd i (F i) a) as Hnn.
  { intros a Ha q Hq. split; intros ->; apply Ha; exists q; auto. }
  assert (header_word A (page_addr r + desc_off) ∧ header_word A (page_addr r + cnt_off)) as [Hw1 Hw2]
    by (split; exists r; rewrite Er; eauto).
  destruct (drain_arena_spec kd r i Hi ltac:(lia) (S fuel) m (F i) 0) as (m1 & E1 & Hdr & Hupd);
    [|apply back_NoDup|apply back_all|apply Hnn..|lia|lia|].
  { split; rewrite ?without_0; [by apply (mo_ring _ _ _ _ Hm)|done|by rewrite Hc, Hfull|done]. }
  { by eapply header_not_class. } { by eapply header_not_class. }
  { eapply desc_not_class; [done..|]. exists i. auto. }
  assert (∀ a, ¬ class_word kd F i a → m1 !! a = m !! a) as Hf1
    by (by apply (class_frame kd F m m1 i (free_head kd i :: F i))).
  exists m1. split_and!; [done| |by apply (mapped_mono _ m); [done|apply Hupd]|].
  2:{ intros a Ha. apply Hf1. intros Hc'. apply Ha. right; right. eauto. }
  apply (mem_ok_class kd m m1 F A _ i _ Hm Hi); [apply (dr_ring _ _ _ _ _ _ Hdr)|..].
  - intros a Ha. apply Hf1. by eapply desc_not_class.
  - intros j a Hj Hne Ha. by apply (class_frame_other kd p F A Hsh m m1 i j (free_head kd i :: F i)).
  - intros r' k [Hne E]%lookup_delete_Some.
    assert (∀ a, a = page_addr r' + desc_off ∨ a = page_addr r' + cnt_off → m1 !! a = m !! a) as Hh.
    { intros a Ha. apply Hf1. eapply header_not_class; [done..|]. exists r'. rewrite E. eauto. }
    pose proof (mo_header _ _ _ _ Hm r' k E) as Hhdr.
    destruct (decide (k = Small i)) as [->|Hk]; [left|right; auto 10].
    destruct Hhdr as [Hd' Hc']. split; rewrite Hh by auto; [done|]. rewrite Hc'. f_equal.
    unfold free_cnt. rewrite fn_lookup_insert. do 2 f_equal. unfold without.
    rewrite list_filter_filter. apply list_filter_iff. intros b. split; [|tauto].
    intros Hin. split; [done|]. intros (k' & Hk' & ->)%elem_of_blocks.
    by rewrite (in_page_inj _ _ _ Hin (blk_in_page r i k' Hi Hk')) in Hne.
Qed.
End give_back.

Lemma free_block_spec fuel kd s F A r i k :
  heap_inv kd s F A → A !! r = Some (Small i) → 0 ≤ k < nb i → blk r i k ∉ F i →
  (255 < fuel)%nat →
  ∃ s', free_block fuel PF_KERNEL s (page_addr r) (desc_at kd (Z.of_nat i)) (blk r i k) = Ok s' ∧
    freed kd s s' F A (blk r i k) ∧
    kernel_lock s' = kernel_lock s ∧ user_lock s' = user_lock s ∧ h_intr s' = h_intr s.
Proof.
  intros [Hsh Hm Hmap] Er Hk Hnot Hfuel.
  pose proof (put_class kd _ F A r i Hsh Er) as Hi. pose proof (bsz_facts i Hi) as (_ & _ & Hnb & _).
  destruct (put_back_spec kd _ _ F A r i k Hsh Hm Hmap Er Hk Hnot) as (m1 & Eadd & Ecnt & Hm2 & Hmap2 & Hf2).
  destruct (put_cnt kd _ _ F A r i k Hsh Hm Er Hk Hnot) as (Hc0 & Hc1 & Hc2).
  set (F1 := <[i := F i ++ [blk r i k]]> F) in *.
  set (m2 := <[page_addr r + cnt_off := free_cnt F1 r i]> m1) in *.
  assert (shape kd (h_pools s) F1 A) as Hsh1 by (by apply shape_put).
  assert (∀ q z a, allocated F A q z → q ≠ blk r i k → q ≤ a < q + z → m2 !! a = h_mem s !! a) as Hsame.
  { intros q z a Hq Hne Ha. apply Hf2; [by eapply allocated_not_meta|].
    assert (allocated F A (blk r i k) (bsz i)) as Hb by (left; exists r, i, k; done).
    destruct (allocated_apart kd _ F A Hsh _ _ _ _ Hq Hb Hne); lia. }
  unfold free_block. fold (free_head kd i). rewrite Eadd. cbn [obind].
  rewrite (load_Some _ _ _ Ecnt). cbn [obind]. rewrite (store_Some _ _ _ _ Ecnt). cbn [obind].
  rewrite u32_small, <- Hc1 by lia. fold m2.
  rewrite (load_Some m2 _ (nb i)) by (by apply (mo_desc _ _ _ _ Hm2)). cbn [obind].
  destruct (Z.eqb_spec (free_cnt F1 r i) (nb i)) as [Efull|Hnfull].
  - destruct (give_back_spec kd _ m2 F1 A r i Hsh1 Hm2 Hmap2 Er Efull fuel Hfuel)
      as (m3 & -> & Hm3 & Hmap3 & Hf3). cbn [obind].
    destruct (arena_page kd _ F A Hsh r _ Er) as (Hr0 & _ & Hr1 & Hr2). simpl in Hr1.
    pose proof (blk_range r i k Hi Hk) as Hrange. pose proof (bsz_facts i Hi) as (Hb1 & _).
    destruct (page_free_kernel_spec (h_pools s) r 1 (blk r i k - page_addr r) (sh_pools _ _ _ _ Hsh))
      as (p' & Efree & Hp' & _ & Hvm & _ & _ & Ht); [lia|lia|lia|unfold PAGE_SIZE; lia|].
    replace (page_addr r + (blk r i k - page_addr r)) with (blk r i k) in Efree by lia.
    rewrite Efree. cbn [obind]. eexists. split; [done|]. split; [|by split_and!].
    eexists _, _. split_and!; [split; cbn|..].
    + by eapply back_shape.
    + exact Hm3.
    + by rewrite Ht.
    + intros q z. rewrite (back_allocated kd (h_pools s) m2 F1 A r i Hsh1 Hm2 Er Efull).
      by apply (allocated_put kd (h_pools s)).
    + intros q z a Hq Hne Ha. cbn. rewrite Hf3; [by apply (Hsame q z)|].
      apply (allocated_not_meta kd _ F1 A Hsh1 q z); [|done]. by apply (allocated_put kd (h_pools s)).
    + split; [done|]. intros j Hj. rewrite Hvm by done. by case_decide.
  - eexists. split; [done|]. split; [|by split_and!].
    exists F1, A. split; [by split|]. split; [|done].
    intros q z. by apply (allocated_put kd (h_pools s)).
Qed.

Lemma allocated_del_large F A r n q z : A !! r = Some (Large n) →
  (∀ r' i k, A !! r' = Some (Small i) → 0 ≤ k < nb i → blk r' i k ≠ page_addr r + sizeof_arena) →
  allocated F (delete r A) q z ↔ allocated F A q z ∧ q ≠ page_addr r + sizeof_arena.
Proof.
  intros Er Hb. split.
  - intros [(r' & j & k & [Hne E]%lookup_delete_Some & Hk & -> & Hn & ->)|
            (r' & n' & [Hne E]%lookup_delete_Some & -> & ->)].
    + split; [left; exists r', j, k; split_and!; done || lia|by apply Hb].
    + split; [right; eauto|]. rewrite !page_addr_eq. lia.
  - intros [[(r' & j & k & E & Hk & -> & Hn & ->)|(r' & n' & E & -> & ->)] Hne].
    + left. exists r', j, k. rewrite lookup_delete_ne by congruence. split_and!; done || lia.
    + right. exists r', n'. rewrite lookup_delete_ne by (intros ->; done). done.
Qed.

Lemma sys_free_spec fuel kd s F A t p sz :
  heap_inv kd s F A → kernel_lock s = unlocked → kernel_thread t → allocated F A p sz →
  (255 < fuel)%nat →
  ∃ s', sys_free fuel s t p = Ok s' ∧ freed kd s s' F A p ∧
    kernel_lock s' = unlocked ∧ user_lock s' = user_lock s ∧ h_intr s' = h_intr s.
Proof.
  intros Hinv Hlock Ht Hal Hfuel. pose proof Hinv as [Hsh Hm Hmap].
  destruct (allocated_arena kd _ F A Hsh p sz Hal) as (r & kind & Er & Hp1 & Hp2 & Hkind).
  destruct (arena_page kd _ F A Hsh r _ Er) as (Hr0 & Hn & Hr1 & Hr2).
  assert (in_page r p) as Hin.
  { destruct kind as [i|n]; [destruct Hkind as (Hi & j & Hj & -> & _); by apply blk_in_page|].
    destruct Hkind as [-> _]. unfold in_page, sizeof_arena. lia. }
  pose proof (mo_header _ _ _ _ Hm r _ Er) as Hhdr.
  unfold sys_free, task_pool. rewrite (proj1 Ht), Z.eqb_refl.
  rewrite ASSERT_true by (unfold NULL; destruct (Z.eqb_spec p 0); [rewrite page_addr_eq in *; lia|done]).
  cbn [obind]. rewrite ASSERT_true by (unfold KERNEL_HEAP_BASE; rewrite page_addr_eq in *; lia).
  cbn [obind]. rewrite lock_acquire_unlocked by (done || apply Ht). cbn [obind].
  rewrite (block_2_arena_eq p r) by (done || lia).
  destruct kind as [i|n].
  - destruct Hhdr as [Hd _]. destruct Hkind as (Hi & k & Hk & -> & ->).
    assert (blk r i k ∉ F i) as Hnot.
    { destruct Hal as [(r' & i' & k' & E' & Hk' & Eb & Hnn & _)|(r' & n & E' & Eb & _)].
      - assert (i' < 7)%nat as Hi' by (by apply (ao_class _ _ (sh_arenas _ _ _ _ Hsh) r')).
        pose proof (blk_inj _ _ _ _ _ _ Hi Hk Hi' Hk' Eb) as <-. rewrite Er in E'. by injection E' as <-.
      - assert (r' = r) as ->; [|congruence]. apply (in_page_inj _ _ (blk r i k)); [|done].
        rewrite Eb. unfold in_page, sizeof_arena. lia. }
    destruct (free_block_spec fuel kd (set_lock s PF_KERNEL (taken t)) F A r i k) as
      (s' & E & Hfreed & L1 & L2 & L3); [by split|done..|].
    cbn [h_mem set_lock]. rewrite (load_Some _ _ _ Hd). cbn [obind].
    pose proof (sh_kd _ _ _ _ Hsh) as [Hkd0 _].
    rewrite (proj2 (Z.eqb_neq (desc_at kd (Z.of_nat i)) NULL))
      by (unfold desc_at, sizeof_desc, NULL; lia).
    change (set_lock s PF_KERNEL (taken t)) with
      (Heap (h_pools s) (h_mem s) (taken t) (user_lock s) (h_intr s)) in *.
    rewrite E. cbn [obind]. rewrite (lock_release_taken t) by done.
    eexists. split; [done|]. split; [|by split_and!].
    destruct Hfreed as (F' & A' & [Hs' Hm' Hmap'] & Hiff & Hsame). exists F', A'. split; [by split|done].
  - destruct Hhdr as [Hd Hc]. destruct Hkind as [-> ->]. simpl in Hn, Hr1.
    cbn [h_mem set_lock]. rewrite (load_Some _ _ _ Hd). cbn [obind Z.eqb].
    change (NULL =? NULL) with true. cbv iota. cbn [h_mem]. rewrite (load_Some _ _ _ Hc). cbn [obind h_pools].
    destruct (page_free_kernel_spec (h_pools s) r n sizeof_arena (sh_pools _ _ _ _ Hsh))
      as (p' & -> & Hp' & _ & Hvm & _ & _ & Htot); [lia|lia|lia|unfold PAGE_SIZE, sizeof_arena; lia|].
    cbn [obind]. rewrite (lock_release_taken t) by done.
    eexists. split; [done|]. split; [|by split_and!].
    exists F, (delete r A). split_and!; [split; cbn|..].
    + destruct Hsh as [Hkd Hp Htot0 HA Hf]. split; try done; [by rewrite Htot|by apply (arenas_del (h_pools s) p' A r (Large n))|].
      intros j b Hj Hb. destruct (Hf j b Hj Hb) as (r' & k & E & ?). exists r', k.
      by rewrite lookup_delete_ne by congruence.
    + by apply (mem_ok_del_large _ _ _ _ _ n).
    + by rewrite Htot.
    + intros q z. apply (allocated_del_large _ _ _ n); [done|]. intros r' i k E' Hk Eb.
      assert (i < 7)%nat as Hi by (by apply (ao_class _ _ (sh_arenas _ _ _ _ Hsh) r')).
      assert (r' = r) as ->; [|congruence]. apply (in_page_inj _ _ (blk r' i k)); [by apply blk_in_page|].
      by rewrite Eb.
    + done.
    + split; [done|]. intros j Hj. cbn [h_pools]. rewrite Hvm by done. by case_decide.
Qed.

(** ** [sys_malloc] on every branch *)

Section malloc.
Variables (fuel : nat) (kd : Z) (s : heap) (F : nat → list Z) (A : gmap Z arena_kind) (t : task).
Hypothesis Hinv : heap_inv kd s F A.
Hypothesis Hlock : kernel_lock s = unlocked.
Hypothesis Ht : kernel_thread t.
Hypothesis Hfuel : enough_fuel fuel (h_pools s).
Hypothesis Hpool : pool_size (kernel_pool (h_pools s)) ≤ 2147483648.

Let locked : heap := Heap (h_pools s) (h_mem s) (taken t) (user_lock s) (h_intr s).

(** The guards. *)
Lemma sys_malloc_eq size :
  sys_malloc fuel kd s t size =
    if (pool_size (kernel_pool (h_pools s)) <? size) || (size <=? 0) then Ok (s, NULL)
    else if 1024 <? size then malloc_pages fuel PF_KERNEL t locked size
    else malloc_block fuel PF_KERNEL t locked kd size.
Proof.
  unfold sys_malloc, task_pool_size, task_descs, task_pool. rewrite (proj1 Ht), Z.eqb_refl.
  destruct (_ || _); [done|]. by rewrite lock_acquire_unlocked by (done || apply Ht).
Qed.

Lemma fuel_pages : kernel_total (h_pools s) ≤ Z.of_nat fuel.
Proof.
  pose proof (kernel_total_range _ (sh_pools _ _ _ _ (hi_shape _ _ _ _ Hinv))).
  unfold enough_fuel in Hfuel. lia.
Qed.

Lemma locked_inv : heap_inv kd locked F A.
Proof. destruct Hinv as [H1 H2 H3]. by split. Qed.

Lemma heap_eta : Heap (h_pools s) (h_mem s) unlocked (user_lock s) (h_intr s) = s.
Proof. rewrite <- Hlock. by destruct s. Qed.

(** Without a page for it the request is refused, and nothing changes. *)
Lemma malloc_refused size : 0 < size ≤ 2147483648 →
  let n := if 1024 <? size then pages_for size else 1 in
  (size ≤ 1024 → ∀ i, class_of size i → F i = []) →
  page_alloc fuel (h_pools s) PF_KERNEL n = Ok (h_pools s, NULL) →
  (if 1024 <? size then malloc_pages fuel PF_KERNEL t locked size
   else malloc_block fuel PF_KERNEL t locked kd size) = Ok (s, NULL).
Proof.
  intros Hsize n Hempty Hpa. subst n. destruct (Z.ltb_spec 1024 size).
  - unfold malloc_pages. rewrite (proj1 (pages_for_eq size Hsize)). cbn [h_pools locked].
    rewrite Hpa. cbn [obind]. unfold NULL at 1. cbn [Z.eqb]. change (NULL =? NULL) with true.
    cbv iota. rewrite (lock_release_taken t) by done. cbn. by rewrite heap_eta.
  - destruct (class_find kd _ F A size (hi_mem _ _ _ _ Hinv)) as (i & Hi & Ei); [lia|].
    unfold malloc_block. cbn [h_mem locked]. rewrite Ei. cbn [obind].
    rewrite (list_empty_class fuel kd s F A i) by (done || apply Hi).
    rewrite bool_decide_true by (apply Hempty; done). cbn [obind].
    unfold new_arena. cbn [h_pools locked]. rewrite Hpa. cbn [obind].
    change (NULL =? NULL) with true. cbv iota. cbn [obind negb].
    rewrite (lock_release_taken t) by done. cbn. by rewrite heap_eta.
Qed.

Lemma sys_malloc_ok size :
  0 < size ≤ pool_size (kernel_pool (h_pools s)) →
  (1024 < size → can_fit (h_pools s) (pages_for size)) →
  (size ≤ 1024 → ∀ i, class_of size i → F i ≠ [] ∨ can_fit (h_pools s) 1) →
  ∃ s' p, sys_malloc fuel kd s t size = Ok (s', p) ∧ malloced kd s s' F A size p ∧
    kernel_lock s' = unlocked ∧ user_lock s' = user_lock s ∧ h_intr s' = h_intr s.
Proof.
  intros Hsize Hlarge Hsmall. pose proof (hi_shape _ _ _ _ Hinv) as Hsh. pose proof fuel_pages as Hf.
  rewrite sys_malloc_eq. rewrite (proj2 (Z.ltb_ge _ _)), (proj2 (Z.leb_gt _ _)) by lia. cbn [orb].
  destruct (Z.ltb_spec 1024 size) as [Hl|Hl].
  - destruct (pages_for_eq size ltac:(lia)) as (_ & Hn & _).
    assert (pages_for size < 4294967296) by (unfold pages_for; divlia).
    destruct (page_alloc_fits fuel _ (pages_for size) (sh_pools _ _ _ _ Hsh) ltac:(lia) Hf (Hlarge Hl))
      as (p' & r & Hpa & Hg).
    destruct (malloc_pages_spec fuel kd t locked F A size r p') as (s' & E & ? & ?);
      [apply locked_inv|done|lia|done|done|]. eauto.
  - destruct (class_find kd _ F A size (hi_mem _ _ _ _ Hinv) Hl) as (i & Hi & _).
    apply (malloc_block_spec fuel kd t locked F A i); try done; [apply locked_inv|].
    destruct (Hsmall Hl i Hi) as [?|Hfit]; [by left|right].
    by apply (page_alloc_fits fuel _ 1 (sh_pools _ _ _ _ Hsh)).
Qed.

Lemma malloc_block_Ok size i s' p : class_of size i → size ≤ 1024 →
  malloc_block fuel PF_KERNEL t locked kd size = Ok (s', p) → F i = [] →
  ∃ p' v, page_alloc fuel (h_pools s) PF_KERNEL 1 = Ok (p', v).
Proof.
  intros Hi Hsize Hok EF. destruct (class_find kd _ F A size (hi_mem _ _ _ _ Hinv) Hsize) as (j & Hj & Ej).
  rewrite (class_of_unique _ _ _ Hj Hi) in Ej. unfold malloc_block in Hok. cbn [h_mem locked] in Hok.
  rewrite Ej in Hok. cbn [obind] in Hok.
  rewrite (list_empty_class fuel kd s F A i), EF, bool_decide_true in Hok by (done || apply Hi).
  cbn [obind] in Hok. unfold new_arena in Hok. cbn [h_pools locked] in Hok.
  destruct (page_alloc fuel (h_pools s) PF_KERNEL 1) as [[p' v]| | |]; [eauto|done..].
Qed.

(** Whenever it returns, the request was refused or granted. *)
Lemma sys_malloc_cases size s' p : sys_malloc fuel kd s t size = Ok (s', p) →
  (p = NULL ∧ s' = s) ∨
  (malloced kd s s' F A size p ∧
   kernel_lock s' = unlocked ∧ user_lock s' = user_lock s ∧ h_intr s' = h_intr s).
Proof.
  rewrite sys_malloc_eq. destruct (Z.ltb_spec (pool_size (kernel_pool (h_pools s))) size) as [|Hle];
    [intros [= <- <-]; by left|].
  destruct (Z.leb_spec size 0) as [|Hpos]; [intros [= <- <-]; by left|]. cbn [orb].
  pose proof (hi_shape _ _ _ _ Hinv) as Hsh. pose proof fuel_pages as Hf.
  intros Hok. set (n := if 1024 <? size then pages_for size else 1).
  assert (1 ≤ n < 4294967296) as Hn.
  { subst n. destruct (Z.ltb_spec 1024 size); [|lia]. unfold pages_for. divlia. }
  assert (∀ p' v, page_alloc fuel (h_pools s) PF_KERNEL n = Ok (p', v) →
    (v = NULL ∧ p' = h_pools s) ∨ can_fit (h_pools s) n) as Hcase.
  { intros p' v Hpa. destruct (page_alloc_cases fuel _ n p' v (sh_pools _ _ _ _ Hsh) Hn Hf Hpa)
      as [(-> & -> & _)|[Hfit _]]; [by left|by right]. }
  assert ((1024 < size → can_fit (h_pools s) (pages_for size)) →
    (size ≤ 1024 → ∀ i, class_of size i → F i ≠ [] ∨ can_fit (h_pools s) 1) →
    malloced kd s s' F A size p ∧ kernel_lock s' = unlocked ∧ user_lock s' = user_lock s ∧
    h_intr s' = h_intr s) as Hgrant.
  { intros H1 H2. destruct (sys_malloc_ok size ltac:(lia) H1 H2) as (s1 & p1 & E & Hres).
    rewrite sys_malloc_eq in E. rewrite (proj2 (Z.ltb_ge _ _)), (proj2 (Z.leb_gt _ _)) in E by lia.
    cbn [orb] in E. rewrite E in Hok. by injection Hok as <- <-. }
  pose proof (malloc_refused size ltac:(lia)) as Hrefuse. fold n in Hrefuse. cbv zeta in Hrefuse.
  subst n. destruct (Z.ltb_spec 1024 size) as [Hl|Hl].
  - assert (∃ p' v, page_alloc fuel (h_pools s) PF_KERNEL (pages_for size) = Ok (p', v)) as (p' & v & Hpa).
    { unfold malloc_pages in Hok. rewrite (proj1 (pages_for_eq size ltac:(lia))) in Hok.
      cbn [h_pools locked] in Hok.
      destruct (page_alloc _ _ _ _) as [[p' v]| | |]; [eauto|done..]. }
    destruct (Hcase p' v Hpa) as [[-> ->]|Hfit]; [left|right; apply Hgrant; [done|lia]].
    rewrite Hrefuse in Hok by (done || lia). by injection Hok as <- <-.
  - destruct (class_find kd _ F A size (hi_mem _ _ _ _ Hinv) Hl) as (i & Hi & _).
    destruct (decide (F i = [])) as [EF|EF].
    2:{ right. apply Hgrant; [lia|]. intros _ j Hj. rewrite (class_of_unique _ _ _ Hj Hi). by left. }
    destruct (malloc_block_Ok size i s' p Hi Hl Hok EF) as (p' & v & Hpa).
    destruct (Hcase p' v Hpa) as [[-> ->]|Hfit]; [left|right; apply Hgrant; [lia|by right]].
    rewrite Hrefuse in Hok; [by injection Hok as <- <-| |done].
    intros _ j Hj. by rewrite (class_of_unique _ _ _ Hj Hi).
Qed.
End malloc.

(** ** Initialisation *)

(** The descriptor of class [i] is set up, with an empty free list. *)
Definition desc_ready (kd : Z) (m : mem) (i : nat) : Prop :=
  ring m [free_head kd i] ∧
  m !! (desc_at kd (Z.of_nat i) + block_size_off) = Some (bsz i) ∧
  m !! (desc_at kd (Z.of_nat i) + blocks_each_arena_off) = Some (nb i).

Lemma bsz_S i : bsz (S i) = bsz i * 2.
Proof.
  unfold bsz. replace (Z.of_nat (S i) + 4) with (Z.succ (Z.of_nat i + 4)) by lia.
  rewrite Z.pow_succ_r by lia. lia.
Qed.

Section init.
Variables (kd : Z).
Hypothesis Hkd : 0 < kd ∧ kd + 112 ≤ KERNEL_HEAP_BASE.

Definition array_mapped (m : mem) : Prop := ∀ j, 0 ≤ j < 28 → is_Some (m !! (kd + 4 * j)).

Lemma init_desc_spec m i : (i < 7)%nat → array_mapped m →
  ∃ m', init_desc m (desc_at kd (Z.of_nat i)) (bsz i) = Ok m' ∧ desc_ready kd m' i ∧
    (∀ a, is_Some (m !! a) → is_Some (m' !! a)) ∧
    (∀ a, a < desc_at kd (Z.of_nat i) ∨ desc_at kd (Z.of_nat i) + 16 ≤ a → m' !! a = m !! a).
Proof.
  intros Hi Hmap. pose proof (bsz_facts i Hi) as (Hb & _ & Hn & _).
  assert (∀ o, 0 ≤ o < 4 → is_Some (m !! (desc_at kd (Z.of_nat i) + 4 * o))) as Hw.
  { intros o Ho. unfold desc_at, sizeof_desc.
    replace (kd + 16 * Z.of_nat i + 4 * o) with (kd + 4 * (4 * Z.of_nat i + o)) by lia.
    apply Hmap. lia. }
  unfold init_desc. set (d := desc_at kd (Z.of_nat i)) in *.
  assert (0 < d) as Hd by (subst d; unfold desc_at, sizeof_desc; lia).
  replace (u32 (PAGE_SIZE - sizeof_arena) / bsz i) with (nb i) by done.
  unfold block_size_off, blocks_each_arena_off, free_list_off.
  rewrite store_is_Some by (apply (Hw 0); lia). cbn [obind].
  rewrite store_is_Some by (apply is_Some_insert, (Hw 1); lia). cbn [obind].
  set (m1 := <[d + 4 := nb i]> (<[d + 0 := bsz i]> m)).
  destruct (list_init_spec m1 (d + 8)) as (m' & E & Hring & Hmono & Hsame).
  { subst m1. split; unfold prev_off, next_off; do 2 apply is_Some_insert.
    - replace (d + 8 + 0) with (d + 4 * 2) by lia. apply Hw. lia.
    - replace (d + 8 + 4) with (d + 4 * 3) by lia. apply Hw. lia. }
  { unfold addr. lia. }
  assert (∀ a, a < d + 8 ∨ d + 16 ≤ a → m' !! a = m1 !! a) as Hf.
  { intros a Ha. apply Hsame. intros q ->%list_elem_of_singleton. unfold prev_off, next_off. lia. }
  exists m'. split_and!; [done| | |].
  - split; [done|]. unfold block_size_off, blocks_each_arena_off. fold d.
    rewrite !Hf by lia. subst m1. rewrite lookup_insert_ne by lia. by rewrite !lookup_insert_eq.
  - intros a Ha. apply Hmono. subst m1. by do 2 apply is_Some_insert.
  - intros a Ha. rewrite Hf by lia. subst m1. by rewrite !lookup_insert_ne by lia.
Qed.

Lemma desc_ready_frame m m' i j : (i < 7)%nat → (j < i)%nat → desc_ready kd m j →
  (∀ a, a < desc_at kd (Z.of_nat i) ∨ desc_at kd (Z.of_nat i) + 16 ≤ a → m' !! a = m !! a) →
  desc_ready kd m' j.
Proof.
  intros Hi Hj (Hr & H1 & H2) Hf.
  unfold desc_ready, desc_at, sizeof_desc, block_size_off, blocks_each_arena_off, free_head,
    free_list_off in *.
  rewrite !Hf by lia. split; [|done]. eapply ring_same; [|done].
  intros q ->%list_elem_of_singleton. unfold desc_at, sizeof_desc, prev_off, next_off.
  by rewrite !Hf by lia.
Qed.

Lemma init_descs_spec n k m : (n + k = 7)%nat → array_mapped m →
  (∀ j, (j < k)%nat → desc_ready kd m j) →
  ∃ m', init_descs n m kd (Z.of_nat k) (bsz k) = Ok m' ∧
    (∀ j, (j < 7)%nat → desc_ready kd m' j) ∧ (∀ a, is_Some (m !! a) → is_Some (m' !! a)).
Proof.
  revert k m. induction n as [|n IH]; intros k m Hn Hmap Hready; cbn [init_descs].
  - exists m. split_and!; [done| |done]. intros j Hj. apply Hready. lia.
  - destruct (init_desc_spec m k ltac:(lia) Hmap) as (m1 & -> & Hk & Hmono & Hf). cbn [obind].
    rewrite u8_small by lia. replace (Z.of_nat k + 1) with (Z.of_nat (S k)) by lia.
    pose proof (bsz_facts k ltac:(lia)) as (Hb & _). rewrite u16_small, <- bsz_S by lia.
    destruct (IH (S k) m1) as (m2 & -> & Hall & Hmono2).
    + lia.
    + intros j Hj. by apply Hmono, Hmap.
    + intros j Hj. destruct (decide (j = k)) as [->|]; [done|].
      apply (desc_ready_frame m m1 k j); [lia|lia|apply Hready; lia|done].
    + exists m2. split_and!; [done|done|auto].
Qed.

Lemma mem_block_desc_init_spec p m lk lu b :
  kernel_wf p → kernel_total p ≤ 257024 → mapped (kernel_total p) m → array_mapped m →
  ∃ m', mem_block_desc_init m kd = Ok m' ∧ heap_inv kd (Heap p m' lk lu b) (λ _, []) ∅ ∧
    (∀ a, is_Some (m !! a) → is_Some (m' !! a)).
Proof.
  intros Hp Htot Hmap Harr. destruct (init_descs_spec 7 0 m) as (m' & E & Hready & Hmono); [done|done|lia|].
  exists m'. split; [done|]. split; [|done]. split; cbn.
  - split; try done.
    intros i b' _ Hb. by apply elem_of_nil in Hb.
  - split.
    + intros i Hi. by apply Hready.
    + intros i Hi. by apply Hready.
    + intros r k Hk. by rewrite lookup_empty in Hk.
  - by apply (mapped_mono _ m).
Qed.
End init.
