(* ===== verification/HeapSafe.v ===== *)
(** What the users of the heap rely on: [sys_malloc] on every branch, and the
    safety of every sequence of requests, releases and writes into the blocks. *)
From S2P Require Import Prelude Bitmap KList Pool Mutex Heap.
Local Open Scope Z_scope.

(** * What happens to the pools *)

Lemma page_alloc_size fuel p n p' v : page_alloc fuel p PF_KERNEL n = Ok (p', v) →
  pool_size (kernel_pool p') = pool_size (kernel_pool p).
Proof.
  unfold page_alloc, vaddr_alloc. intros H.
  destruct (bitmap_apply _ _ _) as [idx| | |]; cbn [obind] in H; [|done..].
  destruct (s32 idx =? -1); cbn [obind] in H; [by injection H as <- <-|].
  destruct (set_each_bit _ _ _ _) as [bm| | |]; cbn [obind] in H; [|done..].
  destruct (_ =? 0); [by injection H as <- <-|].
  destruct (bitmap_set_bits _ _ _ _) as [bm'| | |]; cbn [obind] in H; [|done..].
  by injection H as <- <-.
Qed.

Lemma phy_free_size p a p' : phy_free p a = Ok p' →
  pool_size (kernel_pool p') = pool_size (kernel_pool p).
Proof.
  unfold phy_free. intros H. destruct (_ <=? _); cbn [obind] in H;
    (destruct (bitmap_set_bit _ _ _); cbn [obind] in H; [|done..]); by injection H as <-.
Qed.

Lemma free_frames_size n p a p' : free_frames n p a = Ok p' →
  pool_size (kernel_pool p') = pool_size (kernel_pool p).
Proof.
  revert p a. induction n as [|n IH]; intros p a; cbn [free_frames]; [by intros [= <-]|].
  destruct (phy_free p a) as [p1| | |] eqn:E; cbn [obind]; [|done..].
  intros H. rewrite (IH _ _ H). by apply (phy_free_size p a).
Qed.

Lemma page_free_size p a n p' : page_free p PF_KERNEL a n = Ok p' →
  pool_size (kernel_pool p') = pool_size (kernel_pool p).
Proof.
  unfold page_free, vaddr_free. intros H. destruct (1 <=? n); [|done]. cbn [ASSERT obind] in H.
  destruct (free_frames _ _ _) as [p1| | |] eqn:E; cbn [obind] in H; [|done..].
  destruct (bitmap_set_bits _ _ _ _); cbn [obind] in H; [|done..]. injection H as <-.
  by rewrite <- (free_frames_size _ _ _ _ E).
Qed.

Definition kernel_size (s : heap) : Z := pool_size (kernel_pool (h_pools s)).

(** Open the next bind of the computation in [H]. *)
Ltac open_bind H := 
  apply obind_Ok_inv in H; let x := fresh "x" in let E := fresh "E" in
  destruct H as (x & E & H).

Lemma lock_acquire_pools t s pf s' : lock_acquire t s pf = Ok s' → h_pools s' = h_pools s.
Proof. unfold lock_acquire. intros H. open_bind H. injection H as <-. by destruct pf. Qed.

Lemma lock_release_pools t s pf s' : lock_release t s pf = Ok s' → h_pools s' = h_pools s.
Proof. unfold lock_release. intros H. open_bind H. injection H as <-. by destruct pf. Qed.

(** What a request may do to the pools: nothing, or take [n] pages. *)
Definition pages_taken (fuel : nat) (n : Z) (p p' : pools) : Prop :=
  p' = p ∨ ∃ v, page_alloc fuel p PF_KERNEL n = Ok (p', v).

(** The pages that a request of [size] bytes takes at most. *)
Definition request_pages (size : Z) : Z :=
  if 1024 <? size then DIV_ROUND_UP (u32 (size + sizeof_arena)) PAGE_SIZE else 1.

Lemma malloc_pages_pools fuel t s size s' p : malloc_pages fuel PF_KERNEL t s size = Ok (s', p) →
  pages_taken fuel (DIV_ROUND_UP (u32 (size + sizeof_arena)) PAGE_SIZE) (h_pools s) (h_pools s').
Proof.
  unfold malloc_pages. intros H. open_bind H. destruct x as [p1 arena]. right. exists arena.
  rewrite E. destruct (arena =? NULL).
  - open_bind H. injection H as <- <-. by rewrite (lock_release_pools _ _ _ _ E0).
  - do 4 open_bind H. injection H as <- <-. by rewrite (lock_release_pools _ _ _ _ E3).
Qed.

Lemma new_arena_pools fuel s desc s' ok : new_arena fuel PF_KERNEL s desc = Ok (s', ok) →
  pages_taken fuel 1 (h_pools s) (h_pools s').
Proof.
  unfold new_arena. intros H. open_bind H. destruct x as [p1 arena]. right. exists arena.
  rewrite E. destruct (arena =? NULL); [by injection H as <- <-|].
  do 5 open_bind H. by injection H as <- <-.
Qed.

Lemma malloc_block_pools fuel t s desc size s' p :
  malloc_block fuel PF_KERNEL t s desc size = Ok (s', p) → pages_taken fuel 1 (h_pools s) (h_pools s').
Proof.
  unfold malloc_block. intros H. do 3 open_bind H. destruct x1 as [s1 ok].
  assert (pages_taken fuel 1 (h_pools s) (h_pools s1)) as Hs1.
  { destruct x0; [by apply new_arena_pools in E1|injection E1 as <- <-; by left]. }
  destruct ok; cbn [negb] in H.
  - open_bind H. destruct x1 as [m block]. open_bind H. injection H as <- <-.
    by rewrite (lock_release_pools _ _ _ _ E3).
  - open_bind H. injection H as <- <-. by rewrite (lock_release_pools _ _ _ _ E2).
Qed.

Lemma sys_malloc_pools fuel kd s t size s' p : kernel_thread t →
  sys_malloc fuel kd s t size = Ok (s', p) →
  pages_taken fuel (request_pages size) (h_pools s) (h_pools s').
Proof.
  intros Ht H. unfold sys_malloc, task_pool in H. rewrite (proj1 Ht), Z.eqb_refl in H.
  destruct (_ || _); [injection H as <- <-; by left|]. open_bind H.
  rewrite <- (lock_acquire_pools _ _ _ _ E). unfold request_pages.
  destruct (1024 <? size); [by eapply malloc_pages_pools|by eapply malloc_block_pools].
Qed.

Lemma sys_malloc_size fuel kd s t size s' p : kernel_thread t →
  sys_malloc fuel kd s t size = Ok (s', p) → kernel_size s' = kernel_size s.
Proof.
  intros Ht H. unfold kernel_size. apply sys_malloc_pools in H as [->|[v E]]; [done| |done].
  by apply page_alloc_size in E.
Qed.

Lemma sys_free_size fuel s t p s' : kernel_thread t →
  sys_free fuel s t p = Ok s' → kernel_size s' = kernel_size s.
Proof.
  intros Ht H. unfold sys_free, task_pool in H. rewrite (proj1 Ht), Z.eqb_refl in H.
  do 5 open_bind H. unfold kernel_size.
  rewrite (lock_release_pools _ _ _ _ H), <- (lock_acquire_pools _ _ _ _ E1).
  destruct (x2 =? NULL).
  - do 2 open_bind E3. injection E3 as <-. by apply page_free_size in E5.
  - unfold free_block in E3. do 4 open_bind E3. destruct (u32 _ =? _); [|by injection E3 as <-].
    do 2 open_bind E3. injection E3 as <-. by apply page_free_size in E9.
Qed.

(** Every loop of the allocator ends with this fuel, whatever the memory size. *)
Definition heap_fuel (fuel : nat) : Prop := 1073741824 ≤ Z.of_nat fuel.

(** ** A run of free pages *)

(** A request takes at most its pages from a run of free ones, since the first run that fits is
    taken; and giving pages back leaves the run. *)
Lemma can_fit_taken fuel n k p p' : kernel_wf p → heap_fuel fuel → 1 ≤ n < 4294967296 → 0 ≤ k →
  pages_taken fuel n p p' → can_fit p (n + k) → can_fit p' k.
Proof.
  intros Hp Hf Hn Hk Htaken [r0 (H1 & H2 & H3)]. destruct Htaken as [->|[v E]].
  { exists r0. split; [done|]. split; [lia|]. intros i Hi. apply H3. lia. }
  pose proof (kernel_total_range _ Hp) as Hr. unfold heap_fuel in Hf.
  assert (fit (vm_bitmap (kernel_vm_pool p)) n r0) as Hfit.
  { split; [done|]. split; [lia|]. intros i Hi. apply H3. lia. }
  destruct (page_alloc_kernel_spec fuel p n Hp Hn) as (p1 & r & E1 & _ & _ & Hleast & Hvm & _ & _ & _ & Ht);
    [lia|by exists r0|]. rewrite E1 in E. injection E as <- <-.
  assert (r ≤ r0) by (destruct (Z.le_gt_cases r r0) as [|Hlt]; [done|by apply Hleast in Hlt]).
  unfold kernel_total in Ht. exists (r0 + n). split; [lia|]. rewrite Ht. split; [lia|].
  intros i Hi. specialize (Hvm i ltac:(lia)). unfold vm_page in Hvm. rewrite Hvm, decide_False by lia.
  apply H3. lia.
Qed.

Lemma can_fit_fewer p p' k : fewer_pages p p' → can_fit p k → can_fit p' k.
Proof.
  intros [Ht Hvm] [r (H1 & H2 & H3)]. exists r. unfold kernel_total in Ht. split; [done|]. split; [lia|].
  intros i Hi. specialize (Hvm i ltac:(lia)). specialize (H3 i Hi). unfold vm_page in Hvm.
  destruct (bit (vm_bitmap (kernel_vm_pool p')) i); [|done]. by rewrite Hvm in H3.
Qed.

(** * The users of the heap *)

(** The blocks that the users hold, with the sizes they asked for.  They ask for
    blocks, give a block back that they hold, and write a word of a block that
    they hold. *)
Inductive heap_step (fuel : nat) (kd : Z) (t : task) :
    heap * gmap Z Z → heap * gmap Z Z → Prop :=
  | step_malloc s live size s' p :
      sys_malloc fuel kd s t size = Ok (s', p) →
      heap_step fuel kd t (s, live) (s', if p =? NULL then live else <[p := size]> live)
  | step_free s live p n s' :
      live !! p = Some n → sys_free fuel s t p = Ok s' →
      heap_step fuel kd t (s, live) (s', delete p live)
  | step_write s live p n a v m' :
      live !! p = Some n → a mod 4 = 0 → p ≤ a → a + 4 ≤ p + n → store (h_mem s) a v = Ok m' →
      heap_step fuel kd t (s, live) (set_mem s m', live).

(** Every block that is held was given out with at least its size. *)
Record held (kd : Z) (sl : heap * gmap Z Z) (F : nat → list Z) (A : gmap Z arena_kind) : Prop := {
  he_inv : heap_inv kd (sl.1) F A;
  he_lock : kernel_lock (sl.1) = unlocked;
  he_size : kernel_size (sl.1) ≤ 2147483648;
  he_live p n : sl.2 !! p = Some n → ∃ z, allocated F A p z ∧ n ≤ z
}.

Lemma heap_fuel_enough fuel p : heap_fuel fuel → kernel_wf p → enough_fuel fuel p.
Proof.
  intros Hf Hp. pose proof (kernel_total_range p Hp). unfold heap_fuel, enough_fuel in *. lia.
Qed.

Lemma heap_fuel_255 fuel : heap_fuel fuel → (255 < fuel)%nat.
Proof. unfold heap_fuel. lia. Qed.

Lemma allocated_unique kd p F A q z z' : shape kd p F A → allocated F A q z → allocated F A q z' →
  z = z'.
Proof.
  intros Hsh [(r & i & k & E & Hk & -> & Hn & ->)|(r & n & E & -> & ->)]
    [(r' & i' & k' & E' & Hk' & Eb & Hn' & ->)|(r' & n' & E' & Eb & ->)].
  - pose proof (ao_class _ _ (sh_arenas _ _ _ _ Hsh) _ _ E) as Hi.
    pose proof (ao_class _ _ (sh_arenas _ _ _ _ Hsh) _ _ E') as Hi'.
    assert (r = r') as <-.
    { apply (in_page_inj _ _ (blk r i k)); [|rewrite Eb]; by apply blk_in_page. }
    rewrite E in E'. by injection E' as ->.
  - pose proof (ao_class _ _ (sh_arenas _ _ _ _ Hsh) _ _ E) as Hi.
    assert (r = r') as <-; [|congruence]. apply (in_page_inj _ _ (blk r i k)); [by apply blk_in_page|].
    rewrite Eb. unfold in_page, sizeof_arena. lia.
  - pose proof (ao_class _ _ (sh_arenas _ _ _ _ Hsh) _ _ E') as Hi.
    assert (r' = r) as <-; [|congruence]. apply (in_page_inj _ _ (blk r' i' k')); [by apply blk_in_page|].
    rewrite <- Eb. unfold in_page, sizeof_arena. lia.
  - assert (r = r') as <-; [rewrite !page_addr_eq in Eb; lia|]. rewrite E in E'. by injection E' as ->.
Qed.

(** A block that is given out lies in the heap. *)
Lemma allocated_heap kd p F A q z : shape kd p F A → allocated F A q z →
  KERNEL_HEAP_BASE < q ∧ q + z ≤ 0xffc00000.
Proof.
  intros Hsh Hal. pose proof (sh_total _ _ _ _ Hsh) as Htot. destruct (allocated_position kd p F A Hsh q z Hal) as (r & k & Er & H1 & H2 & _).
  destruct (arena_page kd p F A Hsh r k Er) as (? & ? & ? & ?).
  rewrite !page_addr_eq in *. unfold KERNEL_HEAP_BASE. lia.
Qed.

Lemma allocated_words kd p F A q z : shape kd p F A → allocated F A q z → z mod 4 = 0.
Proof.
  intros Hsh [(r & i & k & E & _ & _ & _ & ->)|(r & n & E & _ & ->)]; [|divlia].
  destruct (bsz_facts i) as (H & _); [by apply (ao_class _ _ (sh_arenas _ _ _ _ Hsh) r)|].
  unfold bsz. rewrite Z.pow_add_r by lia. divlia.
Qed.

Lemma heap_step_held fuel kd t sl sl' F A : heap_fuel fuel → kernel_thread t →
  held kd sl F A → heap_step fuel kd t sl sl' → ∃ F' A', held kd sl' F' A'.
Proof.
  intros Hf Ht [Hinv Hlock Hsize Hlive] Hstep. pose proof (hi_shape _ _ _ _ Hinv) as Hsh.
  destruct Hstep as [s live size s' p Hok|s live p n s' Hp Hok|s live p n a v m' Hp _ Ha Ha' Hok];
    cbn [fst snd] in *.
  - pose proof (sys_malloc_size _ _ _ _ _ _ _ Ht Hok) as Hks.
    destruct (sys_malloc_cases fuel kd s F A t Hinv Hlock Ht
      (heap_fuel_enough _ _ Hf (sh_pools _ _ _ _ Hsh)) Hsize size s' p Hok)
      as [[-> ->]|[(F' & A' & z & Hinv' & Hz & Hal & Hnew & _) (Hlock' & _)]].
    + by exists F, A.
    + exists F', A'. split; cbn [fst snd]; [done|done|lia|]. intros q n Hq.
      destruct (Z.eqb_spec p NULL); [|destruct (decide (q = p)) as [->|]].
      * destruct (Hlive q n Hq) as (z' & ? & ?). exists z'. split; [|done]. apply Hal. by left.
      * rewrite lookup_insert_eq in Hq. injection Hq as <-. exists z. split; [|done]. apply Hal. by right.
      * rewrite lookup_insert_ne in Hq by done. destruct (Hlive q n Hq) as (z' & ? & ?).
        exists z'. split; [|done]. apply Hal. by left.
  - pose proof (sys_free_size _ _ _ _ _ Ht Hok) as Hks. destruct (Hlive p n Hp) as (z & Hal & _).
    destruct (sys_free_spec fuel kd s F A t p z Hinv Hlock Ht Hal (heap_fuel_255 _ Hf))
      as (s1 & E & (F' & A' & Hinv' & Hal' & _) & Hlock' & _).
    rewrite E in Hok. injection Hok as ->. exists F', A'. split; cbn [fst snd]; [done|done|lia|].
    intros q k Hq. destruct (decide (q = p)) as [->|]; [by rewrite lookup_delete_eq in Hq|].
    rewrite lookup_delete_ne in Hq by done. destruct (Hlive q k Hq) as (z' & ? & ?).
    exists z'. split; [|done]. by apply Hal'.
  - destruct (Hlive p n Hp) as (z & Hal & Hz).
    apply store_Ok_inv in Hok as [Hsome ->].
    exists F, A. split; cbn [fst snd]; [|done|done|done]. destruct Hinv as [_ Hm Hmap]. split; [done| |].
    + apply (mem_ok_frame _ (h_mem s)); [done|]. intros b Hb. cbn [h_mem set_mem].
      apply lookup_insert_ne. intros <-.
      by apply (allocated_not_meta kd _ F A Hsh p z a) in Hal; [|lia].
    + apply (mapped_mono _ (h_mem s)); [done|]. intros b Hb. cbn. by apply is_Some_insert.
Qed.

Lemma heap_steps_held fuel kd t sl sl' F A : heap_fuel fuel → kernel_thread t →
  held kd sl F A → rtc (heap_step fuel kd t) sl sl' → ∃ F' A', held kd sl' F' A'.
Proof.
  intros Hf Ht Hh Hrtc. revert F A Hh. induction Hrtc as [sl|sl sl1 sl' Hstep _ IH]; intros F A Hh.
  - by exists F, A.
  - destruct (heap_step_held fuel kd t sl sl1 F A Hf Ht Hh Hstep) as (F1 & A1 & H1). by apply (IH F1 A1).
Qed.

(** The words of [s'] in the blocks that are held, except the one at [p], are
    those of [s]. *)
Definition same_blocks (live : gmap Z Z) (p : Z) (s s' : heap) : Prop :=
  ∀ q n a, live !! q = Some n → q ≠ p → q ≤ a < q + n → h_mem s' !! a = h_mem s !! a.

(** A machine on which the heap can start; with 2040 MB of memory or more it would reach the page tables. *)
Record heap_start (kd : Z) (p : pools) (m : mem) : Prop := {
  hs_pools : kernel_wf p;
  hs_total : kernel_total p ≤ 257024;
  hs_size : pool_size (kernel_pool p) ≤ 2147483648;
  hs_mapped : mapped (kernel_total p) m;
  hs_kd : 0 < kd ∧ kd + 112 ≤ KERNEL_HEAP_BASE;
  hs_array : array_mapped kd m
}.

Lemma heap_start_held kd p m lu b : heap_start kd p m →
  ∃ m', mem_block_desc_init m kd = Ok m' ∧ held kd (Heap p m' unlocked lu b, ∅) (λ _, []) ∅.
Proof.
  intros [Hp Htot Hsize Hmap Hkd Harr].
  destruct (mem_block_desc_init_spec kd Hkd p m unlocked lu b Hp Htot Hmap Harr) as (m' & E & Hinv & _).
  exists m'. split; [done|]. split; cbn [fst snd]; [done|done|done|].
  intros q n Hq. by rewrite lookup_empty in Hq.
Qed.

(** C6. From the state that [mem_block_desc_init] makes, after any sequence of
    requests of any size, releases of blocks that are held and writes into blocks
    that are held: two blocks that are held are disjoint, and lie in the kernel
    heap, which ends below the page tables; giving one back succeeds, does not change the contents of the others, and
    leaves the locks and the interrupt flag as they were; and when [sys_malloc]
    returns a block, it is a new one, apart from those that are held, with [size]
    bytes that are zero, and the contents of the others do not change. *)
Theorem heap_users_safe fuel kd t p m lu b m0 s live :
  heap_fuel fuel → kernel_thread t → heap_start kd p m →
  mem_block_desc_init m kd = Ok m0 →
  rtc (heap_step fuel kd t) (Heap p m0 unlocked lu b, ∅) (s, live) →
  (∀ q n q' n', live !! q = Some n → live !! q' = Some n' → q ≠ q' → q + n ≤ q' ∨ q' + n' ≤ q) ∧
  (∀ q n, live !! q = Some n →
     KERNEL_HEAP_BASE < q ∧ q + n ≤ 0xffc00000 ∧
     ∃ s', sys_free fuel s t q = Ok s' ∧ same_blocks live q s s' ∧
       kernel_lock s' = unlocked ∧ user_lock s' = user_lock s ∧ h_intr s' = h_intr s) ∧
  (∀ size s' q, sys_malloc fuel kd s t size = Ok (s', q) → q ≠ NULL →
     live !! q = None ∧ same_blocks live q s s' ∧
     (∀ q' n', live !! q' = Some n' → q + size ≤ q' ∨ q' + n' ≤ q) ∧
     (∀ j, 0 ≤ 4 * j < size → h_mem s' !! (q + 4 * j) = Some 0) ∧
     kernel_lock s' = unlocked ∧ user_lock s' = user_lock s ∧ h_intr s' = h_intr s).
Proof.
  intros Hf Ht Hstart Hinit Hrtc.
  destruct (heap_start_held kd p m lu b Hstart) as (m1 & E & H0). rewrite E in Hinit.
  injection Hinit as <-.
  destruct (heap_steps_held fuel kd t _ _ _ _ Hf Ht H0 Hrtc) as (F & A & [Hinv Hlock Hsize Hlive]).
  cbn [fst snd] in *. pose proof (hi_shape _ _ _ _ Hinv) as Hsh. split_and!.
  - intros q n q' n' Hq Hq' Hne. destruct (Hlive q n Hq) as (z & Hz & ?).
    destruct (Hlive q' n' Hq') as (z' & Hz' & ?).
    destruct (allocated_apart kd _ F A Hsh q z q' z' Hz Hz' Hne); lia.
  - intros q n Hq. destruct (Hlive q n Hq) as (z & Hz & Hle).
    destruct (allocated_heap kd _ F A q z Hsh Hz) as [? ?]. split; [lia|]. split; [lia|].
    destruct (sys_free_spec fuel kd s F A t q z Hinv Hlock Ht Hz (heap_fuel_255 _ Hf))
      as (s' & Es & (F' & A' & _ & _ & Hsame & _) & ? & ? & ?).
    exists s'. split_and!; try done. intros q' n' a Hq' Hne Ha.
    destruct (Hlive q' n' Hq') as (z' & ? & ?). apply (Hsame q' z'); [done|done|lia].
  - intros size s' q Hok Hne.
    destruct (sys_malloc_cases fuel kd s F A t Hinv Hlock Ht
      (heap_fuel_enough _ _ Hf (sh_pools _ _ _ _ Hsh)) Hsize size s' q Hok)
      as [[? _]|[(F' & A' & z & Hinv' & Hz & Hal & Hnew & Hzero & Hsame) Hlocks]]; [done|].
    assert (∀ q' n', live !! q' = Some n' → ∃ z', allocated F A q' z' ∧ n' ≤ z' ∧ q' ≠ q) as Hold.
    { intros q' n' Hq'. destruct (Hlive q' n' Hq') as (z' & Hz' & ?). eauto. }
    split_and!; try apply Hlocks.
    + destruct (live !! q) as [n|] eqn:Eq; [|done]. by destruct (Hold q n Eq) as (? & ? & ? & ?).
    + intros q' n' a Hq' _ Ha. destruct (Hold q' n' Hq') as (z' & ? & ? & ?).
      apply (Hsame q' z'); [done|lia].
    + intros q' n' Hq'. destruct (Hold q' n' Hq') as (z' & Hz' & ? & Hqq).
      destruct (allocated_apart kd _ F' A' (hi_shape _ _ _ _ Hinv') q z q' z'); [| |done|lia|lia];
        apply Hal; auto.
    + intros j Hj. apply Hzero. assert (allocated F' A' q z) as Hq by (apply Hal; auto).
      pose proof (allocated_words kd _ F' A' q z (hi_shape _ _ _ _ Hinv') Hq).
      pose proof (Z.div_mod z 4 ltac:(lia)). lia.
Qed.

(** * One request *)

(** C15. While the heap ends below the page tables ([shape]): a request of at least one byte and at most the size of the pool is granted
    when there is a free block of its class, or else a free page, or, above 1024
    bytes, enough consecutive pages: the block is big enough, new, zero, and not
    NULL, and the rest of the heap is as it was. *)
Theorem sys_malloc_gives fuel kd s F A t size :
  heap_inv kd s F A → kernel_lock s = unlocked → kernel_thread t → heap_fuel fuel →
  0 < size ≤ kernel_size s → kernel_size s ≤ 2147483648 →
  (size ≤ 1024 → ∀ i, class_of size i → F i ≠ [] ∨ can_fit (h_pools s) 1) →
  (1024 < size → can_fit (h_pools s) (pages_for size)) →
  ∃ s' p, sys_malloc fuel kd s t size = Ok (s', p) ∧ p ≠ NULL ∧ malloced kd s s' F A size p ∧
    kernel_lock s' = unlocked ∧ user_lock s' = user_lock s ∧ h_intr s' = h_intr s.
Proof.
  intros Hinv Hlock Ht Hf Hsize Hmax Hsmall Hlarge. pose proof (hi_shape _ _ _ _ Hinv) as Hsh.
  destruct (sys_malloc_ok fuel kd s F A t Hinv Hlock Ht
    (heap_fuel_enough _ _ Hf (sh_pools _ _ _ _ Hsh)) Hmax size Hsize Hlarge Hsmall)
    as (s' & p & E & Hm & Hrest).
  exists s', p. split; [done|]. split; [|by split].
  destruct Hm as (F' & A' & z & Hinv' & _ & Hal & _).
  assert (allocated F' A' p z) as Hp by (apply Hal; auto).
  pose proof (allocated_heap kd _ F' A' p z (hi_shape _ _ _ _ Hinv') Hp).
  unfold NULL, KERNEL_HEAP_BASE in *. lia.
Qed.

(** C36. The requests that fail return NULL and change nothing, the lock included:
    no bytes, more than the pool has, and, when every page of the heap is in use, more than 1024
    bytes or a class without a free block. *)
Theorem sys_malloc_fails fuel kd s F A t size :
  heap_inv kd s F A → kernel_lock s = unlocked → kernel_thread t → heap_fuel fuel →
  kernel_size s ≤ 2147483648 →
  (size ≤ 0 ∨ kernel_size s < size ∨
   0 < kernel_total (h_pools s) ∧ (∀ j, 0 ≤ j < kernel_total (h_pools s) → vm_page (h_pools s) j = true) ∧
   (size ≤ 1024 → ∀ i, class_of size i → F i = [])) →
  sys_malloc fuel kd s t size = Ok (s, NULL).
Proof.
  intros Hinv Hlock Ht Hf Hmax Hcase. pose proof (hi_shape _ _ _ _ Hinv) as Hsh.
  pose proof (heap_fuel_enough _ _ Hf (sh_pools _ _ _ _ Hsh)) as Hfuel.
  rewrite (sys_malloc_eq fuel kd s t Hlock Ht). fold (kernel_size s).
  destruct (Z.ltb_spec (kernel_size s) size), (Z.leb_spec size 0); try done. cbn [orb].
  destruct Hcase as [?|[?|(Htot & Hfull & Hempty)]]; [lia|lia|].
  apply (malloc_refused fuel kd s F A t Hinv Hlock Hfuel Hmax size ltac:(lia) Hempty).
  by apply page_alloc_full; [apply (sh_pools _ _ _ _ Hsh)|..].
Qed.

(** A block that was given out can be given back: the blocks that are given out
    are the others, with their contents, and the lock is free again. *)
Theorem sys_free_gives_back fuel kd s F A t p sz :
  heap_inv kd s F A → kernel_lock s = unlocked → kernel_thread t → heap_fuel fuel →
  allocated F A p sz →
  ∃ s', sys_free fuel s t p = Ok s' ∧ freed kd s s' F A p ∧
    kernel_lock s' = unlocked ∧ user_lock s' = user_lock s ∧ h_intr s' = h_intr s.
Proof.
  intros Hinv Hlock Ht Hf Hal. by apply (sys_free_spec fuel kd s F A t p sz); [..|apply heap_fuel_255].
Qed.

(** * Whole pages *)

Lemma get_kernel_pages_spec fuel t s n p' r :
  kernel_wf (h_pools s) → mapped (kernel_total (h_pools s)) (h_mem s) →
  kernel_lock s = unlocked → self t ≠ NULL → 1 ≤ n →
  page_alloc fuel (h_pools s) PF_KERNEL n = Ok (p', page_addr r) → page_got (h_pools s) p' r n →
  ∃ m', get_kernel_pages fuel t s n = Ok (Heap p' m' unlocked (user_lock s) (h_intr s), page_addr r) ∧
    (∀ j, 0 ≤ j < 1024 * n → m' !! (page_addr r + 4 * j) = Some 0) ∧
    (∀ a, a < page_addr r ∨ page_addr (r + n) ≤ a → m' !! a = h_mem s !! a) ∧
    (∀ a, is_Some (h_mem s !! a) → is_Some (m' !! a)).
Proof.
  intros Hp Hmap Hlock Ht Hn Hpa Hg. unfold get_kernel_pages, get_pages.
  rewrite lock_acquire_unlocked by done. cbn [obind set_lock h_pools]. rewrite Hpa. cbn [obind].
  destruct (pg_range _ _ _ _ Hg) as [Hr0 Hr1]. pose proof (kernel_total_range _ Hp) as Htot.
  rewrite (proj2 (Z.eqb_neq (page_addr r) NULL)) by (unfold NULL; rewrite page_addr_eq; lia).
  cbn [negb set_pools h_mem h_pools].
  replace (u32 (n * PAGE_SIZE)) with (4 * (1024 * n)) by (unfold PAGE_SIZE; rewrite u32_small; lia).
  pose proof (kw_end _ Hp) as Hend. unfold kernel_total, KERNEL_HEAP_BASE, PAGE_SIZE in Htot, Hr1, Hend.
  destruct (memset_zero_spec (h_mem s) (page_addr r) (1024 * n)) as (m' & -> & Hz & Hsame & Hmono);
    [rewrite page_addr_eq; lia|lia|rewrite page_addr_eq; lia| |].
  { intros j Hj. apply (mapped_run _ _ r n _ Hmap); unfold kernel_total; [lia|lia|rewrite page_addr_eq; lia|].
    rewrite page_addr_eq. divlia. }
  cbn [obind]. rewrite (lock_release_taken t) by done. exists m'. split_and!; try done.
  intros a Ha. apply Hsame. rewrite !page_addr_eq in *. lia.
Qed.

(** When [pages] consecutive pages of the heap are free, [get_kernel_pages]
    returns the first of [pages] consecutive pages that were free and are now in use,
    all their words zero; it does not touch the other words, and leaves the lock free. *)
Theorem get_kernel_pages_zeroed fuel t s pages :
  kernel_wf (h_pools s) → heap_fuel fuel → mapped (kernel_total (h_pools s)) (h_mem s) →
  kernel_lock s = unlocked → kernel_thread t → 1 ≤ pages < 4294967296 → can_fit (h_pools s) pages →
  ∃ s' r, get_kernel_pages fuel t s pages = Ok (s', page_addr r) ∧
    page_got (h_pools s) (h_pools s') r pages ∧
    (∀ j, 0 ≤ j < 1024 * pages → h_mem s' !! (page_addr r + 4 * j) = Some 0) ∧
    (∀ a, a < page_addr r ∨ page_addr (r + pages) ≤ a → h_mem s' !! a = h_mem s !! a) ∧
    kernel_lock s' = unlocked ∧ user_lock s' = user_lock s ∧ h_intr s' = h_intr s.
Proof.
  intros Hp Hf Hmap Hlock Ht Hn Hfit. pose proof (heap_fuel_enough _ _ Hf Hp) as Hfuel.
  unfold enough_fuel in Hfuel. pose proof (kernel_total_range _ Hp) as Htot.
  destruct (page_alloc_fits fuel _ pages Hp Hn ltac:(lia) Hfit) as (p' & r & Hpa & Hg).
  destruct (get_kernel_pages_spec fuel t s pages p' r) as (m' & E & Hz & Hsame & _);
    [done|done|done|apply Ht|lia|done|done|]. eauto 12.
Qed.

(** * The hypotheses can be met *)

(** The sixteen pages of [demo_pools] and the descriptors at [demo_kd].  The
    memory and the fuel are large, so their definitions are opaque. *)
Definition demo_kd : Z := 0xc0010000.
Definition demo_task : task := Task 0xc009f000 NULL 0.

Lemma demo_kernel_thread : kernel_thread demo_task.
Proof. done. Qed.

(** A memory with [n] words from [p] on, for every [(p, n)] of a list. *)
Lemma words_mem (spans : list (Z * Z)) : {m : mem | ∀ p n j, (p, n) ∈ spans → 0 ≤ j < n →
  is_Some (m !! (p + 4 * j))}.
Proof.
  induction spans as [|[p n] spans [m Hm]]; [by exists ∅; intros ??? ?%elem_of_nil|].
  exists (gset_to_gmap 0 (list_to_set ((λ j, p + 4 * j) <$> seqZ 0 n)) ∪ m).
  intros q k j [[= -> ->]|Hin]%elem_of_cons Hj; apply lookup_union_is_Some; [left|right; by apply (Hm q k)].
  exists 0. apply lookup_gset_to_gmap_Some. split; [|done].
  apply elem_of_list_to_set, list_elem_of_fmap. exists j. split; [done|]. by apply elem_of_seqZ.
Qed.

Definition demo_mem : mem := proj1_sig (words_mem [(demo_kd, 28); (page_addr 0, 16384)]).

Lemma demo_mem_is_Some p n j : (p, n) ∈ [(demo_kd, 28); (page_addr 0, 16384)] → 0 ≤ j < n →
  is_Some (demo_mem !! (p + 4 * j)).
Proof. apply (proj2_sig (words_mem _)). Qed.

Lemma demo_fuel_ex : {fuel | heap_fuel fuel}.
Proof. exists (Z.to_nat 1073741824). unfold heap_fuel. lia. Qed.
Definition demo_fuel : nat := proj1_sig demo_fuel_ex.
Definition demo_heap_fuel : heap_fuel demo_fuel := proj2_sig demo_fuel_ex.

(** [demo_pools] with every page in use. *)
Definition demo_full : pools :=
  Pools (PhysPool MEM_BITMAP_BASE (Bitmap 2 (Some [255; 255])) 0x1000000 0x10000)
        (user_pool demo_pools)
        (VmPool KERNEL_VM_BITMAP_BASE (Bitmap 2 (Some [255; 255])) KERNEL_HEAP_BASE)
        (userprog_vaddr demo_pools).

Lemma demo_start p : kernel_wf p → kernel_total p = 16 → pool_size (kernel_pool p) = 0x10000 →
  heap_start demo_kd p demo_mem.
Proof.
  intros Hp Ht Hs. split; [done|by rewrite Ht|by rewrite Hs| |by vm_compute|].
  - intros r j Hr Hj. rewrite Ht in Hr.
    replace (page_addr r + 4 * j) with (page_addr 0 + 4 * (1024 * r + j)) by (rewrite !page_addr_eq; lia).
    apply (demo_mem_is_Some _ 16384); [|lia]. rewrite !elem_of_cons. auto.
  - intros j Hj. apply (demo_mem_is_Some _ 28); [|lia]. rewrite !elem_of_cons. auto.
Qed.

Lemma demo_pools_start : heap_start demo_kd demo_pools demo_mem.
Proof. apply demo_start; [apply demo_pools_wf|done|done]. Qed.

Lemma demo_full_start : heap_start demo_kd demo_full demo_mem.
Proof. apply demo_start; [split; apply (bool_decide_unpack _); by vm_compute|done|done]. Qed.

Lemma demo_fit n r : fit (vm_bitmap (kernel_vm_pool demo_pools)) n r → can_fit demo_pools n.
Proof. by exists r. Qed.

(** The heap just after the initialisation, and a first request. *)
Lemma demo_first : ∃ m0 s p,
  mem_block_desc_init demo_mem demo_kd = Ok m0 ∧
  sys_malloc demo_fuel demo_kd (Heap demo_pools m0 unlocked unlocked true) demo_task 20 = Ok (s, p) ∧
  malloced demo_kd (Heap demo_pools m0 unlocked unlocked true) s (λ _, []) ∅ 20 p ∧ kernel_lock s = unlocked.
Proof.
  destruct (heap_start_held demo_kd demo_pools demo_mem unlocked true demo_pools_start)
    as (m0 & E & [Hinv Hlock Hsize _]). cbn [fst] in *.
  destruct (sys_malloc_ok demo_fuel demo_kd _ _ _ demo_task Hinv Hlock demo_kernel_thread
    (heap_fuel_enough _ _ demo_heap_fuel (sh_pools _ _ _ _ (hi_shape _ _ _ _ Hinv))) Hsize 20)
    as (s & p & Es & Hm & Hl & _); [change (0 < 20 ≤ 65536); clear; lia|intros; lia| |].
  - intros _ i _. right. apply (demo_fit 1 0), (bool_decide_unpack _). by vm_compute.
  - exists m0, s, p. by split.
Qed.

Lemma heap_users_safe_witness : ∃ m0 s p q s',
  mem_block_desc_init demo_mem demo_kd = Ok m0 ∧
  rtc (heap_step demo_fuel demo_kd demo_task) (Heap demo_pools m0 unlocked unlocked true, ∅)
    (s, <[q := 20]> ∅) ∧
  KERNEL_HEAP_BASE < p ∧ p = q ∧ sys_free demo_fuel s demo_task p = Ok s' ∧ kernel_lock s' = unlocked.
Proof.
  destruct demo_first as (m0 & s & p & E0 & E & Hm & _).
  assert (p ≠ NULL) as Hp.
  { destruct Hm as (F' & A' & z & Hinv & _ & Hal & _).
    destruct (allocated_heap demo_kd _ F' A' p z (hi_shape _ _ _ _ Hinv)) as [H _]; [apply Hal; auto|].
    unfold KERNEL_HEAP_BASE, NULL in *. lia. }
  assert (rtc (heap_step demo_fuel demo_kd demo_task) (Heap demo_pools m0 unlocked unlocked true, ∅)
    (s, <[p := 20]> ∅)) as Hrtc.
  { eapply rtc_l; [by eapply step_malloc|]. by rewrite (proj2 (Z.eqb_neq p NULL)). }
  destruct (heap_users_safe demo_fuel demo_kd demo_task demo_pools demo_mem unlocked true m0 s (<[p := 20]> ∅))
    as (_ & Hlive & _); [apply demo_heap_fuel|done|apply demo_pools_start|done|done|].
  destruct (Hlive p 20) as (Hb & _ & s' & Es & _ & Hl & _); [by rewrite lookup_insert_eq|].
  by exists m0, s, p, p, s'.
Defined.

Lemma sys_malloc_gives_witness : ∃ m0 s p,
  sys_malloc demo_fuel demo_kd (Heap demo_pools m0 unlocked unlocked true) demo_task 9000 = Ok (s, p) ∧
  p ≠ NULL ∧ malloced demo_kd (Heap demo_pools m0 unlocked unlocked true) s (λ _, []) ∅ 9000 p.
Proof.
  destruct (heap_start_held demo_kd demo_pools demo_mem unlocked true demo_pools_start)
    as (m0 & _ & [Hinv Hlock Hsize _]). cbn [fst] in *.
  destruct (sys_malloc_gives demo_fuel demo_kd (Heap demo_pools m0 unlocked unlocked true) (λ _, []) ∅
    demo_task 9000) as (s & p & E & Hp & Hm & _);
    [exact Hinv|done|done|apply demo_heap_fuel|change (0 < 9000 ≤ 65536); clear; lia|exact Hsize|intros; lia| |].
  - intros _. apply (demo_fit 3 2), (bool_decide_unpack _). by vm_compute.
  - exists m0, s, p. by split.
Defined.

Lemma sys_malloc_fails_witness : ∃ m0,
  sys_malloc demo_fuel demo_kd (Heap demo_full m0 unlocked unlocked true) demo_task 20 =
    Ok (Heap demo_full m0 unlocked unlocked true, NULL).
Proof.
  destruct (heap_start_held demo_kd demo_full demo_mem unlocked true demo_full_start)
    as (m0 & _ & [Hinv Hlock Hsize _]). cbn [fst] in *. exists m0.
  apply (sys_malloc_fails demo_fuel demo_kd _ (λ _, []) ∅ demo_task 20);
    [done|done|done|apply demo_heap_fuel|done|].
  right. right. split_and!; [done| |done].
  intros j Hj. change (kernel_total (h_pools _)) with 16 in Hj.
  assert (Forall (λ j, vm_page demo_full j = true) (seqZ 0 16)) as Hall
    by (apply (bool_decide_unpack _); by vm_compute).
  rewrite Forall_forall in Hall. apply Hall. by apply elem_of_seqZ.
Defined.

Lemma sys_free_gives_back_witness : ∃ s p s',
  p ≠ NULL ∧ sys_free demo_fuel s demo_task p = Ok s' ∧ kernel_lock s' = unlocked.
Proof.
  destruct demo_first as (m0 & s & p & _ & _ & (F & A & z & Hinv & _ & Hal & _) & Hl).
  assert (allocated F A p z) as Hp by (apply Hal; auto).
  destruct (sys_free_gives_back demo_fuel demo_kd s F A demo_task p z) as (s' & E & _ & Hl' & _);
    [done|done|done|apply demo_heap_fuel|done|].
  exists s, p, s'. split; [|done].
  pose proof (allocated_heap demo_kd _ F A p z (hi_shape _ _ _ _ Hinv) Hp).
  unfold KERNEL_HEAP_BASE, NULL in *. lia.
Defined.

Lemma get_kernel_pages_zeroed_witness : ∃ s' r,
  get_kernel_pages demo_fuel demo_task (Heap demo_pools demo_mem unlocked unlocked true) 3 = Ok (s', page_addr r) ∧
  h_mem s' !! (page_addr r + 4 * 3071) = Some 0.
Proof.
  pose proof demo_pools_start as [Hp _ Hs Hmap _ _].
  destruct (get_kernel_pages_zeroed demo_fuel demo_task (Heap demo_pools demo_mem unlocked unlocked true) 3)
    as (s' & r & E & _ & Hz & _); [done|apply demo_heap_fuel|done|done|done|lia| |].
  - apply (demo_fit 3 2), (bool_decide_unpack _). by vm_compute.
  - exists s', r. split; [done|]. by apply Hz.
Defined.
