(* ===== verification/Create.v ===== *)
(** Creation of threads: the second half of thread/thread.c, on top of the
    scheduler, the page allocator and the locks. *)
From S2P Require Import Prelude Bitmap KList Pool Thread Sync Mutex Heap HeapSafe.
Local Open Scope Z_scope.

(** * Data *)

(** [PCB_SIZE], [struct intr_stack] and [struct thread_stack]. *)
Definition PCB_SIZE : Z := PAGE_SIZE * 1.
Definition sizeof_intr_stack : Z := 76.
Definition sizeof_thread_stack : Z := 32.
Definition ebp_off : Z := 0.
Definition ebx_off : Z := 4.
Definition edi_off : Z := 8.
Definition esi_off : Z := 12.
Definition eip_off : Z := 16.
Definition function_off : Z := 24.
Definition func_argc_off : Z := 28.

(** [user_block_desc_array] in [struct task_struct]. *)
Definition user_block_desc_off : Z := 84.

(** [thread->thread_list] *)
Definition list_node (t : Z) : Z := u32 (t + thread_list_off).

(** The scheduler, the pools and their locks, and the variables of thread.c.  The
    nodes of the scheduler are in the same memory as the pages: [nodes (kern w)]. *)
Record world := World {
  kern : kstate;
  w_pools : pools;
  kernel_pool_lock : mutex;
  user_pool_lock : mutex;
  pid_lock : mutex;
  next_pid : Z;
  main_thread : Z
}.

Definition set_kern (w : world) (k : kstate) : world :=
  World k (w_pools w) (kernel_pool_lock w) (user_pool_lock w) (pid_lock w) (next_pid w) (main_thread w).
Definition set_pid_lock (w : world) (l : mutex) : world :=
  World (kern w) (w_pools w) (kernel_pool_lock w) (user_pool_lock w) l (next_pid w) (main_thread w).
Definition set_next_pid (w : world) (n : Z) : world :=
  World (kern w) (w_pools w) (kernel_pool_lock w) (user_pool_lock w) (pid_lock w) n (main_thread w).
Definition set_main (w : world) (t : Z) : world :=
  World (kern w) (w_pools w) (kernel_pool_lock w) (user_pool_lock w) (pid_lock w) (next_pid w) t.

Definition set_nodes (k : kstate) (m : mem) : kstate :=
  KState m (tasks k) (thread_ready_queue k) (current_task k) (idle_thread k) (intr_on k).
Definition set_idle (k : kstate) (t : Z) : kstate :=
  KState (nodes k) (tasks k) (thread_ready_queue k) (current_task k) t (intr_on k).

(** The part of the state that the allocator works on, and back. *)
Definition to_heap (w : world) : heap :=
  Heap (w_pools w) (nodes (kern w)) (kernel_pool_lock w) (user_pool_lock w) (intr_on (kern w)).
Definition of_heap (w : world) (h : heap) : world :=
  World (Thread.set_intr (set_nodes (kern w) (h_mem h)) (h_intr h)) (h_pools h) (kernel_lock h) (user_lock h)
    (pid_lock w) (next_pid w) (main_thread w).

(** What the allocator reads of the running task. *)
Definition running_task (k : kstate) : outcome task :=
  let! x := get_task k (get_cur_task k) in
  Ok (Task (get_cur_task k) (Thread.pde_addr x) (u32 (get_cur_task k + user_block_desc_off))).

(** * Operations *)

(** [alloc_pid]: up to [lock_release], and the [return] behind it. *)
Definition pid_increment (w : world) (cur : Z) : outcome world :=
  let! l := mutex_acquire (pid_lock w) cur in
  let w := set_next_pid (set_pid_lock w l) (s16 (next_pid w + 1)) in
  let! l := mutex_release (pid_lock w) cur in
  Ok (set_pid_lock w l).
Definition alloc_pid (w : world) : outcome (world * Z) :=
  let! w := pid_increment w (get_cur_task (kern w)) in
  Ok (w, next_pid w).

(** [memset(pthread, 0, sizeof *pthread)]: the words of the list nodes, and the
    other fields. *)
Definition zero_task : task_struct := TaskStruct 0 TASK_RUNNING 0 0 0 0 [] NULL 0.
Definition pcb_memset (k : kstate) (pthread : Z) : outcome kstate :=
  let! m := memset_zero (nodes k) pthread sizeof_task_struct in
  Ok (set_tasks (set_nodes k m) (<[pthread := zero_task]> (tasks k))).

(** [strcpy(pthread->name, name)]: [name] has 32 bytes; a longer string would go
    on into the list nodes, which the model takes for a fault. *)
Definition pcb_name (k : kstate) (pthread : Z) (name : list Z) : outcome kstate :=
  if (length name <? 32)%nat then
    update_task k pthread (λ x, TaskStruct (self_kernel_stack x) (status x) (priority x) (pid x)
      (ticks x) (elapsed_ticks x) name (Thread.pde_addr x) (stack_boundary x))
  else Fault.

Definition pcb_init (w : world) (pthread : Z) (name : list Z) (prio : Z) : outcome world :=
  let! k := pcb_memset (kern w) pthread in
  let! k := pcb_name k pthread name in
  let! (w, pid) := alloc_pid (set_kern w k) in
  let status := if pthread =? main_thread w then TASK_RUNNING else TASK_READY in
  let! k := update_task (kern w) pthread (λ x,
    TaskStruct (u32 (pthread + PCB_SIZE * sizeof_task_struct)) status (u16 prio) pid (u8 prio) 0
      (Thread.name x) NULL 0x20130901) in
  Ok (set_kern w k).

(** [self_kernel_stack -= n], a pointer to 32-bit words. *)
Definition stack_down (n : Z) (x : task_struct) : task_struct :=
  TaskStruct (u32 (self_kernel_stack x - 4 * n)) (status x) (priority x) (pid x) (ticks x)
    (elapsed_ticks x) (Thread.name x) (Thread.pde_addr x) (stack_boundary x).

Section create.
(** Fuel of [bitmap_apply] and [list_find_item]. *)
Variable fuel : nat.
(** The addresses of [thread_total_list], [kernel_func] and [cpu_idle]. *)
Variables thread_total_list kernel_func cpu_idle : Z.

Definition thread_creat (k : kstate) (pthread function func_argc : Z) : outcome kstate :=
  let! k := update_task k pthread (stack_down sizeof_intr_stack) in
  let! k := update_task k pthread (stack_down sizeof_thread_stack) in
  let! x := get_task k pthread in
  let kernel_stack := self_kernel_stack x in
  let! m := store (nodes k) (kernel_stack + eip_off) kernel_func in
  let! m := store m (kernel_stack + func_argc_off) func_argc in
  let! m := store m (kernel_stack + function_off) function in
  let! m := store m (kernel_stack + ebp_off) 0 in
  let! m := store m (kernel_stack + ebx_off) 0 in
  let! m := store m (kernel_stack + edi_off) 0 in
  let! m := store m (kernel_stack + esi_off) 0 in
  Ok (set_nodes k m).

(** [ASSERT(!list_find_item(&thread_total_list, &t->thread_list))] and [list_add]. *)
Definition add_to_total_list (k : kstate) (t : Z) : outcome kstate :=
  let! found := list_find_item fuel (nodes k) thread_total_list (list_node t) in
  ASSERT (negb found) ;!
  let! m := list_add (nodes k) thread_total_list (list_node t) in
  Ok (set_nodes k m).

Definition thread_start (w : world) (name : list Z) (prio function func_argc : Z)
    : outcome (world * Z) :=
  let! t := running_task (kern w) in
  let! (h, thread) := get_kernel_pages fuel t (to_heap w) (PCB_SIZE / PAGE_SIZE) in
  let! w := pcb_init (of_heap w h) thread name prio in
  let! k := thread_creat (kern w) thread function func_argc in
  let! found := in_ready_queue fuel k thread in
  ASSERT (negb found) ;!
  let! mq := queue_in (nodes k) (thread_ready_queue k) (dispatch_node thread) in
  let! k := add_to_total_list (set_ready k mq) thread in
  Ok (set_kern w k, thread).

(** The names of the first two threads: "main" and "cpu_idle". *)
Definition main_name : list Z := [109; 97; 105; 110].
Definition cpu_idle_name : list Z := [99; 112; 117; 95; 105; 100; 108; 101].

Definition init_main_thread (w : world) : outcome world :=
  let w := set_main w (get_cur_task (kern w)) in
  let! w := pcb_init w (main_thread w) main_name 1 in
  let! k := add_to_total_list (kern w) (main_thread w) in
  Ok (set_kern w k).

Definition thread_init (w : world) : outcome world :=
  let! m := list_init (nodes (kern w)) thread_total_list in
  let k := set_ready (kern w) (m, queue_init) in
  let w := set_pid_lock (set_kern w (set_current k 0xc009e000)) unlocked in
  let! w := init_main_thread w in
  let! (w, idle_thread) := thread_start w cpu_idle_name 1 cpu_idle NULL in
  Ok (set_kern w (set_idle (kern w) idle_thread)).
End create.

(** * Lemmas *)

(** ** The parts of [thread_start] *)

Lemma update_task_Some k t f x : tasks k !! t = Some x →
  update_task k t f = Ok (set_tasks k (<[t := f x]> (tasks k))).
Proof. intros E. unfold update_task, get_task. by rewrite E. Qed.

Lemma alloc_pid_eq w : pid_lock w = unlocked → get_cur_task (kern w) ≠ NULL →
  alloc_pid w = Ok (set_next_pid w (s16 (next_pid w + 1)), s16 (next_pid w + 1)).
Proof.
  intros Hl Hc. unfold alloc_pid, pid_increment. rewrite Hl, mutex_acquire_unlocked by done.
  cbn [obind pid_lock set_next_pid set_pid_lock]. rewrite mutex_release_locked. cbn [obind].
  unfold set_pid_lock. cbn. destruct w; cbn in *; by subst.
Qed.

(** The words of [n] bytes from [p] on are in the memory. *)
Definition words (m : mem) (p n : Z) : Prop := ∀ j, 0 ≤ 4 * j < n → is_Some (m !! (p + 4 * j)).

(** The PCB that [pcb_init] makes. *)
Definition new_pcb (w : world) (t : Z) (name : list Z) (prio : Z) : task_struct :=
  TaskStruct (u32 (t + 819200)) (if t =? main_thread w then TASK_RUNNING else TASK_READY)
    (u16 prio) (s16 (next_pid w + 1)) (u8 prio) 0 name NULL 0x20130901.

Lemma pcb_init_spec w t name prio :
  pid_lock w = unlocked → get_cur_task (kern w) ≠ NULL → pcb t → words (nodes (kern w)) t 200 →
  (length name < 32)%nat →
  ∃ m, pcb_init w t name prio =
      Ok (set_next_pid (set_kern w (set_tasks (set_nodes (kern w) m)
            (<[t := new_pcb w t name prio]> (tasks (kern w))))) (s16 (next_pid w + 1))) ∧
    (∀ a, a < t ∨ t + 200 ≤ a → m !! a = nodes (kern w) !! a) ∧
    (∀ a, is_Some (nodes (kern w) !! a) → is_Some (m !! a)).
Proof.
  intros Hl Hc [Ht0 Ht1] Hw Hname. unfold sizeof_task_struct in *.
  destruct (memset_zero_spec (nodes (kern w)) t 50) as (m & E & _ & Hsame & Hmono);
    [done|lia|lia|intros j Hj; apply Hw; lia|].
  exists m. split_and!; [|done|done]. unfold pcb_init, pcb_memset, sizeof_task_struct.
  change 200 with (4 * 50). rewrite E. cbn [obind]. unfold pcb_name.
  rewrite (proj2 (Nat.ltb_lt _ _)) by done.
  rewrite (update_task_Some _ t _ zero_task) by apply lookup_insert_eq. cbn [obind].
  rewrite alloc_pid_eq by done. cbn [obind].
  erewrite (update_task_Some _ t) by apply lookup_insert_eq. cbn [obind].
  unfold set_kern, set_tasks, set_nodes, set_next_pid. cbn. by rewrite !insert_insert_eq.
Qed.

(** The stack frame that [thread_creat] writes. *)
Definition frame_at (m : mem) (p kernel_func function func_argc : Z) : Prop :=
  m !! (p + ebp_off) = Some 0 ∧ m !! (p + ebx_off) = Some 0 ∧ m !! (p + edi_off) = Some 0 ∧
  m !! (p + esi_off) = Some 0 ∧ m !! (p + eip_off) = Some kernel_func ∧
  m !! (p + function_off) = Some function ∧ m !! (p + func_argc_off) = Some func_argc.

Lemma thread_creat_spec kernel_func k t x function func_argc sp :
  tasks k !! t = Some x → u32 (u32 (self_kernel_stack x - 304) - 128) = sp → words (nodes k) sp 32 →
  ∃ m, thread_creat kernel_func k t function func_argc =
      Ok (set_tasks (set_nodes k m) (<[t := stack_down sizeof_thread_stack (stack_down sizeof_intr_stack x)]> (tasks k))) ∧
    frame_at m sp kernel_func function func_argc ∧
    (∀ a, a < sp ∨ a = sp + 20 ∨ sp + 32 ≤ a → m !! a = nodes k !! a) ∧
    (∀ a, is_Some (nodes k !! a) → is_Some (m !! a)).
Proof.
  intros Ex Esp Hw. unfold thread_creat. rewrite (update_task_Some k t _ x) by done. cbn [obind].
  erewrite (update_task_Some _ t) by apply lookup_insert_eq. cbn [obind].
  unfold get_task. cbn [tasks set_tasks]. rewrite lookup_insert_eq. cbn [obind nodes].
  change (self_kernel_stack (stack_down _ _)) with
    (u32 (u32 (self_kernel_stack x - 304) - 128)). rewrite Esp.
  unfold frame_at, ebp_off, ebx_off, edi_off, esi_off, eip_off, function_off, func_argc_off.
  assert (∀ o, o = 0 ∨ o = 4 ∨ o = 8 ∨ o = 12 ∨ o = 16 ∨ o = 24 ∨ o = 28 → is_Some (nodes k !! (sp + o))) as Hs.
  { intros o Ho. replace o with (4 * (o / 4)) by divlia. apply Hw. divlia. }
  unfold set_tasks. cbn [nodes].
  do 7 (rewrite store_is_Some by (repeat apply is_Some_insert; apply Hs; lia); cbn [obind]).
  match goal with |- context [set_nodes _ ?m'] => exists m' end.
  split; [by rewrite insert_insert_eq|]. split; [|split].
  - split_and!; by repeat first [rewrite lookup_insert_eq|rewrite lookup_insert_ne by lia].
  - intros a Ha. by repeat (rewrite lookup_insert_ne by lia).
  - intros a Ha. by repeat apply is_Some_insert.
Qed.

(** ** The lists *)

(** The PCBs [ts] and the head of the list of all threads do not overlap. *)
Definition pcbs_apart (total : Z) (ts : list Z) : Prop :=
  (∀ t, t ∈ ts → pcb t ∧ (total + 8 ≤ t ∨ t + 200 ≤ total)) ∧
  (∀ t t', t ∈ ts → t' ∈ ts → t ≠ t' → t + 200 ≤ t' ∨ t' + 200 ≤ t).

Lemma list_node_eq t : pcb t → list_node t = t + 60.
Proof.
  unfold pcb, sizeof_task_struct, list_node, thread_list_off. intros. apply u32_small. lia.
Qed.

(** The nodes of the list of all threads, and those of the dispatch queues. *)
Definition total_nodes (total : Z) (ts : list Z) : list Z := total :: (list_node <$> ts).

Section lists.
Context (fuel : nat) (total t : Z) (ts rs : list Z).
Hypothesis Hap : pcbs_apart total (t :: ts).
Hypothesis Hnew : t ∉ ts.
Hypothesis Hrs : rs ⊆ ts.

Lemma apart_new t' : t' ∈ ts → pcb t ∧ pcb t' ∧ (t + 200 ≤ t' ∨ t' + 200 ≤ t).
Proof using Hap Hnew.
  intros Ht'. destruct Hap as [H1 H2].
  destruct (H1 t); [by left|]. destruct (H1 t'); [by right|]. split_and!; [done|done|].
  apply H2; [by left|by right|]. by intros ->.
Qed.

Lemma list_disjoint l l' : l ⊆ t :: ts → l' ⊆ t :: ts →
  disjoint_nodes (total_nodes total l) (dispatch_node <$> l').
Proof using Hap.
  intros Hl Hl' p q Hp (t2 & -> & Ht2)%list_elem_of_fmap. destruct Hap as [H1 H2].
  destruct (H1 t2) as [Hpcb2 Htot2]; [by apply Hl'|]. rewrite dispatch_node_eq by done.
  apply elem_of_cons in Hp as [->|(t1 & -> & Ht1)%list_elem_of_fmap]; [unfold sep; lia|].
  destruct (H1 t1) as [Hpcb1 _]; [by apply Hl|]. rewrite list_node_eq by done.
  destruct (decide (t1 = t2)) as [->|Hne]; [unfold sep; lia|].
  destruct (H2 t1 t2); [by apply Hl|by apply Hl'|done|unfold sep; lia..].
Qed.

Lemma dispatch_insertable m : node m (dispatch_node t) → insertable m (dispatch_node <$> rs) (dispatch_node t).
Proof using Hap Hnew Hrs.
  intros Hn. destruct Hap as [H1 _]. destruct (H1 t) as [Hpcb _]; [by left|].
  split_and!; [done|rewrite dispatch_node_eq by done; unfold addr, pcb in *; lia|].
  apply Forall_forall. intros p (t' & -> & Ht')%list_elem_of_fmap.
  destruct (apart_new t') as (_ & Hpcb' & ?); [by apply Hrs|].
  rewrite !dispatch_node_eq by done. unfold sep. lia.
Qed.

Lemma total_insertable m : node m (list_node t) → insertable m (total_nodes total ts) (list_node t).
Proof using Hap Hnew.
  intros Hn. destruct Hap as [H1 _]. destruct (H1 t) as [Hpcb Htot]; [by left|].
  rewrite list_node_eq in * by done.
  split_and!; [done|unfold addr, pcb in *; lia|]. constructor; [unfold sep; lia|].
  apply Forall_forall. intros p (t' & -> & Ht')%list_elem_of_fmap.
  destruct (apart_new t' Ht') as (_ & Hpcb' & ?). rewrite list_node_eq by done. unfold sep. lia.
Qed.

Lemma enlist_spec k : queue_repr (nodes k) (thread_ready_queue k) (dispatch_node <$> rs) →
  ring (nodes k) (total_nodes total ts) → node (nodes k) (dispatch_node t) → node (nodes k) (list_node t) →
  (length rs < fuel)%nat → (length ts < fuel)%nat → Z.of_nat (length rs) + 1 < 4294967296 →
  in_ready_queue fuel k t = Ok false ∧
  ∃ m q m', queue_in (nodes k) (thread_ready_queue k) (dispatch_node t) = Ok (m, q) ∧
    add_to_total_list fuel total (set_ready k (m, q)) t = Ok (set_ready k (m', q)) ∧
    queue_repr m' q (dispatch_node <$> rs ++ [t]) ∧ ring m' (total_nodes total (t :: ts)) ∧
    (∀ a, is_Some (nodes k !! a) → is_Some (m' !! a)) ∧
    (∀ a, (∀ t', t' ∈ t :: ts → a < t' ∨ t' + 200 ≤ a) → (a < total ∨ total + 8 ≤ a) →
       m' !! a = nodes k !! a).
Proof using Hap Hnew Hrs.
  intros Hq Htot Hn1 Hn2 Hf1 Hf2 Hlen.
  pose proof (dispatch_insertable _ Hn1) as Hi1. pose proof (total_insertable _ Hn2) as Hi2.
  destruct Hi1 as (_ & Ha1 & Hs1). split.
  { unfold in_ready_queue. rewrite (qs_find fuel _ _ _ _ Hq) by (rewrite ?length_fmap; lia || done).
    rewrite bool_decide_false; [done|]. intros Hin%elem_of_removelast.
    rewrite Forall_forall in Hs1. by apply (sep_irrefl (dispatch_node t)), Hs1. }
  destruct (queue_in_spec (nodes k) (thread_ready_queue k) (dispatch_node <$> rs) (dispatch_node t))
    as (m & q & Eq & Hq' & Hu); [done|by split_and!|by rewrite length_fmap|].
  assert (ring m (total_nodes total ts)) as Htot'.
  { eapply (ring_frame _ _ _ _ Hu); [|done]. apply (list_disjoint ts (t :: rs)); [set_solver|].
    intros x [->|?]%elem_of_cons; [by left|right; by apply Hrs]. }
  destruct Hi2 as (_ & Ha2 & Hs2).
  destruct (list_add_spec m total (list_node <$> ts) (list_node t) Htot') as (m' & El & Hr' & Hu').
  { split_and!; [by eapply upd_nodes_node|done|done]. }
  exists m, q, m'. split_and!; [done| | | | |].
  - unfold add_to_total_list. cbn [nodes set_ready fst].
    rewrite (list_find_item_ring fuel m total (list_node <$> ts)); [|done|done|by rewrite length_fmap].
    rewrite bool_decide_false.
    2:{ intros Hin%elem_of_removelast. rewrite Forall_forall in Hs2. by apply (sep_irrefl (list_node t)), Hs2. }
    cbn [obind negb ASSERT]. rewrite El. done.
  - rewrite fmap_app. eapply (queue_repr_frame _ _ _ _ _ Hu'); [|done].
    intros p p' Hp Hp'. symmetry. revert p' p Hp' Hp.
    replace ((dispatch_node <$> rs) ++ [dispatch_node t]) with (dispatch_node <$> (rs ++ [t])) by (by rewrite fmap_app).
    intros p' p Hp' Hp. apply (list_disjoint (t :: ts) (rs ++ [t])); [done| | |done].
    + intros x [Hx|Hx]%elem_of_app; [right; by apply Hrs|]. apply list_elem_of_singleton in Hx as ->. by left.
    + revert Hp'. unfold total_nodes. cbn [fmap list_fmap]. rewrite !elem_of_cons. tauto.
  - done.
  - intros a Ha. apply (proj1 Hu'), (proj1 Hu). done.
  - intros a Ha Hat. destruct Hap as [H1 _].
    assert (∀ t', t' ∈ t :: ts → ∀ o, 0 ≤ o < 200 → a ≠ t' + o) as Hno by (intros t' Ht' o Ho; specialize (Ha t' Ht'); lia).
    rewrite (proj2 Hu'), (proj2 Hu); [done| |]; unfold prev_off, next_off.
    + intros p Hp. assert (∃ t', t' ∈ t :: ts ∧ p = dispatch_node t') as (t' & Ht' & ->).
      { apply elem_of_cons in Hp as [->|(t' & -> & Ht')%list_elem_of_fmap]; eexists; (split; [|done]); [by left|right; by apply Hrs]. }
      rewrite dispatch_node_eq by (by apply H1). split; rewrite <- Z.add_assoc; apply Hno; done || lia.
    + intros p Hp. assert (p = total ∨ ∃ t', t' ∈ t :: ts ∧ p = list_node t') as [->|(t' & Ht' & ->)].
      { apply elem_of_cons in Hp as [->|[->|(t' & -> & Ht')%list_elem_of_fmap]%elem_of_cons]; [right|by left|right];
          eexists; (split; [|done]); [by left|by right]. }
      * lia.
      * rewrite list_node_eq by (by apply H1). split; rewrite <- Z.add_assoc; apply Hno; done || lia.
Qed.
End lists.

(** * Invariant *)

(** A PCB is below the heap, or at the start of a page of the heap that is in use. *)
Definition place (p : pools) (t : Z) : Prop :=
  t + 200 ≤ KERNEL_HEAP_BASE ∨
  ∃ r, 0 ≤ r < kernel_total p ∧ t = page_addr r ∧ vm_page p r = true.

(** [ts] are the threads, the last one made first, and [rs] those that are ready.
    Before [thread_init] is done there is no idle thread, so the invariant of the scheduler
    is stated with the current thread in its place. *)
Record threads_ok (total : Z) (ts : list Z) (w : world) (rs : list Z) : Prop := {
  to_sched : kinv ts (set_idle (kern w) (current_task (kern w))) rs;
  to_apart : pcbs_apart total ts;
  to_place : Forall (place (w_pools w)) ts;
  to_total : 0 < total ∧ total + 8 ≤ KERNEL_HEAP_BASE;
  to_list : ring (nodes (kern w)) (total_nodes total ts);
  to_pools : kernel_wf (w_pools w);
  to_mapped : mapped (kernel_total (w_pools w)) (nodes (kern w));
  to_main : main_thread w ∈ ts;
  to_lock : kernel_pool_lock w = unlocked;
  to_pid_lock : pid_lock w = unlocked
}.

(** The page that the next request for one page gets. *)
Definition first_free (p : pools) (r : Z) : Prop :=
  fit (vm_bitmap (kernel_vm_pool p)) 1 r ∧ ∀ r', r' < r → ¬ fit (vm_bitmap (kernel_vm_pool p)) 1 r'.

Lemma first_free_alloc fuel p r : kernel_wf p → heap_fuel fuel → first_free p r →
  ∃ p', page_alloc fuel p PF_KERNEL 1 = Ok (p', page_addr r) ∧ page_got p p' r 1.
Proof.
  intros Hp Hf [Hfit Hleast]. pose proof (kernel_total_range _ Hp). unfold heap_fuel in Hf.
  destruct (page_alloc_kernel_spec fuel p 1 Hp) as (p' & r' & E & Hp' & Hfit' & Hleast' & Hvm & _ & _ & _ & Ht);
    [lia|lia|by exists r|].
  assert (r' = r) as ->.
  { destruct (Z.lt_trichotomy r' r) as [Hlt|[?|Hlt]]; [by apply Hleast in Hlt|done|by apply Hleast' in Hlt]. }
  exists p'. split; [done|]. destruct Hfit as (Hr0 & Hr1 & Hfree). split; try done. unfold kernel_total. lia.
Qed.

(** The stack pointer of a thread in page [r]: it is in page [r + 199]. *)
Definition stack_of (r : Z) : Z := page_addr (r + 199) + 3664.

Lemma stack_of_eq r x : 0 ≤ r → page_addr (r + 200) ≤ 4294967296 →
  self_kernel_stack x = u32 (page_addr r + 819200) →
  u32 (u32 (self_kernel_stack x - 304) - 128) = stack_of r.
Proof.
  intros Hr Hend ->. unfold stack_of. rewrite !page_addr_eq in *. unfold Z.sub. rewrite !u32_add_u32.
  rewrite <- Z.add_assoc, u32_add_u32, u32_small by lia. lia.
Qed.

Lemma place_mono p p' r t : page_got p p' r 1 → place p t → place p' t.
Proof.
  intros Hg [?|(r' & Hr' & -> & Hv)]; [by left|right]. exists r'. rewrite (pg_total _ _ _ _ Hg).
  split_and!; [lia|lia|done|]. rewrite (pg_vm _ _ _ _ Hg) by lia. by case_decide.
Qed.

Section start.
Context (total : Z) (ts rs : list Z) (w : world) (r : Z) (p' : pools).
Hypothesis Hok : threads_ok total ts w rs.
Hypothesis Hg : page_got (w_pools w) p' r 1.

Lemma new_range : 0 ≤ r < kernel_total (w_pools w) ∧ 3238002688 + kernel_total (w_pools w) * 4096 ≤ 4294967296.
Proof using Hok Hg.
  destruct (pg_range _ _ _ _ Hg). pose proof (kw_end _ (to_pools _ _ _ _ Hok)) as He.
  unfold kernel_total, KERNEL_HEAP_BASE, PAGE_SIZE in *. lia.
Qed.

(** The new PCB is apart from the others. *)
Lemma new_apart t : t ∈ ts → page_addr r + 4096 ≤ t ∨ t + 200 ≤ page_addr r.
Proof using Hok Hg.
  intros Ht. pose proof (to_place _ _ _ _ Hok) as Hp. rewrite Forall_forall in Hp.
  pose proof new_range as [Hr _]. destruct (Hp t Ht) as [?|(r' & Hr' & -> & Hv)].
  - right. rewrite page_addr_eq. unfold KERNEL_HEAP_BASE in *. lia.
  - destruct (decide (r' = r)) as [->|]; [|rewrite !page_addr_eq; lia].
    rewrite (pg_free _ _ _ _ Hg) in Hv by lia. done.
Qed.

Lemma new_not_in : page_addr r ∉ ts.
Proof using Hok Hg. intros Hin%new_apart. lia. Qed.

Lemma new_pcbs_apart : pcbs_apart total (page_addr r :: ts).
Proof using Hok Hg.
  destruct (to_apart _ _ _ _ Hok) as [H1 H2]. pose proof new_range as [Hr He].
  pose proof (to_total _ _ _ _ Hok) as [Ht0 Ht1]. unfold KERNEL_HEAP_BASE in *. split.
  - intros t [->|Ht]%elem_of_cons; [|by apply H1]. unfold pcb, sizeof_task_struct.
    rewrite page_addr_eq in *. lia.
  - intros t t' [->|Ht]%elem_of_cons [->|Ht']%elem_of_cons Hne; [done| | |by apply H2].
    + destruct (new_apart t' Ht'); lia.
    + destruct (new_apart t Ht); lia.
Qed.

(** The frame is apart from the PCBs. *)
Lemma frame_apart t : r + 199 < kernel_total (w_pools w) → t ∈ page_addr r :: ts →
  t + 200 ≤ stack_of r ∨ stack_of r + 32 ≤ t.
Proof using Hok Hg.
  intros Hend Ht. pose proof (to_place _ _ _ _ Hok) as Hp. rewrite Forall_forall in Hp.
  pose proof new_range as [Hr He]. unfold stack_of.
  apply elem_of_cons in Ht as [->|Ht]; [rewrite !page_addr_eq; lia|].
  destruct (Hp t Ht) as [?|(r' & Hr' & -> & Hv)]; rewrite !page_addr_eq; unfold KERNEL_HEAP_BASE in *; lia.
Qed.
End start.

(** ** The invariant of the scheduler with one more thread *)

Lemma queue_repr_same m m' q l :
  (∀ p, p ∈ l → m' !! (p + prev_off) = m !! (p + prev_off) ∧ m' !! (p + next_off) = m !! (p + next_off)) →
  queue_repr m q l → queue_repr m' q l.
Proof. intros Hs (? & ? & ? & [->|Hr]); split_and!; auto. right. by eapply ring_same. Qed.

Lemma node_pool_pcbs total m ts : pcbs_apart total ts → NoDup ts → Z.of_nat (length ts) < 4294967296 →
  (∀ t, t ∈ ts → node m (dispatch_node t)) → node_pool m (dispatch_node <$> ts).
Proof.
  intros [H1 H2] Hnd Hlen Hn. split_and!; [| | |by rewrite length_fmap].
  - clear Hlen Hn. induction Hnd as [|t ts Ht _ IH]; [done|]. cbn [fmap list_fmap apart]. split.
    + apply Forall_forall. intros p (t' & -> & Ht')%list_elem_of_fmap.
      destruct (H1 t) as [Hp _]; [by left|]. destruct (H1 t') as [Hp' _]; [by right|].
      rewrite !dispatch_node_eq by done. destruct (H2 t t'); [by left|by right|by intros ->|unfold sep; lia..].
    + apply IH; [intros x Hx; apply H1; by right|]. intros x y Hx Hy. apply H2; by right.
  - apply Forall_forall. intros p (t & -> & Ht)%list_elem_of_fmap. destruct (H1 t Ht) as [Hp _].
    rewrite dispatch_node_eq by done. unfold addr, pcb in *. lia.
  - apply Forall_forall. intros p (t & -> & Ht)%list_elem_of_fmap. by apply Hn.
Qed.

Lemma kinv_NoDup ts k rs : kinv ts k rs → NoDup ts.
Proof.
  intros Hk. destruct (k_pool _ _ _ Hk) as (Hap & _). apply apart_NoDup in Hap. by apply NoDup_fmap_1 in Hap.
Qed.

Lemma upd_node_mono (m m' : mem) p : (∀ a, is_Some (m !! a) → is_Some (m' !! a)) → node m p → node m' p.
Proof. intros H [? ?]. split; by apply H. Qed.

Lemma kinv_set_idle ts k rs t : kinv ts (set_idle k (current_task k)) rs → t ∈ ts →
  kinv ts (set_idle k t) rs.
Proof. intros [] Ht. by split. Qed.

(** A new thread [t], ready, at the end of the ready queue. *)
Lemma kinv_new total ts k rs t x m q : kinv ts k rs → pcbs_apart total (t :: ts) → t ∉ ts →
  Z.of_nat (length ts) + 1 < 4294967296 → status x = TASK_READY →
  (∀ a, is_Some (nodes k !! a) → is_Some (m !! a)) → node m (dispatch_node t) →
  queue_repr m q (dispatch_node <$> rs ++ [t]) →
  kinv (t :: ts) (KState m (<[t := x]> (tasks k)) q (current_task k) (idle_thread k) (intr_on k)) (rs ++ [t]).
Proof.
  intros Hk Hap Hnew Hlen Hx Hmono Hn Hq.
  pose proof (λ t' Ht', kinv_ready_ts Hk t' Ht') as Hrs.
  assert (t ∉ rs) as Hnr by (intros ?; by apply Hnew, Hrs).
  assert (∀ t', status_in (<[t := x]> (tasks k)) t' = if decide (t' = t) then Some TASK_READY else status_of k t') as Hst.
  { intros t'. unfold status_of, status_in. case_decide; [subst; by rewrite lookup_insert_eq; simpl; rewrite Hx|].
    by rewrite lookup_insert_ne. }
  split; unfold status_of; cbn [nodes tasks thread_ready_queue current_task idle_thread].
  - apply (node_pool_pcbs total); [done|constructor; [done|by apply (kinv_NoDup _ k rs)]|simpl; lia|].
    intros t' [->|Ht']%elem_of_cons; [done|]. destruct (k_pool _ _ _ Hk) as (_ & _ & Hnd & _).
    rewrite Forall_forall in Hnd. destruct (Hnd (dispatch_node t')) as [? ?]; [by apply list_elem_of_fmap_2|].
    split; by apply Hmono.
  - constructor; [|apply (k_pcb _ _ _ Hk)]. apply (proj1 Hap). by left.
  - intros t'. rewrite elem_of_cons, (k_dom _ _ _ Hk). destruct (decide (t' = t)) as [->|Hne].
    + rewrite lookup_insert_eq. split; [by eexists|by left].
    + rewrite lookup_insert_ne by done. naive_solver.
  - done.
  - apply NoDup_app. split_and!; [apply (k_nodup _ _ _ Hk)| |apply NoDup_singleton].
    intros t' Ht' ->%list_elem_of_singleton. done.
  - intros t'. rewrite Hst, elem_of_app, list_elem_of_singleton, (k_ready _ _ _ Hk).
    case_decide; [naive_solver|]. split; [by intros [?|?]|by left].
  - intros t'. rewrite Hst. case_decide; [done|]. apply (k_running _ _ _ Hk).
  - right. apply (k_current _ _ _ Hk).
  - right. apply (k_idle _ _ _ Hk).
  - intros t'. rewrite Hst. case_decide; [done|]. apply (k_alive _ _ _ Hk).
Qed.

(** ** [thread_start] *)

(** The PCB that [thread_start] leaves. *)
Definition started_pcb (w : world) (t : Z) (name : list Z) (prio : Z) : task_struct :=
  stack_down sizeof_thread_stack (stack_down sizeof_intr_stack (new_pcb w t name prio)).

(** What [thread_start] does: a thread in page [r], last in the ready queue. *)
Record started (w w' : world) (r : Z) (name : list Z) (prio kernel_func function func_argc : Z) : Prop := {
  st_pcb : tasks (kern w') = <[page_addr r := started_pcb w (page_addr r) name prio]> (tasks (kern w));
  st_frame : frame_at (nodes (kern w')) (stack_of r) kernel_func function func_argc;
  st_pid : next_pid w' = s16 (next_pid w + 1);
  st_page : page_got (w_pools w) (w_pools w') r 1;
  st_current : current_task (kern w') = current_task (kern w);
  st_idle : idle_thread (kern w') = idle_thread (kern w);
  st_intr : intr_on (kern w') = intr_on (kern w);
  st_main : main_thread w' = main_thread w
}.

(** What the creation of threads leaves alone below the heap: everything but the head of the
    list of all threads and the PCBs [ts]. *)
Record kept (total : Z) (ts : list Z) (w w' : world) : Prop := {
  kp_same a : a < KERNEL_HEAP_BASE → (a < total ∨ total + 8 ≤ a) →
    (∀ t, t ∈ ts → a < t ∨ t + 200 ≤ a) → nodes (kern w') !! a = nodes (kern w) !! a;
  kp_mono a : is_Some (nodes (kern w) !! a) → is_Some (nodes (kern w') !! a);
  kp_size : pool_size (kernel_pool (w_pools w')) = pool_size (kernel_pool (w_pools w));
  kp_total : kernel_total (w_pools w') = kernel_total (w_pools w);
  kp_user : user_pool_lock w' = user_pool_lock w;
  kp_intr : intr_on (kern w') = intr_on (kern w)
}.

Lemma kept_trans total ts ts' w w1 w2 : ts ⊆ ts' → kept total ts w w1 → kept total ts' w1 w2 →
  kept total ts' w w2.
Proof.
  intros Hts [S1 M1 P1 T1 U1 I1] [S2 M2 P2 T2 U2 I2]. split; [|by auto|by rewrite P2|by rewrite T2|by rewrite U2|by rewrite I2].
  intros a Ha Ht Hout. rewrite S2 by done. apply S1; auto.
Qed.

Section thread_start.
Context (fuel : nat) (total kernel_func : Z) (ts rs : list Z) (w : world) (r : Z).
Hypothesis Hok : threads_ok total ts w rs.
Hypothesis Hf : heap_fuel fuel.
Hypothesis Hlen : Z.of_nat (length ts) < 1073741824.
Hypothesis Hfree : first_free (w_pools w) r.
Hypothesis Hend : r + 199 < kernel_total (w_pools w).

(** The memory [m], after the new page and the frame were written. *)
Definition written (m : mem) : Prop :=
  (∀ a, (a < page_addr r ∨ page_addr (r + 1) ≤ a) → (a < stack_of r ∨ stack_of r + 32 ≤ a) →
     m !! a = nodes (kern w) !! a) ∧
  (∀ a, is_Some (nodes (kern w) !! a) → is_Some (m !! a)).

Lemma written_nodes p' m : page_got (w_pools w) p' r 1 → written m →
  queue_repr m (thread_ready_queue (kern w)) (dispatch_node <$> rs) ∧ ring m (total_nodes total ts) ∧
  node m (dispatch_node (page_addr r)) ∧ node m (list_node (page_addr r)).
Proof using Hok Hend.
  intros Hg [Hsame Hmono]. pose proof (to_sched _ _ _ _ Hok) as Hk.
  pose proof (new_pcbs_apart _ _ _ _ _ _ Hok Hg) as [Hpcb _].
  pose proof (new_range _ _ _ _ _ _ Hok Hg) as [Hr He].
  pose proof (to_total _ _ _ _ Hok) as [Ht0 Ht1]. unfold KERNEL_HEAP_BASE in Ht1.
  assert (∀ t a, t ∈ ts → t ≤ a < t + 200 → m !! a = nodes (kern w) !! a) as Hold.
  { intros t a Ht Ha. apply Hsame.
    - pose proof (new_apart _ _ _ _ _ _ Hok Hg t Ht). rewrite !page_addr_eq in *. lia.
    - pose proof (frame_apart _ _ _ _ _ _ Hok Hg t Hend (list_elem_of_further _ _ _ Ht)). lia. }
  split_and!.
  - eapply queue_repr_same; [|apply (k_queue _ _ _ Hk)].
    intros p (t & -> & Ht%(kinv_ready_ts Hk))%list_elem_of_fmap. rewrite dispatch_node_eq by (by apply (kinv_pcb Hk)).
    unfold prev_off, next_off. split; apply (Hold t); done || lia.
  - eapply ring_same; [|apply (to_list _ _ _ _ Hok)].
    intros p [->|(t & -> & Ht)%list_elem_of_fmap]%elem_of_cons; unfold prev_off, next_off.
    + unfold stack_of in Hsame. split; apply Hsame; rewrite !page_addr_eq; lia.
    + rewrite list_node_eq by (by apply (kinv_pcb Hk)). split; apply (Hold t); done || lia.
  - destruct (Hpcb (page_addr r)) as [Hp _]; [by left|]. rewrite dispatch_node_eq by done.
    split; apply Hmono; unfold prev_off, next_off; rewrite <- Z.add_assoc;
      [change (52 + 0) with (4 * 13)|change (52 + 4) with (4 * 14)]; apply (to_mapped _ _ _ _ Hok); lia.
  - destruct (Hpcb (page_addr r)) as [Hp _]; [by left|]. rewrite list_node_eq by done.
    split; apply Hmono; unfold prev_off, next_off; rewrite <- Z.add_assoc;
      [change (60 + 0) with (4 * 15)|change (60 + 4) with (4 * 16)]; apply (to_mapped _ _ _ _ Hok); lia.
Qed.

Lemma running_task_eq : ∃ t, running_task (kern w) = Ok t ∧ self t = current_task (kern w) ∧ (self t ≠ NULL).
Proof using Hok.
  pose proof (to_sched _ _ _ _ Hok) as Hk. pose proof (k_current _ _ _ Hk) as Hc. cbn in Hc.
  destruct (kinv_task Hk _ Hc) as [x Ex]. unfold running_task, get_task, get_cur_task. cbn in Ex.
  rewrite Ex. eexists. split; [done|]. cbn. split; [done|].
  destruct (kinv_pcb Hk _ Hc). unfold NULL. lia.
Qed.

Lemma thread_start_spec name prio function func_argc : (length name < 32)%nat →
  ∃ w', thread_start fuel total kernel_func w name prio function func_argc = Ok (w', page_addr r) ∧
    (page_addr r ∉ ts) ∧ threads_ok total (page_addr r :: ts) w' (rs ++ [page_addr r]) ∧
    started w w' r name prio kernel_func function func_argc ∧ kept total ts w w'.
Proof using Hok Hf Hlen Hfree Hend.
  intros Hname. pose proof (to_sched _ _ _ _ Hok) as Hk. pose proof (to_pools _ _ _ _ Hok) as Hp.
  destruct (first_free_alloc fuel _ r Hp Hf Hfree) as (p' & Hpa & Hg).
  pose proof (new_range _ _ _ _ _ _ Hok Hg) as [Hr He].
  pose proof (new_not_in _ _ _ _ _ _ Hok Hg) as Hnew.
  pose proof (new_pcbs_apart _ _ _ _ _ _ Hok Hg) as Hap.
  assert (pcb (page_addr r)) as Hpcb by (apply (proj1 Hap); by left).
  destruct running_task_eq as (t & Ert & Hself & Hnn).
  destruct (get_kernel_pages_spec fuel t (to_heap w) 1 p' r) as (m1 & Eg & Hz & Hs1 & Hm1);
    [done|apply (to_mapped _ _ _ _ Hok)|apply (to_lock _ _ _ _ Hok)|done|lia|done|done|].
  set (w1 := of_heap w (Heap p' m1 unlocked (user_pool_lock w) (intr_on (kern w)))).
  destruct (pcb_init_spec w1 (page_addr r) name prio) as (m2 & Ei & Hs2 & Hm2);
    [apply (to_pid_lock _ _ _ _ Hok)|unfold get_cur_task; cbn; by rewrite <- Hself|done| |done|].
  { intros j Hj. cbn. rewrite Hz by lia. by eexists. }
  set (x := new_pcb w1 (page_addr r) name prio) in *.
  set (k2 := set_tasks (set_nodes (kern w1) m2) (<[page_addr r := x]> (tasks (kern w1)))) in *.
  destruct (thread_creat_spec kernel_func k2 (page_addr r) x function func_argc (stack_of r))
    as (m3 & Ec & Hfr & Hs3 & Hm3).
  { apply lookup_insert_eq. }
  { apply stack_of_eq; [lia|rewrite page_addr_eq; lia|done]. }
  { intros j Hj. cbn. apply Hm2, Hm1. cbn.
    replace (stack_of r + 4 * j) with (page_addr (r + 199) + 4 * (916 + j)) by (unfold stack_of; lia).
    apply (to_mapped _ _ _ _ Hok); lia. }
  assert (written m3) as Hw.
  { split; [|intros a Ha; by apply Hm3, Hm2, Hm1]. intros a Ha Hb. rewrite Hs3 by intuition. cbn.
    rewrite Hs2; [by apply Hs1|]. rewrite !page_addr_eq in *. lia. }
  destruct (written_nodes p' m3 Hg Hw) as (Hq & Hl & Hn1 & Hn2).
  change (tasks k2) with (<[page_addr r := x]> (tasks (kern w))) in Ec. rewrite insert_insert_eq in Ec.
  set (k3 := set_tasks (set_nodes k2 m3) (<[page_addr r := started_pcb w (page_addr r) name prio]>
    (tasks (kern w)))).
  change (thread_creat kernel_func k2 (page_addr r) function func_argc = Ok k3) in Ec.
  assert (length rs ≤ length ts)%nat as Hrl.
  { apply (kinv_length rs); [apply (k_nodup _ _ _ Hk)|]. intros ? Hx. by apply (kinv_ready_ts Hk). }
  unfold heap_fuel in Hf.
  destruct (enlist_spec fuel total (page_addr r) ts rs Hap Hnew) with (k := k3)
    as (Efind & m & q & m' & Eq & El & Hq' & Hl' & Hm' & Hs'); [|done..|lia|lia|lia|].
  { intros ? Hx. by apply (kinv_ready_ts Hk). }
  eexists. split; [|split; [done|split; [|split]]].
  - unfold thread_start. rewrite Ert. cbn [obind]. change (PCB_SIZE / PAGE_SIZE) with 1.
    unfold get_kernel_pages in *. rewrite Eg. cbn [obind h_intr to_heap user_lock]. fold w1. rewrite Ei.
    cbn [obind kern set_next_pid set_kern]. fold k2. rewrite Ec. cbn [obind]. rewrite Efind.
    cbn [negb ASSERT obind]. rewrite Eq. cbn [obind]. rewrite El. cbn [obind]. reflexivity.
  - assert (∀ a, is_Some (nodes (kern w) !! a) → is_Some (m' !! a)) as Hmono
      by (intros a Ha; by apply Hm', (proj2 Hw)).
    pose proof (λ P, kinv_new total ts _ rs (page_addr r) (started_pcb w (page_addr r) name prio) m' q Hk Hap Hnew ltac:(lia) P Hmono) as Hkinv.
    destruct Hok as [_ _ Hplace Htotal _ _ Hmap Hmain Hlock Hpid]. split.
    + apply Hkinv; [|by apply (upd_node_mono _ _ _ Hm')|done].
      cbn. destruct (Z.eqb_spec (page_addr r) (main_thread w)) as [E|]; [|done]. by rewrite <- E in Hmain.
    + done.
    + constructor; [right; exists r|].
      * cbn. rewrite (pg_total _ _ _ _ Hg). split_and!; [lia|lia|done|].
        rewrite (pg_vm _ _ _ _ Hg), decide_True by lia. done.
      * eapply Forall_impl; [exact Hplace|]. intros t'. by apply place_mono with (r := r).
    + done.
    + done.
    + apply (pg_wf _ _ _ _ Hg).
    + cbn. rewrite (pg_total _ _ _ _ Hg). by apply (mapped_mono _ (nodes (kern w))).
    + by right.
    + done.
    + done.
  - split; try done. cbn.
    assert (∀ o, 0 ≤ o < 32 → m' !! (stack_of r + o) = m3 !! (stack_of r + o)) as Hkeep.
    { intros o Ho. apply Hs'.
      - intros t' Ht'. pose proof (frame_apart _ _ _ _ _ _ Hok Hg t' Hend Ht'). lia.
      - pose proof (to_total _ _ _ _ Hok). unfold KERNEL_HEAP_BASE, stack_of in *. rewrite page_addr_eq. lia. }
    unfold frame_at in *. rewrite !Hkeep by (unfold ebp_off, ebx_off, edi_off, esi_off, eip_off, function_off, func_argc_off; lia).
    done.
  - split; cbn; [|by intros a Ha; apply Hm', (proj2 Hw)|by apply (page_alloc_size fuel _ _ _ _ Hpa)|apply (pg_total _ _ _ _ Hg)|done|done].
    intros a Ha Htot Hout. unfold KERNEL_HEAP_BASE in Ha. rewrite Hs'; [|intros t' [->|Ht']%elem_of_cons|done].
    + apply (proj1 Hw); unfold stack_of; rewrite !page_addr_eq; lia.
    + left. rewrite page_addr_eq. lia.
    + by apply Hout.
Qed.
End thread_start.

(** ** [thread_init] *)

Definition main_pcb : Z := 0xc009e000.

(** The state before [thread_init]: there is no thread, and nobody holds the lock of the
    kernel pool. *)
Record boot_ok (total : Z) (w : world) : Prop := {
  bo_tasks : tasks (kern w) = ∅;
  bo_total : 0 < total ∧ total + 8 ≤ KERNEL_HEAP_BASE ∧ (total + 8 ≤ main_pcb ∨ main_pcb + 200 ≤ total);
  bo_node : node (nodes (kern w)) total;
  bo_main : words (nodes (kern w)) main_pcb 200;
  bo_pools : kernel_wf (w_pools w);
  bo_mapped : mapped (kernel_total (w_pools w)) (nodes (kern w));
  bo_lock : kernel_pool_lock w = unlocked
}.

(** The main thread on its own. *)
Lemma main_kinv total w m x : tasks (kern w) = ∅ → status x = TASK_RUNNING →
  pcbs_apart total [main_pcb] → node m (dispatch_node main_pcb) →
  kinv [main_pcb] (KState m {[main_pcb := x]} queue_init main_pcb main_pcb (intr_on (kern w))) [].
Proof.
  intros _ Hx Hap Hn.
  assert (∀ t, status_in {[main_pcb := x]} t = if decide (t = main_pcb) then Some TASK_RUNNING else None) as Hst.
  { intros t. unfold status_in. case_decide; [subst; by rewrite lookup_singleton_eq; simpl; rewrite Hx|].
    by rewrite lookup_singleton_ne. }
  split; unfold status_of; cbn [nodes tasks thread_ready_queue current_task idle_thread].
  - apply (node_pool_pcbs total); [done|apply NoDup_singleton|done|].
    by intros t ->%list_elem_of_singleton.
  - constructor; [|constructor]. apply (proj1 Hap). by left.
  - intros t. rewrite list_elem_of_singleton. destruct (decide (t = main_pcb)) as [->|Hne].
    + rewrite lookup_singleton_eq. split; [by eexists|done].
    + rewrite lookup_singleton_ne by done. split; [done|]. by intros [? ?].
  - by apply queue_repr_nil.
  - constructor.
  - intros t. rewrite Hst. split; [by intros ?%elem_of_nil|]. by case_decide.
  - intros t. rewrite Hst. by case_decide.
  - by left.
  - by left.
  - intros t. rewrite Hst. by case_decide.
Qed.

Lemma init_main_thread_spec fuel total w : boot_ok total w → pid_lock w = unlocked →
  get_cur_task (kern w) = main_pcb → thread_ready_queue (kern w) = queue_init →
  ring (nodes (kern w)) [total] → (1 < fuel)%nat →
  ∃ w', init_main_thread fuel total w = Ok w' ∧ threads_ok total [main_pcb] w' [] ∧
    tasks (kern w') = {[main_pcb := new_pcb (set_main w main_pcb) main_pcb main_name 1]} ∧
    next_pid w' = s16 (next_pid w + 1) ∧ main_thread w' = main_pcb ∧
    current_task (kern w') = main_pcb ∧ w_pools w' = w_pools w ∧ kept total [main_pcb] w w'.
Proof.
  intros [Htasks (Ht0 & Ht1 & Hapt) Hnode Hmain Hp Hmap Hlock] Hpid Hcur Hq Hring Hf.
  assert (pcb main_pcb) as Hpcb by done.
  assert (pcbs_apart total [main_pcb]) as Hap.
  { split; [intros t ->%list_elem_of_singleton; done|].
    by intros t t' ->%list_elem_of_singleton ->%list_elem_of_singleton. }
  destruct (pcb_init_spec (set_main w main_pcb) main_pcb main_name 1) as (m1 & Ei & Hs1 & Hm1);
    [done|by unfold set_main; cbn [kern]; rewrite Hcur|done|done|simpl; lia|].
  cbn [kern set_main] in *.
  assert (ring m1 [total]) as Hring1.
  { eapply ring_same; [|exact Hring]. intros p ->%list_elem_of_singleton. unfold prev_off, next_off.
    split; apply Hs1; lia. }
  assert (∀ o, 0 ≤ 4 * o < 200 → is_Some (m1 !! (main_pcb + 4 * o))) as Hw by (intros o Ho; by apply Hm1, Hmain).
  assert (node m1 (dispatch_node main_pcb)) as Hn1 by (split; [apply (Hw 13)|apply (Hw 14)]; lia).
  assert (node m1 (list_node main_pcb)) as Hn2 by (split; [apply (Hw 15)|apply (Hw 16)]; lia).
  destruct (total_insertable total main_pcb [] Hap) with (m := m1) as (_ & Ha2 & Hs2); [by apply not_elem_of_nil|done|].
  destruct (list_add_spec m1 total [] (list_node main_pcb)) as (m2 & El & Hr2 & Hu2); [done|by split_and!|].
  eexists. split; [|split].
  - unfold init_main_thread. rewrite Hcur. cbn [main_thread set_main]. rewrite Ei. cbn [obind].
    unfold add_to_total_list. cbn [kern set_next_pid set_kern nodes set_tasks set_nodes].
    rewrite (list_find_item_ring fuel m1 total []) by (done || simpl; lia).
    rewrite bool_decide_false by apply not_elem_of_nil. cbn [negb ASSERT obind].
    match goal with |- context [list_add ?m _ ?n] =>
      change (list_add m total n) with (list_add m1 total (list_node main_pcb)) end. rewrite El. cbn [obind].
    rewrite Htasks. reflexivity.
  - split; cbn; try done.
    + unfold get_cur_task in Hcur. unfold set_idle. cbn. rewrite Hq, Hcur.
      apply (main_kinv total w); [done|done|done|]. by apply (upd_nodes_node m1 m2 _ _ Hu2).
    + constructor; [by left|constructor].
    + apply (mapped_mono _ (nodes (kern w))); [done|]. intros a Ha. by apply (proj1 Hu2), Hm1.
    + by left.
  - split_and!; try done. split; cbn; try done.
    + intros a Ha Htot Hout. destruct (Hout main_pcb) as [Hlo|Hhi]; [by left| |];
        (rewrite (proj2 Hu2); [apply Hs1; tauto|]); intros p Hp'; unfold prev_off, next_off;
        rewrite !elem_of_cons, elem_of_nil in Hp'; rewrite ?list_node_eq in Hp' by done;
        destruct Hp' as [->|[->|[]]]; lia.
    + intros a Ha. by apply (proj1 Hu2), Hm1.
Qed.

(** A step of the scheduler: the ready queue changes, and with it the dispatch nodes of the threads. *)
Lemma threads_moved total ts w rs k rs' : threads_ok total ts w rs →
  kinv ts (set_idle k (current_task k)) rs' →
  upd_nodes (nodes (kern w)) (nodes k) (dispatch_node <$> ts) → intr_on k = intr_on (kern w) →
  threads_ok total ts (set_kern w k) rs' ∧ kept total ts w (set_kern w k).
Proof.
  intros [Hsched Hap Hpl Htot Hring Hwf Hmap Hmain Hl Hpl'] Hk Hu Hon. split; split; try done; cbn.
  - destruct ts as [|t ts]; [by apply elem_of_nil in Hmain|]. eapply (ring_frame _ _ _ _ Hu); [|exact Hring].
    by apply (list_disjoint total t ts Hap).
  - by apply (mapped_mono _ (nodes (kern w))); [|apply Hu].
  - intros a _ _ Hout. apply (proj2 Hu). intros p (t & -> & Ht)%list_elem_of_fmap.
    rewrite dispatch_node_eq by (by apply (proj1 Hap)). unfold prev_off, next_off. specialize (Hout t Ht). lia.
  - apply Hu.
Qed.

(** The machine of [Sync] for the main thread, which runs, and the idle thread. *)
Lemma initial_two idle k ls rs : kinv [idle; main_pcb] k rs → running k → current_task k = main_pcb → idle ≠ main_pcb →
  (∀ l L, ls !! l = Some L → L = lock_init) →
  initial [idle; main_pcb] (Sys k ls {[ main_pcb := Ctx Client None; idle := Ctx Client (Some true) ]}).
Proof.
  intros Hk Hr Hc Hne Hls. split_and!; [by exists rs|done| | |done].
  - intros t. cbn. rewrite !elem_of_cons, elem_of_nil. destruct (decide (t = main_pcb)) as [->|Hm].
    { rewrite lookup_insert_eq. split; [by eexists|tauto]. }
    rewrite lookup_insert_ne by done. destruct (decide (t = idle)) as [->|Hi].
    { rewrite lookup_singleton_eq. split; [by eexists|tauto]. }
    rewrite lookup_singleton_ne by done. split; [tauto|by intros [? ?]].
  - intros t c. cbn. unfold cur. cbn. rewrite Hc. destruct (decide (t = main_pcb)) as [->|Hm].
    { rewrite lookup_insert_eq. by intros [= <-]. }
    rewrite lookup_insert_ne by done. destruct (decide (t = idle)) as [->|Hi].
    { rewrite lookup_singleton_eq. by intros [= <-]. }
    by rewrite lookup_singleton_ne by done.
Qed.

Lemma thread_init_spec fuel total kernel_func cpu_idle w r :
  boot_ok total w → next_pid w = 0 → heap_fuel fuel → first_free (w_pools w) r →
  r + 199 < kernel_total (w_pools w) →
  let idle := page_addr r in
  ∃ w', thread_init fuel total kernel_func cpu_idle w = Ok w' ∧
    threads_ok total [idle; main_pcb] w' [idle] ∧
    idle_thread (kern w') = idle ∧ current_task (kern w') = main_pcb ∧
    pid <$> tasks (kern w') !! main_pcb = Some 1 ∧ pid <$> tasks (kern w') !! idle = Some 2 ∧
    (∀ ls, (∀ l L, ls !! l = Some L → L = lock_init) →
      initial [idle; main_pcb]
        (Sys (kern w') ls {[ main_pcb := Ctx Client None; idle := Ctx Client (Some true) ]})) ∧
    kept total [main_pcb] w w' ∧ page_got (w_pools w) (w_pools w') r 1 ∧ next_pid w' = 2 ∧
    (∀ t x, tasks (kern w') !! t = Some x → stack_boundary x = 0x20130901).
Proof.
  intros [Htasks Htot Hnode Hmain Hp Hmap Hlock] Hpid Hf Hfree Hend idle.
  destruct (list_init_spec (nodes (kern w)) total) as (m0 & E0 & Hr0 & Hu0); [done|apply Htot|].
  set (w0 := set_pid_lock (set_kern w (set_current (set_ready (kern w) (m0, queue_init)) main_pcb)) unlocked).
  pose proof (proj1 Hu0) as Hmono.
  destruct (init_main_thread_spec fuel total w0) as (w1 & E1 & Hok1 & Ht1 & Hpid1 & Hm1 & Hc1 & Hp1 & Hk1).
  { split; try done; [by apply (upd_nodes_node _ _ _ _ Hu0)|by intros j Hj; apply Hmono, Hmain|].
    by apply (mapped_mono _ (nodes (kern w))). }
  { done. } { done. } { done. } { done. } { unfold heap_fuel in Hf. lia. }
  destruct (thread_start_spec fuel total kernel_func [main_pcb] [] w1 r) with
    (name := cpu_idle_name) (prio := 1) (function := cpu_idle) (func_argc := NULL)
    as (w2 & E2 & Hnew & Hok2 & Hst & Hk2); [done|done|done|by rewrite Hp1|by rewrite Hp1|simpl; lia|].
  destruct Hst as [Hpcb _ Hpid2 Hg2 Hc2 _ _ _]. rewrite Hp1 in Hg2. fold idle in Hnew, Hok2, Hpcb, E2.
  assert (idle ≠ main_pcb) as Hne by (intros E; apply Hnew; rewrite E; by left).
  exists (set_kern w2 (set_idle (kern w2) idle)).
  assert (tasks (kern w2) !! main_pcb = Some (new_pcb (set_main w0 main_pcb) main_pcb main_name 1)) as Em
    by (rewrite Hpcb, Ht1, lookup_insert_ne by done; apply lookup_singleton_eq).
  split_and!.
  - unfold thread_init. rewrite E0. cbn [obind]. fold w0. change 0xc009e000 with main_pcb. fold w0.
    rewrite E1. cbn [obind]. rewrite E2. done.
  - by destruct Hok2.
  - done.
  - cbn. by rewrite Hc2, Hc1.
  - cbn. rewrite Em. cbn. by rewrite Hpid.
  - cbn. rewrite Hpcb, lookup_insert_eq. cbn. rewrite Hpid1. cbn. by rewrite Hpid.
  - intros ls Hls. apply (initial_two idle _ _ [idle]); [|unfold running, status_of, status_in|..|done|done]; cbn.
    + apply (kinv_set_idle _ _ _ _ (to_sched _ _ _ _ Hok2)). by left.
    + by rewrite Hc2, Hc1, Em.
    + by rewrite Hc2, Hc1.
  - eapply kept_trans; [reflexivity| |].
    2: { destruct (kept_trans _ _ _ _ _ _ ltac:(reflexivity) Hk1 Hk2) as [S M P T U I]. by split. }
    split; cbn; try done. intros a _ Ha _. apply (proj2 Hu0). intros p ->%list_elem_of_singleton.
    unfold prev_off, next_off. lia.
  - done.
  - cbn. rewrite Hpid2, Hpid1. cbn. by rewrite Hpid.
  - intros t x. cbn. rewrite Hpcb, Ht1, lookup_insert_Some, lookup_singleton_Some. by intros [[_ <-]|[_ [_ <-]]].
Qed.

(** * Properties *)

(** C12. [thread_init] ends in the state that the theorems about scheduling and locks
    start from: the main thread runs with pid 1, the idle thread, in the first free
    page and with pid 2, is the only ready thread, both are in the list of all threads,
    and every [initial] condition of the machine of [Sync] holds, whatever locks there are. *)
Theorem thread_init_initial fuel total kernel_func cpu_idle w r :
  boot_ok total w → next_pid w = 0 → heap_fuel fuel → first_free (w_pools w) r →
  r + 199 < kernel_total (w_pools w) →
  let idle := page_addr r in
  ∃ w', thread_init fuel total kernel_func cpu_idle w = Ok w' ∧
    threads_ok total [idle; main_pcb] w' [idle] ∧
    idle_thread (kern w') = idle ∧ current_task (kern w') = main_pcb ∧
    pid <$> tasks (kern w') !! main_pcb = Some 1 ∧ pid <$> tasks (kern w') !! idle = Some 2 ∧
    ∀ ls, (∀ l L, ls !! l = Some L → L = lock_init) →
      initial [idle; main_pcb]
        (Sys (kern w') ls {[ main_pcb := Ctx Client None; idle := Ctx Client (Some true) ]}).
Proof.
  intros Hw Hpid Hf Hfree Hend idle.
  destruct (thread_init_spec fuel total kernel_func cpu_idle w r Hw Hpid Hf Hfree Hend)
    as (w' & ? & ? & ? & ? & ? & ? & ? & _). by exists w'.
Qed.

(** [thread_start] makes a thread in the first free page: its PCB, its
    place at the end of the ready queue and at the front of the list of all threads, the
    next pid, and the frame from which [switch_to] starts it in [kernel_func]; the other
    threads, and the running one, are as they were.  But the frame is in the page 199 pages
    further on, whatever that page is used for: it is still as free as it was. *)
Theorem thread_start_ready fuel total kernel_func w ts rs r name prio function func_argc :
  threads_ok total ts w rs → heap_fuel fuel → Z.of_nat (length ts) < 1073741824 →
  first_free (w_pools w) r → r + 199 < kernel_total (w_pools w) → (length name < 32)%nat →
  let t := page_addr r in
  ∃ w' x, thread_start fuel total kernel_func w name prio function func_argc = Ok (w', t) ∧
    (t ∉ ts) ∧ threads_ok total (t :: ts) w' (rs ++ [t]) ∧
    tasks (kern w') = <[t := x]> (tasks (kern w)) ∧
    status x = TASK_READY ∧ Thread.name x = name ∧ pid x = s16 (next_pid w + 1) ∧
    priority x = u16 prio ∧ ticks x = u8 prio ∧
    self_kernel_stack x = page_addr (r + 199) + 3664 ∧
    frame_at (nodes (kern w')) (self_kernel_stack x) kernel_func function func_argc ∧
    vm_page (w_pools w') (r + 199) = vm_page (w_pools w) (r + 199) ∧
    current_task (kern w') = current_task (kern w) ∧ intr_on (kern w') = intr_on (kern w).
Proof.
  intros Hok Hf Hlen Hfree Hend Hname t.
  destruct (thread_start_spec fuel total kernel_func ts rs w r Hok Hf Hlen Hfree Hend name prio
    function func_argc Hname) as (w' & E & Hnew & Hok' & [Hx Hfr Hpid Hg Hc Hi Hb Hm] & _).
  exists w', (started_pcb w t name prio).
  pose proof (new_range _ _ _ _ _ _ Hok Hg) as [Hr He].
  assert (self_kernel_stack (started_pcb w t name prio) = stack_of r) as Estack.
  { apply (stack_of_eq r (new_pcb w t name prio)); [lia|rewrite page_addr_eq; lia|done]. }
  rewrite Estack. split_and!; try done.
  - cbn. destruct (Z.eqb_spec t (main_thread w)) as [Em|]; [|done].
    pose proof (to_main _ _ _ _ Hok) as Hmain. rewrite <- Em in Hmain. done.
  - rewrite (pg_vm _ _ _ _ Hg), decide_False by lia. done.
Qed.

(** Without a free page [thread_start] stops the machine: it does not look at
    the NULL it got, and the [memset] of [pcb_init] asserts that it is not. *)
Theorem thread_start_no_page fuel total kernel_func w ts rs name prio function func_argc :
  threads_ok total ts w rs → 0 < kernel_total (w_pools w) →
  (∀ j, 0 ≤ j < kernel_total (w_pools w) → vm_page (w_pools w) j = true) →
  thread_start fuel total kernel_func w name prio function func_argc = Panic.
Proof.
  intros Hok Htot Hfull. destruct (running_task_eq total ts rs w Hok) as (t & Ert & _ & Hself).
  unfold thread_start. rewrite Ert. cbn [obind]. unfold get_kernel_pages, get_pages.
  rewrite lock_acquire_unlocked by (done || apply (to_lock _ _ _ _ Hok)). cbn [obind set_lock h_pools to_heap].
  rewrite page_alloc_full by (done || apply (to_pools _ _ _ _ Hok)). cbn [obind].
  change (NULL =? NULL) with true. cbn [negb obind]. by rewrite (lock_release_taken t).
Qed.

(** [n] calls of [alloc_pid] by the running thread. *)
Fixpoint alloc_pids (n : nat) (w : world) : outcome (world * list Z) :=
  match n with
  | O => Ok (w, [])
  | S n =>
      let! (w, pid) := alloc_pid w in
      let! (w, pids) := alloc_pids n w in
      Ok (w, pid :: pids)
  end.

Lemma alloc_pids_eq n w : pid_lock w = unlocked → get_cur_task (kern w) ≠ NULL → 0 ≤ next_pid w →
  next_pid w + Z.of_nat n ≤ 32767 →
  alloc_pids n w = Ok (set_next_pid w (next_pid w + Z.of_nat n), seqZ (next_pid w + 1) (Z.of_nat n)).
Proof.
  revert w. induction n as [|n IH]; intros w Hl Hc H0 Hn; cbn [alloc_pids].
  { rewrite Z.add_0_r. by destruct w. }
  rewrite alloc_pid_eq by done. cbn [obind].
  assert (s16 (next_pid w + 1) = next_pid w + 1) as -> by (unfold s16; rewrite Z.mod_small; lia).
  rewrite IH by (done || cbn; lia). cbn [obind next_pid set_next_pid].
  rewrite (seqZ_cons (next_pid w + 1)) by lia.
  rewrite Nat2Z.inj_succ. f_equal. f_equal; [|f_equal; f_equal; lia].
  unfold set_next_pid. cbn. f_equal. lia.
Qed.

(** Calls of [alloc_pid] by several threads: the part up to [lock_release], and the
    [return], which reads [next_pid] again. *)
Inductive pid_event := PidIncrement (t : Z) | PidReturn (t : Z).
Fixpoint pid_run (es : list pid_event) (w : world) (got : gmap Z Z) : outcome (world * gmap Z Z) :=
  match es with
  | [] => Ok (w, got)
  | PidIncrement t :: es => let! w := pid_increment w t in pid_run es w got
  | PidReturn t :: es => pid_run es w (<[t := next_pid w]> got)
  end.

Lemma pid_increment_eq w t : pid_lock w = unlocked → t ≠ NULL →
  pid_increment w t = Ok (set_next_pid w (s16 (next_pid w + 1))).
Proof.
  intros Hl Ht. unfold pid_increment. rewrite Hl, mutex_acquire_unlocked by done.
  cbn [obind pid_lock set_next_pid set_pid_lock]. rewrite mutex_release_locked. cbn [obind].
  unfold set_pid_lock, set_next_pid. cbn. by rewrite <- Hl.
Qed.

(** Calls of [alloc_pid] one after the other give successive pids, so that they
    differ, up to 32767; but [next_pid] is read after the lock was released, so when two
    calls overlap both threads can get the same pid, although each took the lock. *)
Theorem alloc_pid_race n w a b :
  pid_lock w = unlocked → get_cur_task (kern w) ≠ NULL → 0 ≤ next_pid w →
  next_pid w + Z.of_nat n ≤ 32767 → a ≠ NULL → b ≠ NULL → a ≠ b →
  (∃ w' pids, alloc_pids n w = Ok (w', pids) ∧ length pids = n ∧ NoDup (next_pid w :: pids)) ∧
  ∃ w' got p, pid_run [PidIncrement a; PidIncrement b; PidReturn a; PidReturn b] w ∅ = Ok (w', got) ∧
    got !! a = Some p ∧ got !! b = Some p.
Proof.
  intros Hl Hc H0 Hn Ha Hb Hab. split.
  - rewrite alloc_pids_eq by done. do 2 eexists. split; [done|].
    split; [by rewrite length_seqZ, Nat2Z.id|]. constructor; [rewrite elem_of_seqZ; lia|apply NoDup_seqZ].
  - cbn [pid_run]. rewrite pid_increment_eq by done. cbn [obind]. rewrite pid_increment_eq by done.
    cbn [obind]. do 3 eexists. split; [done|]. rewrite lookup_insert_eq, lookup_insert_ne by done.
    by rewrite lookup_insert_eq.
Qed.

(** * The hypotheses can be met *)

(** A machine with 256 kernel pages, all free, whose memory has the pages, the PCB of the
    main thread and the head of the list of all threads. *)
Definition demo_total : Z := 0xc0020000.
Definition demo_boot_pools : pools :=
  Pools (PhysPool MEM_BITMAP_BASE (Bitmap 32 (Some (replicate 32 0))) 0x1000000 0x100000)
        (PhysPool (MEM_BITMAP_BASE + 32) (Bitmap 1 (Some [0])) 0x1100000 0x8000)
        (VmPool KERNEL_VM_BITMAP_BASE (Bitmap 32 (Some (replicate 32 0))) KERNEL_HEAP_BASE)
        (VmPool 0 (Bitmap 0 None) 0).

Definition demo_boot_spans : list (Z * Z) := [(demo_total, 2); (main_pcb, 50); (page_addr 0, 262144)].
Definition demo_boot_mem : mem := proj1_sig (words_mem demo_boot_spans).

Definition demo_boot (p : pools) : world :=
  World (KState demo_boot_mem ∅ queue_init main_pcb 0 false) p unlocked unlocked unlocked 0 0.

Lemma demo_boot_word p n j : (p, n) ∈ demo_boot_spans → 0 ≤ j < n →
  is_Some (demo_boot_mem !! (p + 4 * j)).
Proof. apply (proj2_sig (words_mem _)). Qed.

Lemma demo_boot_ok p : kernel_wf p → kernel_total p = 256 → boot_ok demo_total (demo_boot p).
Proof.
  intros Hp Ht. assert (∀ p n, (p, n) ∈ demo_boot_spans ↔
    (p, n) = (demo_total, 2) ∨ (p, n) = (main_pcb, 50) ∨ (p, n) = (page_addr 0, 262144)) as Hspan.
  { intros q n. unfold demo_boot_spans. rewrite !elem_of_cons, elem_of_nil. tauto. }
  split; cbn [kern demo_boot tasks nodes w_pools kernel_pool_lock]; try done.
  - unfold demo_total, main_pcb, KERNEL_HEAP_BASE. lia.
  - split; [apply (demo_boot_word _ 2 0)|apply (demo_boot_word _ 2 1)]; (lia || (apply Hspan; auto)).
  - intros j Hj. apply (demo_boot_word _ 50); [|lia]. apply Hspan; auto.
  - intros r j Hr Hj. rewrite Ht in Hr.
    replace (page_addr r + 4 * j) with (page_addr 0 + 4 * (1024 * r + j)) by (rewrite !page_addr_eq; lia).
    apply (demo_boot_word _ 262144); [|lia]. apply Hspan; auto.
Qed.

Lemma demo_boot_pools_wf : kernel_wf demo_boot_pools.
Proof. split; apply (bool_decide_unpack _); by vm_compute. Qed.

Lemma demo_first_free : first_free demo_boot_pools 0.
Proof. split; [apply (bool_decide_unpack _); by vm_compute|]. intros r Hr [? _]. lia. Qed.

(** The main thread on its own, with the pools [p]. *)
Lemma demo_main p : kernel_wf p → kernel_total p = 256 →
  ∃ w, threads_ok demo_total [main_pcb] w [] ∧ w_pools w = p.
Proof.
  intros Hp Ht. pose proof (demo_boot_ok p Hp Ht) as [H1 H2 H3 H4 H5 H6 H7].
  destruct (list_init_spec demo_boot_mem demo_total) as (m & E & Hr & Hu); [exact H3|apply H2|].
  pose proof (proj1 Hu) as Hmono.
  destruct (init_main_thread_spec 2 demo_total (set_kern (demo_boot p) (set_nodes (kern (demo_boot p)) m)))
    as (w & _ & Hok & _ & _ & _ & _ & Hpools & _).
  { split; [exact H1|exact H2|by apply (upd_nodes_node _ _ _ _ Hu)|intros j Hj; apply Hmono, (H4 j Hj)
      |exact H5|by apply (mapped_mono _ demo_boot_mem)|exact H7]. }
  { reflexivity. } { reflexivity. } { reflexivity. } { exact Hr. } { lia. }
  by exists w.
Qed.

(** All pages in use. *)
Definition demo_boot_full : pools :=
  Pools (PhysPool MEM_BITMAP_BASE (Bitmap 32 (Some (replicate 32 255))) 0x1000000 0x100000)
        (user_pool demo_boot_pools)
        (VmPool KERNEL_VM_BITMAP_BASE (Bitmap 32 (Some (replicate 32 255))) KERNEL_HEAP_BASE)
        (userprog_vaddr demo_boot_pools).

Lemma thread_init_initial_witness : ∃ w',
  thread_init demo_fuel demo_total 0xc0001000 0xc0002000 (demo_boot demo_boot_pools) = Ok w' ∧
  pid <$> tasks (kern w') !! page_addr 0 = Some 2.
Proof.
  destruct (thread_init_initial demo_fuel demo_total 0xc0001000 0xc0002000 (demo_boot demo_boot_pools) 0)
    as (w' & E & _ & _ & _ & _ & Hpid & _);
    [apply demo_boot_ok; [apply demo_boot_pools_wf|by vm_compute]|reflexivity|apply demo_heap_fuel|apply demo_first_free
    |by vm_compute|].
  exists w'. split; [exact E|exact Hpid].
Defined.

Lemma thread_start_ready_witness : ∃ w w' x,
  thread_start demo_fuel demo_total 0xc0001000 w main_name 31 0xc0003000 5 = Ok (w', page_addr 0) ∧
  tasks (kern w') !! page_addr 0 = Some x ∧ self_kernel_stack x = page_addr 199 + 3664.
Proof.
  destruct (demo_main demo_boot_pools demo_boot_pools_wf ltac:(by vm_compute)) as (w & Hok & Hp).
  destruct (thread_start_ready demo_fuel demo_total 0xc0001000 w [main_pcb] [] 0 main_name 31 0xc0003000 5)
    as (w' & x & E & _ & _ & Hx & _ & _ & _ & _ & _ & Hs & _);
    [exact Hok|apply demo_heap_fuel|by vm_compute|rewrite Hp; apply demo_first_free|rewrite Hp; by vm_compute
    |simpl; lia|].
  exists w, w', x. split; [exact E|]. rewrite Hx, lookup_insert_eq. split; [reflexivity|exact Hs].
Defined.

Lemma thread_start_no_page_witness : ∃ w,
  thread_start demo_fuel demo_total 0xc0001000 w main_name 31 0xc0003000 5 = Panic.
Proof.
  destruct (demo_main demo_boot_full) as (w & Hok & Hp);
    [split; apply (bool_decide_unpack _); by vm_compute|reflexivity|].
  exists w. apply (thread_start_no_page demo_fuel demo_total 0xc0001000 w [main_pcb] []); [exact Hok| |].
  - rewrite Hp. by vm_compute.
  - rewrite Hp. intros j Hj. change (kernel_total demo_boot_full) with 256 in Hj.
    assert (Forall (λ j, vm_page demo_boot_full j = true) (seqZ 0 256)) as Hall
      by (apply (bool_decide_unpack _); by vm_compute).
    rewrite Forall_forall in Hall. apply Hall. by apply elem_of_seqZ.
Defined.

Lemma alloc_pid_race_witness : ∃ w' got p,
  pid_run [PidIncrement 4096; PidIncrement 8192; PidReturn 4096; PidReturn 8192]
    (demo_boot demo_boot_pools) ∅ = Ok (w', got) ∧ got !! 4096 = Some p ∧ got !! 8192 = Some p.
Proof.
  by destruct (alloc_pid_race 3 (demo_boot demo_boot_pools) 4096 8192) as [_ H].
Defined.
