(* ===== verification/Ide.v ===== *)
(** The disk driver (device/ide.c): the programming of an ATA channel, reading and
    writing of sectors.  The disk is a parameter: what the driver does with its
    ports, and the documented behaviour its theorems rely on, are two interfaces. *)
From S2P Require Import Prelude Mutex.
Local Open Scope Z_scope.

(** * The disk *)

(** What the code can do with the hardware: [outb], [inb], [insw] and [outsw] of
    include/asm/io.h, let ten milliseconds go by, and wait for an interrupt
    ([None]: it never comes). *)
Class AtaBus (D : Type) := {
  outb : D → Z → Z → D;
  inb : D → Z → D * Z;
  insw : D → Z → nat → D * list Z;
  outsw : D → Z → list Z → D;
  ten_ms : D → D;
  await : D → Z → option D
}.

(** * Data *)

(** The ports of a channel, relative to [port_base]. *)
Definition reg_data (port_base : Z) : Z := port_base + 0.
Definition reg_sect_cnt (port_base : Z) : Z := port_base + 2.
Definition reg_lba_l (port_base : Z) : Z := port_base + 3.
Definition reg_lba_m (port_base : Z) : Z := port_base + 4.
Definition reg_lba_h (port_base : Z) : Z := port_base + 5.
Definition reg_dev (port_base : Z) : Z := port_base + 6.
Definition reg_status (port_base : Z) : Z := port_base + 7.
Definition reg_cmd (port_base : Z) : Z := reg_status port_base.

Definition BIT_ALT_STATUS_BSY : Z := 0x80.
Definition BIT_ALT_STATUS_DRQ : Z := 0x08.
Definition BIT_DEV_MBS : Z := 0xa0.
Definition BIT_DEV_LBA : Z := 0x40.
Definition BIT_DEV_DEV : Z := 0x10.
Definition CMD_IDENTIFY : Z := 0xec.
Definition CMD_READ_SECTOR : Z := 0x20.
Definition CMD_WRITE_SECTOR : Z := 0x10.

Definition SECTOR_TO_BYTES (sec_cnt : Z) : Z := if sec_cnt =? 0 then 256 * 512 else sec_cnt * 512.

(** [struct ide_channel], without the name and the disks. *)
Record ide_channel := Channel {
  port_base : Z;
  irq_no : Z;
  ch_lock : mutex;
  wait_intr : bool;
  disk_ok : Z
}.

(** The number of the channel and [dev_no]: what the driver reads of [struct disk]. *)
Record drive := Drive { channel_no : nat; dev_no : Z }.

Section driver.
Context {D : Type} `{AtaBus D}.

(** The hardware and [g_channels]. *)
Record driver := Driver { hw : D; g_channels : list ide_channel }.

Definition get_channel (s : driver) (n : nat) : outcome ide_channel :=
  match g_channels s !! n with Some c => Ok c | None => Fault end.
Definition set_channel (s : driver) (n : nat) (c : ide_channel) : driver :=
  Driver (hw s) (<[n := c]> (g_channels s)).
Definition set_hw (s : driver) (d : D) : driver := Driver d (g_channels s).

(** * Operations *)

Definition out (s : driver) (port value : Z) : driver := set_hw s (outb (hw s) port (u8 value)).
Definition inp (s : driver) (port : Z) : driver * Z :=
  let (d, v) := inb (hw s) port in (set_hw s d, v).

Definition disk_select_hd (s : driver) (hd : drive) : outcome driver :=
  let! c := get_channel s (channel_no hd) in
  let reg_device := Z.lor BIT_DEV_MBS BIT_DEV_LBA in
  let reg_device := if dev_no hd =? 1 then Z.lor reg_device BIT_DEV_DEV else reg_device in
  Ok (out s (reg_dev (port_base c)) reg_device).

Definition disk_select_sector (s : driver) (hd : drive) (lba_base sec_cnt : Z) : outcome driver :=
  let! c := get_channel s (channel_no hd) in
  let base := port_base c in
  let s := out s (reg_sect_cnt base) sec_cnt in
  let s := out s (reg_lba_l base) (Z.shiftr lba_base 0) in
  let s := out s (reg_lba_m base) (Z.shiftr lba_base 8) in
  let s := out s (reg_lba_h base) (Z.shiftr lba_base 16) in
  let (s, device_data) := inp s (reg_dev base) in
  Ok (out s (reg_dev base) (Z.lor device_data (Z.shiftr lba_base 24))).

Definition channel_control_cmd (s : driver) (n : nat) (cmd : Z) : outcome driver :=
  let! c := get_channel s n in
  let s := set_channel s n (Channel (port_base c) (irq_no c) (ch_lock c) true (disk_ok c)) in
  Ok (out s (reg_cmd (port_base c)) cmd).

(** The bytes of 16-bit words, low byte first, and back. *)
Definition word_bytes (ws : list Z) : list Z := ws ≫= λ w, [w mod 256; w / 256 mod 256].
Fixpoint bytes_words (bs : list Z) : list Z :=
  match bs with a :: b :: bs => (a + 256 * b) :: bytes_words bs | _ => [] end.

(** Storing [bs] at [off] of the array [buf], or taking [n] bytes from there. *)
Definition buf_write (buf : list Z) (off : nat) (bs : list Z) : outcome (list Z) :=
  if (off + length bs <=? length buf)%nat
  then Ok (take off buf ++ bs ++ drop (off + length bs) buf) else Fault.
Definition buf_read (buf : list Z) (off n : nat) : outcome (list Z) :=
  if (off + n <=? length buf)%nat then Ok (take n (drop off buf)) else Fault.

(** The sectors go to [off] of the array [buf], or come from there. *)
Definition disk_sector_to_buf (s : driver) (hd : drive) (sec_cnt : Z) (buf : list Z) (off : nat)
    : outcome (driver * list Z) :=
  let! c := get_channel s (channel_no hd) in
  let buf_bytes := if sec_cnt =? 0 then 256 * 512 else sec_cnt * 512 in
  let (d, ws) := insw (hw s) (reg_data (port_base c)) (Z.to_nat (buf_bytes / 2)) in
  let! buf := buf_write buf off (word_bytes ws) in
  Ok (set_hw s d, buf).

Definition disk_buf_to_sector (s : driver) (hd : drive) (sec_cnt : Z) (buf : list Z) (off : nat)
    : outcome driver :=
  let! c := get_channel s (channel_no hd) in
  let buf_bytes := SECTOR_TO_BYTES sec_cnt in
  let! bs := buf_read buf off (Z.to_nat (2 * (buf_bytes / 2))) in
  Ok (set_hw s (outsw (hw s) (reg_data (port_base c)) (bytes_words bs))).

(** [busy_wait]; [mil_sleep(10)] lets the disk go on. *)
Fixpoint busy_wait_loop (fuel : nat) (s : driver) (base time_limit : Z) : outcome (driver * bool) :=
  match fuel with
  | O => NoFuel
  | S fuel =>
      let time_limit := u16 (time_limit - 10) in
      if 0 <? time_limit then
        let (s, status) := inp s (reg_status base) in
        if Z.land status BIT_ALT_STATUS_BSY =? 0 then
          let (s, status) := inp s (reg_status base) in
          Ok (s, negb (Z.land status BIT_ALT_STATUS_DRQ =? 0))
        else busy_wait_loop fuel (set_hw s (ten_ms (hw s))) base time_limit
      else Ok (s, false)
  end.

Definition busy_wait_fuel : nat := S 2999.
Definition busy_wait (s : driver) (hd : drive) : outcome (driver * bool) :=
  let! c := get_channel s (channel_no hd) in
  busy_wait_loop busy_wait_fuel s (port_base c) 30000.

Definition hard_disk_service (s : driver) (irq : Z) : outcome driver :=
  ASSERT ((irq =? 0x2e) || (irq =? 0x2f)) ;!
  let ch_no := Z.to_nat (u8 (irq - 0x2e)) in
  let! c := get_channel s ch_no in
  ASSERT (irq_no c =? irq) ;!
  if wait_intr c then
    let! v := sema_up (disk_ok c) in
    let s := set_channel s ch_no (Channel (port_base c) (irq_no c) (ch_lock c) false v) in
    let (s, _) := inp s (reg_status (port_base c)) in
    Ok s
  else Ok s.

(** [sema_down(&_channel->disk_ok)], as the disk and the value of the semaphore show it: while it is 0 the thread
    sleeps and interrupts of the channel are served; [n] bounds their number.  The scheduler, the idle thread and the
    waiting queue are in [Wait], where [await] lets them run until the thread goes on. *)
Fixpoint wait_disk (n : nat) (s : driver) (ch : nat) : outcome driver :=
  let! c := get_channel s ch in
  if disk_ok c =? 0 then
    match n with
    | O => NoFuel
    | S n =>
        match await (hw s) (irq_no c) with
        | None => NoFuel
        | Some d => let! s := hard_disk_service (set_hw s d) (irq_no c) in wait_disk n s ch
        end
    end
  else
    let! v := sema_down (disk_ok c) in
    Ok (set_channel s ch (Channel (port_base c) (irq_no c) (ch_lock c) (wait_intr c) v)).

(** Fuel of [wait_disk]: one interrupt for each command. *)
Definition wait_fuel : nat := 1.

(** [lock_acquire(&hd_disk->_channel->_lock)] and [lock_release], by the thread [cur]. *)
Definition channel_acquire (s : driver) (n : nat) (cur : Z) : outcome driver :=
  let! c := get_channel s n in
  let! l := mutex_acquire (ch_lock c) cur in
  Ok (set_channel s n (Channel (port_base c) (irq_no c) l (wait_intr c) (disk_ok c))).
Definition channel_release (s : driver) (n : nat) (cur : Z) : outcome driver :=
  let! c := get_channel s n in
  let! l := mutex_release (ch_lock c) cur in
  Ok (set_channel s n (Channel (port_base c) (irq_no c) l (wait_intr c) (disk_ok c))).

Definition sectors_once (sec_cnt sector_done : Z) : Z :=
  if 256 <=? sec_cnt - sector_done then 256 else sec_cnt - sector_done.

(** The loops of [ide_read] and [ide_write]; a failed [busy_wait] ends in
    [ASSERT_FAILED]. *)
Fixpoint ide_read_loop (fuel : nat) (s : driver) (hd : drive) (lba_base : Z) (buf : list Z)
    (sec_cnt sector_done : Z) : outcome (driver * list Z) :=
  match fuel with
  | O => NoFuel
  | S fuel =>
      if sector_done <? sec_cnt then
        let sector_once := sectors_once sec_cnt sector_done in
        let! s := disk_select_sector s hd (u32 (lba_base + sector_done)) (u8 sector_once) in
        let! s := channel_control_cmd s (channel_no hd) CMD_READ_SECTOR in
        let! s := wait_disk wait_fuel s (channel_no hd) in
        let! (s, ok) := busy_wait s hd in
        if negb ok then Panic
        else
          let! (s, buf) := disk_sector_to_buf s hd (u8 sector_once) buf (Z.to_nat (u32 (sector_done * 512))) in
          ide_read_loop fuel s hd lba_base buf sec_cnt (u32 (sector_done + sector_once))
      else Ok (s, buf)
  end.

Fixpoint ide_write_loop (fuel : nat) (s : driver) (hd : drive) (lba_base : Z) (buf : list Z)
    (sec_cnt sector_done : Z) : outcome driver :=
  match fuel with
  | O => NoFuel
  | S fuel =>
      if sector_done <? sec_cnt then
        let sector_once := sectors_once sec_cnt sector_done in
        let! s := disk_select_sector s hd (u32 (lba_base + sector_done)) (u8 sector_once) in
        let! s := channel_control_cmd s (channel_no hd) CMD_WRITE_SECTOR in
        let! (s, ok) := busy_wait s hd in
        if negb ok then Panic
        else
          let! s := disk_buf_to_sector s hd (u8 sector_once) buf (Z.to_nat (u32 (sector_done * 512))) in
          let! s := wait_disk wait_fuel s (channel_no hd) in
          ide_write_loop fuel s hd lba_base buf sec_cnt (u32 (sector_done + sector_once))
      else Ok s
  end.

(** One turn for each 256 sectors, and the last one. *)
Definition loop_fuel (sec_cnt : Z) : nat := S (Z.to_nat (sec_cnt / 256 + 1)).

Definition ide_read (s : driver) (cur : Z) (hd : drive) (lba_base : Z) (buf : list Z) (sec_cnt : Z)
    : outcome (driver * list Z) :=
  ASSERT (0 <? sec_cnt) ;!
  let! s := channel_acquire s (channel_no hd) cur in
  let! s := disk_select_hd s hd in
  let! (s, buf) := ide_read_loop (loop_fuel sec_cnt) s hd lba_base buf sec_cnt 0 in
  let! s := channel_release s (channel_no hd) cur in
  Ok (s, buf).

Definition ide_write (s : driver) (cur : Z) (hd : drive) (lba_base : Z) (buf : list Z) (sec_cnt : Z)
    : outcome driver :=
  ASSERT (0 <? sec_cnt) ;!
  let! s := channel_acquire s (channel_no hd) cur in
  let! s := disk_select_hd s hd in
  let! s := ide_write_loop (loop_fuel sec_cnt) s hd lba_base buf sec_cnt 0 in
  channel_release s (channel_no hd) cur.

(** [disk_identify]: the 512 bytes it reads. *)
Definition disk_identify (s : driver) (hd : drive) : outcome (driver * list Z) :=
  let ide_info := replicate 512 0 in
  let! s := disk_select_hd s hd in
  let! s := channel_control_cmd s (channel_no hd) CMD_IDENTIFY in
  let! s := wait_disk wait_fuel s (channel_no hd) in
  let! (s, ok) := busy_wait s hd in
  if negb ok then Panic
  else disk_sector_to_buf s hd 1 ide_info 0.
End driver.
Arguments driver : clear implicits.

(** The number of megabytes [disk_identify] prints, for the word at 60 of the
    identification. *)
Definition capacity (sec_cnt : Z) : Z := u32 (sec_cnt * 512) / 1024 / 1024.

(** * The documented behaviour of the disk *)

(** The registers of a channel. *)
Record regs := Regs { r_cnt : Z; r_l : Z; r_m : Z; r_h : Z; r_dev : Z }.

(** The sectors a command is for: the address, and how many (0 stands for 256). *)
Definition lba_of (r : regs) : Z := r_l r + 256 * r_m r + 65536 * r_h r + 16777216 * (r_dev r mod 16).
Definition count_of (r : regs) : Z := if r_cnt r =? 0 then 256 else r_cnt r.
(** The drive that is selected, and whether addresses are LBAs. *)
Definition drive_of (r : regs) : Z := if Z.testbit (r_dev r) 4 then 1 else 0.
Definition lba_mode (r : regs) : Prop := Z.land (r_dev r) 0xe0 = 0xe0.

(** The words of the sectors [lba], ..., [lba + n - 1]. *)
Definition sectors (sector : Z → list Z) (lba n : Z) : list Z := seqZ lba n ≫= sector.

(** What the driver relies on, for the channel with base port [base] and
    interrupt [irq], whose drive [i] has the sectors [sector i], [size i] of them, and the
    identification [ident i]: what the ATA standard says of the commands that the driver uses.
    The disk is idle with the registers [r] ([ready]); has got a command and will
    interrupt ([reading], with the words to come and the device register at the end, which
    has the address of the last sector); has interrupted and waits for the data to be
    taken ([data]); or has got the command RECALIBRATE, which has no data ([seeking]).
    One interrupt and one status stand for one sector: of several sectors the disk gives the first, and what its
    data port holds behind it, while it is not asked for its status again, is left open. *)
Class AtaDisk (D : Type) `{AtaBus D} (base irq : Z) (sector : Z → Z → list Z) (size : Z → Z) := {
  ready : D → regs → Prop;
  reading : D → list Z → Z → Prop;
  data : D → list Z → Z → Prop;
  seeking : D → Prop;
  ident : Z → list Z;
  ident_length i : length (ident i) = 256%nat;
  sector_length i lba : length (sector i lba) = 256%nat;
  sector_words i lba : Forall (λ w, 0 ≤ w < 65536) (sector i lba);
  ata_cnt d r v : ready d r → 0 ≤ v < 256 →
    ready (outb d (base + 2) v) (Regs v (r_l r) (r_m r) (r_h r) (r_dev r));
  ata_l d r v : ready d r → 0 ≤ v < 256 →
    ready (outb d (base + 3) v) (Regs (r_cnt r) v (r_m r) (r_h r) (r_dev r));
  ata_m d r v : ready d r → 0 ≤ v < 256 →
    ready (outb d (base + 4) v) (Regs (r_cnt r) (r_l r) v (r_h r) (r_dev r));
  ata_h d r v : ready d r → 0 ≤ v < 256 →
    ready (outb d (base + 5) v) (Regs (r_cnt r) (r_l r) (r_m r) v (r_dev r));
  ata_dev d r v : ready d r → 0 ≤ v < 256 →
    ready (outb d (base + 6) v) (Regs (r_cnt r) (r_l r) (r_m r) (r_h r) v);
  ata_get_dev d r : ready d r → ∃ d', inb d (base + 6) = (d', r_dev r) ∧ ready d' r;
  ata_read d r : ready d r → lba_mode r → lba_of r + count_of r ≤ size (drive_of r) →
    reading (outb d (base + 7) 0x20) (sectors (sector (drive_of r)) (lba_of r) (count_of r))
      (Z.lor (Z.land (r_dev r) 0xf0) ((lba_of r + count_of r - 1) / 16777216));
  ata_identify d r : ready d r → reading (outb d (base + 7) 0xec) (ident (drive_of r)) (r_dev r);
  ata_interrupt d ws dev : reading d ws dev → ∃ d', await d irq = Some d' ∧ data d' ws dev;
  ata_status d ws dev : data d ws dev → ∃ d' v, inb d (base + 7) = (d', v) ∧ data d' ws dev ∧
    Z.land v 0x80 = 0 ∧ Z.land v 0x08 ≠ 0;
  insw_length d port k : length (insw d port k).2 = k;
  ata_data d ws dev : data d ws dev → length ws = 256%nat → ∃ d' r, insw d base 256 = (d', ws) ∧
    ready d' r ∧ r_dev r = dev;
  ata_data_first d ws dev k : data d ws dev → (256 < length ws)%nat → (256 ≤ k)%nat →
    take 256 (insw d base k).2 = take 256 ws;
  ata_recalibrate d r : ready d r → seeking (outb d (base + 7) 0x10);
  ata_seek_status d : seeking d → ∃ d' v, inb d (base + 7) = (d', v) ∧ seeking d' ∧ Z.land v 0x08 = 0;
  ata_seek_wait d : seeking d → seeking (ten_ms d)
}.

(** A disk from which the data of all sectors of a command can be taken in one go, as from some emulated
    disks; ATA does not promise it. *)
Definition streams (D : Type) (base irq : Z) (sector : Z → Z → list Z) (size : Z → Z)
    `{AtaDisk D base irq sector size} : Prop :=
  ∀ d ws dev, data d ws dev → ∃ d' r, insw d base (length ws) = (d', ws) ∧ ready d' r ∧ r_dev r = dev.

(** * Lemmas *)

(** ** Bytes and arrays *)

Lemma length_word_bytes ws : length (word_bytes ws) = (2 * length ws)%nat.
Proof. induction ws as [|w ws IH]; [done|]. cbn [word_bytes mbind list_bind length app] in *. unfold word_bytes in IH. cbn. rewrite IH. lia. Qed.

Lemma word_bytes_app ws ws' : word_bytes (ws ++ ws') = word_bytes ws ++ word_bytes ws'.
Proof. unfold word_bytes. by rewrite bind_app. Qed.

Lemma length_sectors sector lba n : (∀ i, length (sector i) = 256%nat) → 0 ≤ n →
  length (sectors sector lba n) = Z.to_nat (256 * n).
Proof.
  intros Hs Hn. unfold sectors. rewrite <- (Z2Nat.id n) by done. generalize (Z.to_nat n) as k. clear n Hn.
  intros k. revert lba. induction k as [|k IH]; intros lba; [done|].
  rewrite seqZ_cons by lia. cbn [mbind list_bind]. rewrite length_app, Hs.
  replace (Z.pred (Z.of_nat (S k))) with (Z.of_nat k) by lia.
  unfold mbind in IH. rewrite IH. lia.
Qed.

Lemma sectors_app sector lba n k : 0 ≤ n → 0 ≤ k →
  sectors sector lba (n + k) = sectors sector lba n ++ sectors sector (lba + n) k.
Proof. intros. unfold sectors. rewrite seqZ_app by lia. by rewrite bind_app. Qed.

(** A chunk behind the part of the array that is filled. *)
Lemma buf_write_after (xs ys zs buf : list Z) :
  buf = xs ++ zs → (length ys ≤ length zs)%nat →
  buf_write buf (length xs) ys = Ok (xs ++ ys ++ drop (length ys) zs).
Proof.
  intros -> Hlen. unfold buf_write. rewrite length_app, (proj2 (Nat.leb_le _ _)) by lia.
  rewrite take_app_length, <- drop_drop, drop_app_length. done.
Qed.

(** ** [busy_wait] ends *)

Section lemmas.
Context {D : Type} `{AtaBus D}.

Lemma busy_wait_loop_ends fuel (s : driver D) base k :
  0 ≤ k ≤ 3000 → k ≤ Z.of_nat fuel → 1 ≤ k →
  ∃ s' ok, busy_wait_loop fuel s base (10 * k) = Ok (s', ok).
Proof.
  intros Hk Hf Hk1. revert s k Hk Hf Hk1. induction fuel as [|fuel IH]; intros s k Hk Hf Hk1; [lia|].
  cbn [busy_wait_loop]. rewrite u16_small by lia. destruct (Z.ltb_spec 0 (10 * k - 10)); [|eauto].
  unfold inp. destruct (inb (hw s) (reg_status base)) as [d v]. destruct (_ =? 0).
  - destruct (inb _ _) as [d' v']. eauto.
  - replace (10 * k - 10) with (10 * (k - 1)) by lia. apply IH; lia.
Qed.

Lemma get_channel_Some (d : D) chs n c : chs !! n = Some c → get_channel (Driver d chs) n = Ok c.
Proof. unfold get_channel. cbn [g_channels]. by intros ->. Qed.
End lemmas.

(** ** Registers *)

(** The device register: the drive, and the bits 24 to 27 of the address. *)
Definition register_ok (b : bool) (x q : Z) : bool :=
  let sel := if b then 0xf0 else 0xe0 in
  let v := u8 (Z.lor (Z.lor sel x) q) in
  (v =? Z.lor sel q) && (Z.land v 0xe0 =? 0xe0) && (v mod 16 =? q) &&
  Bool.eqb (Z.testbit v 4) b && (Z.land v 0xf0 =? sel).

Lemma registers_ok : forallb (λ q, forallb (λ b, register_ok b 0 q && register_ok b q q) [true; false])
  (seqZ 0 16) = true.
Proof. by vm_compute. Qed.

Lemma dev_register i x q : 0 ≤ q < 16 → x = 0 ∨ x = q →
  let sel := if i =? 1 then 0xf0 else 0xe0 in
  let v := u8 (Z.lor (Z.lor sel x) q) in
  v = Z.lor sel q ∧ Z.land v 0xe0 = 0xe0 ∧ v mod 16 = q ∧
  (if Z.testbit v 4 then 1 else 0) = (if i =? 1 then 1 else 0) ∧ Z.land v 0xf0 = sel.
Proof.
  intros Hq Hx sel v. pose proof registers_ok as Hall. rewrite forallb_forall in Hall.
  assert (register_ok (i =? 1) x q = true) as Hok.
  { specialize (Hall q). rewrite <- list_elem_of_In, elem_of_seqZ, forallb_forall in Hall.
    specialize (Hall ltac:(lia) (i =? 1)). apply andb_prop in Hall as [H0 H1].
    - by destruct Hx as [->| ->].
    - destruct (i =? 1); simpl; auto. }
  unfold register_ok in Hok. fold sel v in Hok.
  repeat match type of Hok with _ && _ = true => apply andb_prop in Hok as [Hok ?] end.
  repeat match goal with H : (_ =? _) = true |- _ => apply Z.eqb_eq in H end.
  split_and!; try done. match goal with H : Bool.eqb _ _ = true |- _ => apply Bool.eqb_prop in H as -> end. done.
Qed.

Lemma address_bytes a : 0 ≤ a < 268435456 →
  u8 (Z.shiftr a 0) + 256 * u8 (Z.shiftr a 8) + 65536 * u8 (Z.shiftr a 16) + 16777216 * (a / 16777216) = a ∧
  Z.shiftr a 24 = a / 16777216 ∧ 0 ≤ a / 16777216 < 16.
Proof.
  intros Ha. rewrite !Z.shiftr_div_pow2 by lia. unfold u8. change (2 ^ 0) with 1. change (2 ^ 8) with 256.
  change (2 ^ 16) with 65536. change (2 ^ 24) with 16777216. divlia.
Qed.

(** 256 sectors fit the count register as 0. *)
Lemma sector_count k : 1 ≤ k ≤ 256 → (if u8 k =? 0 then 256 else u8 k) = k.
Proof.
  intros Hk. destruct (Z.eq_dec k 256) as [->|]; [reflexivity|].
  rewrite (u8_small k) by lia. by rewrite (proj2 (Z.eqb_neq k 0)) by lia.
Qed.

(** ** One command *)

Section disk.
Context {D : Type} `{AtaBus D} (base : Z) (n : nat) (sector : Z → Z → list Z) (size : Z → Z).
Context `{!AtaDisk D base (0x2e + Z.of_nat n) sector size}.
(** Channel [n], with lock [l], flag [w] and semaphore [v]. *)
Definition chan (l : mutex) (w : bool) (v : Z) : ide_channel := Channel base (0x2e + Z.of_nat n) l w v.

Lemma select_hd_spec d chs l w v hd r : chs !! n = Some (chan l w v) → channel_no hd = n → ready d r →
  let sel := if dev_no hd =? 1 then 0xf0 else 0xe0 in
  ∃ d' r', disk_select_hd (Driver d chs) hd = Ok (Driver d' chs) ∧ ready d' r' ∧ r_dev r' = sel.
Proof using AtaDisk0.
  intros Ec En Hr sel. unfold disk_select_hd. rewrite En, (get_channel_Some _ _ _ _ Ec). cbn [obind].
  change (port_base (chan l w v)) with base. unfold reg_dev, out, set_hw. cbn [hw g_channels].
  do 2 eexists. split; [reflexivity|]. split.
  - apply ata_dev; [exact Hr|apply u8_range].
  - cbn. subst sel. by destruct (dev_no hd =? 1).
Qed.

Lemma select_sector_spec d chs l w v hd r lba cnt :
  chs !! n = Some (chan l w v) → channel_no hd = n → ready d r →
  ∃ d', disk_select_sector (Driver d chs) hd lba cnt = Ok (Driver d' chs) ∧
    ready d' (Regs (u8 cnt) (u8 (Z.shiftr lba 0)) (u8 (Z.shiftr lba 8)) (u8 (Z.shiftr lba 16))
      (u8 (Z.lor (r_dev r) (Z.shiftr lba 24)))).
Proof using AtaDisk0.
  intros Ec En Hr. unfold disk_select_sector. rewrite En, (get_channel_Some _ _ _ _ Ec). cbn [obind].
  change (port_base (chan l w v)) with base. unfold reg_sect_cnt, reg_lba_l, reg_lba_m, reg_lba_h, reg_dev, out, inp, set_hw.
  cbn [hw g_channels].
  pose proof (ata_cnt _ _ (u8 cnt) Hr (u8_range _)) as H1.
  pose proof (ata_l _ _ (u8 (Z.shiftr lba 0)) H1 (u8_range _)) as H2.
  pose proof (ata_m _ _ (u8 (Z.shiftr lba 8)) H2 (u8_range _)) as H3.
  pose proof (ata_h _ _ (u8 (Z.shiftr lba 16)) H3 (u8_range _)) as H4.
  destruct (ata_get_dev _ _ H4) as (d' & Ed & H5). cbn [r_cnt r_l r_m r_h r_dev] in *. rewrite Ed.
  eexists. split; [reflexivity|]. apply (ata_dev _ _ (u8 (Z.lor (r_dev r) (Z.shiftr lba 24))) H5 (u8_range _)).
Qed.

Lemma command_spec d chs l w v cmd : chs !! n = Some (chan l w v) →
  channel_control_cmd (Driver d chs) n cmd =
    Ok (Driver (outb d (base + 7) (u8 cmd)) (<[n := chan l true v]> chs)).
Proof.
  intros Ec. unfold channel_control_cmd. by rewrite (get_channel_Some _ _ _ _ Ec).
Qed.

Hypothesis Hn : (n < 2)%nat.

Lemma wait_disk_spec d chs l ws dev : chs !! n = Some (chan l true 0) → reading d ws dev →
  ∃ d', wait_disk wait_fuel (Driver d chs) n = Ok (Driver d' (<[n := chan l false 0]> chs)) ∧ data d' ws dev.
Proof using Hn AtaDisk0.
  intros Ec Hr. destruct (ata_interrupt _ _ _ Hr) as (d1 & Ea & Hd1).
  destruct (ata_status _ _ _ Hd1) as (d2 & v & Es & Hd2 & _).
  exists d2. split; [|done]. unfold wait_fuel. cbn [wait_disk].
  rewrite (get_channel_Some _ _ _ _ Ec). cbn [obind chan disk_ok irq_no hw]. rewrite Ea. cbn [obind Z.eqb].
  change (0 =? 0) with true. cbv iota. unfold hard_disk_service, set_hw. cbn [g_channels hw].
  rewrite ASSERT_true by (destruct n as [|[|]]; [done|done|lia]). cbn [obind].
  replace (Z.to_nat (u8 (46 + Z.of_nat n - 46))) with n
    by (rewrite u8_small by lia; lia).
  unfold get_channel at 1. cbn [g_channels]. rewrite Ec. cbn [obind chan irq_no wait_intr disk_ok port_base].
  rewrite Z.eqb_refl. cbn [ASSERT obind]. change (sema_up 0) with (@Ok Z 1). cbn [obind].
  unfold inp, set_channel, set_hw, reg_status. cbn [hw g_channels]. rewrite Es. cbn [obind].
  unfold get_channel. cbn [g_channels]. rewrite list_lookup_insert_eq by (by eapply lookup_lt_Some).
  cbn [obind disk_ok port_base irq_no ch_lock wait_intr]. change (1 =? 0) with false. cbv iota.
  change (sema_down 1) with (@Ok Z 0). cbn [obind]. by rewrite list_insert_insert_eq.
Qed.

Lemma busy_wait_data d chs hd c ws dev : chs !! n = Some c → port_base c = base → channel_no hd = n →
  data d ws dev → ∃ d', busy_wait (Driver d chs) hd = Ok (Driver d' chs, true) ∧ data d' ws dev.
Proof using Hn AtaDisk0.
  intros Ec Eb En Hd. destruct (ata_status _ _ _ Hd) as (d1 & v1 & E1 & Hd1 & Hb1 & _).
  destruct (ata_status _ _ _ Hd1) as (d2 & v2 & E2 & Hd2 & _ & Hr2).
  exists d2. split; [|done]. unfold busy_wait. rewrite En, (get_channel_Some _ _ _ _ Ec). cbn [obind].
  rewrite Eb. unfold busy_wait_fuel. generalize 2999%nat as fuel. intros fuel. cbn [busy_wait_loop].
  change (u16 (30000 - 10)) with 29990. change (0 <? 29990) with true. cbv iota.
  unfold inp, reg_status, set_hw. cbn [hw g_channels]. rewrite E1. unfold BIT_ALT_STATUS_BSY, BIT_ALT_STATUS_DRQ.
  rewrite Hb1. change (0 =? 0) with true. cbv iota. cbn [hw g_channels]. rewrite E2. by rewrite (proj2 (Z.eqb_neq _ _) Hr2).
Qed.

(** The transfer of [m] sectors to the place behind [xs]. *)
Lemma sector_to_buf_eq d chs hd c m buf off : chs !! n = Some c → port_base c = base → channel_no hd = n →
  1 ≤ m ≤ 256 →
  disk_sector_to_buf (Driver d chs) hd (u8 m) buf off =
    let (d', ws) := insw d base (Z.to_nat (256 * m)) in
    let! buf := buf_write buf off (word_bytes ws) in Ok (Driver d' chs, buf).
Proof using Hn.
  intros Ec Eb En Hm. unfold disk_sector_to_buf. rewrite En, (get_channel_Some _ _ _ _ Ec). cbn [obind].
  rewrite Eb. unfold reg_data. rewrite Z.add_0_r. cbn [hw].
  assert ((if u8 m =? 0 then 256 * 512 else u8 m * 512) = m * 512) as -> by (unfold u8; destruct (Z.eqb_spec (m mod 256) 0); divlia).
  replace (m * 512 / 2) with (256 * m) by divlia. by destruct (insw d base _).
Qed.

Lemma take_sector d chs hd c ws dev xs zs : chs !! n = Some c → port_base c = base → channel_no hd = n →
  data d ws dev → length ws = 256%nat → (512 ≤ length zs)%nat →
  ∃ d' r, disk_sector_to_buf (Driver d chs) hd (u8 1) (xs ++ zs) (length xs) =
      Ok (Driver d' chs, xs ++ word_bytes ws ++ drop 512 zs) ∧
    ready d' r ∧ r_dev r = dev.
Proof using Hn AtaDisk0.
  intros Ec Eb En Hd Hlen Hfit. destruct (ata_data _ _ _ Hd Hlen) as (d' & r & Ei & Hr & Hdev).
  exists d', r. split; [|done]. rewrite (sector_to_buf_eq _ _ _ _ _ _ _ Ec Eb En) by lia.
  change (Z.to_nat (256 * 1)) with 256%nat. rewrite Ei.
  rewrite (buf_write_after xs (word_bytes ws) zs) by (rewrite ?length_word_bytes; (done || lia)). cbn [obind].
  by rewrite length_word_bytes, Hlen.
Qed.

(** ** The lock of the channel *)

Lemma channel_acquire_spec (d : D) chs w v cur : chs !! n = Some (chan unlocked w v) → cur ≠ NULL →
  channel_acquire (Driver d chs) n cur = Ok (Driver d (<[n := chan (locked_by cur) w v]> chs)).
Proof using.
  intros Ec Hc. unfold channel_acquire. rewrite (get_channel_Some _ _ _ _ Ec). cbn [obind chan ch_lock].
  by rewrite mutex_acquire_unlocked.
Qed.

Lemma channel_release_spec (d : D) chs w v cur : chs !! n = Some (chan (locked_by cur) w v) →
  channel_release (Driver d chs) n cur = Ok (Driver d (<[n := chan unlocked w v]> chs)).
Proof using.
  intros Ec. unfold channel_release. rewrite (get_channel_Some _ _ _ _ Ec). cbn [obind chan ch_lock].
  by rewrite mutex_release_locked.
Qed.

(** ** The loop of [ide_read] *)

(** One turn of the loop, up to the data. *)
Lemma read_command d chs l hd r x a k :
  chs !! n = Some (chan l false 0) → channel_no hd = n → ready d r →
  r_dev r = Z.lor (if dev_no hd =? 1 then 0xf0 else 0xe0) x → x = 0 ∨ x = a / 16777216 →
  0 ≤ a < 268435456 → 1 ≤ k ≤ 256 → a + k ≤ size (if dev_no hd =? 1 then 1 else 0) →
  (a + k - 1) / 16777216 = a / 16777216 →
  ∃ d3 d4 d5,
    disk_select_sector (Driver d chs) hd a (u8 k) = Ok (Driver d3 chs) ∧
    (let! s := channel_control_cmd (Driver d3 chs) n CMD_READ_SECTOR in wait_disk wait_fuel s n) =
      Ok (Driver d4 chs) ∧
    busy_wait (Driver d4 chs) hd = Ok (Driver d5 chs, true) ∧
    data d5 (sectors (sector (if dev_no hd =? 1 then 1 else 0)) a k)
      (Z.lor (if dev_no hd =? 1 then 0xf0 else 0xe0) (a / 16777216)).
Proof using Hn AtaDisk0.
  intros Ec En Hr Hdev Hx Ha Hk Hsize Hblock. destruct (address_bytes a Ha) as (Haddr & Hsh & Hq).
  destruct (select_sector_spec d chs l false 0 hd r a (u8 k) Ec En Hr) as (d3 & E3 & H3).
  rewrite Hdev, Hsh in H3.
  destruct (dev_register (dev_no hd) x (a / 16777216) Hq Hx) as (Ev & Hlba & Hmod & Hdrv & Hsel).
  rewrite (u8_small (u8 k)) in H3 by apply u8_range.
  set (r3 := Regs _ _ _ _ _) in H3.
  assert (count_of r3 = k) as Ecnt.
  { apply sector_count. lia. }
  assert (lba_of r3 = a) as Elba by (unfold lba_of; subst r3; cbn; rewrite Hmod; lia).
  assert (drive_of r3 = if dev_no hd =? 1 then 1 else 0) as Edrv by exact Hdrv.
  pose proof (ata_read d3 r3 H3 Hlba) as Hread. rewrite Ecnt, Elba, Edrv in Hread. specialize (Hread Hsize).
  change (r_dev r3) with (u8 (Z.lor (Z.lor (if dev_no hd =? 1 then 0xf0 else 0xe0) x) (a / 16777216))) in Hread.
  rewrite Hsel, Hblock in Hread.
  assert (<[n := chan l true 0]> chs !! n = Some (chan l true 0)) as Ec'
    by (apply list_lookup_insert_eq; by eapply lookup_lt_Some).
  destruct (wait_disk_spec _ (<[n := chan l true 0]> chs) l _ _ Ec' Hread) as (d4 & E4 & Hd4).
  rewrite list_insert_insert_eq, (list_insert_id chs n (chan l false 0)) in E4 by exact Ec.
  destruct (busy_wait_data d4 chs hd _ _ _ Ec eq_refl En Hd4) as (d5 & E5 & Hd5).
  exists d3, d4, d5. split_and!; [done| |done|done].
  rewrite (command_spec _ _ _ _ _ _ Ec). cbn [obind]. exact E4.
Qed.

Lemma length_sector_bytes i lba k : 0 ≤ k →
  length (word_bytes (sectors (sector i) lba k)) = Z.to_nat (512 * k).
Proof using Hn AtaDisk0.
  intros Hk. rewrite length_word_bytes, length_sectors; [lia| |done].
  intros j. apply (sector_length (AtaDisk := AtaDisk0)).
Qed.

(** One turn of the loop: the data of the sectors is there, and is taken with one [insw]. *)
Lemma ide_read_turn fuel d chs l hd r x lba cnt k buf :
  let i := if dev_no hd =? 1 then 1 else 0 in
  let m := sectors_once cnt k in
  chs !! n = Some (chan l false 0) → channel_no hd = n → ready d r →
  r_dev r = Z.lor (if dev_no hd =? 1 then 0xf0 else 0xe0) x → x = 0 ∨ x = lba / 16777216 →
  0 ≤ lba → lba + cnt ≤ size i → size i ≤ 268435456 →
  (lba + cnt - 1) / 16777216 = lba / 16777216 → 0 ≤ k < cnt → 512 * cnt < 4294967296 →
  1 ≤ m ≤ 256 ∧ m ≤ cnt - k ∧ (m = 256 ∨ m = cnt - k) ∧
  ∃ d5, data d5 (sectors (sector i) (lba + k) m)
      (Z.lor (if dev_no hd =? 1 then 0xf0 else 0xe0) (lba / 16777216)) ∧
    ide_read_loop (S fuel) (Driver d chs) hd lba buf cnt k =
      let (d6, ws) := insw d5 base (Z.to_nat (256 * m)) in
      let! buf := buf_write buf (Z.to_nat (512 * k)) (word_bytes ws) in
      ide_read_loop fuel (Driver d6 chs) hd lba buf cnt (k + m).
Proof using Hn AtaDisk0.
  intros i m Ec En Hr Hdev Hx Hlba Hsize Hmax Hblock Hk H32.
  assert (1 ≤ m ≤ 256 ∧ m ≤ cnt - k ∧ (m = 256 ∨ m = cnt - k)) as Hm.
  { subst m. unfold sectors_once. destruct (Z.leb_spec 256 (cnt - k)); lia. }
  split_and!; try apply Hm.
  assert ((lba + k) / 16777216 = lba / 16777216 ∧ (lba + k + m - 1) / 16777216 = lba / 16777216) as [Hb1 Hb2].
  { pose proof (Z.div_le_mono lba (lba + k) 16777216). pose proof (Z.div_le_mono (lba + k) (lba + cnt - 1) 16777216).
    pose proof (Z.div_le_mono (lba + k) (lba + k + m - 1) 16777216).
    pose proof (Z.div_le_mono (lba + k + m - 1) (lba + cnt - 1) 16777216). lia. }
  destruct (read_command d chs l hd r x (lba + k) m) as (d3 & d4 & d5 & E3 & E4 & E5 & Hd5);
    [done|done|done|done|rewrite Hb1; exact Hx|lia|lia|fold i; lia|lia|].
  exists d5. rewrite Hb1 in Hd5. split; [exact Hd5|].
  cbn [ide_read_loop]. rewrite (proj2 (Z.ltb_lt k cnt)) by lia. fold m.
  rewrite u32_small by lia. rewrite E3. cbn [obind]. rewrite En.
  change (let! s := channel_control_cmd (Driver d3 chs) n CMD_READ_SECTOR in wait_disk wait_fuel s n)
    with (obind (channel_control_cmd (Driver d3 chs) n CMD_READ_SECTOR) (λ s, wait_disk wait_fuel s n)) in E4.
  destruct (channel_control_cmd (Driver d3 chs) n CMD_READ_SECTOR) as [s3| | |]; cbn [obind] in *; [|done..].
  rewrite E4. cbn [obind]. rewrite E5. cbn [obind negb].
  rewrite (sector_to_buf_eq _ _ _ _ _ _ _ Ec eq_refl En) by lia.
  rewrite (u32_small (k * 512)), (u32_small (k + m)), (Z.mul_comm k 512) by lia.
  destruct (insw d5 base _) as [d6 ws]. by destruct (buf_write buf _ _).
Qed.

(** A request for at most 256 sectors: the first one is read. *)
Lemma ide_read_loop_once fuel d chs l hd r lba cnt buf :
  let i := if dev_no hd =? 1 then 1 else 0 in
  chs !! n = Some (chan l false 0) → channel_no hd = n → ready d r →
  r_dev r = (if dev_no hd =? 1 then 0xf0 else 0xe0) →
  0 ≤ lba → 1 ≤ cnt ≤ 256 → lba + cnt ≤ size i → size i ≤ 268435456 →
  (lba + cnt - 1) / 16777216 = lba / 16777216 → 512 * cnt ≤ Z.of_nat (length buf) →
  ∃ d' ws, ide_read_loop (S (S fuel)) (Driver d chs) hd lba buf cnt 0 =
      Ok (Driver d' chs, word_bytes ws ++ drop (Z.to_nat (512 * cnt)) buf) ∧
    length ws = Z.to_nat (256 * cnt) ∧ take 256 ws = sector i lba ∧ (cnt = 1 → ∃ r', ready d' r').
Proof using Hn AtaDisk0.
  intros i Ec En Hr Hdev Hlba Hcnt Hsize Hmax Hblock Hbuf.
  destruct (ide_read_turn (S fuel) d chs l hd r 0 lba cnt 0 buf) as (_ & _ & _ & d5 & Hd5 & E);
    [done|done|done|by rewrite Z.lor_0_r|by left|done|done|done|done|lia|lia|].
  assert (sectors_once cnt 0 = cnt) as Em by (unfold sectors_once; destruct (Z.leb_spec 256 (cnt - 0)); lia).
  rewrite Em, Z.add_0_r in *. fold i in Hd5. rewrite E.
  assert (length (sectors (sector i) lba cnt) = Z.to_nat (256 * cnt)) as Hlen.
  { apply length_sectors; [|lia]. intros j. apply (sector_length (AtaDisk := AtaDisk0)). }
  assert (∃ tl, sectors (sector i) lba cnt = sector i lba ++ tl) as (tl & Etl).
  { replace cnt with (1 + (cnt - 1)) by lia. rewrite sectors_app by lia. eexists. unfold sectors at 1.
    change (seqZ lba 1) with [lba]. cbn [mbind list_bind]. by rewrite app_nil_r. }
  pose proof (insw_length (AtaDisk := AtaDisk0) d5 base (Z.to_nat (256 * cnt))) as Hlw.
  assert (take 256 (insw d5 base (Z.to_nat (256 * cnt))).2 = sector i lba ∧
    (cnt = 1 → ∃ r', ready (insw d5 base (Z.to_nat (256 * cnt))).1 r')) as [Hfirst Hready].
  { pose proof (sector_length (AtaDisk := AtaDisk0) i lba) as Hls. destruct (decide (cnt = 1)) as [->|Hne].
    - change (Z.to_nat (256 * 1)) with 256%nat in *. destruct (ata_data d5 _ _ Hd5 Hlen) as (d6 & r6 & -> & Hr6 & _). cbn [fst snd]. rewrite Etl.
      split; [by rewrite take_app_length' by done|intros _; by exists r6].
    - split; [|done]. rewrite (ata_data_first d5 _ _ (Z.to_nat (256 * cnt)) Hd5) by (rewrite ?Hlen; lia).
      by rewrite Etl, take_app_length'. }
  destruct (insw d5 base _) as [d6 ws]. cbn [fst snd] in *.
  change (Z.to_nat (512 * 0)) with (length (@nil Z)).
  rewrite (buf_write_after [] (word_bytes ws) buf buf eq_refl) by (rewrite length_word_bytes; lia). cbn [obind app].
  exists d6, ws. split; [|done]. cbn [ide_read_loop]. rewrite Z.add_0_l, Z.ltb_irrefl.
  by replace (length (word_bytes ws)) with (Z.to_nat (512 * cnt)) by (rewrite length_word_bytes; lia).
Qed.

(** Any request, on a disk whose data can be taken in one go. *)
Lemma ide_read_loop_spec (Hstream : streams D base (0x2e + Z.of_nat n) sector size) fuel d chs l hd r x lba cnt k zs :
  let i := if dev_no hd =? 1 then 1 else 0 in
  chs !! n = Some (chan l false 0) → channel_no hd = n → ready d r →
  r_dev r = Z.lor (if dev_no hd =? 1 then 0xf0 else 0xe0) x → x = 0 ∨ x = lba / 16777216 →
  0 ≤ lba → lba + cnt ≤ size i → size i ≤ 268435456 →
  (lba + cnt - 1) / 16777216 = lba / 16777216 → 0 ≤ k ≤ cnt →
  512 * (cnt - k) ≤ Z.of_nat (length zs) → 512 * cnt < 4294967296 → (cnt - k + 255) / 256 < Z.of_nat fuel →
  ∃ d' r', ide_read_loop fuel (Driver d chs) hd lba (word_bytes (sectors (sector i) lba k) ++ zs) cnt k =
      Ok (Driver d' chs, word_bytes (sectors (sector i) lba cnt) ++ drop (Z.to_nat (512 * (cnt - k))) zs) ∧
    ready d' r'.
Proof using Hn AtaDisk0.
  intros i Ec En. revert d r x k zs. induction fuel as [|fuel IH];
    intros d r x k zs Hr Hdev Hx Hlba Hsize Hmax Hblock Hk Hzs H32 Hf.
  { pose proof (Z.div_pos (cnt - k + 255) 256). lia. }
  destruct (decide (k = cnt)) as [->|Hlt].
  { cbn [ide_read_loop]. rewrite Z.ltb_irrefl. exists d, r. split; [|done]. rewrite Z.sub_diag. done. }
  destruct (ide_read_turn fuel d chs l hd r x lba cnt k (word_bytes (sectors (sector i) lba k) ++ zs))
    as (Hm1 & Hm2 & Hm3 & d5 & Hd5 & ->); [done..|lia|lia|].
  set (m := sectors_once cnt k) in *. fold i in Hd5.
  pose proof (length_sector_bytes i (lba + k) m ltac:(lia)) as Hlen.
  pose proof (length_sector_bytes i lba k ltac:(lia)) as Hlenk.
  destruct (Hstream d5 _ _ Hd5) as (d6 & r6 & E6 & Hr6 & Hdev6).
  rewrite length_sectors in E6 by (try (intros j; apply (sector_length (AtaDisk := AtaDisk0))); lia). rewrite E6.
  replace (Z.to_nat (512 * k)) with (length (word_bytes (sectors (sector i) lba k))) by (rewrite Hlenk; f_equal; lia).
  rewrite (buf_write_after _ _ zs _ eq_refl) by (rewrite Hlen; lia). cbn [obind].
  rewrite app_assoc, <- word_bytes_app, <- sectors_app by lia.
  destruct (IH d6 r6 (lba / 16777216) (k + m) (drop (length (word_bytes (sectors (sector i) (lba + k) m))) zs))
    as (d' & r' & E' & Hr'); [done|exact Hdev6|by right|done|done|done|done|lia|
      rewrite length_drop, Hlen; lia|done|destruct Hm3 as [->| ->]; divlia|].
  exists d', r'. split; [|done]. rewrite E'. rewrite drop_drop, Hlen. do 4 f_equal. lia.
Qed.

(** [disk_identify] reads the 512 bytes of the identification. *)
Lemma disk_identify_spec d chs l hd r :
  chs !! n = Some (chan l false 0) → channel_no hd = n → ready d r →
  ∃ d' r', disk_identify (Driver d chs) hd =
      Ok (Driver d' chs, word_bytes (ident (if dev_no hd =? 1 then 1 else 0))) ∧ ready d' r'.
Proof using Hn AtaDisk0.
  intros Ec En Hr. destruct (select_hd_spec d chs l false 0 hd r Ec En Hr) as (d1 & r1 & E1 & Hr1 & Hsel).
  unfold disk_identify. rewrite E1. cbn [obind]. rewrite En, (command_spec _ _ _ _ _ _ Ec). cbn [obind].
  pose proof (ata_identify d1 r1 Hr1) as Hread.
  assert (<[n := chan l true 0]> chs !! n = Some (chan l true 0)) as Ec'
    by (apply list_lookup_insert_eq; by eapply lookup_lt_Some).
  destruct (wait_disk_spec _ (<[n := chan l true 0]> chs) l _ _ Ec' Hread) as (d2 & E2 & Hd2).
  rewrite list_insert_insert_eq, (list_insert_id chs n (chan l false 0)) in E2 by exact Ec.
  change (u8 CMD_IDENTIFY) with 0xec. rewrite E2. cbn [obind].
  destruct (busy_wait_data d2 chs hd _ _ _ Ec eq_refl En Hd2) as (d3 & E3 & Hd3). rewrite E3. cbn [obind negb].
  assert (drive_of r1 = if dev_no hd =? 1 then 1 else 0) as Hdrv
    by (unfold drive_of; rewrite Hsel; by destruct (dev_no hd =? 1)).
  pose proof (ident_length (AtaDisk := AtaDisk0) (drive_of r1)) as Hlen.
  destruct (take_sector d3 chs hd _ _ _ [] (replicate 512 0) Ec eq_refl En Hd3 Hlen) as (d4 & r4 & E4 & Hr4 & _);
    [by rewrite length_replicate|].
  exists d4, r4. split; [|done]. cbn [app length] in E4. change (u8 1) with 1 in E4. rewrite E4, <- Hdrv.
  rewrite drop_ge by (by rewrite length_replicate). by rewrite app_nil_r.
Qed.

(** ** [ide_write] *)

Lemma busy_wait_seek fuel d chs k : seeking d → 0 ≤ k ≤ 3000 → k ≤ Z.of_nat fuel → 1 ≤ k →
  ∃ d', busy_wait_loop fuel (Driver d chs) base (10 * k) = Ok (Driver d' chs, false).
Proof using Hn AtaDisk0.
  intros Hd Hk Hf Hk1. revert d k Hd Hk Hf Hk1. induction fuel as [|fuel IH]; intros d k Hd Hk Hf Hk1; [lia|].
  cbn [busy_wait_loop]. rewrite u16_small by lia. destruct (Z.ltb_spec 0 (10 * k - 10)); [|eauto].
  destruct (ata_seek_status d Hd) as (d1 & v1 & E1 & Hd1 & _).
  destruct (ata_seek_status d1 Hd1) as (d2 & v2 & E2 & Hd2 & Hv2).
  unfold inp, reg_status, set_hw. cbn [hw g_channels]. rewrite E1. cbn [hw g_channels].
  destruct (_ =? 0).
  - rewrite E2. unfold BIT_ALT_STATUS_DRQ. rewrite Hv2. eauto.
  - replace (10 * k - 10) with (10 * (k - 1)) by lia. apply IH; [by apply ata_seek_wait|lia..].
Qed.
End disk.

(** ** [ide_read] *)

(** The locks and the selection of the drive around the loop. *)
Lemma ide_read_loop_enough {D} `{AtaBus D} base n sector size
    `{!AtaDisk D base (0x2e + Z.of_nat n) sector size} (d : D) chs cur hd r lba cnt buf :
  chs !! n = Some (chan base n unlocked false 0) → channel_no hd = n → cur ≠ NULL → ready d r → 0 < cnt →
  ∃ d1 r1, ready d1 r1 ∧ r_dev r1 = (if dev_no hd =? 1 then 0xf0 else 0xe0) ∧
    let chs1 := <[n := chan base n (locked_by cur) false 0]> chs in
    chs1 !! n = Some (chan base n (locked_by cur) false 0) ∧
    ∀ d2 buf', ide_read_loop (loop_fuel cnt) (Driver d1 chs1) hd lba buf cnt 0 = Ok (Driver d2 chs1, buf') →
      ide_read (Driver d chs) cur hd lba buf cnt = Ok (Driver d2 chs, buf').
Proof.
  intros Ec En Hcur Hr Hcnt. set (chs1 := <[n := chan base n (locked_by cur) false 0]> chs).
  assert (chs1 !! n = Some (chan base n (locked_by cur) false 0)) as Ec1
    by (apply list_lookup_insert_eq; by eapply lookup_lt_Some).
  destruct (select_hd_spec base n sector size d chs1 _ false 0 hd r Ec1 En Hr) as (d1 & r1 & E1 & Hr1 & Hdev1).
  exists d1, r1. split; [done|]. split; [done|]. split; [done|]. intros d2 buf' E2.
  unfold ide_read. rewrite (proj2 (Z.ltb_lt 0 cnt)) by done. cbn [ASSERT obind].
  rewrite En, (channel_acquire_spec base n _ _ _ _ _ Ec Hcur). cbn [obind]. fold chs1.
  rewrite E1. cbn [obind]. rewrite E2. cbn [obind].
  rewrite (channel_release_spec base n _ _ _ _ _ Ec1). cbn [obind]. subst chs1.
  by rewrite list_insert_insert_eq, (list_insert_id chs n _ Ec).
Qed.

Lemma ide_read_spec {D} `{AtaBus D} base n sector size
    `{!AtaDisk D base (0x2e + Z.of_nat n) sector size} (d : D) chs cur hd r lba cnt buf :
  let i := if dev_no hd =? 1 then 1 else 0 in
  (n < 2)%nat → chs !! n = Some (chan base n unlocked false 0) → channel_no hd = n → cur ≠ NULL →
  ready d r → 0 ≤ lba → 1 ≤ cnt ≤ 256 → lba + cnt ≤ size i → size i ≤ 268435456 →
  (lba + cnt - 1) / 16777216 = lba / 16777216 → 512 * cnt ≤ Z.of_nat (length buf) →
  ∃ d' ws, ide_read (Driver d chs) cur hd lba buf cnt =
      Ok (Driver d' chs, word_bytes ws ++ drop (Z.to_nat (512 * cnt)) buf) ∧
    length ws = Z.to_nat (256 * cnt) ∧ take 256 ws = sector i lba ∧ (cnt = 1 → ∃ r', ready d' r').
Proof.
  intros i Hn Ec En Hcur Hr Hlba Hcnt Hsize Hmax Hblock Hbuf.
  destruct (ide_read_loop_enough base n sector size d chs cur hd r lba cnt buf Ec En Hcur Hr)
    as (d1 & r1 & Hr1 & Hdev1 & Ec1 & Hall); [lia|].
  destruct (ide_read_loop_once base n sector size Hn (Z.to_nat (cnt / 256)) d1 _ (locked_by cur) hd r1 lba cnt buf Ec1)
    as (d2 & ws & E2 & H2); [done..|].
  exists d2, ws. split; [|exact H2]. apply Hall. unfold loop_fuel.
  by replace (Z.to_nat (cnt / 256 + 1)) with (S (Z.to_nat (cnt / 256))) by divlia.
Qed.

(** * Properties *)

(** C24. [ide_read] reads: on a disk that behaves as the ATA standard says, with the channel idle, a request
    for 1 to 256 sectors puts the sector [lba] at the start of the buffer, low
    bytes first, leaves the part of the buffer behind [cnt] sectors, and the channel with its lock, as they were,
    and, after one sector, the disk ready for the next command.  The bytes of the other sectors of the request are only
    whatever the data port gives without being asked for its status again.  They are the sectors [lba + 1], ...,
    [lba + cnt - 1], for any number of sectors, if the disk streams them, which ATA does not promise.  The
    addresses are below 2^28, and the sectors have
    the same address bits 24 to 27 (the driver never clears those it wrote before). *)
Theorem ide_read_reads {D} `{AtaBus D} base n sector size
    `{!AtaDisk D base (0x2e + Z.of_nat n) sector size} (d : D) chs cur hd r lba cnt buf :
  let i := if dev_no hd =? 1 then 1 else 0 in
  (n < 2)%nat → chs !! n = Some (chan base n unlocked false 0) → channel_no hd = n → cur ≠ NULL →
  ready d r → 0 ≤ lba → 0 < cnt → lba + cnt ≤ size i → size i ≤ 268435456 →
  (lba + cnt - 1) / 16777216 = lba / 16777216 → 512 * cnt ≤ Z.of_nat (length buf) < 4294967296 →
  (cnt ≤ 256 → ∃ d' others, length others = Z.to_nat (512 * (cnt - 1)) ∧
    ide_read (Driver d chs) cur hd lba buf cnt =
      Ok (Driver d' chs, word_bytes (sector i lba) ++ others ++ drop (Z.to_nat (512 * cnt)) buf) ∧
    (cnt = 1 → ∃ r', ready d' r')) ∧
  (streams D base (0x2e + Z.of_nat n) sector size → ∃ d' r', ide_read (Driver d chs) cur hd lba buf cnt =
      Ok (Driver d' chs, word_bytes (sectors (sector i) lba cnt) ++ drop (Z.to_nat (512 * cnt)) buf) ∧
    ready d' r').
Proof.
  intros i Hn Ec En Hcur Hr Hlba Hcnt Hsize Hmax Hblock Hbuf. split.
  - intros H256. destruct (ide_read_spec base n sector size d chs cur hd r lba cnt buf Hn Ec En Hcur Hr)
      as (d' & ws & E & Hlen & Hfirst & Hready); [done|lia|done|done|done|lia|].
    exists d', (word_bytes (drop 256 ws)). split; [rewrite length_word_bytes, length_drop; lia|]. split; [|done].
    fold i in Hfirst. by rewrite E, <- (take_drop 256 ws), word_bytes_app, Hfirst, drop_app_length', <- app_assoc
      by (rewrite <- Hfirst, length_take; lia).
  - intros Hstream. destruct (ide_read_loop_enough base n sector size d chs cur hd r lba cnt buf Ec En Hcur Hr Hcnt)
      as (d1 & r1 & Hr1 & Hdev1 & Ec1 & Hall).
    destruct (ide_read_loop_spec base n sector size Hn Hstream (loop_fuel cnt) d1 _ (locked_by cur) hd r1 0 lba cnt 0 buf Ec1)
      as (d2 & r2 & E2 & Hr2); [done|done|by rewrite Z.lor_0_r|by left|done|done|done|done|lia|lia|lia| |].
    { unfold loop_fuel. divlia. }
    exists d2, r2. split; [|done]. apply Hall. rewrite Z.sub_0_r in E2.
    change (word_bytes (sectors (sector _) lba 0) ++ buf) with buf in E2. exact E2.
Qed.

(** [ide_write] does not write: its command 0x10 is not WRITE SECTORS (0x30) but
    RECALIBRATE, after which the disk asks for no data, so that [busy_wait] fails and the
    machine stops in [ASSERT_FAILED], for every request. *)
Theorem ide_write_stops {D} `{AtaBus D} base n sector size
    `{!AtaDisk D base (0x2e + Z.of_nat n) sector size} (d : D) chs cur hd r lba cnt buf :
  (n < 2)%nat → chs !! n = Some (chan base n unlocked false 0) → channel_no hd = n → cur ≠ NULL →
  ready d r → 0 < cnt → ide_write (Driver d chs) cur hd lba buf cnt = Panic.
Proof.
  intros Hn Ec En Hcur Hr Hcnt.
  unfold ide_write. rewrite (proj2 (Z.ltb_lt 0 cnt)) by done. cbn [ASSERT obind].
  rewrite En, (channel_acquire_spec base n _ _ _ _ _ Ec Hcur). cbn [obind].
  set (chs1 := <[n := chan base n (locked_by cur) false 0]> chs).
  assert (chs1 !! n = Some (chan base n (locked_by cur) false 0)) as Ec1
    by (apply list_lookup_insert_eq; by eapply lookup_lt_Some).
  destruct (select_hd_spec base n sector size d chs1 _ false 0 hd r Ec1 En Hr) as (d1 & r1 & E1 & Hr1 & _).
  rewrite E1. cbn [obind]. unfold loop_fuel. cbn [ide_write_loop].
  rewrite (proj2 (Z.ltb_lt 0 cnt)) by done.
  destruct (select_sector_spec base n sector size d1 chs1 _ false 0 hd r1 (u32 (lba + 0)) (u8 (sectors_once cnt 0)) Ec1 En Hr1)
    as (d2 & E2 & Hr2). rewrite E2. cbn [obind]. rewrite En, (command_spec base n _ _ _ _ _ _ Ec1). cbn [obind].
  pose proof (ata_recalibrate _ _ Hr2) as Hseek.
  assert (<[n := chan base n (locked_by cur) true 0]> chs1 !! n = Some (chan base n (locked_by cur) true 0)) as Ec2
    by (apply list_lookup_insert_eq; by eapply lookup_lt_Some).
  unfold busy_wait. rewrite En, (get_channel_Some _ _ _ _ Ec2). cbn [obind port_base chan].
  change (u8 CMD_WRITE_SECTOR) with 0x10.
  destruct (busy_wait_seek base n sector size Hn busy_wait_fuel _ (<[n := chan base n (locked_by cur) true 0]> chs1)
    3000 Hseek) as (d3 & E3); [lia|unfold busy_wait_fuel; lia|lia|].
  change (10 * 3000) with 30000 in E3. unfold set_channel, set_hw, out, reg_cmd, reg_status.
  cbn [hw g_channels] in *. by rewrite E3.
Qed.

(** C37. [busy_wait] ends, whatever the hardware answers: its 16-bit counter goes down from
    30000 in steps of 10 and meets 0, so that it polls at most 2999 times. *)
Theorem busy_wait_ends {D} `{AtaBus D} (s : driver D) hd c :
  g_channels s !! channel_no hd = Some c → ∃ s' ok, busy_wait s hd = Ok (s', ok).
Proof.
  intros Ec. unfold busy_wait, get_channel. rewrite Ec. cbn [obind].
  apply (busy_wait_loop_ends busy_wait_fuel s (port_base c) 3000); unfold busy_wait_fuel; lia.
Qed.

(** * The hypotheses can be met *)

(** Disks of 64 sectors, with the contents [image], on the drives of the first channel. *)
Inductive phase := Idle | Reading (ws : list Z) (dev : Z) | Data (ws : list Z) (dev : Z) | Seeking.
Record demo_disk := DemoDisk { d_image : Z → Z → list Z; d_regs : regs; d_phase : phase }.

Definition demo_command (d : demo_disk) (v : Z) : demo_disk :=
  let r := d_regs d in
  if v =? 0x20 then
    DemoDisk (d_image d) r (Reading (sectors (d_image d (drive_of r)) (lba_of r) (count_of r))
      (Z.lor (Z.land (r_dev r) 0xf0) ((lba_of r + count_of r - 1) / 16777216)))
  else if v =? 0xec then DemoDisk (d_image d) r (Reading (replicate 256 (drive_of r)) (r_dev r))
  else if v =? 0x10 then DemoDisk (d_image d) r Seeking else d.

Definition demo_outb (d : demo_disk) (port v : Z) : demo_disk :=
  let '(Regs c l m h dev) := d_regs d in
  if port =? 0x1f2 then DemoDisk (d_image d) (Regs v l m h dev) (d_phase d)
  else if port =? 0x1f3 then DemoDisk (d_image d) (Regs c v m h dev) (d_phase d)
  else if port =? 0x1f4 then DemoDisk (d_image d) (Regs c l v h dev) (d_phase d)
  else if port =? 0x1f5 then DemoDisk (d_image d) (Regs c l m v dev) (d_phase d)
  else if port =? 0x1f6 then DemoDisk (d_image d) (Regs c l m h v) (d_phase d)
  else if port =? 0x1f7 then demo_command d v else d.

Definition demo_inb (d : demo_disk) (port : Z) : demo_disk * Z :=
  if port =? 0x1f6 then (d, r_dev (d_regs d))
  else if port =? 0x1f7 then
    (d, match d_phase d with Data _ _ => 0x48 | Reading _ _ => 0x80 | _ => 0x40 end)
  else (d, 0xff).

Definition demo_insw (d : demo_disk) (port : Z) (n : nat) : demo_disk * list Z :=
  match d_phase d with
  | Data ws dev => let '(Regs c l m h _) := d_regs d in
      (DemoDisk (d_image d) (Regs c l m h dev) Idle, take n (ws ++ replicate n 0xffff))
  | _ => (d, replicate n 0xffff)
  end.

#[export] Instance demo_bus : AtaBus demo_disk := {
  outb := demo_outb; inb := demo_inb; insw := demo_insw; outsw d _ _ := d; ten_ms d := d;
  await d _ := match d_phase d with Reading ws dev => Some (DemoDisk (d_image d) (d_regs d) (Data ws dev)) | _ => None end
}.

(** An image: sectors of 256 words of 16 bits. *)
Definition is_image (image : Z → Z → list Z) : Prop :=
  ∀ i lba, length (image i lba) = 256%nat ∧ Forall (λ w, 0 ≤ w < 65536) (image i lba).

Program Definition demo_ata image (Himage : is_image image) :
    AtaDisk demo_disk 0x1f0 (0x2e + Z.of_nat 0) image (λ _, 64) := {|
  ready d r := d = DemoDisk image r Idle;
  reading d ws dev := d_image d = image ∧ d_phase d = Reading ws dev;
  data d ws dev := d_image d = image ∧ d_phase d = Data ws dev;
  ident i := replicate 256 i;
  seeking d := d_phase d = Seeking
|}.
Next Obligation. intros image _ i. by rewrite length_replicate. Qed.
Next Obligation. intros image Himage i lba. apply Himage. Qed.
Next Obligation. intros image Himage i lba. apply Himage. Qed.
Next Obligation. by intros image _ ? [] v -> _. Qed.
Next Obligation. by intros image _ ? [] v -> _. Qed.
Next Obligation. by intros image _ ? [] v -> _. Qed.
Next Obligation. by intros image _ ? [] v -> _. Qed.
Next Obligation. by intros image _ ? [] v -> _. Qed.
Next Obligation. intros image _ ? [] ->. by eexists. Qed.
Next Obligation. by intros image _ ? [] -> _ _. Qed.
Next Obligation. by intros image _ ? [] ->. Qed.
Next Obligation. intros image _ d ws dev [Ei E]. cbn. rewrite E. by eexists. Qed.
Next Obligation. intros image _ d ws dev [Ei E]. cbn. unfold demo_inb. rewrite E. by eexists _, _. Qed.
Next Obligation.
  intros image _ [? [] p] port k. cbn. unfold demo_insw. cbn. destruct p; cbn; [by rewrite length_replicate..| |by rewrite length_replicate].
  rewrite length_take, length_app, length_replicate. lia.
Qed.
Next Obligation.
  intros image _ [? [] p] ws dev [Ei E] Hlen. cbn in *. unfold demo_insw. cbn [d_phase d_regs d_image]. rewrite E, take_app_length' by done. subst.
  by do 2 eexists.
Qed.
Next Obligation.
  intros image _ [? [] p] ws dev k [Ei E] Hlen Hk. cbn in *. unfold demo_insw. cbn [d_phase d_regs d_image]. rewrite E. cbn [snd].
  rewrite take_take, Nat.min_l by done. by rewrite take_app_le by lia.
Qed.
Next Obligation. by intros image _ ? [] ->. Qed.
Next Obligation. intros image _ d E. cbn. unfold demo_inb. rewrite E. by eexists _, _. Qed.
Next Obligation. done. Qed.

Definition demo_sector (i lba : Z) : list Z := (λ j, (1000 * i + 256 * lba + j) mod 65536) <$> seqZ 0 256.
Lemma demo_sector_image : is_image demo_sector.
Proof.
  intros i lba. unfold demo_sector. split; [by rewrite length_fmap, length_seqZ|].
  apply Forall_fmap, Forall_forall. intros j _. cbn. by apply Z.mod_pos_bound.
Qed.

Definition demo_idle : demo_disk := DemoDisk demo_sector (Regs 0 0 0 0 0) Idle.
Definition demo_channels : list ide_channel := [chan 0x1f0 0 unlocked false 0].

Lemma demo_streams image Himage :
  streams demo_disk 0x1f0 (0x2e + Z.of_nat 0) image (λ _, 64) (H0 := demo_ata image Himage).
Proof.
  intros [? [] p] ws dev [Ei E]. cbn in *. unfold demo_insw. cbn [d_phase d_regs d_image].
  rewrite E, take_app_length' by done. subst. by do 2 eexists.
Qed.

Lemma ide_read_reads_witness : ∃ d' d2 others,
  ide_read (Driver demo_idle demo_channels) 4096 (Drive 0 1) 5 (replicate 1030 7) 2 =
    Ok (Driver d' demo_channels, word_bytes (demo_sector 1 5) ++ others ++ replicate 6 7) ∧
  length others = 512%nat ∧
  ide_read (Driver demo_idle demo_channels) 4096 (Drive 0 1) 5 (replicate 1030 7) 2 =
    Ok (Driver d2 demo_channels, word_bytes (sectors (demo_sector 1) 5 2) ++ replicate 6 7).
Proof.
  destruct (ide_read_reads (AtaDisk0 := demo_ata _ demo_sector_image) 0x1f0 0 demo_sector (λ _, 64) demo_idle demo_channels 4096 (Drive 0 1)
    (Regs 0 0 0 0 0) 5 2 (replicate 1030 7)) as [Hone Hall];
    [lia|reflexivity|reflexivity|discriminate|reflexivity|lia|lia|cbn; lia|lia|reflexivity
    |split; [by vm_compute|by vm_compute]|].
  destruct (Hone ltac:(lia)) as (d' & others & Hlen & E & _).
  destruct (Hall (demo_streams _ _)) as (d2 & r2 & E2 & _).
  exists d', d2, others. split; [exact E|]. split; [exact Hlen|exact E2].
Defined.

Lemma ide_write_stops_witness :
  ide_write (Driver demo_idle demo_channels) 4096 (Drive 0 1) 5 (replicate 512 7) 1 = Panic.
Proof.
  apply (ide_write_stops (AtaDisk0 := demo_ata _ demo_sector_image) 0x1f0 0 demo_sector (λ _, 64) demo_idle demo_channels 4096 (Drive 0 1)
    (Regs 0 0 0 0 0) 5 1 (replicate 512 7)); [lia|reflexivity|reflexivity|discriminate|reflexivity|lia].
Defined.

Lemma busy_wait_ends_witness : ∃ s' ok,
  busy_wait (Driver demo_idle demo_channels) (Drive 0 0) = Ok (s', ok).
Proof.
  destruct (busy_wait_ends (Driver demo_idle demo_channels) (Drive 0 0) (chan 0x1f0 0 unlocked false 0))
    as (s' & ok & E); [reflexivity|].
  exists s', ok. exact E.
Defined.
