(* ===== verification/Wait.v ===== *)
(** Waiting for the disk at start-up: the threads' side of [sema_down(&disk_ok)] in [disk_identify] and
    [ide_read] (device/ide.c), when there is only the main thread and the idle thread.  The main
    thread blocks itself, the idle thread runs ([Idle]), and the handler of the disk wakes the main thread
    up, which goes on when the scheduler comes to it.  What the interrupt says of the disk is in [Ide]. *)
From S2P Require Import Prelude KList Thread Sync Timer Desc Idle Ide.
Local Open Scope Z_scope.
Local Abbreviation length := List.length.

(** * State *)

(** [WGo]: the next statement of the idle thread.  [WClock]: an interrupt of the clock.  [WOther]: one of
    another device, whose handler has no thread to wake.  [WDisk]: the disk asks for its interrupt. *)
Inductive wait_event := WGo | WClock | WOther | WDisk.
#[export] Instance wait_event_eq_dec : EqDecision wait_event.
Proof. solve_decision. Defined.

(** The scheduler with the idle thread; the semaphore [disk_ok] of the channel; its [wait_intr]; and whether
    the disk asks for an interrupt that the processor has not taken yet. *)
Record waiting := Waiting { w_state : istate; w_sema : semaphore; w_wait_intr : bool; w_raised : bool }.

Definition set_state (x : waiting) (s : istate) : waiting := Waiting s (w_sema x) (w_wait_intr x) (w_raised x).

(** * Steps *)

Section steps.
Variable fuel : nat.

(** The interrupt of the disk is taken as soon as interrupts are on; [hard_disk_service] gives the
    semaphore only for the first one after a command. *)
Definition take_disk (x : waiting) : outcome waiting :=
  let (k, i) := w_state x in
  if w_raised x && intr_on k then
    let k := Thread.set_intr k false in
    let! (k, s) := if w_wait_intr x then sema_up fuel k (w_sema x) else Ok (k, w_sema x) in
    Ok (Waiting (Thread.set_intr k true, end_hlt i) s false false)
  else Ok x.

(** While the main thread sleeps the idle thread runs.  The clock and the other devices have an effect only
    when interrupts are on. *)
Definition wait_step (x : waiting) (e : wait_event) : outcome waiting :=
  let (k, i) := w_state x in
  let! x :=
    match e with
    | WGo => let! s := cpu_idle fuel (k, i) in Ok (set_state x s)
    | WClock => if intr_on k then let! s := clock_interrupt fuel (k, i) in Ok (set_state x s) else Ok x
    | WOther => if intr_on k then let! s := device_interrupt Ok (k, i) in Ok (set_state x s) else Ok x
    | WDisk => Ok (Waiting (w_state x) (w_sema x) (w_wait_intr x) true)
    end in
  take_disk x.

(** Until the thread [main] runs again; the events that are left. *)
Fixpoint wait_events (main : Z) (es : list wait_event) (x : waiting) : outcome (waiting * list wait_event) :=
  if current_task (fst (w_state x)) =? main then Ok (x, es)
  else match es with
       | [] => NoFuel
       | e :: es => let! x := wait_step x e in wait_events main es x
       end.

(** The loop of [sema_down]; [n] bounds its turns. *)
Fixpoint down_loop (n : nat) (main : Z) (es : list wait_event) (x : waiting) : outcome waiting :=
  match n with
  | O => NoFuel
  | S n =>
      let (k, i) := w_state x in
      let! (k, s, b) := sema_down_turn fuel k (w_sema x) in
      let x := Waiting (k, i) s (w_wait_intr x) (w_raised x) in
      match b with
      | None => Ok x
      | Some old_status =>
          let! (x, es) := wait_events main es x in
          let (k, i) := w_state x in
          down_loop n main es (set_state x (set_intr_status k old_status, i))
      end
  end.

(** The first turn sleeps, the second takes the semaphore. *)
Definition down_turns : nat := 2.

(** [sema_down(&disk_ok)] by the running thread, after a command: [disk_ok] is 0, and [wait_intr] is set. *)
Definition disk_wait (es : list wait_event) (s : istate) : outcome istate :=
  let (k, i) := s in
  let main := get_cur_task k in
  let (k, old_status) := local_irq_disable k in
  let! x := down_loop down_turns main es (Waiting (k, i) (sema_init 0) true false) in
  let (k, i) := w_state x in
  Ok (set_intr_status k old_status, i).
End steps.

(** * The disk and the threads together *)

(** The hardware; the scheduler with the idle thread ([None]: not followed any more); how many times a thread has
    waited for the disk. *)
Record board (D : Type) := Board { b_hw : D; b_sched : option istate; b_waits : nat }.
Arguments Board {D}.
Arguments b_hw {D}.
Arguments b_sched {D}.
Arguments b_waits {D}.

(** What the driver does with the hardware of a board, when the events of the [n]-th wait are [oracle n].  A disk that is
    busy after its interrupt makes the driver call [mil_sleep]; what the threads do then is not followed. *)
Definition board_bus {D} `{AtaBus D} (fuel : nat) (oracle : nat → list wait_event) : AtaBus (board D) := {|
  outb b port v := Board (outb (b_hw b) port v) (b_sched b) (b_waits b);
  inb b port := let (d, v) := inb (b_hw b) port in (Board d (b_sched b) (b_waits b), v);
  insw b port n := let (d, ws) := insw (b_hw b) port n in (Board d (b_sched b) (b_waits b), ws);
  outsw b port ws := Board (outsw (b_hw b) port ws) (b_sched b) (b_waits b);
  ten_ms b := Board (ten_ms (b_hw b)) None (b_waits b);
  await b irq :=
    d ← await (b_hw b) irq; s ← b_sched b;
    match disk_wait fuel (oracle (b_waits b)) s with
    | Ok s => Some (Board d (Some s) (S (b_waits b)))
    | _ => None
    end
|}.

(** One wait after the other, the [n]-th with the events [oracle n]. *)
Fixpoint disk_waits (fuel : nat) (oracle : nat → list wait_event) (n : nat) (s : istate) : outcome istate :=
  match n with
  | O => Ok s
  | S n => let! s := disk_waits fuel oracle n s in disk_wait fuel (oracle n) s
  end.

(** * Which orders of events end the wait *)

(** What is still needed when the main thread is ready: the idle thread gets to its next [thread_block]. *)
Definition woken_need (p : idle_pc) : list wait_event :=
  match p with
  | IdleBlock => [WGo]
  | IdlePrint => [WGo; WGo; WClock; WGo]
  | IdleHlt => [WGo; WClock; WGo]
  | Halted => [WClock; WGo]
  end.

(** What is enough, however other events come in between: the interrupt of the disk; then the idle thread may be
    before [set_intr_status] in [thread_block], before [put_str] or before [hlt], and has to be woken by the
    clock. *)
Definition disk_answers : list wait_event := [WDisk; WGo; WGo; WGo; WClock; WGo].

Definition need (x : waiting) : list wait_event :=
  if w_wait_intr x then
    if w_raised x then
      (if decide (is_Some (i_susp (w_state x).2)) then [WGo] else []) ++ woken_need IdlePrint
    else disk_answers
  else woken_need (i_pc (w_state x).2).

(** What remains of it after the event [e]. *)
Definition after (l : list wait_event) (e : wait_event) : list wait_event :=
  match l with
  | [] => []
  | e' :: l' => if decide (e' = e) then l' else l
  end.

Lemma after_sublist l e es : l `sublist_of` e :: es → after l e `sublist_of` es.
Proof.
  destruct l as [|e' l]; [intros _; apply sublist_nil_l|]. intros Hs. cbn. case_decide as Hd.
  - subst. apply sublist_cons_r in Hs as [Hs|(l' & El & Hs)].
    + etrans; [|exact Hs]. by apply sublist_cons.
    + by injection El as ->.
  - apply sublist_cons_r in Hs as [Hs|(l' & El & Hs)]; [done|]. by injection El as ->.
Qed.

(** A list of events in another one, taking each as early as possible. *)
Ltac sublist := repeat first [apply sublist_nil_l | reflexivity | apply sublist_skip | apply sublist_cons].

Lemma need_woken p : p ≠ Halted → woken_need p `sublist_of` woken_need IdlePrint.
Proof. intros Hp. destruct p; [| | |done]; cbn; sublist. Qed.
Lemma need_end_hlt p e i : i_pc i = p → e ≠ WGo → woken_need (i_pc (end_hlt i)) `sublist_of` after (woken_need p) e.
Proof.
  intros <- He. unfold end_hlt. destruct i as [p ???]; cbn. destruct p; cbn; destruct e; try done; cbn; sublist.
Qed.

(** * Lemmas *)

Section two.
Context (idle main : Z) (fuel : nat) (Hne : idle ≠ main) (Hf : (2 ≤ fuel)%nat).
Local Abbreviation ts := [idle; main].

(** The main thread sleeps on the semaphore, or has been woken up; the idle thread runs. *)
Record waits0 (woken : bool) (m0 : mem) (x : waiting) : Prop := {
  wt_inv : iinv ts (w_state x) true (if woken then [main] else []);
  wt_idle : current_task (w_state x).1 = idle ∧ idle_thread (w_state x).1 = idle;
  wt_wait : w_wait_intr x = negb woken;
  wt_sema : value (w_sema x) = if woken then 1 else 0;
  wt_queue : queue_repr (nodes (w_state x).1) (waiter_queue (w_sema x)) (if woken then [] else [dispatch_node main]);
  wt_susp : woken = true → i_susp (w_state x).2 = None;
  wt_nodes : upd_nodes m0 (nodes (w_state x).1) (dispatch_node <$> ts)
}.

(** An interrupt of the disk is pending only when interrupts are off. *)
Definition waits (woken : bool) (m0 : mem) (x : waiting) : Prop :=
  waits0 woken m0 x ∧ (w_raised x = true → i_susp (w_state x).2 ≠ None).

(** The main thread runs again. *)
Record woke (m0 : mem) (x : waiting) : Prop := {
  wk_inv : ∃ rs, iinv ts (w_state x) true rs ∧ rs ⊆ [idle];
  wk_main : current_task (w_state x).1 = main ∧ idle_thread (w_state x).1 = idle ∧ intr_on (w_state x).1 = false;
  wk_sema : value (w_sema x) = 1 ∧ queue_repr (nodes (w_state x).1) (waiter_queue (w_sema x)) [];
  wk_nodes : upd_nodes m0 (nodes (w_state x).1) (dispatch_node <$> ts)
}.

Lemma two_asleep k rs t : kinv ts k rs → t ∈ ts → t ≠ current_task k → t ∉ rs → asleep k t.
Proof using.
  intros Hk Ht Hc Hr. destruct (kinv_task Hk t Ht) as [x Ex].
  assert (status_of k t = Some (status x)) as E by (unfold status_of, status_in; by rewrite Ex).
  exists (status x). split; [done|]. destruct (status x) eqn:Es; try done.
  - by rewrite (k_running _ _ _ Hk t E) in Hc.
  - by destruct Hr; apply (k_ready _ _ _ Hk).
  - by destruct (k_alive _ _ _ Hk t).
Qed.

(** The waiting queue is not touched by what happens to the other node. *)
Lemma queue_frame k rs m q : kinv ts k rs → upd_nodes (nodes k) m (dispatch_node <$> [idle]) →
  queue_repr (nodes k) q [dispatch_node main] → queue_repr m q [dispatch_node main].
Proof using Hne Hf.
  intros Hk Hu Hq. eapply qs_frame; [exact Hu| |exact Hq].
  apply (dispatch_disjoint ts k rs [main] [idle] Hk); [set_solver..|].
  intros t ->%list_elem_of_singleton Ht%list_elem_of_singleton. by apply Hne.
Qed.

Lemma nodes_only m0 m m' l : l ⊆ ts → upd_nodes m0 m (dispatch_node <$> ts) → upd_nodes m m' (dispatch_node <$> l) →
  upd_nodes m0 m' (dispatch_node <$> ts).
Proof using.
  intros Hl Hu Hu'. eapply upd_nodes_trans; [exact Hu|]. eapply upd_nodes_mono; [|exact Hu'].
  intros p (t & -> & Ht)%list_elem_of_fmap. apply list_elem_of_fmap. exists t. split; [done|]. by apply Hl.
Qed.

(** [sema_up] wakes the main thread up. *)
Lemma up_wakes k s : kinv ts k [] → running k → bounded k → current_task k = idle → idle_thread k = idle →
  value s = 0 → queue_repr (nodes k) (waiter_queue s) [dispatch_node main] →
  ∃ k' s', sema_up fuel k s = Ok (k', s') ∧ kinv ts k' [main] ∧ running k' ∧ bounded k' ∧
    current_task k' = idle ∧ idle_thread k' = idle ∧
    value s' = 1 ∧ queue_repr (nodes k') (waiter_queue s') [] ∧
    upd_nodes (nodes k) (nodes k') (dispatch_node <$> ts).
Proof using Hne Hf.
  intros Hk Hr Hb Hc Hi Hv Hq. unfold sema_up. rewrite local_irq_disable_eq, Hv, ASSERT_true by done. cbn [obind].
  pose proof (qs_len _ _ _ Hq) as Hlen. unfold queue_empty. rewrite Hlen. cbn [List.length Z.of_nat Z.eqb negb].
  destruct (qs_out _ _ _ _ Hq) as (m & q & Em & Hq' & Hu1). cbn [nodes Thread.set_intr]. rewrite Em. cbn [obind].
  assert (main ∈ ts) as Hm by (right; by left).
  rewrite dispatch_entry_node by (by apply (kinv_pcb Hk)).
  assert (main ∉ ([] : list Z)) as Hmr by (by intros ?%elem_of_nil).
  assert (kinv ts (set_nodes (Thread.set_intr k false) m) []) as Hk1.
  { apply (kinv_set_intr ts (set_nodes k m) [] false). apply (kinv_nodes ts k [] m [main]); [done|done|set_solver|].
    intros t _ ?%elem_of_nil. done. }
  assert (asleep k main) as Has by (by eapply (two_asleep k []); [..|rewrite Hc|]; eauto).
  destruct (thread_unblock_woken ts fuel _ [] main Hk1 Hf Hm Has) as (k' & Ek & Hk' & Ecur & Ei & _ & Hst & Hu2).
  rewrite Ek. cbn [obind]. cbn [value waiter_queue]. rewrite ?Hv. change (u8 (0 + 1)) with 1. cbn [Z.eqb ASSERT obind].
  change (negb (Z.of_nat 1 =? 0)) with true. cbn [obind value waiter_queue]. change (u8 (0 + 1)) with 1.
  rewrite ASSERT_true by done. cbn [obind]. rewrite set_intr_status_eq.
  eexists _, _. split; [reflexivity|]. cbn. cbn in Ecur, Ei. split_and!.
  - by apply kinv_set_intr.
  - unfold running, status_of in *. cbn. rewrite Ecur, Hst. rewrite decide_False by congruence. exact Hr.
  - apply (bounded_same k); [done|]. by eapply unblock_bounds in Ek.
  - congruence.
  - congruence.
  - done.
  - apply queue_repr_nil. by apply queue_repr_nil in Hq'.
  - eapply upd_nodes_trans.
    + eapply upd_nodes_mono; [|exact Hu1]. intros p. cbn. set_solver.
    + eapply upd_nodes_mono; [|exact Hu2]. intros p. cbn. set_solver.
Qed.

(** The interrupt of the disk. *)
Lemma take_spec b m0 x : waits0 b m0 x →
  ∃ x' b', take_disk fuel x = Ok x' ∧ waits b' m0 x' ∧ need x' `sublist_of` need x.
Proof using Hne Hf.
  intros Hw. pose proof Hw as [Hi (Hc & Hid) Hwt Hv Hq Hs Hn]. destruct x as [[k i] s wi r]. unfold take_disk.
  cbn [w_state w_sema w_wait_intr w_raised fst snd] in *. subst wi.
  destruct (r && intr_on k) eqn:E.
  2:{ exists (Waiting (k, i) s (negb b) r), b. split; [done|]. split; [|done]. split; [done|]. cbn. intros -> Hn'.
      destruct (ii_cpu _ _ _ _ Hi Hn') as [_ Hon]. cbn in Hon. by rewrite Hon in E. }
  apply andb_prop in E as [-> Hon]. assert (i_susp i = None) as Esu.
  { destruct (i_susp i) as [b0|] eqn:E; [|done]. destruct (ii_susp _ _ _ _ Hi b0 E) as (_ & _ & Hoff).
    cbn in Hoff. by rewrite Hoff in Hon by congruence. }
  pose proof Hi as [Hk Hr Hb _ _ _]. cbn [fst snd] in Hk, Hr, Hb. destruct b; cbn [negb].
  - eexists _, true. split; [reflexivity|]. cbn [obind].
    destruct (device_inv ts k i true [main] [main] Ok (Thread.set_intr k false) Hi Hon eq_refl) as [_ Hi'];
      [by apply kinv_set_intr|done..|].
    split; [split; [|done]; split; try done; cbn; [by rewrite end_hlt_susp]|].
    unfold need. cbn. etrans; [by eapply (need_end_hlt _ WClock)|]. destruct (i_pc i); cbn; sublist.
  - destruct (up_wakes (Thread.set_intr k false) s) as (k' & s' & E & Hk' & Hr' & Hb' & Hc' & Hi' & Hv' & Hq' & Hu);
      [by apply kinv_set_intr|done..|].
    eexists _, true. rewrite E. cbn [obind]. split; [reflexivity|].
    destruct (device_inv ts k i true [] [main] (λ _, Ok k') k' Hi Hon eq_refl) as [_ Hi1]; [done..|congruence|congruence|].
    split; [split; [|done]; split; try done; cbn; [by rewrite end_hlt_susp|]|].
    + by eapply upd_nodes_trans.
    + unfold need. cbn. rewrite Esu. cbn. apply need_woken, end_hlt_pc.
Qed.

(** ** Events *)

Lemma iinv_true s d rs : iinv ts s d rs → iinv ts s true rs.
Proof using. by intros []. Qed.

(** The next statement of the idle thread. *)
Lemma go_spec b m0 x : waits b m0 x →
  ∃ s, cpu_idle fuel (w_state x) = Ok s ∧
    (waits0 b m0 (set_state x s) ∧ need (set_state x s) `sublist_of` after (need x) WGo ∨ woke m0 (set_state x s)).
Proof using Hne Hf.
  intros [Hw Hp]. pose proof Hw as [Hi (Hc & Hid) Hwt Hv Hq Hs Hn]. destruct x as [[k i] q wi r].
  cbn [w_state w_sema w_wait_intr w_raised fst snd set_state] in *. subst wi.
  assert (current_task k = idle_thread k) as Hrun by congruence.
  destruct (go_inv ts fuel Hf k i true _ Hi Hrun) as ([k' i'] & rs' & E & Hi'%iinv_true & Hid' & Hu & Hcase).
  cbn [fst snd] in *. pose proof (ii_kern _ _ _ _ Hi) as Hk. cbn in Hk.
  exists (k', i'). split; [exact E|]. case_decide as Hblock.
  - destruct Hcase as (El & Hoff & Ep & Es). destruct b; cbn [or_idle] in El, Hu; injection El as El <-.
    + right. split; cbn.
      * exists []. split; [exact Hi'|set_solver].
      * split_and!; congruence.
      * split; [done|]. by apply queue_repr_nil in Hq; apply queue_repr_nil.
      * eapply nodes_only; [|exact Hn|exact Hu]. set_solver.
    + rewrite Hid in Hu. left. split; [split; cbn; try done; [split; congruence| |]|].
      * by eapply queue_frame.
      * eapply nodes_only; [|exact Hn|exact Hu]. set_solver.
      * destruct Hblock as [_ Eb]. destruct r; [by destruct (Hp eq_refl)|]. unfold need. cbn. sublist.
  - destruct Hcase as (-> & Hc' & Es & Ep). left. split; [split; cbn; try done; [split; congruence| |]|].
    + destruct b; [by apply queue_repr_nil in Hq; apply queue_repr_nil|]. cbn [or_idle] in Hu; rewrite Hid in Hu. by eapply queue_frame.
    + eapply nodes_only; [|exact Hn|exact Hu]. destruct b; cbn [or_idle]; [|rewrite Hid]; set_solver.
    + unfold need. cbn. destruct b; cbn.
      * rewrite Hs in Ep, Hblock by done. rewrite Ep. destruct (i_pc i); cbn; sublist. by destruct Hblock.
      * rewrite Es. destruct r; cbn; [|sublist]. destruct (i_susp i); cbn; [sublist|by destruct (Hp eq_refl)].
Qed.

(** An interrupt of the clock, when it can come. *)
Lemma clock_wait b m0 x : waits b m0 x → intr_on (w_state x).1 = true →
  ∃ s, clock_interrupt fuel (w_state x) = Ok s ∧
    (waits0 b m0 (set_state x s) ∧ need (set_state x s) `sublist_of` after (need x) WClock ∨ woke m0 (set_state x s)).
Proof using Hne Hf.
  intros [Hw Hp] Hon. pose proof Hw as [Hi (Hc & Hid) Hwt Hv Hq Hs Hn]. destruct x as [[k i] q wi r].
  cbn [w_state w_sema w_wait_intr w_raised fst snd set_state] in *. subst wi.
  pose proof (ii_kern _ _ _ _ Hi) as Hk. cbn in Hk.
  destruct (clock_spec ts fuel Hf k i true _ Hi Hon) as (k' & i' & rs' & E & Hi' & Ep & Hid' & Hu & Hcase).
  exists (k', i'). split; [exact E|]. rewrite Hc in *.
  assert (i_susp i = None) as Esu.
  { destruct (i_susp i) as [b0|] eqn:Eb; [|done]. destruct (ii_susp _ _ _ _ Hi b0 Eb) as (_ & _ & Hoff).
    cbn in Hoff. by rewrite Hoff in Hon by congruence. }
  assert (r = false) as -> by (by destruct r; [destruct (Hp eq_refl)|]).
  destruct Hcase as [(Hc' & -> & Es & _)|(El & Hoff & Es)].
  - left. split; [split; cbn; try done; [split; congruence| |by rewrite Es|]|].
    + destruct b; [by apply queue_repr_nil in Hq; apply queue_repr_nil|]. by eapply queue_frame.
    + eapply nodes_only; [|exact Hn|exact Hu]. destruct b; set_solver.
    + unfold need. cbn. destruct b; cbn; [|sublist]. rewrite Ep. by apply need_end_hlt.
  - destruct b; cbn in El; injection El as El ->.
    + right. split; cbn.
      * exists [idle]. split; [exact Hi'|done].
      * split_and!; congruence.
      * split; [done|]. by apply queue_repr_nil in Hq; apply queue_repr_nil.
      * eapply nodes_only; [|exact Hn|exact Hu]. set_solver.
    + left. split; [split; cbn; try done; [split; congruence| |]|].
      * by eapply queue_frame.
      * eapply nodes_only; [|exact Hn|exact Hu]. set_solver.
      * unfold need. cbn. sublist.
Qed.

(** An interrupt of another device. *)
Lemma other_wait b m0 x : waits b m0 x → intr_on (w_state x).1 = true →
  ∃ s, device_interrupt Ok (w_state x) = Ok s ∧
    waits0 b m0 (set_state x s) ∧ need (set_state x s) `sublist_of` after (need x) WOther.
Proof using Hne Hf.
  intros [Hw Hp] Hon. pose proof Hw as [Hi (Hc & Hid) Hwt Hv Hq Hs Hn]. destruct x as [[k i] q wi r].
  cbn [w_state w_sema w_wait_intr w_raised fst snd set_state] in *. subst wi.
  pose proof Hi as [Hk Hr Hb _ _ _]. cbn [fst snd] in Hk, Hr, Hb.
  destruct (device_inv ts k i true _ (if b then [main] else []) Ok (Thread.set_intr k false) Hi Hon eq_refl) as [E Hi'];
    [by apply kinv_set_intr|done..|].
  rewrite E. eexists. split; [reflexivity|]. split; [split; cbn; try done; by rewrite end_hlt_susp|].
  unfold need. cbn. rewrite end_hlt_susp. destruct b; cbn; [by apply need_end_hlt|].
  destruct r; [|cbn; sublist]. destruct (decide _); cbn; sublist.
Qed.

(** When interrupts are off, only the disk or the idle thread can bring the wait further. *)
Lemma need_off b m0 x e : waits b m0 x → intr_on (w_state x).1 = false → e = WClock ∨ e = WOther →
  need x `sublist_of` after (need x) e.
Proof using.
  intros [Hw _] Hoff He. destruct x as [[k i] q wi r]. pose proof (ii_cpu _ _ _ _ (wt_inv _ _ _ Hw)) as Hcpu.
  pose proof (wt_susp _ _ _ Hw) as Hs. pose proof (wt_wait _ _ _ Hw) as Hwt. cbn in *. subst wi.
  assert (i_susp i ≠ None) as Hn by (intros En; destruct (Hcpu En) as [_ Hon]; by rewrite Hon in Hoff).
  destruct b; [by destruct Hn; apply Hs|]. unfold need. cbn. destruct (i_susp i); [|done].
  destruct He as [-> | ->], r; cbn; sublist.
Qed.

(** The disk asks for its interrupt. *)
Lemma disk_raises b m0 x : waits b m0 x →
  let x' := Waiting (w_state x) (w_sema x) (w_wait_intr x) true in
  waits0 b m0 x' ∧ need x' `sublist_of` after (need x) WDisk.
Proof using.
  intros [Hw Hp]. destruct x as [[k i] q wi r]. split; [by destruct Hw|].
  pose proof (wt_wait _ _ _ Hw) as Hwt. cbn in *. subst wi. unfold need. cbn.
  destruct b; cbn; [destruct (i_pc i); cbn; sublist|]. destruct r; [|case_decide; cbn; sublist].
  destruct (decide _); cbn; sublist.
Qed.

(** Every event: the wait goes on, with less to come, or ends. *)
Lemma step_wait b m0 x e : waits b m0 x →
  ∃ x', wait_step fuel x e = Ok x' ∧
    (woke m0 x' ∨ ∃ b', waits b' m0 x' ∧ need x' `sublist_of` after (need x) e).
Proof using Hne Hf.
  intros Hx.
  assert (∀ x1, waits0 b m0 x1 ∧ need x1 `sublist_of` after (need x) e ∨ woke m0 x1 →
    ∃ x', take_disk fuel x1 = Ok x' ∧ (woke m0 x' ∨ ∃ b', waits b' m0 x' ∧ need x' `sublist_of` after (need x) e)) as Htake.
  { intros x1 [[H1 Hn1]|H1].
    - destruct (take_spec b m0 x1 H1) as (x' & b' & E & Hx' & Hn'). exists x'. split; [done|]. right.
      exists b'. split; [done|]. by etrans.
    - exists x1. split; [|by left]. pose proof (wk_main _ _ H1) as (_ & _ & Hoff). unfold take_disk.
      destruct (w_state x1). cbn in Hoff. by rewrite Hoff, andb_false_r. }
  unfold wait_step. destruct (w_state x) as [k i] eqn:Est.
  assert (intr_on (w_state x).1 = intr_on k) as Eon by (by rewrite Est). destruct e.
  - destruct (go_spec b m0 x Hx) as (s & E & Hs). rewrite Est in E. rewrite E. by apply Htake.
  - destruct (intr_on k) eqn:Hon.
    + destruct (clock_wait b m0 x Hx Eon) as (s & E & Hs). rewrite Est in E. rewrite E. by apply Htake.
    + apply Htake. left. split; [apply Hx|]. apply (need_off b m0 x WClock Hx Eon). by left.
  - destruct (intr_on k) eqn:Hon.
    + destruct (other_wait b m0 x Hx Eon) as (s & E & Hs). rewrite Est in E. rewrite E. apply Htake. by left.
    + apply Htake. left. split; [apply Hx|]. apply (need_off b m0 x WOther Hx Eon). by right.
  - apply Htake. left. rewrite <- Est. apply (disk_raises b m0 x Hx).
Qed.

(** The wait ends. *)
Lemma events_wait es : ∀ b m0 x, waits b m0 x → need x `sublist_of` es →
  ∃ x' es', wait_events fuel main es x = Ok (x', es') ∧ woke m0 x'.
Proof using Hne Hf.
  induction es as [|e es IH]; intros b m0 x Hx Hs.
  - apply sublist_nil_r in Hs. unfold need in Hs. destruct (w_wait_intr x); [destruct (w_raised x)|]; try discriminate;
      [destruct (decide _); discriminate|destruct (i_pc _); discriminate].
  - cbn [wait_events]. pose proof Hx as [Hw _]. rewrite (proj1 (wt_idle _ _ _ Hw)).
    rewrite (proj2 (Z.eqb_neq _ _) Hne). destruct (step_wait b m0 x e Hx) as (x1 & E & Hcase). rewrite E. cbn [obind].
    destruct Hcase as [Hwoke|(b' & Hx1 & Hn)].
    + exists x1, es. split; [|done]. destruct es; cbn [wait_events]; by rewrite (proj1 (wk_main _ _ Hwoke)), Z.eqb_refl.
    + eapply IH; [exact Hx1|]. etrans; [exact Hn|]. by apply after_sublist.
Qed.

(** ** The whole wait *)

(** The main thread runs with interrupts off; the idle thread is ready, or sleeps. *)
Definition at_rest (s : istate) : Prop :=
  (∃ rs, iinv ts s true rs ∧ rs ⊆ [idle]) ∧
  current_task s.1 = main ∧ idle_thread s.1 = idle ∧ intr_on s.1 = false.

Lemma rest_ready k rs : kinv ts k rs → rs ⊆ [idle] → rs = [] ∨ rs = [idle].
Proof using.
  intros Hk Hrs. pose proof (k_nodup _ _ _ Hk) as Hnd. destruct rs as [|t [|t' rs]]; [by left|right|].
  - f_equal. apply list_elem_of_singleton, Hrs. by left.
  - assert (t = idle ∧ t' = idle) as [-> ->] by (split; apply list_elem_of_singleton, Hrs; [by left|right; by left]).
    apply NoDup_cons in Hnd as [Hnd _]. by destruct Hnd; left.
Qed.

(** The first turn of [sema_down]. *)
Lemma turn_sleeps k i : at_rest (k, i) →
  ∃ k' s, sema_down_turn fuel k (sema_init 0) = Ok (k', s, Some false) ∧
    waits false (nodes k) (Waiting (k', i) s true false).
Proof using Hne Hf.
  intros ((rs & Hi & Hrs) & Hc & Hid & Hoff). pose proof Hi as [Hk Hr Hb Hcpu Hsusp _]. cbn [fst snd] in *.
  assert (main ∈ ts) as Hm by (right; by left).
  assert (main ∉ rs) as Hmr by (rewrite <- Hc; by apply (running_not_ready ts)).
  assert (or_idle k rs = [idle]) as Elst by (destruct (rest_ready k rs Hk Hrs) as [-> | ->]; cbn; congruence).
  unfold sema_down_turn, get_cur_task. rewrite Hc. change (value (sema_init 0) =? 0) with true. cbn [waiter_queue sema_init].
  assert (queue_repr (nodes k) queue_init (dispatch_node <$> [])) as Hq0 by (by apply queue_repr_nil).
  rewrite (kinv_find Hk fuel queue_init [] main Hq0) by (done || by apply NoDup_nil_2 || set_solver || (cbn; lia)).
  cbn [obind ASSERT negb].
  destruct (qs_in _ _ _ (dispatch_node main) Hq0) as (m & q & Em & Hq & Hu).
  { apply (kinv_insertable Hk); [done|set_solver|by intros ?%elem_of_nil]. } { done. }
  rewrite Em. cbn [obind]. 
  assert (kinv ts (set_nodes k m) rs) as Hk1.
  { apply (kinv_nodes ts k rs m [main]); [done|done|set_solver|]. by intros t ->%list_elem_of_singleton. }
  destruct (thread_block_switched ts fuel (set_nodes k m) rs TASK_BLOCKED Hk1 Hr Hf eq_refl) as (k' & Eb & Hsw).
  rewrite Eb. cbn [obind intr_on set_nodes]. rewrite Hoff. exists k'. eexists. split; [reflexivity|].
  change (or_idle (set_nodes k m) rs) with (or_idle k rs) in Hsw. rewrite Elst in Hsw.
  pose proof (switched_running _ _ _ _ _ Hsw) as Hr'. destruct Hsw as [(rs' & El & Hk') Ei Hoff' Hst Hu']. injection El as Ec <-.
  assert (is_Some (i_susp i)) as [b Es] by (destruct (i_susp i); [by eexists|]; destruct Hcpu; congruence).
  destruct (Hsusp b Es) as (-> & Hp & _). cbn in Ei. split; [|done].
  split; cbn; [split; cbn; try done|split; congruence|done|done| |done|].
  - apply (bounded_same k); [done|]. by eapply block_bounds in Eb.
  - by rewrite Es.
  - intros b Eb'. rewrite Es in Eb'. injection Eb' as <-. by split_and!.
  - eapply (queue_frame (set_nodes k m) rs); [done|exact Hu'|exact Hq].
  - eapply upd_nodes_trans.
    + eapply upd_nodes_mono; [|exact Hu]. intros p. cbn. set_solver.
    + eapply upd_nodes_mono; [|exact Hu']. intros p. cbn. set_solver.
Qed.

(** The second one. *)
Lemma turn_takes m0 x : woke m0 x →
  ∃ s, sema_down_turn fuel (w_state x).1 (w_sema x) = Ok ((w_state x).1, s, None) ∧ value s = 0.
Proof using.
  intros [_ _ [Hv _] _]. unfold sema_down_turn. rewrite Hv. cbn [Z.eqb value].
  change (u8 (1 - 1) =? 0) with true. cbn [ASSERT obind]. by eexists.
Qed.

(** [sema_down] returns, and the threads are again as before, but for the place of the idle thread. *)
Lemma disk_wait_spec k i es : at_rest (k, i) → disk_answers `sublist_of` es →
  ∃ k' i', disk_wait fuel es (k, i) = Ok (k', i') ∧ at_rest (k', i') ∧
    upd_nodes (nodes k) (nodes k') (dispatch_node <$> ts).
Proof using Hne Hf.
  intros Hrest Hes. pose proof Hrest as (_ & Hc & _ & Hoff). cbn in Hc, Hoff.
  unfold disk_wait, get_cur_task. rewrite Hc, local_irq_disable_eq, Hoff.
  assert (Thread.set_intr k false = k) as -> by (rewrite <- Hoff; apply set_intr_id).
  destruct (turn_sleeps k i Hrest) as (k1 & s1 & E1 & Hx1). unfold down_turns. cbn [down_loop w_state w_sema w_wait_intr w_raised].
  rewrite E1. cbn [obind].
  destruct (events_wait es false (nodes k) _ Hx1) as (x & es' & E2 & Hx); [exact Hes|]. rewrite E2. cbn [obind].
  destruct (w_state x) as [k2 i2] eqn:Est. rewrite set_intr_status_eq.
  assert (Thread.set_intr k2 false = k2) as ->.
  { pose proof (wk_main _ _ Hx) as (_ & _ & Hoff2). rewrite Est in Hoff2. cbn in Hoff2. rewrite <- Hoff2. apply set_intr_id. }
  destruct (turn_takes _ _ Hx) as (s & E3 & Hs). rewrite Est in E3. cbn in E3. cbn [set_state w_state w_sema w_wait_intr w_raised].
  rewrite E3. cbn [obind w_state]. exists k2, i2. rewrite set_intr_status_eq.
  destruct Hx as [Hinv Hmain _ Hn]. rewrite Est in Hinv, Hmain, Hn. cbn in Hmain, Hn. destruct Hmain as (Hc2 & Hid2 & Hoff2).
  assert (Thread.set_intr k2 false = k2) as -> by (rewrite <- Hoff2; apply set_intr_id).
  split; [done|]. split; [|done]. by split.
Qed.
End two.

(** ** The disk and the threads *)

Section board.
Context {D : Type} `{AtaBus D} (base irq : Z) (sector : Z → Z → list Z) (size : Z → Z).
Context `{!AtaDisk D base irq sector size}.
Context (idle main : Z) (fuel : nat) (Hne : idle ≠ main) (Hf : (2 ≤ fuel)%nat).
Context (oracle : nat → list wait_event) (Horacle : ∀ n, disk_answers `sublist_of` oracle n).
Local Existing Instance board_bus.

(** The main thread runs; the state is what the waits have made of [s0], and the memory differs in the nodes of the two
    threads only. *)
Definition settled (s0 : istate) (b : board D) : Prop :=
  ∃ s, b_sched b = Some s ∧ at_rest idle main s ∧ upd_nodes (nodes s0.1) (nodes s.1) (dispatch_node <$> [idle; main]) ∧
    disk_waits fuel oracle (b_waits b) s0 = Ok s.

(** A disk that behaves as documented still does, when the threads run in each wait. *)
Program Definition board_ata (s0 : istate) : AtaDisk (H := board_bus fuel oracle) (board D) base irq sector size := {|
  ready b r := ready (b_hw b) r ∧ settled s0 b;
  reading b ws dev := reading (b_hw b) ws dev ∧ settled s0 b;
  data b ws dev := data (b_hw b) ws dev ∧ settled s0 b;
  seeking b := seeking (b_hw b);
  ident := ident
|}.
Next Obligation. intros. apply ident_length. Qed.
Next Obligation. intros. apply sector_length. Qed.
Next Obligation. intros. apply sector_words. Qed.
Next Obligation. intros * [Hr Hs] Hv. split; [by apply ata_cnt|done]. Qed.
Next Obligation. intros * [Hr Hs] Hv. split; [by apply ata_l|done]. Qed.
Next Obligation. intros * [Hr Hs] Hv. split; [by apply ata_m|done]. Qed.
Next Obligation. intros * [Hr Hs] Hv. split; [by apply ata_h|done]. Qed.
Next Obligation. intros * [Hr Hs] Hv. split; [by apply ata_dev|done]. Qed.
Next Obligation.
  intros s0 b r [Hr Hs]. destruct (ata_get_dev _ _ Hr) as (d' & E & Hr'). cbn. rewrite E. by eexists.
Qed.
Next Obligation. intros * [Hr Hs] Hm Hl. split; [by apply ata_read|done]. Qed.
Next Obligation. intros * [Hr Hs]. split; [by apply ata_identify|done]. Qed.
Next Obligation.
  intros s0 b ws dev [Hr (s & Es & Hrest & Hn & Hwaits)]. destruct (ata_interrupt _ _ _ Hr) as (d' & E & Hd').
  destruct s as [k i]. destruct (disk_wait_spec idle main fuel Hne Hf k i (oracle (b_waits b)) Hrest) as (k' & i' & Ew & Hrest' & Hn');
    [apply Horacle|].
  cbn -[disk_wait]. rewrite E. cbn -[disk_wait]. rewrite Es. cbn -[disk_wait]. rewrite Ew. eexists. split; [reflexivity|]. split; [done|]. cbn.
  exists (k', i'). split; [done|]. split; [done|]. split; [by eapply upd_nodes_trans|].
  cbn [b_waits disk_waits]. rewrite Hwaits. exact Ew.
Qed.
Next Obligation.
  intros s0 b ws dev [Hd Hs]. destruct (ata_status _ _ _ Hd) as (d' & v & E & Hd' & Hv). cbn. rewrite E. by do 2 eexists.
Qed.
Next Obligation.
  intros s0 b port k. cbn. pose proof (insw_length (b_hw b) port k) as Hl. by destruct (insw (b_hw b) port k).
Qed.
Next Obligation.
  intros s0 b ws dev [Hd Hs] Hl. destruct (ata_data _ _ _ Hd Hl) as (d' & r & E & Hr & Hdev). cbn. rewrite E. by do 2 eexists.
Qed.
Next Obligation.
  intros s0 b ws dev k [Hd Hs] Hl Hk. pose proof (ata_data_first _ _ _ k Hd Hl Hk) as E. cbn. by destruct (insw (b_hw b) _ k).
Qed.
Next Obligation. intros s0 b r [Hr Hs]. by eapply ata_recalibrate. Qed.
Next Obligation.
  intros s0 b Hs. destruct (ata_seek_status _ Hs) as (d' & v & E & Hs' & Hv). cbn. rewrite E. by do 2 eexists.
Qed.
Next Obligation. intros s0 b Hs. by apply ata_seek_wait. Qed.
End board.

(** * Examples *)

(** The main thread 4096 and the idle thread 8192, which is ready and has not run yet. *)
Definition demo_two : kstate :=
  KState (list_to_map [(4148, 0); (4152, 0); (8244, 8244); (8248, 8244)])
    {[ 4096 := demo_task TASK_RUNNING 1; 8192 := demo_task TASK_READY 1 ]} (GeneralQueue 8244 1) 4096 8192 false.

(** The threads after a wait: the status of the idle thread, its program point, what it has printed. *)
Definition after_wait (es : list wait_event) : outcome (Z * option task_status * idle_pc * list printed) :=
  let! (k, i) := disk_wait 2 es (demo_two, idle_new 0) in
  Ok (current_task k, status_of k 8192, i_pc i, i_out i).

(** The disk is fast: the idle thread comes to its first [thread_block] and sleeps. *)
Example fast_disk : after_wait disk_answers = Ok (4096, Some TASK_BLOCKED, IdlePrint, []).
Proof. by vm_compute. Qed.

(** The disk answers when the idle thread is about to stop the processor: it does so with the main thread
    ready, and the next interrupt of the clock gets it to its [thread_block]. *)
Example slow_disk : after_wait [WGo; WGo; WGo; WGo; WDisk; WGo; WClock; WGo] =
  Ok (4096, Some TASK_BLOCKED, IdlePrint, [put_str "CPU IDLE
"]).
Proof. by vm_compute. Qed.

(** At the end of its time slice the idle thread is preempted by the main thread, and stays ready. *)
Example preempted : after_wait [WGo; WGo; WGo; WGo; WDisk; WClock; WClock; WClock; WClock] =
  Ok (4096, Some TASK_READY, IdleHlt, [put_str "CPU IDLE
"]).
Proof. by vm_compute. Qed.

(** Without the interrupt of the disk the wait does not end. *)
Example no_disk : after_wait [WGo; WGo; WGo; WClock; WGo; WGo] = NoFuel.
Proof. by vm_compute. Qed.
