(* ===== verification/Partition.v ===== *)
(** The partition table and the start of the disk driver (device/ide.c):
    [partition_scan], [partition_info], the text of [disk_identify], and [ide_init], over the driver of [Ide].
    Names and messages are what [Stdio.sprintf_formats] shows [sprintf] to write. *)
From S2P Require Import Prelude Mutex Desc Stdio Ide.
Local Open Scope Z_scope.
Local Open Scope list_scope.
Local Abbreviation length := List.length.

(** * Data *)

(** [struct partition_table], without the fields that are not read. *)
Record partition_table := PartitionTable { fs_type : Z; pt_start_lba : Z; pt_sector_cnt : Z }.

(** [struct partition]: the first sector, the number of sectors, the name. *)
Record partition := Partition { start_lba : Z; sector_cnt : Z; p_name : list Z }.

(** [struct disk]: its name and its partitions. *)
Record disk := Disk {
  d_name : list Z;
  prim_parts : list partition;
  logic_parts : list partition;
  prim_cnt : Z;
  logic_cnt : Z
}.

(** The static variables of [partition_scan]. *)
Record statics := Statics { ext_lba_base : Z; p_no : Z; l_no : Z }.

(** The table in a sector: [partition_table_array] of [struct boot_sector]. *)
Definition byte_at (buf : list Z) (i : nat) : Z := default 0 (buf !! i).
Definition long_at (buf : list Z) (i : nat) : Z :=
  byte_at buf i + 256 * byte_at buf (i + 1) + 65536 * byte_at buf (i + 2) + 16777216 * byte_at buf (i + 3).
Definition partition_table_array (buf : list Z) : list partition_table :=
  (λ i, let e := (446 + 16 * i)%nat in
    PartitionTable (byte_at buf (e + 4)) (long_at buf (e + 8)) (long_at buf (e + 12))) <$> seq 0 4.

(** Characters of a literal, and the text that a format gives. *)
Definition chars (s : string) : list Z := (λ a, Z.of_N (Ascii.N_of_ascii a)) <$> list_ascii_of_string s.
Definition text (fmt : list Z) (args : list arg) : list Z := default [] (fst <$> render fmt args false).

(** * Operations *)

(** An entry of the partition table that is a primary partition (the scanned sector is
    sector 0), and one that is a logical partition. *)
Definition add_prim (hd : disk) (st : statics) (ext_lba : Z) (pt : partition_table) : outcome (disk * statics) :=
  let name := text (chars "%s%d") [AStr 0 (d_name hd); AWord (p_no st + 1)] in
  if decide (Z.to_nat (p_no st) < length (prim_parts hd))%nat then
    let p := Partition (u32 (ext_lba + pt_start_lba pt)) (pt_sector_cnt pt) name in
    let hd := Disk (d_name hd) (<[Z.to_nat (p_no st) := p]> (prim_parts hd)) (logic_parts hd)
      (u8 (prim_cnt hd + 1)) (logic_cnt hd) in
    let st := Statics (ext_lba_base st) (u8 (p_no st + 1)) (l_no st) in
    ASSERT (p_no st <? 4) ;!
    Ok (hd, st)
  else Fault.

Definition add_logic (hd : disk) (st : statics) (ext_lba : Z) (pt : partition_table) : outcome (disk * statics) :=
  let name := text (chars "%s%d") [AStr 0 (d_name hd); AWord (l_no st + 5)] in
  if decide (Z.to_nat (l_no st) < length (logic_parts hd))%nat then
    let p := Partition (u32 (ext_lba + pt_start_lba pt)) (pt_sector_cnt pt) name in
    let hd := Disk (d_name hd) (prim_parts hd) (<[Z.to_nat (l_no st) := p]> (logic_parts hd))
      (prim_cnt hd) (u8 (logic_cnt hd + 1)) in
    Ok (hd, Statics (ext_lba_base st) (p_no st) (u8 (l_no st + 1)))
  else Fault.

Section partition.
Context {D : Type} `{AtaBus D}.

(** What a scan changes. *)
Record scan := Scan { sc_driver : driver D; sc_disk : disk; sc_statics : statics }.

(** The loop over the four entries; [rec] is the recursive call. *)
Fixpoint scan_entries (rec : scan → Z → outcome scan) (x : scan) (ext_lba : Z) (pts : list partition_table)
    : outcome scan :=
  match pts with
  | [] => Ok x
  | pt :: pts =>
      if fs_type pt =? 0x5 then
        let st := sc_statics x in
        let! x :=
          if negb (ext_lba_base st =? 0) then rec x (u32 (pt_start_lba pt + ext_lba_base st))
          else
            let st := Statics (pt_start_lba pt) (p_no st) (l_no st) in
            rec (Scan (sc_driver x) (sc_disk x) st) (ext_lba_base st) in
        scan_entries rec x ext_lba pts
      else if negb (fs_type pt =? 0) then
        if ext_lba =? 0 then
          let! (hd, st) := add_prim (sc_disk x) (sc_statics x) ext_lba pt in
          scan_entries rec (Scan (sc_driver x) hd st) ext_lba pts
        else
          let! (hd, st) := add_logic (sc_disk x) (sc_statics x) ext_lba pt in
          let x := Scan (sc_driver x) hd st in
          if 8 <? l_no st then Ok x else scan_entries rec x ext_lba pts
      else scan_entries rec x ext_lba pts
  end.

(** [partition_scan], by the thread [cur], of the drive [hd]; [fuel] bounds the depth of
    the recursion. *)
Fixpoint partition_scan (fuel : nat) (cur : Z) (hd : drive) (x : scan) (ext_lba : Z) : outcome scan :=
  match fuel with
  | O => NoFuel
  | S fuel =>
      let buf := replicate 512 0 in
      let! (s, buf) := ide_read (sc_driver x) cur hd ext_lba buf 1 in
      scan_entries (partition_scan fuel cur hd) (Scan s (sc_disk x) (sc_statics x)) ext_lba
        (partition_table_array buf)
  end.
End partition.
Arguments scan : clear implicits.

(** [partition_info]: the messages. *)
Definition info_line (p : partition) : list Z :=
  text (chars "    %s start_lba:0x%x, sector_cnt:0x%x" ++ [10])
    [AStr 0 (p_name p); AWord (start_lba p); AWord (sector_cnt p)].
Fixpoint info_loop (n : nat) (i : Z) (ps : list partition) : outcome (list Z) :=
  match n with
  | O => Ok []
  | S n =>
      match ps !! Z.to_nat i with
      | Some p => let! out := info_loop n (i + 1) ps in Ok (info_line p ++ out)
      | None => Fault
      end
  end.
Definition partition_info (hd : disk) : outcome (list Z) :=
  let! out := info_loop (Z.to_nat (prim_cnt hd)) 0 (prim_parts hd) in
  let! out' := info_loop (Z.to_nat (logic_cnt hd)) 0 (logic_parts hd) in
  Ok (out ++ out').

(** The string at the start of an array of characters; without a terminator the code would read
    on behind it. *)
Fixpoint c_string (bs : list Z) : outcome (list Z) :=
  match bs with
  | [] => Fault
  | b :: bs => if b =? 0 then Ok [] else let! s := c_string bs in Ok (b :: s)
  end.

(** The lines that [disk_identify] prints for the 512 bytes it got.  [stack] is what the stack
    holds behind the 20 bytes that are copied into [buf] first: the rest of [buf], which is not
    initialised, and what follows. *)
Definition identify_text (stack name ide_info : list Z) : outcome (list Z) :=
  let sn_start := Z.to_nat (u8 (10 * 2)) in let sn_len := 20%nat in
  let md_start := Z.to_nat (u8 (27 * 2)) in let md_len := 40%nat in
  let buf := take sn_len (drop sn_start ide_info) ++ stack in
  let! sn := c_string buf in
  let out := text (chars "    disk %s info:" ++ [10] ++ chars "    SN: %s" ++ [10]) [AStr 0 name; AStr 0 sn] in
  let buf := take md_len (drop md_start ide_info) ++ replicate (64 - md_len) 0 in
  let! md := c_string buf in
  let sec_cnt := long_at ide_info (60 * 2) in
  Ok (out ++ text (chars "    MODULE: %s" ++ [10]) [AStr 0 md]
    ++ text (chars "    SECTORS: %d" ++ [10]) [AWord sec_cnt]
    ++ text (chars "    CAPACITY: %dMB" ++ [10]) [AWord (capacity sec_cnt)]).

Section init.
Context {D : Type} `{AtaBus D}.

(** The bytes that [disk_identify] prints as [identify_text] says, and text. *)
Inductive message := MIdentify (ide_info : list Z) | MText (t : list Z).

(** The global state: the driver, the disks ([_devices] of the first channel, then of the
    second), the statics, the handlers of the interrupts, the messages. *)
Record ide := Ide {
  i_driver : driver D;
  i_disks : list disk;
  i_statics : statics;
  i_irqaction : list Z;
  i_out : list message
}.

(** The body of the loop over the two drives of a channel. *)
Definition init_disk (fuel : nat) (cur : Z) (channel_no dev_no : Z) (s : ide) : outcome ide :=
  let i := Z.to_nat (channel_no * 2 + dev_no) in
  let hd := Drive (Z.to_nat channel_no) dev_no in
  match i_disks s !! i with
  | None => Fault
  | Some hd_disk =>
      let hd_disk := Disk (text (chars "sd%c") [AWord (97 + channel_no * 2 + dev_no)])
        (prim_parts hd_disk) (logic_parts hd_disk) 0 0 in
      let! (d, ide_info) := disk_identify (i_driver s) hd in
      let! x := partition_scan fuel cur hd (Scan d hd_disk (i_statics s)) 0 in
      let! info := partition_info (sc_disk x) in
      Ok (Ide (sc_driver x) (<[i := sc_disk x]> (i_disks s)) (sc_statics x) (i_irqaction s)
        (i_out s ++ [MIdentify ide_info; MText info]))
  end.

(** The body of the loop over the channels; [hard_disk_service] is the address of the handler. *)
Definition init_channel (fuel : nat) (cur hard_disk_service channel_no : Z) (s : ide) : outcome ide :=
  let ch := Z.to_nat channel_no in
  let! c := get_channel (i_driver s) ch in
  let c :=
    if channel_no =? 0 then Channel 0x1f0 (0x20 + 14) (ch_lock c) (wait_intr c) (disk_ok c)
    else if channel_no =? 1 then Channel 0x170 (0x20 + 15) (ch_lock c) (wait_intr c) (disk_ok c)
    else c in
  let c := Channel (port_base c) (irq_no c) unlocked false 0 in
  let! t := register_irq_handler (i_irqaction s) (irq_no c) hard_disk_service in
  let s := Ide (set_channel (i_driver s) ch c) (i_disks s) (i_statics s) t (i_out s) in
  let! s := init_disk fuel cur channel_no 0 s in
  init_disk fuel cur channel_no 1 s.

Fixpoint init_channels (n : nat) (fuel : nat) (cur hard_disk_service channel_no : Z) (s : ide) : outcome ide :=
  match n with
  | O => Ok s
  | S n =>
      let! s := init_channel fuel cur hard_disk_service channel_no s in
      init_channels n fuel cur hard_disk_service (channel_no + 1) s
  end.

(** [ide_init]; [hd_cnt] is the byte at 0x475 that the BIOS has left. *)
Definition ide_init (fuel : nat) (cur hard_disk_service hd_cnt : Z) (s : ide) : outcome ide :=
  let s := Ide (i_driver s) (i_disks s) (i_statics s) (i_irqaction s)
    (i_out s ++ [MText (chars "ide initialization start" ++ [10])]) in
  let hd_cnt := u8 hd_cnt in
  ASSERT (0 <? hd_cnt) ;!
  let g_channel_cnt := u8 ((hd_cnt + 2 - 1) / 2) in
  let! s := init_channels (Z.to_nat g_channel_cnt) fuel cur hard_disk_service 0 s in
  Ok (Ide (i_driver s) (i_disks s) (i_statics s) (i_irqaction s)
    (i_out s ++ [MText (chars "ide initialization complete" ++ [10])])).
End init.
Arguments ide : clear implicits.

(** * What a scan should find *)

Definition is_empty (pt : partition_table) : Prop := fs_type pt = 0.
Definition is_extended (pt : partition_table) : Prop := fs_type pt = 5.
Definition is_data (pt : partition_table) : Prop := fs_type pt ≠ 0 ∧ fs_type pt ≠ 5.

Section layout.
(** The table in each sector of a disk of [size] sectors. *)
Context (tables : Z → list partition_table) (size : Z).

(** The logical partitions (first sector, sectors) of the chain of tables from sector [lba]
    on, in an extended partition at [base]: each table has a partition, relative to its own
    sector, and a link to the next table, relative to [base]. *)
Inductive chain (base : Z) : Z → list (Z * Z) → Prop :=
  | chain_last lba pt pts :
      0 < lba < size → tables lba = pt :: pts → is_data pt → Forall is_empty pts →
      chain base lba [(u32 (lba + pt_start_lba pt), pt_sector_cnt pt)]
  | chain_next lba pt nx pts L :
      0 < lba < size → tables lba = pt :: nx :: pts → is_data pt → is_extended nx →
      Forall is_empty pts → chain base (u32 (pt_start_lba nx + base)) L →
      chain base lba ((u32 (lba + pt_start_lba pt), pt_sector_cnt pt) :: L).

(** The entries of the table in sector 0: the primary partitions, the extended partition
    (0: there is none) and its logical partitions. *)
Inductive mbr : list partition_table → list (Z * Z) → Z → list (Z * Z) → Prop :=
  | mbr_nil : mbr [] [] 0 []
  | mbr_empty pt pts P b L : is_empty pt → mbr pts P b L → mbr (pt :: pts) P b L
  | mbr_prim pt pts P b L : is_data pt → mbr pts P b L →
      mbr (pt :: pts) ((u32 (pt_start_lba pt), pt_sector_cnt pt) :: P) b L
  | mbr_ext pt pts P L : is_extended pt → mbr pts P 0 [] →
      chain (pt_start_lba pt) (pt_start_lba pt) L → mbr (pt :: pts) P (pt_start_lba pt) L.
End layout.

(** Partitions with the numbers [no], [no + 1], ... *)
Fixpoint numbered (name : list Z) (no : Z) (ps : list (Z * Z)) : list partition :=
  match ps with
  | [] => []
  | p :: ps => Partition p.1 p.2 (name ++ decimal no) :: numbered name (no + 1) ps
  end.

(** The disk with primary partitions from slot [k] on, or logical ones. *)
Definition with_prims (hd : disk) (k : Z) (P : list (Z * Z)) : disk :=
  Disk (d_name hd) (list_inserts (Z.to_nat k) (numbered (d_name hd) (k + 1) P) (prim_parts hd))
    (logic_parts hd) (u8 (prim_cnt hd + Z.of_nat (length P))) (logic_cnt hd).
Definition with_logics (hd : disk) (l : Z) (L : list (Z * Z)) : disk :=
  Disk (d_name hd) (prim_parts hd)
    (list_inserts (Z.to_nat l) (numbered (d_name hd) (l + 5) L) (logic_parts hd))
    (prim_cnt hd) (u8 (logic_cnt hd + Z.of_nat (length L))).

(** * Lemmas *)

Lemma part_name name no : text (chars "%s%d") [AStr 0 name; AWord no] = name ++ decimal no.
Proof.
  unfold text. change (chars "%s%d") with [37; 115; 37; 100]. cbn [render].
  repeat first [rewrite decide_True by done | rewrite decide_False by done]. cbn. by rewrite app_nil_r.
Qed.

(** Inserting a list, one element at a time from the front. *)
Lemma list_inserts_step {A} (l : list A) k x xs :
  list_inserts k (x :: xs) l = list_inserts (S k) xs (<[k := x]> l).
Proof. cbn [list_inserts]. by rewrite list_insert_inserts_lt by lia. Qed.

Lemma with_prims_step hd k p P : 0 ≤ k →
  with_prims (Disk (d_name hd) (<[Z.to_nat k := Partition p.1 p.2 (d_name hd ++ decimal (k + 1))]> (prim_parts hd))
    (logic_parts hd) (u8 (prim_cnt hd + 1)) (logic_cnt hd)) (k + 1) P = with_prims hd k (p :: P).
Proof.
  intros Hk. unfold with_prims. cbn [d_name prim_parts logic_parts prim_cnt logic_cnt numbered length].
  rewrite list_inserts_step. replace (Z.to_nat (k + 1)) with (S (Z.to_nat k)) by lia.
  f_equal. unfold u8. rewrite Zplus_mod_idemp_l. f_equal. lia.
Qed.

Lemma with_logics_step hd l p L : 0 ≤ l →
  with_logics (Disk (d_name hd) (prim_parts hd)
    (<[Z.to_nat l := Partition p.1 p.2 (d_name hd ++ decimal (l + 5))]> (logic_parts hd))
    (prim_cnt hd) (u8 (logic_cnt hd + 1))) (l + 1) L = with_logics hd l (p :: L).
Proof.
  intros Hl. unfold with_logics. cbn [d_name prim_parts logic_parts prim_cnt logic_cnt numbered length].
  rewrite list_inserts_step. replace (Z.to_nat (l + 1)) with (S (Z.to_nat l)) by lia.
  replace (l + 1 + 5) with (l + 5 + 1) by lia.
  f_equal. unfold u8. rewrite Zplus_mod_idemp_l. f_equal. lia.
Qed.

Lemma with_prims_nil hd k : u8 (prim_cnt hd) = prim_cnt hd → with_prims hd k [] = hd.
Proof. intros Hc. unfold with_prims. cbn. rewrite Z.add_0_r, Hc. by destruct hd. Qed.

Lemma with_logics_nil hd l : u8 (logic_cnt hd) = logic_cnt hd → with_logics hd l [] = hd.
Proof. intros Hc. unfold with_logics. cbn. rewrite Z.add_0_r, Hc. by destruct hd. Qed.

Lemma u8_idemp z : u8 (u8 z) = u8 z.
Proof. unfold u8. by rewrite Zmod_mod. Qed.

(** ** Single entries *)

Lemma add_logic_spec hd b k l lba pt L : 0 ≤ l < 8 → length (logic_parts hd) = 8%nat →
  ∃ hd', add_logic hd (Statics b k l) lba pt = Ok (hd', Statics b k (l + 1)) ∧
    length (logic_parts hd') = 8%nat ∧ u8 (logic_cnt hd') = logic_cnt hd' ∧
    with_logics hd' (l + 1) L = with_logics hd l ((u32 (lba + pt_start_lba pt), pt_sector_cnt pt) :: L).
Proof.
  intros Hl Hlen. unfold add_logic. cbn [l_no p_no ext_lba_base]. rewrite part_name, decide_True by lia.
  rewrite (u8_small (l + 1)) by lia. eexists. split; [reflexivity|].
  split_and!; [cbn [logic_parts]; by rewrite length_insert|apply u8_idemp|].
  by rewrite <- with_logics_step by lia.
Qed.

Lemma add_logic_full hd b k l lba pt : 8 ≤ l → length (logic_parts hd) = 8%nat →
  add_logic hd (Statics b k l) lba pt = Fault.
Proof. intros Hl Hlen. unfold add_logic. cbn [l_no]. by rewrite decide_False by lia. Qed.

Lemma add_prim_spec hd b k l pt P : 0 ≤ k < 3 → length (prim_parts hd) = 4%nat →
  ∃ hd', add_prim hd (Statics b k l) 0 pt = Ok (hd', Statics b (k + 1) l) ∧
    length (prim_parts hd') = 4%nat ∧ logic_parts hd' = logic_parts hd ∧
    logic_cnt hd' = logic_cnt hd ∧ d_name hd' = d_name hd ∧ u8 (prim_cnt hd') = prim_cnt hd' ∧
    with_prims hd' (k + 1) P = with_prims hd k ((u32 (pt_start_lba pt), pt_sector_cnt pt) :: P).
Proof.
  intros Hk Hlen. unfold add_prim. cbn [l_no p_no ext_lba_base]. rewrite part_name, decide_True by lia.
  rewrite (u8_small (k + 1)) by lia. cbn [p_no]. rewrite (proj2 (Z.ltb_lt (k + 1) 4)) by lia. cbn [ASSERT obind].
  eexists. split; [reflexivity|]. split_and!; [cbn [prim_parts]; by rewrite length_insert|done|done|done|apply u8_idemp|].
  by rewrite <- with_prims_step by lia.
Qed.

Lemma add_prim_full hd b k l pt : 3 ≤ k < 4 → length (prim_parts hd) = 4%nat →
  add_prim hd (Statics b k l) 0 pt = Panic.
Proof.
  intros Hk Hlen. unfold add_prim. cbn [l_no p_no ext_lba_base]. rewrite decide_True by lia.
  rewrite (u8_small (k + 1)) by lia. cbn [p_no]. by rewrite (proj2 (Z.ltb_ge (k + 1) 4)) by lia.
Qed.

(** ** One table *)

Section disk.
Context {D : Type} `{AtaBus D} (base : Z) (n : nat) (sector : Z → Z → list Z) (size : Z → Z).
Context `{!AtaDisk D base (0x2e + Z.of_nat n) sector size}.
Context (chs : list ide_channel) (cur : Z) (hd : drive).

(** The drive, and the table in each of its sectors. *)
Definition unit_of : Z := if dev_no hd =? 1 then 1 else 0.
Definition tables_of (lba : Z) : list partition_table :=
  partition_table_array (word_bytes (sector unit_of lba)).

Context (Hn : (n < 2)%nat) (Ec : chs !! n = Some (chan base n unlocked false 0)).
Context (En : channel_no hd = n) (Hcur : cur ≠ NULL) (Hsize : size unit_of ≤ 268435456).

(** The driver is idle. *)
Definition idle (s : driver D) : Prop := ∃ d r, s = Driver d chs ∧ ready d r.

Lemma read_table s lba : idle s → 0 ≤ lba < size unit_of →
  ∃ s', ide_read s cur hd lba (replicate 512 0) 1 = Ok (s', word_bytes (sector unit_of lba)) ∧ idle s'.
Proof using All.
  intros (d & r & -> & Hr) Hlba.
  destruct (ide_read_spec base n sector size d chs cur hd r lba 1 (replicate 512 0))
    as (d' & ws & E & Hlen & Hws & Hr'); [done|done|done|done|done|lia|lia|fold unit_of; lia|done|f_equal; lia
    |rewrite length_replicate; lia|].
  destruct (Hr' eq_refl) as (r' & Hr2). exists (Driver d' chs). split; [|by exists d', r']. rewrite E. fold unit_of in Hws.
  rewrite take_ge in Hws by (rewrite Hlen; lia). rewrite Hws.
  rewrite drop_ge by (rewrite length_replicate; lia). by rewrite app_nil_r.
Qed.

Lemma scan_table fuel s hd_disk st lba : idle s → 0 ≤ lba < size unit_of →
  ∃ s', idle s' ∧ partition_scan (S fuel) cur hd (Scan s hd_disk st) lba =
    scan_entries (partition_scan fuel cur hd) (Scan s' hd_disk st) lba (tables_of lba).
Proof using All.
  intros Hs Hlba. destruct (read_table s lba Hs Hlba) as (s' & E & Hs'). exists s'. split; [done|].
  cbn [partition_scan sc_driver sc_disk sc_statics]. rewrite E. done.
Qed.

Lemma scan_empty rec (x : scan D) lba pts : Forall is_empty pts → scan_entries rec x lba pts = Ok x.
Proof. induction 1 as [|pt pts Hpt _ IH]; [done|]. cbn [scan_entries]. by rewrite Hpt. Qed.

Lemma scan_data rec (x : scan D) lba pt pts : is_data pt → scan_entries rec x lba (pt :: pts) =
  if lba =? 0 then
    let! (hd, st) := add_prim (sc_disk x) (sc_statics x) lba pt in
    scan_entries rec (Scan (sc_driver x) hd st) lba pts
  else
    let! (hd, st) := add_logic (sc_disk x) (sc_statics x) lba pt in
    let x := Scan (sc_driver x) hd st in
    if 8 <? l_no st then Ok x else scan_entries rec x lba pts.
Proof.
  intros [H0 H5]. cbn [scan_entries]. by rewrite (proj2 (Z.eqb_neq _ _) H5), (proj2 (Z.eqb_neq _ _) H0).
Qed.

(** The first entry of a table of the chain. *)
Lemma scan_logic rec (s : driver D) hd_disk b k l lba pt pts L : lba ≠ 0 → is_data pt →
  length (logic_parts hd_disk) = 8%nat → 0 ≤ l < 8 →
  ∃ hd', scan_entries rec (Scan s hd_disk (Statics b k l)) lba (pt :: pts) =
      scan_entries rec (Scan s hd' (Statics b k (l + 1))) lba pts ∧
    length (logic_parts hd') = 8%nat ∧ u8 (logic_cnt hd') = logic_cnt hd' ∧
    with_logics hd' (l + 1) L = with_logics hd_disk l ((u32 (lba + pt_start_lba pt), pt_sector_cnt pt) :: L).
Proof.
  intros Hlba Hpt Hlen Hl. destruct (add_logic_spec hd_disk b k l lba pt L Hl Hlen) as (hd' & E & Hlen' & Hw).
  exists hd'. split; [|done]. rewrite (scan_data _ _ _ _ _ Hpt), (proj2 (Z.eqb_neq _ _) Hlba).
  cbn [sc_disk sc_statics sc_driver]. rewrite E. cbn [obind l_no].
  by rewrite (proj2 (Z.ltb_ge 8 (l + 1))) by lia.
Qed.

(** ** The chain *)

(** [l] partitions have been found: the chain is entered into the disk when it has room. *)
Lemma scan_chain b lba L : chain tables_of (size unit_of) b lba L → b ≠ 0 →
  ∀ fuel s hd_disk k l, (length L ≤ fuel)%nat → idle s → length (logic_parts hd_disk) = 8%nat → 0 ≤ l ≤ 8 →
  if decide (l + Z.of_nat (length L) ≤ 8) then
    ∃ s', idle s' ∧ partition_scan fuel cur hd (Scan s hd_disk (Statics b k l)) lba =
      Ok (Scan s' (with_logics hd_disk l L) (Statics b k (l + Z.of_nat (length L))))
  else partition_scan fuel cur hd (Scan s hd_disk (Statics b k l)) lba = Fault.
Proof using All.
  intros Hc Hb. induction Hc as [lba pt pts Hlba Ht Hpt Hemp|lba pt nx pts L Hlba Ht Hpt Hnx Hemp Hc IH];
    intros fuel s hd_disk k l Hf Hs Hlen Hl; cbn [length] in *; (destruct fuel as [|fuel]; [lia|]);
    destruct (scan_table fuel s hd_disk (Statics b k l) lba Hs ltac:(lia)) as (s' & Hs' & ->); rewrite Ht;
    (destruct (decide (l = 8)) as [->|];
      [rewrite decide_False by lia; rewrite (scan_data _ _ _ _ _ Hpt), (proj2 (Z.eqb_neq lba 0)) by lia;
       cbn [sc_disk sc_statics]; by rewrite add_logic_full|]).
  - rewrite decide_True by lia.
    destruct (scan_logic (partition_scan fuel cur hd) s' hd_disk b k l lba pt pts []) as (hd' & -> & _ & Hu & <-);
      [lia|done|done|lia|].
    rewrite (scan_empty _ _ _ _ Hemp). exists s'. split; [done|]. by rewrite with_logics_nil.
  - destruct (scan_logic (partition_scan fuel cur hd) s' hd_disk b k l lba pt (nx :: pts) L)
      as (hd' & -> & Hlen' & Hu & <-); [lia|done|done|lia|].
    cbn [scan_entries]. rewrite Hnx. change (5 =? 5) with true. cbv iota. cbn [sc_statics ext_lba_base].
    rewrite (proj2 (Z.eqb_neq b 0)) by done. cbn [negb].
    specialize (IH fuel s' hd' k (l + 1) ltac:(lia) Hs' Hlen' ltac:(lia)).
    replace (l + 1 + Z.of_nat (length L)) with (l + Z.of_nat (S (length L))) in IH by lia.
    destruct (decide _) as [Hroom|]; [|by rewrite IH].
    destruct IH as (s2 & Hs2 & ->). exists s2. split; [done|]. cbn [obind]. by rewrite (scan_empty _ _ _ _ Hemp).
Qed.

(** ** The table in sector 0 *)

Lemma chain_nonempty b lba : ¬ chain tables_of (size unit_of) b lba [].
Proof. inversion 1. Qed.

(** The next primary partition. *)
Lemma scan_prim rec (s : driver D) hd_disk b k l pt pts P : is_data pt →
  length (prim_parts hd_disk) = 4%nat → 0 ≤ k < 3 →
  ∃ hd', scan_entries rec (Scan s hd_disk (Statics b k l)) 0 (pt :: pts) =
      scan_entries rec (Scan s hd' (Statics b (k + 1) l)) 0 pts ∧
    length (prim_parts hd') = 4%nat ∧ logic_parts hd' = logic_parts hd_disk ∧ u8 (prim_cnt hd') = prim_cnt hd' ∧
    with_prims hd' (k + 1) P = with_prims hd_disk k ((u32 (pt_start_lba pt), pt_sector_cnt pt) :: P).
Proof.
  intros Hpt Hlen Hk. destruct (add_prim_spec hd_disk b k l pt P Hk Hlen) as (hd' & E & Hlen' & Hlog & _ & _ & Hu & Hw).
  exists hd'. split; [|done]. rewrite (scan_data _ _ _ _ _ Hpt). change (0 =? 0) with true. cbv iota.
  cbn [sc_disk sc_statics sc_driver]. by rewrite E.
Qed.

(** Without an extended partition. *)
Lemma scan_prims rec (s : driver D) b l pts P : mbr tables_of (size unit_of) pts P 0 [] →
  ∀ hd_disk k, length (prim_parts hd_disk) = 4%nat → u8 (prim_cnt hd_disk) = prim_cnt hd_disk → 0 ≤ k < 4 →
  scan_entries rec (Scan s hd_disk (Statics b k l)) 0 pts =
    if decide (k + Z.of_nat (length P) < 4)
    then Ok (Scan s (with_prims hd_disk k P) (Statics b (k + Z.of_nat (length P)) l)) else Panic.
Proof.
  intros Hm. remember 0 as b0 eqn:Eb in Hm. remember [] as L eqn:EL in Hm. revert Eb EL.
  induction Hm as [|pt pts P b0 L Hpt _ IH|pt pts P b0 L Hpt _ IH|pt pts P L Hpt _ _ Hc]; intros Eb EL hd_disk k Hlen Hu Hk.
  - cbn [length]. rewrite Z.add_0_r, decide_True by lia. by rewrite with_prims_nil.
  - cbn [scan_entries]. rewrite Hpt. by apply IH.
  - cbn [length]. destruct (decide (k = 3)) as [->|].
    + rewrite decide_False by lia. rewrite (scan_data _ _ _ _ _ Hpt). change (0 =? 0) with true. cbv iota.
      cbn [sc_disk sc_statics]. by rewrite add_prim_full.
    + destruct (scan_prim rec s hd_disk b k l pt pts P Hpt Hlen ltac:(lia)) as (hd' & -> & Hlen' & _ & Hu' & Hw).
      rewrite (IH Eb EL hd' (k + 1) Hlen' Hu' ltac:(lia)), Hw.
      by replace (k + 1 + Z.of_nat (length P)) with (k + Z.of_nat (S (length P))) by lia.
  - subst L. by apply chain_nonempty in Hc.
Qed.

(** With an extended partition, before which none was found. *)
Lemma scan_mbr fuel pts P b L : mbr tables_of (size unit_of) pts P b L → b ≠ 0 →
  (length L ≤ fuel)%nat → ∀ s hd_disk k l, idle s → length (prim_parts hd_disk) = 4%nat →
  length (logic_parts hd_disk) = 8%nat → u8 (prim_cnt hd_disk) = prim_cnt hd_disk →
  0 ≤ k → k + Z.of_nat (length P) < 4 → 0 ≤ l ≤ 8 →
  if decide (l + Z.of_nat (length L) ≤ 8) then
    ∃ s', idle s' ∧ scan_entries (partition_scan fuel cur hd) (Scan s hd_disk (Statics 0 k l)) 0 pts =
      Ok (Scan s' (with_logics (with_prims hd_disk k P) l L)
        (Statics b (k + Z.of_nat (length P)) (l + Z.of_nat (length L))))
  else scan_entries (partition_scan fuel cur hd) (Scan s hd_disk (Statics 0 k l)) 0 pts = Fault.
Proof using All.
  intros Hm Hb Hf.
  induction Hm as [|pt pts P b L Hpt _ IH|pt pts P b L Hpt _ IH|pt pts P L Hpt Hm _ Hc];
    intros s hd_disk k l Hs Hlen Hlen' Hu Hk0 Hk Hl; [done| | |].
  - cbn [scan_entries]. rewrite Hpt. by apply IH.
  - cbn [length] in *.
    destruct (scan_prim (partition_scan fuel cur hd) s hd_disk 0 k l pt pts P Hpt Hlen ltac:(lia))
      as (hd' & -> & Hlen2 & Hlog & Hu' & <-).
    replace (k + Z.of_nat (S (length P))) with (k + 1 + Z.of_nat (length P)) by lia.
    apply IH; try done; [by rewrite Hlog|lia..].
  - cbn [scan_entries]. rewrite Hpt. change (5 =? 5) with true. cbv iota.
    cbn [sc_statics ext_lba_base p_no l_no sc_driver sc_disk]. change (negb (0 =? 0)) with false. cbv iota.
    pose proof (scan_chain _ _ _ Hc Hb fuel s hd_disk k l Hf Hs Hlen' Hl) as Hchain.
    destruct (decide _) as [Hroom|]; [|by rewrite Hchain].
    destruct Hchain as (s' & Hs' & ->). exists s'. split; [done|]. cbn [obind].
    rewrite (scan_prims _ _ _ _ _ _ Hm) by (done || lia). by rewrite decide_True by lia.
Qed.
End disk.

(** ** A whole scan *)

Lemma chain_pos tables size b lba L : chain tables size b lba L → 0 < lba.
Proof. inversion 1; lia. Qed.

Lemma mbr_base tables size pts P b L : mbr tables size pts P b L → b = 0 ∧ L = [] ∨ 0 < b ∧ L ≠ [].
Proof.
  induction 1 as [|??????? IH|??????? IH|????? _ _ Hc]; [by left|done|done|right].
  split; [by eapply chain_pos|]. by inversion Hc.
Qed.

Lemma length_numbered name no ps : length (numbered name no ps) = length ps.
Proof. revert no. induction ps as [|p ps IH]; intros no; [done|]. cbn. by rewrite IH. Qed.

Lemma list_inserts_front {A} (xs l : list A) : (length xs ≤ length l)%nat →
  list_inserts 0 xs l = xs ++ drop (length xs) l.
Proof.
  intros Hlen. rewrite <- (take_drop (length xs) l) at 1. apply list_inserts_0_r. by rewrite length_take_le.
Qed.

(** The first scan starts with slot 0. *)
Lemma with_first hd P L : (length P ≤ 3)%nat → (length L ≤ 8)%nat →
  length (prim_parts hd) = 4%nat → length (logic_parts hd) = 8%nat → prim_cnt hd = 0 → logic_cnt hd = 0 →
  with_logics (with_prims hd 0 P) 0 L =
    Disk (d_name hd) (numbered (d_name hd) 1 P ++ drop (length P) (prim_parts hd))
      (numbered (d_name hd) 5 L ++ drop (length L) (logic_parts hd))
      (Z.of_nat (length P)) (Z.of_nat (length L)).
Proof.
  intros HP HL Hlp Hll Hcp Hcl.
  unfold with_logics, with_prims. cbn [d_name prim_parts logic_parts prim_cnt logic_cnt].
  change (Z.to_nat 0) with 0%nat. rewrite !list_inserts_front by (rewrite length_numbered; lia).
  rewrite !length_numbered, Hcp, Hcl, !Z.add_0_l, !u8_small by lia. done.
Qed.

Section spec.
Context {D : Type} `{AtaBus D} (base : Z) (n : nat) (sector : Z → Z → list Z) (size : Z → Z).
Context `{!AtaDisk D base (0x2e + Z.of_nat n) sector size} (chs : list ide_channel) (cur : Z) (hd : drive).

(** The driver is idle, the thread [cur] can use it, and the disk is not too big. *)
Record drive_ready (d : D) : Prop := {
  dr_n : (n < 2)%nat;
  dr_channel : chs !! n = Some (chan base n unlocked false 0);
  dr_no : channel_no hd = n;
  dr_cur : cur ≠ NULL;
  dr_size : 0 < size (unit_of hd) ≤ 268435456;
  dr_ready : ∃ r, ready d r
}.

(** The partitions of the disk, by its sectors. *)
Definition partitioned (P : list (Z * Z)) (b : Z) (L : list (Z * Z)) : Prop :=
  mbr (tables_of sector hd) (size (unit_of hd)) (tables_of sector hd 0) P b L.

(** A disk with room for partitions, none of which is counted. *)
Definition fresh_disk (hd_disk : disk) : Prop :=
  length (prim_parts hd_disk) = 4%nat ∧ length (logic_parts hd_disk) = 8%nat ∧
  prim_cnt hd_disk = 0 ∧ logic_cnt hd_disk = 0.

Lemma drive_ready_idle d s : drive_ready d → idle base n sector size chs s →
  ∃ d', s = Driver d' chs ∧ drive_ready d'.
Proof. intros [] (d' & r' & -> & Hr'). exists d'. split; [done|by split; eauto]. Qed.

(** A scan with the statics that earlier scans left; without an extended partition. *)
Lemma scan_plain fuel d hd_disk P b k l : drive_ready d → partitioned P 0 [] →
  length (prim_parts hd_disk) = 4%nat → u8 (prim_cnt hd_disk) = prim_cnt hd_disk → 0 ≤ k < 4 →
  ∃ d', drive_ready d' ∧ partition_scan (S fuel) cur hd (Scan (Driver d chs) hd_disk (Statics b k l)) 0 =
    if decide (k + Z.of_nat (length P) < 4)
    then Ok (Scan (Driver d' chs) (with_prims hd_disk k P) (Statics b (k + Z.of_nat (length P)) l)) else Panic.
Proof.
  intros Hd Hm Hlen Hu Hk. pose proof Hd as [Hn Ec En Hcur Hsz [r Hr]].
  destruct (scan_table base n sector size chs cur hd Hn Ec En Hcur (proj2 Hsz) fuel (Driver d chs) hd_disk (Statics b k l) 0)
    as (s1 & Hs1 & ->); [by exists d, r|lia|].
  destruct (drive_ready_idle d s1 Hd Hs1) as (d' & -> & Hd'). exists d'. split; [done|].
  by apply (scan_prims n sector size hd Hn En).
Qed.

(** The same, with an extended partition. *)
Lemma scan_spec fuel d hd_disk P b L k l : drive_ready d → partitioned P b L → fresh_disk hd_disk →
  0 ≤ k → k + Z.of_nat (length P) < 4 → 0 ≤ l ≤ 8 → (length L < fuel)%nat →
  if decide (l + Z.of_nat (length L) ≤ 8) then
    ∃ d', drive_ready d' ∧ partition_scan fuel cur hd (Scan (Driver d chs) hd_disk (Statics 0 k l)) 0 =
      Ok (Scan (Driver d' chs) (with_logics (with_prims hd_disk k P) l L)
        (Statics b (k + Z.of_nat (length P)) (l + Z.of_nat (length L))))
  else partition_scan fuel cur hd (Scan (Driver d chs) hd_disk (Statics 0 k l)) 0 = Fault.
Proof.
  intros Hd Hm (Hlp & Hll & Hcp & Hcl) Hk HkP Hl Hf. destruct fuel as [|fuel]; [lia|].
  destruct (mbr_base _ _ _ _ _ _ Hm) as [[-> ->]|[Hb HL]].
  { destruct (scan_plain fuel d hd_disk P 0 k l Hd Hm Hlp ltac:(by rewrite Hcp) ltac:(lia)) as (d' & Hd' & ->).
    cbn [length]. rewrite !decide_True by lia. exists d'. split; [done|].
    rewrite Z.add_0_r, with_logics_nil; [done|]. cbn. by rewrite Hcl. }
  pose proof Hd as [Hn Ec En Hcur Hsz [r Hr]].
  destruct (scan_table base n sector size chs cur hd Hn Ec En Hcur (proj2 Hsz) fuel (Driver d chs) hd_disk (Statics 0 k l) 0)
    as (s1 & Hs1 & ->); [by exists d, r|lia|].
  pose proof (scan_mbr base n sector size chs cur hd Hn Ec En Hcur (proj2 Hsz) fuel _ _ _ _ Hm ltac:(lia) ltac:(lia)
    s1 hd_disk k l Hs1 Hlp Hll ltac:(by rewrite Hcp) Hk HkP Hl) as Hscan.
  destruct (decide _); [|done]. destruct Hscan as (s' & Hs' & ->).
  destruct (drive_ready_idle d s' Hd Hs') as (d' & -> & Hd'). eauto.
Qed.

(** C23. [partition_scan] finds the partitions: when it scans the first disk, with at most
    three primary partitions and a chain of at most eight logical ones in an extended
    partition, they are in the disk in this order, with their first sectors and sizes, numbered
    from 1 and from 5, and counted; the driver is idle again. *)
Theorem partition_scan_finds fuel d hd_disk P b L :
  drive_ready d → partitioned P b L → fresh_disk hd_disk →
  (length P ≤ 3)%nat → (length L ≤ 8)%nat → (length L < fuel)%nat →
  ∃ d', partition_scan fuel cur hd (Scan (Driver d chs) hd_disk (Statics 0 0 0)) 0 =
      Ok (Scan (Driver d' chs)
        (Disk (d_name hd_disk)
          (numbered (d_name hd_disk) 1 P ++ drop (length P) (prim_parts hd_disk))
          (numbered (d_name hd_disk) 5 L ++ drop (length L) (logic_parts hd_disk))
          (Z.of_nat (length P)) (Z.of_nat (length L)))
        (Statics b (Z.of_nat (length P)) (Z.of_nat (length L)))) ∧
    drive_ready d'.
Proof.
  intros Hd Hm Hfresh HP HL Hf. pose proof Hfresh as (Hlp & Hll & Hcp & Hcl).
  pose proof (scan_spec fuel d hd_disk P b L 0 0 Hd Hm Hfresh ltac:(lia) ltac:(lia) ltac:(lia) Hf) as Hscan.
  rewrite decide_True, with_first in Hscan by (done || lia). destruct Hscan as (d' & Hd' & ->). by exists d'.
Qed.

(** The limits of [partition_scan]: a fourth primary partition stops the machine; a ninth
    logical partition is written behind the array of the disk (the check of [l_no] comes
    after the write, and allows it); and on a table whose link leads back to itself the function
    calls itself without end. *)
Theorem partition_scan_limits fuel d hd_disk P b L lba link :
  drive_ready d → fresh_disk hd_disk →
  (partitioned P 0 [] → (3 < length P)%nat → (0 < fuel)%nat →
    partition_scan fuel cur hd (Scan (Driver d chs) hd_disk (Statics 0 0 0)) 0 = Panic) ∧
  (partitioned P b L → (length P ≤ 3)%nat → (8 < length L < fuel)%nat →
    partition_scan fuel cur hd (Scan (Driver d chs) hd_disk (Statics 0 0 0)) 0 = Fault) ∧
  (head (tables_of sector hd lba) = Some link → 0 < lba < size (unit_of hd) →
   is_extended link → pt_start_lba link + b = lba → b ≠ 0 →
    ∀ d st, drive_ready d → ext_lba_base st = b →
      partition_scan fuel cur hd (Scan (Driver d chs) hd_disk st) lba = NoFuel).
Proof.
  intros [Hn Ec En Hcur Hsz [r Hr]] Hfresh. pose proof Hfresh as (Hlp & Hll & Hcp & Hcl). split_and!.
  - intros Hm HP Hf. destruct fuel as [|fuel]; [lia|].
    destruct (scan_plain fuel d hd_disk P 0 0 0 ltac:(by split; eauto) Hm Hlp ltac:(by rewrite Hcp) ltac:(lia))
      as (d' & _ & ->). by rewrite decide_False by lia.
  - intros Hm HP HL.
    pose proof (scan_spec fuel d hd_disk P b L 0 0) as Hscan. rewrite decide_False in Hscan by lia.
    apply Hscan; try done; [by split; eauto|lia..].
  - intros Ht Hlba Hlink Hsum Hb. clear d r Hr. induction fuel as [|fuel IH]; intros d st [_ _ _ _ _ [r Hr]] Hst; [done|].
    destruct (scan_table base n sector size chs cur hd Hn Ec En Hcur (proj2 Hsz) fuel (Driver d chs) hd_disk st lba)
      as (s1 & (d1 & r1 & -> & Hr1) & ->); [by exists d, r|lia|].
    destruct (tables_of sector hd lba) as [|pt pts]; [done|]. injection Ht as ->. cbn [scan_entries].
    rewrite Hlink. change (5 =? 5) with true. cbv iota. cbn [sc_statics]. rewrite Hst, (proj2 (Z.eqb_neq b 0)) by done.
    cbn [negb]. rewrite Hsum, u32_small by lia. rewrite (IH d1); [done|by split; eauto|done].
Qed.
End spec.

(** ** [partition_info] and [ide_init] *)

Lemma info_loop_spec k i ps : 0 ≤ i → (Z.to_nat i + k ≤ length ps)%nat →
  info_loop k i ps = Ok (take k (drop (Z.to_nat i) ps) ≫= info_line).
Proof.
  revert i. induction k as [|k IH]; intros i Hi Hlen; [done|].
  destruct (lookup_lt_is_Some_2 ps (Z.to_nat i)) as [p Hp]; [lia|].
  cbn [info_loop]. rewrite Hp, IH by lia. cbn [obind]. rewrite (drop_S _ _ _ Hp).
  replace (Z.to_nat (i + 1)) with (S (Z.to_nat i)) by lia. done.
Qed.

Lemma partition_info_spec hd k l : prim_cnt hd = Z.of_nat k → logic_cnt hd = Z.of_nat l →
  (k ≤ length (prim_parts hd))%nat → (l ≤ length (logic_parts hd))%nat →
  partition_info hd = Ok ((take k (prim_parts hd) ++ take l (logic_parts hd)) ≫= info_line).
Proof.
  intros Hk Hl Hlk Hll. unfold partition_info. rewrite Hk, Hl, !Nat2Z.id.
  rewrite !info_loop_spec by (cbn; lia). cbn [obind]. change (Z.to_nat 0) with 0%nat. rewrite !drop_0.
  by rewrite bind_app.
Qed.

Lemma disk_name c : 97 ≤ c < 256 → text (chars "sd%c") [AWord c] = [115; 100; c].
Proof.
  intros Hc. unfold text. change (chars "sd%c") with [115; 100; 37; 99]. cbn [render].
  repeat first [rewrite decide_True by done | rewrite decide_False by done]. cbn. by rewrite u8_small by lia.
Qed.

(** The output of a format, piece by piece. *)
Lemma render_flag fmt args b b' : fst <$> render fmt args b = fst <$> render fmt args b'.
Proof.
  revert args. induction fmt as [|c fmt IH]; intros args; [done|]. cbn [render].
  destruct (decide (c = 37)); [|by destruct (render fmt args false)].
  destruct fmt as [|k fmt']; [done|].
  repeat (destruct (decide _); [by destruct args as [|[]]; try destruct (render _ _ _)|]). apply IH.
Qed.

Lemma render_lit l fmt args b : Forall (λ c, c ≠ 37) l →
  fst <$> render (l ++ fmt) args b = app l <$> (fst <$> render fmt args false).
Proof.
  intros Hl. revert b. induction Hl as [|c l Hc _ IH]; intros b.
  - rewrite (render_flag _ _ b false). cbn [app]. by destruct (render fmt args false).
  - cbn [app render]. rewrite decide_False by done.
    specialize (IH false). destruct (render (l ++ fmt) args false) as [[]|], (render fmt args false) as [[]|]; try discriminate IH; [|done].
    by injection IH as ->.
Qed.
Lemma render_str p s fmt args b :
  fst <$> render (37 :: 115 :: fmt) (AStr p s :: args) b = app s <$> (fst <$> render fmt args false).
Proof. rewrite (render_flag fmt args false true). cbn. by destruct (render fmt args true). Qed.
Lemma render_dec w fmt args b :
  fst <$> render (37 :: 100 :: fmt) (AWord w :: args) b = app (decimal w) <$> (fst <$> render fmt args false).
Proof.
  cbn [render]. rewrite decide_True by done. repeat rewrite decide_False by done. rewrite decide_True by done.
  by destruct (render fmt args false).
Qed.
Lemma render_end l b : Forall (λ c, c ≠ 37) l → fst <$> render l [] b = Some l.
Proof. intros Hl. rewrite <- (app_nil_r l) at 1. rewrite render_lit by done. cbn. by rewrite app_nil_r. Qed.

Ltac no_percent := apply (bool_decide_unpack _); by vm_compute.

(** The characters of a string in the words of the identification: the first one is in the high
    byte (from the ATA documentation). *)
Definition ata_string (ws : list Z) : list Z := ws ≫= λ w, [w / 256 mod 256; w mod 256].
Fixpoint swap_pairs (l : list Z) : list Z :=
  match l with x :: y :: l => y :: x :: swap_pairs l | _ => l end.

Lemma swap_pairs_perm l : swap_pairs l ≡ₚ l.
Proof. revert l. fix IH 1. intros [|x [|y l]]; [done..|]. cbn [swap_pairs]. rewrite IH. constructor. Qed.

Lemma word_bytes_swapped ws : word_bytes ws = swap_pairs (ata_string ws).
Proof.
  induction ws as [|w ws IH]; [done|]. change (w :: ws) with ([w] ++ ws).
  rewrite word_bytes_app, IH. done.
Qed.

Lemma word_bytes_slice (a n : nat) ws :
  take (2 * n) (drop (2 * a) (word_bytes ws)) = word_bytes (take n (drop a ws)).
Proof.
  revert ws. induction a as [|a IH]; intros ws.
  - rewrite !drop_0. revert ws. induction n as [|n IH]; intros [|w ws]; [done..|].
    change (w :: ws) with ([w] ++ ws). rewrite word_bytes_app.
    replace (2 * S n)%nat with (S (S (2 * n))) by lia. cbn [take app word_bytes mbind list_bind]. by rewrite IH.
  - destruct ws as [|w ws]; [change (word_bytes []) with (@nil Z); by rewrite !drop_nil, !take_nil|]. change (w :: ws) with ([w] ++ ws).
    rewrite word_bytes_app. replace (2 * S a)%nat with (S (S (2 * a))) by lia. apply IH.
Qed.

Lemma c_string_app s rest : Forall (λ b, b ≠ 0) s →
  c_string (s ++ rest) = let! r := c_string rest in Ok (s ++ r).
Proof.
  induction 1 as [|b s Hb _ IH]; cbn [app c_string]; [by destruct (c_string rest)|].
  rewrite (proj2 (Z.eqb_neq b 0)) by done. rewrite IH. by destruct (c_string rest).
Qed.

(** [disk_identify] prints serial number and model with the two characters of each word swapped,
    the serial number followed by whatever is on the stack up to a zero byte, and a
    capacity that is too small from 4 GB on. *)
Lemma identify_text_swapped stack name ws garbage :
  length ws = 256%nat → Forall (λ b, b ≠ 0) (ata_string (take 10 (drop 10 ws))) →
  Forall (λ b, b ≠ 0) (ata_string (take 20 (drop 27 ws))) → c_string stack = Ok garbage →
  let sec_cnt := long_at (word_bytes ws) 120 in
  identify_text stack name (word_bytes ws) = Ok
    (chars "    disk " ++ name ++ chars " info:" ++ [10] ++
     chars "    SN: " ++ swap_pairs (ata_string (take 10 (drop 10 ws))) ++ garbage ++ [10] ++
     chars "    MODULE: " ++ swap_pairs (ata_string (take 20 (drop 27 ws))) ++ [10] ++
     chars "    SECTORS: " ++ decimal sec_cnt ++ [10] ++
     chars "    CAPACITY: " ++ decimal ((sec_cnt * 512) mod 4294967296 / 1024 / 1024) ++ chars "MB" ++ [10]).
Proof.
  intros Hlen Hsn Hmd Hst sec_cnt. unfold identify_text.
  change (Z.to_nat (u8 (10 * 2))) with (2 * 10)%nat. change (Z.to_nat (u8 (27 * 2))) with (2 * 27)%nat.
  change 40%nat with (2 * 20)%nat at 1. change 20%nat with (2 * 10)%nat at 1.
  rewrite !word_bytes_slice. change (long_at (word_bytes ws) (60 * 2)) with sec_cnt. clearbody sec_cnt.
  rewrite !word_bytes_swapped.
  rewrite c_string_app by (by rewrite swap_pairs_perm). rewrite Hst. cbn [obind].
  rewrite c_string_app by (by rewrite swap_pairs_perm). cbn [c_string replicate Nat.sub Z.eqb obind]. rewrite app_nil_r.
  unfold capacity, u32.
  generalize (swap_pairs (ata_string (take 10 (drop 10 ws)))) as sn.
  generalize (swap_pairs (ata_string (take 20 (drop 27 ws)))) as md. intros md sn.
  generalize ((sec_cnt * 512) mod 4294967296 / 1024 / 1024) as mb. intros mb. f_equal.
  change (chars "    disk %s info:" ++ [10] ++ chars "    SN: %s" ++ [10])
    with (chars "    disk " ++ 37 :: 115 :: (chars " info:" ++ [10] ++ chars "    SN: ") ++ 37 :: 115 :: [10]).
  change (chars "    MODULE: %s" ++ [10]) with (chars "    MODULE: " ++ 37 :: 115 :: [10]).
  change (chars "    SECTORS: %d" ++ [10]) with (chars "    SECTORS: " ++ 37 :: 100 :: [10]).
  change (chars "    CAPACITY: %dMB" ++ [10]) with (chars "    CAPACITY: " ++ 37 :: 100 :: chars "MB" ++ [10]).
  unfold text. rewrite !render_lit by no_percent. rewrite !render_str, !render_dec, render_lit by no_percent.
  rewrite render_str, !render_end by no_percent. cbn [fmap option_fmap option_map default id]. unfold id. by rewrite <- !app_assoc.
Qed.

(** Lengths of the arrays of a disk. *)
Ltac lengths := rewrite ?length_app, ?length_numbered, ?length_drop, ?length_inserts; lia.

Section start.
Context {D : Type} `{AtaBus D} (sector : Z → Z → list Z) (size : Z → Z).
Context `{!AtaDisk D 0x1f0 (0x2e + Z.of_nat 0) sector size} (cur : Z) (chs : list ide_channel).
Local Abbreviation drive_ready := (drive_ready 0x1f0 0 sector size chs cur).

(** One drive: its identification is read, then it is scanned. *)
Lemma init_disk_spec fuel dev d (s : ide D) hd0 hd1 st : dev = 0 ∨ dev = 1 →
  i_driver s = Driver d chs → drive_ready (Drive 0 dev) d → i_disks s !! Z.to_nat dev = Some hd0 →
  let name := [115; 100; 97 + dev] in
  (∀ d1, drive_ready (Drive 0 dev) d1 → ∃ d2, drive_ready (Drive 0 dev) d2 ∧
    partition_scan fuel cur (Drive 0 dev)
      (Scan (Driver d1 chs) (Disk name (prim_parts hd0) (logic_parts hd0) 0 0) (i_statics s)) 0 =
    Ok (Scan (Driver d2 chs) hd1 st)) →
  (Z.to_nat (prim_cnt hd1) ≤ length (prim_parts hd1))%nat → 0 ≤ prim_cnt hd1 →
  (Z.to_nat (logic_cnt hd1) ≤ length (logic_parts hd1))%nat → 0 ≤ logic_cnt hd1 →
  ∃ d', init_disk fuel cur 0 dev s = Ok (Ide (Driver d' chs) (<[Z.to_nat dev := hd1]> (i_disks s)) st
      (i_irqaction s) (i_out s ++ [MIdentify (word_bytes (ident dev));
        MText ((take (Z.to_nat (prim_cnt hd1)) (prim_parts hd1) ++
          take (Z.to_nat (logic_cnt hd1)) (logic_parts hd1)) ≫= info_line)])) ∧
    drive_ready (Drive 0 dev) d'.
Proof.
  intros Hdev Es Hd Ehd name Hscan Hp Hp0 Hl Hl0. unfold init_disk.
  replace (Z.to_nat (0 * 2 + dev)) with (Z.to_nat dev) by lia. rewrite Ehd.
  replace (97 + 0 * 2 + dev) with (97 + dev) by lia. rewrite disk_name by lia. fold name.
  change (Z.to_nat 0) with 0%nat. rewrite Es. pose proof Hd as [Hn Ec En Hcur Hsz [r Hr]].
  destruct (disk_identify_spec 0x1f0 0 sector size Hn d chs unlocked (Drive 0 dev) r Ec En Hr)
    as (d1 & r1 & -> & Hr1). cbn [obind dev_no].
  destruct (Hscan d1) as (d2 & Hd2 & ->); [by split; eauto|]. cbn [obind sc_driver sc_disk sc_statics].
  rewrite (partition_info_spec hd1 (Z.to_nat (prim_cnt hd1)) (Z.to_nat (logic_cnt hd1))) by lia. cbn [obind].
  replace (if dev =? 1 then 1 else 0) with dev by (destruct Hdev as [->| ->]; done). eauto.
Qed.

Lemma ide_init_spec fuel hard_disk_service hd_cnt (s : ide D) d r c0 c1 hd0 hd1 rest P0 b L0 P1 :
  let sda := chars "sda" in let sdb := chars "sdb" in
  1 ≤ hd_cnt ≤ 2 → hard_disk_service ≠ NULL → cur ≠ NULL → ready d r →
  chs = [chan 0x1f0 0 unlocked false 0; c1] →
  (∀ i, 0 ≤ i ≤ 1 → 0 < size i ≤ 268435456) →
  s = Ide (Driver d [c0; c1]) (hd0 :: hd1 :: rest) (Statics 0 0 0) (i_irqaction s) (i_out s) →
  length (i_irqaction s) = 129%nat →
  length (prim_parts hd0) = 4%nat → length (logic_parts hd0) = 8%nat → length (prim_parts hd1) = 4%nat →
  partitioned sector size (Drive 0 0) P0 b L0 → partitioned sector size (Drive 0 1) P1 0 [] →
  (length P0 + length P1 ≤ 3)%nat → (length L0 ≤ 8)%nat → (length L0 < fuel)%nat →
  let parts0 := numbered sda 1 P0 in let parts0' := numbered sda 5 L0 in
  let slots1 := list_inserts (length P0) (numbered sdb (Z.of_nat (length P0) + 1) P1) (prim_parts hd1) in
  ∃ d', ide_init fuel cur hard_disk_service hd_cnt s = Ok (Ide (Driver d' chs)
    (Disk sda (parts0 ++ drop (length P0) (prim_parts hd0)) (parts0' ++ drop (length L0) (logic_parts hd0))
       (Z.of_nat (length P0)) (Z.of_nat (length L0)) ::
     Disk sdb slots1 (logic_parts hd1) (Z.of_nat (length P1)) 0 :: rest)
    (Statics b (Z.of_nat (length P0) + Z.of_nat (length P1)) (Z.of_nat (length L0)))
    (<[46%nat := hard_disk_service]> (i_irqaction s))
    (i_out s ++ [MText (chars "ide initialization start" ++ [10]);
      MIdentify (word_bytes (ident 0)); MText ((parts0 ++ parts0') ≫= info_line);
      MIdentify (word_bytes (ident 1)); MText (take (length P1) slots1 ≫= info_line);
      MText (chars "ide initialization complete" ++ [10])])) ∧ ∃ r', ready d' r'.
Proof.
  intros sda sdb Hcnt Hh Hcur Hr Echs Hsz Es Hirq Hp0 Hl0 Hp1 HP0 HP1 HP HL Hf parts0 parts0' slots1.
  assert (∀ dev d1 r1, 0 ≤ dev ≤ 1 → ready d1 r1 → drive_ready (Drive 0 dev) d1) as Hready.
  { intros dev d1 r1 Hdev Hr1. split; [lia|by rewrite Echs|done|done| |eauto].
    unfold unit_of. cbn [dev_no]. destruct (dev =? 1); apply Hsz; lia. }
  unfold ide_init. rewrite Es. cbn [i_driver i_disks i_statics i_irqaction i_out].
  rewrite (u8_small hd_cnt) by lia. rewrite (proj2 (Z.ltb_lt 0 hd_cnt)) by lia. cbn [ASSERT obind].
  replace (Z.to_nat (u8 ((hd_cnt + 2 - 1) / 2))) with 1%nat by (unfold u8; divlia).
  cbn [init_channels]. unfold init_channel at 1. change (Z.to_nat 0) with 0%nat.
  unfold get_channel at 1. cbn [i_driver g_channels lookup list_lookup obind].
  change (0 =? 0) with true. cbv iota. cbn [port_base irq_no ch_lock wait_intr disk_ok].
  unfold register_irq_handler. rewrite (proj2 (Z.eqb_neq _ _) Hh). cbn [negb ASSERT obind].
  change (Z.to_nat (u8 (32 + 14))) with 46%nat. cbn [i_irqaction i_disks i_statics i_out].
  destruct (lookup_lt_is_Some_2 (i_irqaction s) 46) as [old Hold]; [lia|]. rewrite Hold. cbn [obind].
  unfold set_channel at 1. cbn [hw g_channels i_driver].
  change (<[0%nat := _]> [c0; c1]) with [chan 0x1f0 0 unlocked false 0; c1]. rewrite <- Echs.
  set (s0 := Ide _ _ _ _ _).
  set (D0 := Disk sda (parts0 ++ _) _ _ _).
  destruct (init_disk_spec fuel 0 d s0 hd0 D0 (Statics b (Z.of_nat (length P0)) (Z.of_nat (length L0))))
    as (d1 & -> & Hd1); [by left|done|by apply (Hready 0 d r)|done| |subst D0 parts0 parts0'; cbn [prim_parts logic_parts prim_cnt logic_cnt]; lengths..|].
  { intros d1 Hd1. cbn [i_statics].
    pose proof (scan_spec 0x1f0 0 sector size chs cur (Drive 0 0) fuel d1
      (Disk [115; 100; 97 + 0] (prim_parts hd0) (logic_parts hd0) 0 0) P0 b L0 0 0 Hd1 HP0) as Hscan.
    rewrite decide_True, with_first in Hscan by (done || lia). apply Hscan; [done|lia..]. }
  cbn [obind].
  destruct Hd1 as [_ _ _ _ _ [r1 Hr1]].
  set (s1 := Ide _ _ _ _ _). set (D1 := Disk sdb _ _ _ _).
  destruct (init_disk_spec fuel 1 d1 s1 hd1 D1 (Statics b (Z.of_nat (length P0) + Z.of_nat (length P1)) (Z.of_nat (length L0))))
    as (d2 & -> & Hd2); [by right|done|by apply (Hready 1 d1 r1)|done| |subst D1 slots1; cbn [prim_parts logic_parts prim_cnt logic_cnt]; lengths..|].
  { intros d2 Hd2. cbn [i_statics s1]. destruct fuel as [|fuel]; [lia|].
    destruct (scan_plain 0x1f0 0 sector size chs cur (Drive 0 1) fuel d2
      (Disk [115; 100; 97 + 1] (prim_parts hd1) (logic_parts hd1) 0 0) P1 b
      (Z.of_nat (length P0)) (Z.of_nat (length L0)) Hd2 HP1) as (d3 & Hd3 & E); [done|done|lia|].
    exists d3. split; [done|]. rewrite decide_True in E by lia. rewrite E. do 2 f_equal.
    subst D1 slots1. unfold with_prims. cbn [d_name prim_parts logic_parts prim_cnt logic_cnt].
    by rewrite Nat2Z.id, Z.add_0_l, u8_small by lia. }
  cbn [obind i_driver i_disks i_statics i_irqaction i_out s1 s0]. exists d2. split; [|apply Hd2].
  subst D0 D1. cbn [prim_parts logic_parts prim_cnt logic_cnt]. do 2 f_equal.
  rewrite !Nat2Z.id. subst parts0 parts0'.
  rewrite !take_app_length' by (by rewrite length_numbered). rewrite <- !app_assoc.
  change (Z.to_nat 0) with 0%nat. rewrite take_0, app_nil_r. done.
Qed.

(** [ide_init] with one or two disks: the first channel is set up with its ports, its
    handler and a free lock; the partitions of the first disk are entered and printed; but
    the number of the next primary partition is not reset, so that those of the second disk
    go to the slots behind those of the first, with their numbers, while the first slots are printed. *)
Theorem ide_init_scans fuel hard_disk_service hd_cnt (s : ide D) d r c0 c1 hd0 hd1 rest P0 b L0 P1 :
  let sda := chars "sda" in let sdb := chars "sdb" in
  1 ≤ hd_cnt ≤ 2 → hard_disk_service ≠ NULL → cur ≠ NULL → ready d r →
  chs = [chan 0x1f0 0 unlocked false 0; c1] →
  (∀ i, 0 ≤ i ≤ 1 → 0 < size i ≤ 268435456) →
  s = Ide (Driver d [c0; c1]) (hd0 :: hd1 :: rest) (Statics 0 0 0) (i_irqaction s) (i_out s) →
  length (i_irqaction s) = 129%nat →
  length (prim_parts hd0) = 4%nat → length (logic_parts hd0) = 8%nat → length (prim_parts hd1) = 4%nat →
  partitioned sector size (Drive 0 0) P0 b L0 → partitioned sector size (Drive 0 1) P1 0 [] →
  (length P0 + length P1 ≤ 3)%nat → (length L0 ≤ 8)%nat → (length L0 < fuel)%nat →
  let parts0 := numbered sda 1 P0 in let parts0' := numbered sda 5 L0 in
  let slots1 := list_inserts (length P0) (numbered sdb (Z.of_nat (length P0) + 1) P1) (prim_parts hd1) in
  ∃ d', ide_init fuel cur hard_disk_service hd_cnt s = Ok (Ide (Driver d' chs)
    (Disk sda (parts0 ++ drop (length P0) (prim_parts hd0)) (parts0' ++ drop (length L0) (logic_parts hd0))
       (Z.of_nat (length P0)) (Z.of_nat (length L0)) ::
     Disk sdb slots1 (logic_parts hd1) (Z.of_nat (length P1)) 0 :: rest)
    (Statics b (Z.of_nat (length P0) + Z.of_nat (length P1)) (Z.of_nat (length L0)))
    (<[46%nat := hard_disk_service]> (i_irqaction s))
    (i_out s ++ [MText (chars "ide initialization start" ++ [10]);
      MIdentify (word_bytes (ident 0)); MText ((parts0 ++ parts0') ≫= info_line);
      MIdentify (word_bytes (ident 1)); MText (take (length P1) slots1 ≫= info_line);
      MText (chars "ide initialization complete" ++ [10])])).
Proof.
  intros sda sdb H1 H2 H3 H4 H5 H6 H7 H8 H9 H10 H11 H12 H13 H14 H15 H16 parts0 parts0' slots1.
  destruct (ide_init_spec fuel hard_disk_service hd_cnt s d r c0 c1 hd0 hd1 rest P0 b L0 P1) as (d' & E & _); [done..|].
  by exists d'.
Qed.
End start.

(** * The hypotheses can be met *)

(** Sectors with a partition table. *)
Definition demo_entry (e : partition_table) : list Z :=
  [0; 0; 0; 0; fs_type e; 0; 0; 0] ++ Stdio.word_bytes (pt_start_lba e) ++ Stdio.word_bytes (pt_sector_cnt e).
Definition demo_table (es : list partition_table) : list Z :=
  bytes_words (replicate 446 0 ++ (es ≫= demo_entry) ++ replicate (16 * (4 - length es)) 0 ++ [0x55; 0xaa]).
Definition demo_image (ts : list (Z * Z * list partition_table)) (i lba : Z) : list Z :=
  match find (λ t, (t.1.1 =? i) && (t.1.2 =? lba)) ts with
  | Some t => demo_table t.2
  | None => replicate 256 0
  end.

Definition table_ok (t : Z * Z * list partition_table) : bool :=
  (length (demo_table t.2) =? 256)%nat && forallb (λ w, (0 <=? w) && (w <? 65536)) (demo_table t.2).

Lemma demo_image_ok ts : forallb table_ok ts = true → is_image (demo_image ts).
Proof.
  rewrite forallb_forall. intros Hts i lba. unfold demo_image. destruct (find _ ts) as [t|] eqn:E.
  - apply find_some in E as [Hin _]. specialize (Hts t Hin). unfold table_ok in Hts.
    apply andb_prop in Hts as [Hlen Hw]. split; [by apply Nat.eqb_eq|].
    rewrite forallb_forall in Hw. apply Forall_forall. intros w Hin'. rewrite list_elem_of_In in Hin'.
    specialize (Hw w Hin'). lia.
  - split; [by rewrite length_replicate|]. by apply Forall_replicate.
Qed.

(** Linux partitions and links. *)
Definition linux (s c : Z) : partition_table := PartitionTable 0x83 s c.
Definition link_to (s : Z) : partition_table := PartitionTable 5 s 20.
Definition none : partition_table := PartitionTable 0 0 0.

(** Two disks with partitions; one with four primary partitions and a table that leads to itself,
    and one with nine logical partitions. *)
Definition two_disks : list (Z * Z * list partition_table) :=
  [(0, 0, [linux 1 7; link_to 8]); (0, 8, [linux 1 3; link_to 4]); (0, 12, [linux 1 2]);
   (1, 0, [linux 2 5])].
Definition bad_disks : list (Z * Z * list partition_table) :=
  [(0, 0, [linux 1 1; linux 2 1; linux 3 1; linux 4 1]); (0, 9, [link_to 2]); (1, 0, [link_to 8]);
   (1, 8, [linux 1 1; link_to 2]); (1, 10, [linux 1 1; link_to 4]); (1, 12, [linux 1 1; link_to 6]);
   (1, 14, [linux 1 1; link_to 8]); (1, 16, [linux 1 1; link_to 10]); (1, 18, [linux 1 1; link_to 12]);
   (1, 20, [linux 1 1; link_to 14]); (1, 22, [linux 1 1; link_to 16]); (1, 24, [linux 1 1])].
Lemma two_disks_ok : is_image (demo_image two_disks).
Proof. apply demo_image_ok. by vm_compute. Qed.
Lemma bad_disks_ok : is_image (demo_image bad_disks).
Proof. apply demo_image_ok. by vm_compute. Qed.

Lemma two_disks_0 : partitioned (demo_image two_disks) (λ _, 64) (Drive 0 0) [(1, 7)] 8 [(9, 3); (13, 2)].
Proof.
  unfold partitioned. set (T := tables_of _ _). assert (T 0 = [linux 1 7; link_to 8; none; none]) as ->
    by by vm_compute.
  apply (mbr_prim _ _ (linux 1 7)); [done|]. apply (mbr_ext _ _ (link_to 8)); [done|by repeat constructor|].
  apply (chain_next _ _ 8 8 (linux 1 3) (link_to 4) [none; none]);
    [lia|by vm_compute|done|done|by repeat constructor|].
  by apply (chain_last _ _ 8 12 (linux 1 2) [none; none; none]); [lia|vm_compute|done|repeat constructor].
Qed.
Lemma two_disks_1 : partitioned (demo_image two_disks) (λ _, 64) (Drive 0 1) [(2, 5)] 0 [].
Proof.
  unfold partitioned. set (T := tables_of _ _). assert (T 0 = [linux 2 5; none; none; none]) as ->
    by by vm_compute.
  apply (mbr_prim _ _ (linux 2 5)); [done|by repeat constructor].
Qed.

Lemma bad_disks_0 : partitioned (demo_image bad_disks) (λ _, 64) (Drive 0 0)
  [(1, 1); (2, 1); (3, 1); (4, 1)] 0 [].
Proof.
  unfold partitioned. set (T := tables_of _ _).
  assert (T 0 = [linux 1 1; linux 2 1; linux 3 1; linux 4 1]) as -> by by vm_compute.
  apply (mbr_prim _ _ (linux 1 1)); [done|]. apply (mbr_prim _ _ (linux 2 1)); [done|].
  apply (mbr_prim _ _ (linux 3 1)); [done|]. apply (mbr_prim _ _ (linux 4 1)); [done|constructor].
Qed.

Lemma bad_disks_1 : partitioned (demo_image bad_disks) (λ _, 64) (Drive 0 1) [] 8
  ((λ i, (2 * i + 9, 1)) <$> seqZ 0 9).
Proof.
  unfold partitioned. set (T := tables_of _ _). assert (T 0 = [link_to 8; none; none; none]) as ->
    by by vm_compute.
  apply (mbr_ext _ _ (link_to 8)); [done|by repeat constructor|].
  change ((λ i, _) <$> seqZ 0 9) with [(9, 1); (11, 1); (13, 1); (15, 1); (17, 1); (19, 1); (21, 1); (23, 1); (25, 1)].
  assert (∀ b lba k L, 0 < lba < 64 → T lba = [linux 1 1; link_to k; none; none] →
    chain T 64 b (u32 (k + b)) L → chain T 64 b lba ((u32 (lba + 1), 1) :: L)) as next.
  { intros b lba k L Hlba Ht Hc. by apply (chain_next _ _ b lba (linux 1 1) (link_to k) [none; none]); [..|repeat constructor|]. }
  apply (next 8 8 2); [lia|by vm_compute|]. apply (next 8 10 4); [lia|by vm_compute|].
  apply (next 8 12 6); [lia|by vm_compute|]. apply (next 8 14 8); [lia|by vm_compute|].
  apply (next 8 16 10); [lia|by vm_compute|]. apply (next 8 18 12); [lia|by vm_compute|].
  apply (next 8 20 14); [lia|by vm_compute|]. apply (next 8 22 16); [lia|by vm_compute|].
  by apply (chain_last _ _ 8 24 (linux 1 1) [none; none; none]); [lia|vm_compute|done|repeat constructor].
Qed.

Definition demo_on image : demo_disk := DemoDisk image (Regs 0 0 0 0 0) Idle.
Definition no_partition : partition := Partition 0 0 [].
Definition empty_disk (name : list Z) : disk :=
  Disk name (replicate 4 no_partition) (replicate 8 no_partition) 0 0.

Lemma demo_ready image (Himage : is_image image) dev :
  @drive_ready _ _ 0x1f0 0 image (λ _, 64) (demo_ata image Himage) demo_channels 4096 (Drive 0 dev) (demo_on image).
Proof. split; [lia|done|done|done|cbn; lia|by exists (Regs 0 0 0 0 0)]. Qed.

Lemma partition_scan_finds_witness : ∃ d' : demo_disk,
  partition_scan 3 4096 (Drive 0 0)
    (Scan (Driver (demo_on (demo_image two_disks)) demo_channels) (empty_disk [115]) (Statics 0 0 0)) 0 =
  Ok (Scan (Driver d' demo_channels)
    (Disk [115]
      (Partition 1 7 [115; 49] :: replicate 3 no_partition)
      (Partition 9 3 [115; 53] :: Partition 13 2 [115; 54] :: replicate 6 no_partition) 1 2)
    (Statics 8 1 2)).
Proof.
  destruct (partition_scan_finds (AtaDisk0 := demo_ata _ two_disks_ok) 0x1f0 0 (demo_image two_disks) (λ _, 64)
    demo_channels 4096 (Drive 0 0) 3 (demo_on (demo_image two_disks)) (empty_disk [115]) [(1, 7)] 8 [(9, 3); (13, 2)])
    as (d' & E & _); [apply demo_ready|exact two_disks_0|by split_and!|cbn; lia|cbn; lia|cbn; lia|].
  exists d'. exact E.
Defined.

Lemma partition_scan_limits_witness :
  partition_scan 30 4096 (Drive 0 0)
    (Scan (Driver (demo_on (demo_image bad_disks)) demo_channels) (empty_disk [115]) (Statics 0 0 0)) 0 = Panic ∧
  partition_scan 30 4096 (Drive 0 1)
    (Scan (Driver (demo_on (demo_image bad_disks)) demo_channels) (empty_disk [115]) (Statics 0 0 0)) 0 = Fault ∧
  partition_scan 30 4096 (Drive 0 0)
    (Scan (Driver (demo_on (demo_image bad_disks)) demo_channels) (empty_disk [115]) (Statics 7 0 0)) 9 = NoFuel.
Proof.
  pose proof (λ dev, partition_scan_limits (AtaDisk0 := demo_ata _ bad_disks_ok) 0x1f0 0 (demo_image bad_disks) (λ _, 64)
    demo_channels 4096 (Drive 0 dev) 30 (demo_on (demo_image bad_disks)) (empty_disk [115])) as Hlim.
  split_and!.
  - eapply (Hlim 0 [(1, 1); (2, 1); (3, 1); (4, 1)] 0 [] 0 none);
      [apply demo_ready|by split_and!|exact bad_disks_0|cbn; lia|lia].
  - eapply (Hlim 1 [] 8 _ 0 none);
      [apply demo_ready|by split_and!|exact bad_disks_1|cbn; lia|rewrite length_fmap, length_seqZ; lia].
  - eapply (Hlim 0 [] 7 [] 9 (link_to 2));
      [apply demo_ready|by split_and!|by vm_compute|cbn; lia|done|done|done|apply demo_ready|done].
Defined.

Lemma ide_init_scans_witness : ∃ d' : demo_disk,
  ide_init 3 4096 0xc0001000 2
    (Ide (Driver (demo_on (demo_image two_disks)) (replicate 2 (Channel 0 0 unlocked true 0)))
      (replicate 4 (empty_disk [])) (Statics 0 0 0) (replicate 129 1) []) =
  Ok (Ide (Driver d' [chan 0x1f0 0 unlocked false 0; Channel 0 0 unlocked true 0])
    [Disk (chars "sda") (Partition 1 7 (chars "sda1") :: replicate 3 no_partition)
       (Partition 9 3 (chars "sda5") :: Partition 13 2 (chars "sda6") :: replicate 6 no_partition) 1 2;
     Disk (chars "sdb") [no_partition; Partition 2 5 (chars "sdb2"); no_partition; no_partition]
       (replicate 8 no_partition) 1 0;
     empty_disk []; empty_disk []]
    (Statics 8 2 2) (<[46%nat := 0xc0001000]> (replicate 129 1))
    [MText (chars "ide initialization start" ++ [10]);
     MIdentify (replicate 512 0);
     MText (chars "    sda1 start_lba:0x1, sector_cnt:0x7" ++ [10] ++
       chars "    sda5 start_lba:0x9, sector_cnt:0x3" ++ [10] ++
       chars "    sda6 start_lba:0xD, sector_cnt:0x2" ++ [10]);
     MIdentify (word_bytes (replicate 256 1));
     MText (chars "     start_lba:0x0, sector_cnt:0x0" ++ [10]);
     MText (chars "ide initialization complete" ++ [10])]).
Proof.
  destruct (ide_init_scans (AtaDisk0 := demo_ata _ two_disks_ok) (demo_image two_disks) (λ _, 64)
    4096 [chan 0x1f0 0 unlocked false 0; Channel 0 0 unlocked true 0] 3 0xc0001000 2
    (Ide (Driver (demo_on (demo_image two_disks)) (replicate 2 (Channel 0 0 unlocked true 0)))
      (replicate 4 (empty_disk [])) (Statics 0 0 0) (replicate 129 1) [])
    (demo_on (demo_image two_disks)) (Regs 0 0 0 0 0) (Channel 0 0 unlocked true 0) (Channel 0 0 unlocked true 0)
    (empty_disk []) (empty_disk []) (replicate 2 (empty_disk [])) [(1, 7)] 8 [(9, 3); (13, 2)] [(2, 5)])
    as (d' & E); [lia|discriminate|discriminate|reflexivity|reflexivity|cbn; lia|reflexivity|reflexivity
    |reflexivity|reflexivity|reflexivity|exact two_disks_0|exact two_disks_1|cbn; lia|cbn; lia|cbn; lia|].
  exists d'. rewrite E. do 2 f_equal.
Defined.
