(* ===== verification/Trace.v ===== *)
(** What the disk driver does with the hardware, function by function: whatever holds across every use of the ports
    holds across the functions of [Ide] and [Partition] that return, and [ide_init] waits for an interrupt at
    least once.  [Init] counts the waits with it. *)
From S2P Require Import Prelude KList Thread Mutex CString Stdio Desc Ide Partition.
Local Open Scope Z_scope.

(** Take apart a computation that returned. *)
Ltac open_step := match goal with
  | E : Ok _ = Ok _ |- _ => injection E as ?; subst
  | E : obind _ _ = Ok _ |- _ => apply obind_Ok_inv in E as (? & ? & E)
  | E : (let (_, _) := ?p in _) = Ok _ |- _ => destruct p eqn:?
  | E : (if ?b then _ else _) = Ok _ |- _ => destruct b eqn:?
  | E : match ?x with _ => _ end = Ok _ |- _ => destruct x eqn:?
  | E : (_, _) = (_, _) |- _ => injection E as ?; subst
  end.
Ltac open_run := repeat first [discriminate | open_step]; cbn [hw fst snd] in *.

Section history.
Context {D : Type} `{AtaBus D} (R A : D → D → Prop) `{!PreOrder R}.
(** [R] holds across every use of the ports, and [A] when an interrupt was awaited in between. *)
Context (Hout : ∀ d p v, R d (outb d p v)) (Hin : ∀ d p, R d (inb d p).1) (Hinsw : ∀ d p n, R d (insw d p n).1)
  (Hms : ∀ d, R d (ten_ms d)) (Hawait : ∀ d irq d', await d irq = Some d' → A d d')
  (HA : ∀ d d', A d d' → R d d') (HAR : ∀ d1 d2 d3, A d1 d2 → R d2 d3 → A d1 d3)
  (HRA : ∀ d1 d2 d3, R d1 d2 → A d2 d3 → A d1 d3).

Definition leads (s s' : driver D) : Prop := R (hw s) (hw s').
Instance leads_preorder : PreOrder leads.
Proof using PreOrder0. split; [by intros s; unfold leads|]. intros s1 s2 s3. unfold leads. by intros ->. Qed.

Lemma out_leads s p v : leads s (out s p v).
Proof using Hout. apply Hout. Qed.
Lemma inp_leads s p s' v : inp s p = (s', v) → leads s s'.
Proof using Hin. unfold inp. pose proof (Hin (hw s) p) as Hr. destruct (inb _ _). by intros [= <- _]. Qed.
Lemma insw_leads d p n d' ws : insw d p n = (d', ws) → R d d'.
Proof using Hinsw. pose proof (Hinsw d p n) as Hr. destruct (insw _ _ _). by intros [= <- _]. Qed.
Lemma set_channel_leads s n c : leads s (set_channel s n c).
Proof using PreOrder0. unfold leads. done. Qed.

Lemma select_hd_leads s hd s' : disk_select_hd s hd = Ok s' → leads s s'.
Proof using Hout. unfold disk_select_hd. intros E. open_run. apply out_leads. Qed.

Lemma select_sector_leads s hd lba cnt s' : disk_select_sector s hd lba cnt = Ok s' → leads s s'.
Proof using Hout Hin PreOrder0.
  unfold disk_select_sector. intros E. open_run.
  match goal with Hi : inp _ _ = _ |- _ => apply inp_leads in Hi; etrans; [|apply out_leads]; rewrite <- Hi end.
  by rewrite <- !out_leads.
Qed.

Lemma control_leads s n cmd s' : channel_control_cmd s n cmd = Ok s' → leads s s'.
Proof using Hout PreOrder0. unfold channel_control_cmd. intros E. open_run. rewrite <- out_leads. apply set_channel_leads. Qed.

Lemma to_buf_leads s hd cnt buf off s' buf' : disk_sector_to_buf s hd cnt buf off = Ok (s', buf') → leads s s'.
Proof using Hinsw.
  unfold disk_sector_to_buf. intros E. open_run.
  match goal with Hi : insw _ _ _ = _ |- _ => exact (insw_leads _ _ _ _ _ Hi) end.
Qed.

Lemma busy_wait_leads s hd s' ok : busy_wait s hd = Ok (s', ok) → leads s s'.
Proof using Hin Hms PreOrder0.
  unfold busy_wait. intros E. apply obind_Ok_inv in E as (c & _ & E). revert s E. generalize 30000 as t.
  induction busy_wait_fuel as [|fuel IH]; intros t s E; cbn [busy_wait_loop] in E; [done|].
  destruct (0 <? _); [|by open_run]. destruct (inp s _) as [s1 v] eqn:E1. apply inp_leads in E1. rewrite E1.
  destruct (_ =? 0).
  - destruct (inp s1 _) as [s2 v2] eqn:E2. apply inp_leads in E2. open_run. exact E2.
  - etrans; [|by eapply IH]. apply Hms.
Qed.

Lemma service_leads s irq s' : hard_disk_service s irq = Ok s' → leads s s'.
Proof using Hin PreOrder0.
  unfold hard_disk_service. intros E. open_run; [|done].
  match goal with Hi : inp _ _ = _ |- _ => apply inp_leads in Hi; etrans; [|exact Hi]; apply set_channel_leads end.
Qed.

(** Waiting with the semaphore at 0. *)
Lemma wait_awaits s n s' c : get_channel s n = Ok c → disk_ok c = 0 → wait_disk wait_fuel s n = Ok s' →
  A (hw s) (hw s').
Proof using Hin Hawait HAR PreOrder0.
  unfold wait_fuel. cbn [wait_disk]. intros -> E0. cbn [obind]. rewrite E0. change (0 =? 0) with true. cbv iota.
  destruct (await (hw s) (irq_no c)) as [d|] eqn:Ea; [|done]. intros E.
  apply obind_Ok_inv in E as (s1 & Es%service_leads & E). eapply HAR; [by eapply Hawait|]. etrans; [exact Es|].
  open_run. apply set_channel_leads.
Qed.

Lemma wait_leads s n s' : wait_disk wait_fuel s n = Ok s' → leads s s'.
Proof using Hin Hawait HAR HA PreOrder0.
  intros E. destruct (get_channel s n) as [c| | |] eqn:Ec;
    [|by unfold wait_fuel in E; cbn [wait_disk] in E; rewrite Ec in E..].
  destruct (decide (disk_ok c = 0)) as [E0|E0]; [by apply HA, (wait_awaits s n s' c)|].
  unfold wait_fuel in E. cbn [wait_disk] in E. rewrite Ec in E. cbn [obind] in E.
  rewrite (proj2 (Z.eqb_neq _ _)) in E by done. open_run. apply set_channel_leads.
Qed.

Ltac steps := repeat match goal with
  | Hi : disk_select_hd _ _ = Ok _ |- _ => apply select_hd_leads in Hi
  | Hi : disk_select_sector _ _ _ _ = Ok _ |- _ => apply select_sector_leads in Hi
  | Hi : channel_control_cmd _ _ _ = Ok _ |- _ => apply control_leads in Hi
  | Hi : disk_sector_to_buf _ _ _ _ _ = Ok (_, _) |- _ => apply to_buf_leads in Hi
  | Hi : busy_wait _ _ = Ok (_, _) |- _ => apply busy_wait_leads in Hi
  | Hi : wait_disk _ _ _ = Ok _ |- _ => apply wait_leads in Hi
  | Hi : leads ?a ?b |- leads ?a ?c => etrans; [exact Hi|]; clear Hi
  end; try reflexivity.

Lemma acquire_leads s n cur s' : channel_acquire s n cur = Ok s' → leads s s'.
Proof using PreOrder0. unfold channel_acquire. intros E. open_run. apply set_channel_leads. Qed.
Lemma release_leads s n cur s' : channel_release s n cur = Ok s' → leads s s'.
Proof using PreOrder0. unfold channel_release. intros E. open_run. apply set_channel_leads. Qed.

Lemma read_loop_leads fuel s hd lba buf cnt k s' buf' : ide_read_loop fuel s hd lba buf cnt k = Ok (s', buf') → leads s s'.
Proof using Hout Hin Hinsw Hms Hawait HA HAR PreOrder0.
  revert s buf k. induction fuel as [|fuel IH]; intros s buf k E; cbn [ide_read_loop] in E; [done|].
  destruct (k <? cnt); [|by open_run].
  apply obind_Ok_inv in E as (s2 & E2 & E). apply obind_Ok_inv in E as (s3 & E3 & E). apply obind_Ok_inv in E as (s4 & E4 & E).
  apply obind_Ok_inv in E as ([s5 ok] & E5 & E). destruct (negb ok); [done|].
  apply obind_Ok_inv in E as ([s6 b6] & E6 & E). apply IH in E. steps.
Qed.

Lemma ide_read_leads s cur hd lba buf cnt s' buf' : ide_read s cur hd lba buf cnt = Ok (s', buf') → leads s s'.
Proof using Hout Hin Hinsw Hms Hawait HA HAR PreOrder0.
  unfold ide_read. intros E. apply obind_Ok_inv in E as (_ & _ & E). apply obind_Ok_inv in E as (s1 & E1%acquire_leads & E).
  apply obind_Ok_inv in E as (s2 & E2 & E). apply obind_Ok_inv in E as ([s3 b] & E3%read_loop_leads & E).
  apply obind_Ok_inv in E as (s4 & E4%release_leads & E). injection E as <- _. steps.
Qed.

(** The first wait of a drive, with the semaphore at 0. *)
Lemma identify_awaits s hd s' ws c : get_channel s (channel_no hd) = Ok c → disk_ok c = 0 →
  disk_identify s hd = Ok (s', ws) → A (hw s) (hw s').
Proof using Hout Hin Hinsw Hms Hawait HAR HRA PreOrder0.
  unfold disk_identify. intros Hc H0 E. apply obind_Ok_inv in E as (s1 & E1 & E).
  assert (get_channel s1 (channel_no hd) = Ok c) as Hc1.
  { unfold disk_select_hd in E1. rewrite Hc in E1. cbn in E1. by injection E1 as <-. }
  apply select_hd_leads in E1. apply obind_Ok_inv in E as (s2 & E2 & E).
  assert (∃ c2, get_channel s2 (channel_no hd) = Ok c2 ∧ disk_ok c2 = 0) as (c2 & Hc2 & H2).
  { unfold channel_control_cmd in E2. rewrite Hc1 in E2. cbn in E2. injection E2 as <-. unfold get_channel in *. cbn.
    destruct (g_channels s1 !! channel_no hd) eqn:Eg; [|done]. rewrite list_lookup_insert_eq by (by eapply lookup_lt_Some).
    by eexists. }
  apply control_leads in E2. apply obind_Ok_inv in E as (s3 & E3 & E). apply (wait_awaits _ _ _ _ Hc2 H2) in E3.
  apply obind_Ok_inv in E as ([s4 ok] & E4 & E). destruct (negb ok); [done|].
  eapply HRA; [|eapply HAR; [exact E3|]]; [by transitivity (hw s1)|]. change (leads s3 s'). steps.
Qed.

Lemma identify_leads s hd s' ws : disk_identify s hd = Ok (s', ws) → leads s s'.
Proof using Hout Hin Hinsw Hms Hawait HA HAR PreOrder0.
  unfold disk_identify. intros E. apply obind_Ok_inv in E as (s1 & E1 & E). apply obind_Ok_inv in E as (s2 & E2 & E).
  apply obind_Ok_inv in E as (s3 & E3 & E). apply obind_Ok_inv in E as ([s4 ok] & E4 & E). destruct (negb ok); [done|]. steps.
Qed.

Lemma entries_leads rec lba pts : (∀ x y z, rec x y = Ok z → leads (sc_driver x) (sc_driver z)) →
  ∀ x z, scan_entries rec x lba pts = Ok z → leads (sc_driver x) (sc_driver z).
Proof using PreOrder0.
  intros Hrec. induction pts as [|pt pts IH]; intros x z E; cbn [scan_entries] in E; [by injection E as <-|].
  destruct (fs_type pt =? 5).
  { apply obind_Ok_inv in E as (y & E1 & E). apply IH in E. etrans; [|exact E].
    destruct (negb _); [by eapply Hrec|]. by apply Hrec in E1. }
  destruct (negb _); [|by apply IH]. destruct (lba =? 0).
  - apply obind_Ok_inv in E as ([h st] & _ & E). by apply IH in E.
  - apply obind_Ok_inv in E as ([h st] & _ & E). destruct (8 <? _); [by injection E as <-|by apply IH in E].
Qed.

Lemma partition_scan_leads fuel cur hd x lba y : partition_scan fuel cur hd x lba = Ok y → leads (sc_driver x) (sc_driver y).
Proof using Hout Hin Hinsw Hms Hawait HA HAR PreOrder0.
  revert x lba y. induction fuel as [|fuel IH]; intros x lba y E; cbn [partition_scan] in E; [done|].
  apply obind_Ok_inv in E as ([s b] & E1%ide_read_leads & E). etrans; [exact E1|].
  apply (entries_leads _ _ _ IH) in E. exact E.
Qed.

Lemma init_disk_leads fuel cur ch dev s s' : init_disk fuel cur ch dev s = Ok s' → leads (i_driver s) (i_driver s').
Proof using Hout Hin Hinsw Hms Hawait HA HAR PreOrder0.
  unfold init_disk. intros E. destruct (i_disks s !! _) as [hd0|]; [|done].
  apply obind_Ok_inv in E as ([d ws] & E1%identify_leads & E). apply obind_Ok_inv in E as (x & E2%partition_scan_leads & E).
  apply obind_Ok_inv in E as (info & _ & E). injection E as <-. etrans; [exact E1|exact E2].
Qed.

(** The first drive of a channel is waited for. *)
Lemma init_channel_awaits fuel cur h ch s s' : init_channel fuel cur h ch s = Ok s' → A (hw (i_driver s)) (hw (i_driver s')).
Proof using Hout Hin Hinsw Hms Hawait HA HAR HRA PreOrder0.
  unfold init_channel. intros E. apply obind_Ok_inv in E as (c & Ec & E). apply obind_Ok_inv in E as (t & _ & E).
  apply obind_Ok_inv in E as (s2 & E1 & E%init_disk_leads). eapply HAR; [|exact E]. clear E.
  unfold init_disk in E1. destruct (_ !! Z.to_nat (ch * 2 + 0)) as [hd0|]; [|done].
  apply obind_Ok_inv in E1 as ([d ws] & E2 & E1). apply obind_Ok_inv in E1 as (x & E3%partition_scan_leads & E1).
  apply obind_Ok_inv in E1 as (info & _ & E1). injection E1 as <-.
  unfold get_channel in Ec. destruct (g_channels (i_driver s) !! Z.to_nat ch) eqn:Eg; [|done].
  eapply identify_awaits in E2; [eapply HAR; [exact E2|exact E3]| |].
  - unfold get_channel. cbn. rewrite list_lookup_insert_eq by (by eapply lookup_lt_Some). reflexivity.
  - done.
Qed.

Lemma ide_init_awaits fuel cur h cnt s s' : ide_init fuel cur h cnt s = Ok s' → A (hw (i_driver s)) (hw (i_driver s')).
Proof using Hout Hin Hinsw Hms Hawait HA HAR HRA PreOrder0.
  unfold ide_init. intros E. apply obind_Ok_inv in E as (u & Ha%ASSERT_inv & E). apply Z.ltb_lt in Ha.
  apply obind_Ok_inv in E as (s1 & E1 & E). injection E as <-. cbn [i_driver].
  assert (0 < u8 ((u8 cnt + 2 - 1) / 2)) as Hpos by (pose proof (Z.mod_pos_bound cnt 256); unfold u8 in *; divlia).
  destruct (Z.to_nat (u8 ((u8 cnt + 2 - 1) / 2))) as [|n] eqn:En; [lia|]. cbn [init_channels] in E1.
  apply obind_Ok_inv in E1 as (s2 & E2%init_channel_awaits & E1). eapply HAR; [exact E2|]. clear - E1 PreOrder0 Hout Hin Hinsw Hms Hawait HA HAR HRA.
  revert s2 E1. generalize (0 + 1). induction n as [|n IH]; intros z s2 E1; cbn [init_channels] in E1; [by injection E1 as <-|].
  apply obind_Ok_inv in E1 as (s3 & E3%init_channel_awaits & E1). etrans; [by apply HA|]. by eapply IH.
Qed.
End history.
