(* ===== verification/Screen.v ===== *)
(** Screen output (lib/kernel/print.S): the characters that [put_str] and [put_hex] hand to
    [put_char], and what [put_char] does with the text screen of 25 rows of 80 cells. *)
From S2P Require Import Prelude CString Stdio.
Local Open Scope Z_scope.

(** * Characters *)

(** [put_str]: the characters of a string in memory, up to its NUL. *)
Fixpoint put_str (fuel : nat) (m : mem) (str : Z) : outcome (list Z) :=
  match fuel with
  | O => NoFuel
  | S fuel =>
      let! cl := load m str in
      if cl =? 0 then Ok []
      else let! out := put_str fuel m (u32 (str + 1)) in Ok (cl :: out)
  end.

(** [put_hex]: the loop that fills the buffer from its end, with [loop] turns, the one that skips
    zeros from index [edi] on, and the one that prints the rest (or a single 0). *)
Fixpoint put_hex_fill (loop : nat) (buffer : list Z) (eax : Z) (edi : nat) : list Z :=
  match loop with
  | O => buffer
  | S loop =>
      let edx := Z.land eax 0xf in
      let dl := if edx <=? 9 then edx + 48 else edx - 10 + 65 in
      put_hex_fill loop (<[edi := dl]> buffer) (Z.shiftr eax 4) (edi - 1)
  end.
Fixpoint skip_prefix_0 (buffer : list Z) : list Z :=
  match buffer with
  | [] => [48]
  | cl :: buffer' => if cl =? 48 then skip_prefix_0 buffer' else buffer
  end.
Definition put_hex (n : Z) : list Z := skip_prefix_0 (put_hex_fill 8 (replicate 8 0) n 7).

(** * The screen *)

(** The cells, with character and attribute, and the cursor (a 16-bit number). *)
Record screen := Screen { cells : list (Z * Z); cursor : Z }.

(** Writing a cell; outside the 2000 cells there is no screen. *)
Definition write_cell (s : screen) (bx ch : Z) : outcome (list (Z * Z)) :=
  if (0 <=? bx) && (bx <? 2000) then Ok (<[Z.to_nat bx := (ch, 2)]> (cells s)) else Fault.

(** [.roll_screen] *)
Definition roll_screen (cs : list (Z * Z)) : screen :=
  Screen (drop 80 cs ++ replicate 80 (0x20, 7)) 1920.
(** [.is_line_feed] *)
Definition line_feed (cs : list (Z * Z)) (bx : Z) : screen :=
  let bx := bx - bx mod 80 + 80 in
  if bx <? 2000 then Screen cs bx else roll_screen cs.

Definition put_char (s : screen) (ch : Z) : outcome screen :=
  let cl := u8 ch in
  let bx := cursor s in
  if (cl =? 0x0d) || (cl =? 0x0a) then Ok (line_feed (cells s) bx)
  else if cl =? 0x8 then
    let bx := u16 (bx - 1) in
    let! cs := write_cell s bx 0x20 in
    Ok (Screen cs (bx mod 32768))
  else if cl =? 0 then Ok s
  else
    let! cs := write_cell s bx cl in
    let bx := bx + 1 in
    if bx <? 2000 then Ok (Screen cs bx) else Ok (line_feed cs bx).

(** The characters of an output, one after the other. *)
Fixpoint put_chars (s : screen) (out : list Z) : outcome screen :=
  match out with
  | [] => Ok s
  | ch :: out => let! s := put_char s ch in put_chars s out
  end.

(** * Lemmas *)

(** A screen of 25 rows, with the cursor on it. *)
Definition screen_ok (s : screen) : Prop := length (cells s) = 2000%nat ∧ 0 ≤ cursor s < 2000.

Lemma roll_screen_ok cs : length cs = 2000%nat → screen_ok (roll_screen cs).
Proof. intros H. split; cbn [roll_screen cells cursor]; [rewrite length_app, length_drop, length_replicate|]; lia. Qed.

Lemma line_feed_ok cs bx : length cs = 2000%nat → 0 ≤ bx → screen_ok (line_feed cs bx).
Proof.
  intros H Hbx. unfold line_feed. destruct (Z.ltb_spec (bx - bx mod 80 + 80) 2000); [|by apply roll_screen_ok].
  split; [done|]. cbn [cursor]. pose proof (Z.mod_pos_bound bx 80). lia.
Qed.

(** The digits that are stored: [k] of them, the lowest last. *)
Fixpoint nibbles (k : nat) (n : Z) : list Z :=
  match k with O => [] | S k => nibbles k (n / 16) ++ [digit (n mod 16)] end.

Lemma length_nibbles k n : length (nibbles k n) = k.
Proof. revert n. induction k as [|k IH]; intros n; [done|]. cbn. rewrite length_app, IH. cbn. lia. Qed.

Lemma put_hex_fill_spec k n l r : 0 ≤ n → length l = k →
  put_hex_fill k (l ++ r) n (k - 1) = nibbles k n ++ r.
Proof.
  revert n l r. induction k as [|k IH]; intros n l r Hn Hl.
  - by destruct l.
  - cbn [put_hex_fill nibbles]. replace (S k - 1)%nat with k by lia.
    change 0xf with (2 ^ 4 - 1). rewrite land_ones_mod by lia. change (2 ^ 4) with 16.
    rewrite Z.shiftr_div_pow2 by lia. change (2 ^ 4) with 16.
    destruct (@nil_or_length_pos Z l) as [->|]; [done|].
    destruct l as [|x l _] using rev_ind; [done|]. rewrite length_app in Hl. cbn in Hl.
    assert (length l = k) as Hl' by lia.
    rewrite <- app_assoc. rewrite insert_app_r_alt by lia. replace (k - length l)%nat with 0%nat by lia.
    cbn [app insert list_insert]. rewrite IH by (try lia; by apply Z.div_pos).
    rewrite <- app_assoc. cbn [app]. do 2 f_equal. unfold digit.
    destruct (Z.leb_spec (n mod 16) 9), (Z.ltb_spec (n mod 16) 10); lia.
Qed.

Lemma digit_zero d : 0 ≤ d < 16 → digit d = 48 ↔ d = 0.
Proof. intros Hd. unfold digit. destruct (Z.ltb_spec d 10); lia. Qed.

Lemma skip_app l r : Exists (λ c, c ≠ 48) l → skip_prefix_0 (l ++ r) = skip_prefix_0 l ++ r.
Proof.
  induction l as [|c l IH]; intros Hl; [by inversion Hl|]. cbn [app skip_prefix_0].
  destruct (Z.eqb_spec c 48) as [->|]; [|done]. apply IH. inversion Hl; [done|assumption].
Qed.

Lemma skip_zeros l r : Forall (λ c, c = 48) l → skip_prefix_0 (l ++ r) = skip_prefix_0 r.
Proof. induction 1 as [|c l -> _ IH]; done. Qed.

Lemma nibbles_zero k : Forall (λ c, c = 48) (nibbles k 0).
Proof. induction k as [|k IH]; [done|]. cbn [nibbles]. apply Forall_app. split; [exact IH|by repeat constructor]. Qed.

Lemma pow16_S k : 16 ^ Z.of_nat (S k) = 16 * 16 ^ Z.of_nat k.
Proof. by rewrite Nat2Z.inj_succ, Z.pow_succ_r by lia. Qed.

Lemma nibbles_nonzero k n : 0 < n < 16 ^ Z.of_nat k → Exists (λ c, c ≠ 48) (nibbles k n).
Proof.
  revert n. induction k as [|k IH]; intros n Hn; [cbn in Hn; lia|]. rewrite pow16_S in Hn.
  cbn [nibbles]. apply Exists_app. destruct (decide (n / 16 = 0)) as [E|].
  - right. constructor. rewrite digit_zero by (by apply Z.mod_pos_bound). divlia.
  - left. apply IH. generalize dependent (16 ^ Z.of_nat k). intros p Hp. divlia.
Qed.

(** Without its zeros in front this is the numeral. *)
Lemma skip_nibbles k n fuel : 0 ≤ n < 16 ^ Z.of_nat k → (k ≤ fuel)%nat → (0 < fuel)%nat →
  skip_prefix_0 (nibbles k n) = digits fuel 16 n.
Proof.
  revert n fuel. induction k as [|k IH]; intros n fuel Hn Hk Hf; (destruct fuel as [|fuel]; [lia|]).
  - cbn in Hn. by assert (n = 0) as -> by lia.
  - rewrite pow16_S in Hn. cbn [nibbles digits].
    assert (0 ≤ n / 16 < 16 ^ Z.of_nat k) as Hn' by (generalize dependent (16 ^ Z.of_nat k); intros p Hp; divlia).
    destruct (Z.eqb_spec (n / 16) 0) as [E|E]; cbn [negb].
    + rewrite E, skip_zeros by apply nibbles_zero. cbn [skip_prefix_0 app].
      by destruct (Z.eqb_spec (digit (n mod 16)) 48) as [->|].
    + rewrite skip_app by (apply nibbles_nonzero; lia). destruct k as [|k]; [cbn in Hn'; lia|].
      by rewrite (IH (n / 16) fuel) by lia.
Qed.

Lemma put_hex_digits n : 0 ≤ n < 4294967296 → put_hex n = digits itoa_fuel 16 n.
Proof.
  intros Hn. pose proof (put_hex_fill_spec 8 n (replicate 8 0) [] ltac:(lia) eq_refl) as E.
  rewrite !app_nil_r in E. unfold put_hex. etransitivity; [apply f_equal, E|].
  apply skip_nibbles; [exact Hn|unfold itoa_fuel; lia..].
Qed.

(** A screen after a write into a cell. *)
Lemma write_cell_ok s bx ch : screen_ok s → 0 ≤ bx < 2000 →
  write_cell s bx ch = Ok (<[Z.to_nat bx := (ch, 2)]> (cells s)) ∧
  length (<[Z.to_nat bx := (ch, 2)]> (cells s)) = 2000%nat.
Proof.
  intros [Hlen _] Hbx. rewrite length_insert. split; [|done]. unfold write_cell.
  by rewrite (proj2 (Z.leb_le 0 bx)), (proj2 (Z.ltb_lt bx 2000)) by lia.
Qed.

Lemma put_newline s ch : ch = 10 ∨ ch = 13 → put_char s ch = Ok (line_feed (cells s) (cursor s)).
Proof. by intros [->| ->]. Qed.

Lemma put_backspace s : screen_ok s → put_char s 8 =
  if cursor s =? 0 then Fault
  else Ok (Screen (<[Z.to_nat (cursor s - 1) := (32, 2)]> (cells s)) (cursor s - 1)).
Proof.
  intros Hs. pose proof Hs as [_ Hc]. unfold put_char. cbn [orb]. change (u8 8) with 8. cbn [Z.eqb].
  destruct (Z.eqb_spec (cursor s) 0) as [->|]; [done|].
  rewrite u16_small by lia. destruct (write_cell_ok s (cursor s - 1) 0x20 Hs) as [E _]; [lia|]. cbn -[write_cell Z.sub Z.modulo].
  rewrite E. cbn [obind]. by rewrite Z.mod_small by lia.
Qed.

Lemma put_printable s ch : screen_ok s → 0 ≤ ch < 256 → (ch ∉ [0; 8; 10; 13]) → put_char s ch =
  Ok (let cs := <[Z.to_nat (cursor s) := (ch, 2)]> (cells s) in
      if cursor s <? 1999 then Screen cs (cursor s + 1) else roll_screen cs).
Proof.
  intros Hs Hch Hin. rewrite !not_elem_of_cons in Hin. destruct Hin as (H0 & H8 & H10 & H13 & _).
  pose proof Hs as [_ Hc]. unfold put_char. rewrite u8_small by done.
  rewrite !(proj2 (Z.eqb_neq ch _)) by done. cbn [orb].
  destruct (write_cell_ok s (cursor s) ch Hs Hc) as [E _]. rewrite E. cbn [obind].
  destruct (Z.ltb_spec (cursor s + 1) 2000), (Z.ltb_spec (cursor s) 1999); try lia; [done|].
  unfold line_feed. assert (cursor s + 1 = 2000) as -> by lia. done.
Qed.

(** * Properties *)

(** [put_hex] prints the number as [%x] does: the eight digits of its buffer, without the zeros
    in front, are the digits that [itoa] computes in base 16, and 0 is one digit. *)
Theorem put_hex_prints n : 0 ≤ n < 4294967296 →
  put_hex n = digits itoa_fuel 16 n ∧ value_of 16 (put_hex n) = n ∧ (n ≠ 0 → head (put_hex n) ≠ Some 48) ∧
  (1 ≤ length (put_hex n) ≤ 8)%nat.
Proof.
  intros Hn. rewrite put_hex_digits by done. split; [done|].
  destruct (digits_spec itoa_fuel 16 n 7) as (Hv & Hlen & _ & Hz); [lia|exact Hn|unfold itoa_fuel; lia|].
  split_and!; [done|done| |done]. destruct (digits itoa_fuel 16 n) eqn:E; [|cbn; lia].
  apply digits_nonempty in E; [done|unfold itoa_fuel; lia].
Qed.

(** C33. [put_char] keeps the screen: whatever the character, there are 25 rows of 80 cells and the
    cursor is on one of them, except for a backspace in the first cell, which writes outside the screen.
    A printable character is stored under the cursor and the cursor moves on, to the start of
    the last row if it was in the last cell, the rows having moved up by one; line feed
    and carriage return go to the start of the next row; a backspace behind the first cell goes one
    cell back and stores a blank there; the character 0 changes nothing. *)
Theorem put_char_screen s ch : screen_ok s → 0 ≤ ch < 256 →
  (put_char s ch = Fault ↔ ch = 8 ∧ cursor s = 0) ∧
  (¬ (ch = 8 ∧ cursor s = 0) → ∃ s', put_char s ch = Ok s' ∧ screen_ok s' ∧
    ((ch ∉ [0; 8; 10; 13]) → cursor s < 1999 →
      cursor s' = cursor s + 1 ∧ cells s' = <[Z.to_nat (cursor s) := (ch, 2)]> (cells s)) ∧
    ((ch ∉ [0; 8; 10; 13]) → cursor s = 1999 → cursor s' = 1920 ∧
      cells s' = drop 80 (<[1999%nat := (ch, 2)]> (cells s)) ++ replicate 80 (32, 7)) ∧
    (ch = 10 ∨ ch = 13 → cursor s < 1920 → cells s' = cells s ∧
      cursor s' mod 80 = 0 ∧ cursor s' / 80 = cursor s / 80 + 1) ∧
    (ch = 10 ∨ ch = 13 → 1920 ≤ cursor s →
      cells s' = drop 80 (cells s) ++ replicate 80 (32, 7) ∧ cursor s' = 1920) ∧
    (ch = 8 → cursor s' = cursor s - 1 ∧ cells s' = <[Z.to_nat (cursor s - 1) := (32, 2)]> (cells s)) ∧
    (ch = 0 → s' = s)).
Proof.
  intros Hs Hch. pose proof Hs as [Hlen Hc].
  destruct (decide (ch = 10 ∨ ch = 13)) as [Hnl|Hnl].
  { rewrite (put_newline s ch Hnl). split; [split; [done|lia]|]. intros _.
    eexists. split; [done|]. split; [apply line_feed_ok; [done|lia]|].
    assert (ch ∈ [0; 8; 10; 13]) as Hin by (destruct Hnl as [->| ->]; set_solver).
    split_and!; [done|done| | |lia|lia]; intros _ Hrow; unfold line_feed;
      destruct (Z.ltb_spec (cursor s - cursor s mod 80 + 80) 2000); cbn [cells cursor roll_screen];
      split_and!; try done; divlia. }
  destruct (decide (ch = 8)) as [->|H8].
  { rewrite (put_backspace s Hs). destruct (Z.eqb_spec (cursor s) 0) as [Hz|Hz].
    - split; [done|]. intros []; lia.
    - split; [split; [done|lia]|]. intros _. eexists. split; [done|].
      split; [split; cbn; [by rewrite length_insert|lia]|].
      split_and!; intros Hcase; first [done|lia|exfalso; apply Hcase; set_solver]. }
  destruct (decide (ch = 0)) as [->|H0].
  { split; [split; [done|lia]|]. intros _. exists s. split; [done|]. split; [done|].
    split_and!; intros Hcase; first [done|lia|exfalso; apply Hcase; set_solver]. }
  assert (ch ∉ [0; 8; 10; 13]) as Hin by set_solver. rewrite (put_printable s ch Hs Hch Hin).
  split; [split; [done|lia]|]. intros _. eexists. split; [done|].
  destruct (Z.ltb_spec (cursor s) 1999).
  - split; [split; cbn; [by rewrite length_insert|lia]|]. split_and!; [done|lia..].
  - assert (cursor s = 1999) as -> by lia.
    split; [apply roll_screen_ok; by rewrite length_insert|]. split_and!; [lia|done|lia..].
Qed.

(** * The hypotheses can be met *)

Lemma put_hex_prints_witness : put_hex 0xb8000 = [66; 56; 48; 48; 48] ∧ value_of 16 (put_hex 0xb8000) = 0xb8000.
Proof.
  destruct (put_hex_prints 0xb8000) as (_ & Hv & _ & _); [lia|]. split; [reflexivity|exact Hv].
Defined.

Lemma put_char_screen_witness : ∃ s', put_char (Screen (replicate 2000 (32, 7)) 1999) 65 = Ok s' ∧ screen_ok s'.
Proof.
  destruct (put_char_screen (Screen (replicate 2000 (32, 7)) 1999) 65) as [_ H];
    [split; [exact (length_replicate _ _)|split; [done|reflexivity]]|lia|].
  destruct H as (s' & E & Hok & _); [lia|]. exists s'. split; [exact E|exact Hok].
Defined.
