(* ===== verification/Console.v ===== *)
(** The console (device/console.c): output under a lock, so that the strings that threads print
    do not mix.  The output is the sequence of characters handed to [put_char] of [Screen]. *)
From S2P Require Import Prelude CString Stdio Mutex Screen.
Local Open Scope Z_scope.

(** * Operations *)

(** [console_lock] and the output. *)
Record console := Console { console_lock : mutex; output : list Z }.

Definition console_init (c : console) : console := Console unlocked (output c).

Definition console_acquire (c : console) (cur : Z) : outcome console :=
  let! l := mutex_acquire (console_lock c) cur in
  Ok (Console l (output c)).
Definition console_release (c : console) (cur : Z) : outcome console :=
  let! l := mutex_release (console_lock c) cur in
  Ok (Console l (output c)).
Definition print (c : console) (out : list Z) : console := Console (console_lock c) (output c ++ out).

Definition console_str (fuel : nat) (m : mem) (c : console) (cur str : Z) : outcome console :=
  let! c := console_acquire c cur in
  let! out := put_str fuel m str in
  console_release (print c out) cur.

Definition console_char (c : console) (cur ch : Z) : outcome console :=
  let! c := console_acquire c cur in
  console_release (print c [u8 ch]) cur.

Definition console_hex (c : console) (cur hex : Z) : outcome console :=
  let! c := console_acquire c cur in
  console_release (print c (put_hex hex)) cur.

(** * Threads *)

(** A thread that prints: the outputs it has still to print, and what is left of the one it is
    printing while it has the lock. *)
Record printer := Printer { todo : list (list Z); printing : option (list Z) }.

Record system := System { the_console : console; printers : gmap Z printer }.

(** One step: take the lock, hand one character to [put_char], or give the lock back; between
    two of them other threads run. *)
Inductive step : system → system → Prop :=
  | step_acquire c c' ps t out outs :
      ps !! t = Some (Printer (out :: outs) None) → console_acquire c t = Ok c' →
      step (System c ps) (System c' (<[t := Printer outs (Some out)]> ps))
  | step_put c ps t ch out outs :
      ps !! t = Some (Printer outs (Some (ch :: out))) →
      step (System c ps) (System (print c [ch]) (<[t := Printer outs (Some out)]> ps))
  | step_release c c' ps t outs :
      ps !! t = Some (Printer outs (Some [])) → console_release c t = Ok c' →
      step (System c ps) (System c' (<[t := Printer outs None]> ps)).

(** At the start nobody prints and the lock is free. *)
Definition start (jobs : gmap Z (list (list Z))) : system :=
  System (Console unlocked []) ((λ outs, Printer outs None) <$> jobs).

(** The outputs of the thread [t] in a sequence of outputs with their threads. *)
Definition of_thread (t : Z) (l : list (Z * list Z)) : list (list Z) := (filter (λ p, p.1 = t) l).*2.
(** The characters of such a sequence. *)
Definition text_of (l : list (Z * list Z)) : list Z := concat l.*2.

(** * Invariant *)

(** [log] are the outputs that were printed; either nobody prints, or the thread [t] has the
    lock, has printed [seen], and [rest] is left. *)
Inductive state_of : option (Z * list Z * list Z) → console → list (Z * list Z) → gmap Z printer → Prop :=
  | nobody c log ps :
      console_lock c = unlocked → output c = text_of log → map_Forall (λ _ p, printing p = None) ps →
      state_of None c log ps
  | somebody t seen rest c log ps outs :
      console_lock c = locked_by t → t ≠ NULL → output c = text_of log ++ seen →
      ps !! t = Some (Printer outs (Some rest)) → map_Forall (λ t' p, t' ≠ t → printing p = None) ps →
      state_of (Some (t, seen, rest)) c log ps.

(** What was printed, is being printed and will be printed are the jobs, in order. *)
Definition jobs_done (jobs : gmap Z (list (list Z))) (now : option (Z * list Z * list Z))
    (log : list (Z * list Z)) (ps : gmap Z printer) : Prop :=
  ∀ t outs, jobs !! t = Some outs → ∃ p, ps !! t = Some p ∧
    outs = of_thread t log ++
      (match now with Some (t', seen, rest) => if decide (t' = t) then [seen ++ rest] else [] | None => [] end) ++
      todo p.

Definition inv (jobs : gmap Z (list (list Z))) (s : system) (log : list (Z * list Z))
    (now : option (Z * list Z * list Z)) : Prop :=
  state_of now (the_console s) log (printers s) ∧ jobs_done jobs now log (printers s) ∧
  ∀ t, is_Some (printers s !! t) → is_Some (jobs !! t) ∧ t ≠ NULL.

(** * Lemmas *)

Lemma of_thread_snoc t t' out log :
  of_thread t (log ++ [(t', out)]) = of_thread t log ++ if decide (t' = t) then [out] else [].
Proof.
  unfold of_thread. rewrite filter_app, fmap_app. f_equal.
  destruct (decide (t' = t)) as [E|E]; [by rewrite filter_cons_True|by rewrite filter_cons_False].
Qed.

Lemma text_of_snoc log t out : text_of (log ++ [(t, out)]) = text_of log ++ out.
Proof. unfold text_of. rewrite fmap_app, concat_app. cbn. by rewrite app_nil_r. Qed.

Lemma mutex_acquire_held t t' : t' ≠ NULL → t ≠ t' → mutex_acquire (locked_by t') t = NoFuel.
Proof.
  intros Ht Hne. unfold mutex_acquire. cbn [locked_by m_holder]. by rewrite (proj2 (Z.eqb_neq t' t)).
Qed.

Lemma inv_start jobs : (∀ t, is_Some (jobs !! t) → t ≠ NULL) → inv jobs (start jobs) [] None.
Proof.
  intros Hjobs. split_and!.
  - constructor; [done|done|]. intros t p Hp. cbn in Hp. rewrite lookup_fmap in Hp.
    destruct (jobs !! t); [|done]. by injection Hp as <-.
  - intros t outs Ht. exists (Printer outs None). cbn. rewrite lookup_fmap, Ht. done.
  - intros t Ht. cbn in Ht. rewrite lookup_fmap, fmap_is_Some in Ht. split; [done|by apply Hjobs].
Qed.

(** Changing the printer of a thread that has one. *)
Lemma dom_insert jobs (ps : gmap Z printer) t p p' : ps !! t = Some p →
  (∀ t, is_Some (ps !! t) → is_Some (jobs !! t) ∧ t ≠ NULL) →
  ∀ t' : Z, is_Some (<[t := p']> ps !! t') → is_Some ((jobs : gmap Z (list (list Z))) !! t') ∧ t' ≠ NULL.
Proof.
  intros Hp Hdom t' Ht'. apply Hdom. apply lookup_insert_is_Some' in Ht' as [<-|]; [by eexists|done].
Qed.

Lemma inv_step jobs s s' log now : inv jobs s log now → step s s' → ∃ log' now', inv jobs s' log' now'.
Proof.
  intros (Hst & Hjobs & Hdom) Hstep.
  destruct Hstep as [c c' ps t out outs Hp Hacq|c ps t ch out outs Hp|c c' ps t outs Hp Hrel];
    cbn [the_console printers] in *.
  - (* acquire *) destruct Hst as [c log ps Hl Ho Hnone|t' seen rest c log ps outs' Hl Ht' Ho Hp' Hnone]; unfold console_acquire in Hacq;
      rewrite Hl in Hacq; cbn [console_lock] in Hacq.
    2:{ assert (t ≠ t') as Hne by congruence. by rewrite mutex_acquire_held in Hacq. }
    rewrite mutex_acquire_unlocked in Hacq by (apply Hdom; by eexists). injection Hacq as <-.
    exists log, (Some (t, [], out)). split_and!; cbn [the_console printers].
    + econstructor; [done|apply Hdom; by eexists|cbn; by rewrite app_nil_r|apply lookup_insert_eq|].
      intros t' p Hne Hp'. rewrite lookup_insert_ne in Hne by done. by apply (Hnone t' p).
    + intros t' outs' Ht'. destruct (Hjobs t' outs' Ht') as (p & Hp' & ->).
      destruct (decide (t = t')) as [<-|].
      * rewrite Hp in Hp'. injection Hp' as <-. rewrite lookup_insert_eq. by eexists.
      * rewrite lookup_insert_ne by done. by exists p.
    + by apply (dom_insert jobs ps t _ _ Hp).
  - (* put *) destruct Hst as [c log ps Hl Ho Hnone|t' seen rest c log ps outs' Hl Ht' Ho Hp' Hnone].
    { by specialize (Hnone t _ Hp). }
    assert (t = t') as <- by (destruct (decide (t = t')); [done|by specialize (Hnone t _ Hp ltac:(done))]).
    rewrite Hp in Hp'. injection Hp' as <- <-.
    exists log, (Some (t, seen ++ [ch], out)). split_and!; cbn [the_console printers].
    + econstructor; [done|done|cbn; by rewrite Ho, <- app_assoc|apply lookup_insert_eq|].
      intros t' p Hne Hp'. rewrite lookup_insert_ne in Hne by done. by apply (Hnone t' p).
    + intros t' outs' Hj. destruct (Hjobs t' outs' Hj) as (p & Hp' & ->).
      destruct (decide (t = t')) as [<-|].
      * rewrite Hp in Hp'. injection Hp' as <-. rewrite lookup_insert_eq. eexists. split; [done|].
        by rewrite <- app_assoc.
      * rewrite lookup_insert_ne by done. by exists p.
    + by apply (dom_insert jobs ps t _ _ Hp).
  - (* release *) destruct Hst as [c log ps Hl Ho Hnone|t' seen rest c log ps outs' Hl Ht' Ho Hp' Hnone].
    { by specialize (Hnone t _ Hp). }
    assert (t = t') as <- by (destruct (decide (t = t')); [done|by specialize (Hnone t _ Hp ltac:(done))]).
    rewrite Hp in Hp'. injection Hp' as <- <-.
    unfold console_release in Hrel. rewrite Hl, mutex_release_locked in Hrel. injection Hrel as <-.
    exists (log ++ [(t, seen)]), None. split_and!; cbn [the_console printers].
    + constructor; [done|cbn; by rewrite Ho, text_of_snoc|].
      intros t' p Hp'. destruct (decide (t = t')) as [<-|Hne].
      * rewrite lookup_insert_eq in Hp'. by injection Hp' as <-.
      * rewrite lookup_insert_ne in Hp' by done. by apply (Hnone t' p).
    + intros t' outs' Hj. destruct (Hjobs t' outs' Hj) as (p & Hp' & ->). rewrite of_thread_snoc.
      destruct (decide (t = t')) as [<-|].
      * rewrite Hp in Hp'. injection Hp' as <-. rewrite lookup_insert_eq. eexists. split; [done|].
        cbn [todo]. by rewrite app_nil_r, app_assoc.
      * rewrite lookup_insert_ne by done. exists p. by rewrite app_nil_r.
    + by apply (dom_insert jobs ps t _ _ Hp).
Qed.

Lemma inv_reachable jobs s : (∀ t, is_Some (jobs !! t) → t ≠ NULL) → rtc step (start jobs) s →
  ∃ log now, inv jobs s log now.
Proof.
  intros Hjobs Hr. pose proof (inv_start jobs Hjobs) as Hinv.
  assert (∃ log now, inv jobs (start jobs) log now) as Hex by eauto. clear Hinv.
  induction Hr as [s|s s' s'' Hstep _ IH]; [done|].
  apply IH. destruct Hex as (log & now & Hinv). by apply (inv_step jobs s s' log now).
Qed.

(** Somebody can go on while there is something to print. *)
Lemma inv_progress jobs s log now : inv jobs s log now →
  (∃ t p, printers s !! t = Some p ∧ (todo p ≠ [] ∨ printing p ≠ None)) → ∃ s', step s s'.
Proof.
  intros (Hst & _ & Hdom) (t & [outs now'] & Hp & Hwork). destruct s as [c ps]. cbn [the_console printers] in *.
  destruct Hst as [c log ps Hl Ho Hnone|t' seen rest c log ps outs' Hl Ht' Ho Hp' Hnone].
  - pose proof (Hnone t _ Hp) as Hnow. cbn in Hnow. subst now'. destruct Hwork as [Htodo|]; [|done].
    cbn in Htodo. destruct outs as [|out outs]; [done|].
    eexists. eapply step_acquire; [exact Hp|]. unfold console_acquire. rewrite Hl, mutex_acquire_unlocked; [done|].
    apply Hdom. by eexists.
  - destruct rest as [|ch rest].
    + eexists. eapply step_release; [exact Hp'|]. unfold console_release. by rewrite Hl, mutex_release_locked.
    + eexists. by eapply step_put.
Qed.

Lemma put_str_spec fuel m p s : cstr m p s → (length s < fuel)%nat → put_str fuel m p = Ok s.
Proof.
  revert fuel p. induction s as [|x s IH]; intros [|fuel] p Hs Hf; cbn [length] in Hf; try lia; cbn [put_str].
  - by rewrite (load_Some _ _ _ (cstr_nil _ _ Hs)).
  - apply cstr_cons in Hs as (E & _ & Hx0 & Ep & Hs). rewrite (load_Some _ _ _ E). cbn [obind].
    rewrite (proj2 (Z.eqb_neq x 0)) by done. change (u32 (p + 1)) with (ptr_inc p). rewrite Ep.
    by rewrite IH by (done || lia).
Qed.

(** ** The functions and the steps *)

Lemma put_steps c ps t out outs : ps !! t = Some (Printer outs (Some out)) →
  rtc step (System c ps) (System (print c out) (<[t := Printer outs (Some [])]> ps)).
Proof.
  revert c ps. induction out as [|ch out IH]; intros c ps Hp.
  - unfold print. rewrite app_nil_r, insert_id by done. by destruct c.
  - eapply rtc_l; [by eapply step_put|]. 
    assert (print c (ch :: out) = print (print c [ch]) out) as -> by (unfold print; cbn; by rewrite <- app_assoc).
    assert (<[t := Printer outs (Some [])]> ps = <[t := Printer outs (Some [])]> (<[t := Printer outs (Some out)]> ps)) as ->
      by (by rewrite insert_insert_eq).
    apply IH, lookup_insert_eq.
Qed.

(** Taking the lock, printing, and giving it back, without an interruption. *)
Lemma call_steps c c' ps t out outs : ps !! t = Some (Printer (out :: outs) None) →
  (let! c1 := console_acquire c t in console_release (print c1 out) t) = Ok c' →
  rtc step (System c ps) (System c' (<[t := Printer outs None]> ps)).
Proof.
  intros Hp E. apply obind_Ok_inv in E as (c1 & E1 & E2). eapply rtc_l; [by eapply step_acquire|].
  etrans; [apply put_steps, lookup_insert_eq|]. eapply rtc_l; [|apply rtc_refl].
  rewrite insert_insert_eq.
  assert (<[t := Printer outs None]> ps = <[t := Printer outs None]> (<[t := Printer outs (Some [])]> ps)) as ->
    by (by rewrite insert_insert_eq).
  eapply step_release; [apply lookup_insert_eq|exact E2].
Qed.

(** The calls that print [out]. *)
Inductive prints (c : console) (t : Z) (out : list Z) (c' : console) : Prop :=
  | prints_str fuel m str : cstr m str out → (length out < fuel)%nat → console_str fuel m c t str = Ok c' → prints c t out c'
  | prints_char ch : out = [u8 ch] → console_char c t ch = Ok c' → prints c t out c'
  | prints_hex hex : out = put_hex hex → console_hex c t hex = Ok c' → prints c t out c'.

Lemma prints_steps c c' ps t out outs : ps !! t = Some (Printer (out :: outs) None) → prints c t out c' →
  rtc step (System c ps) (System c' (<[t := Printer outs None]> ps)).
Proof.
  intros Hp Hc. eapply call_steps; [exact Hp|]. destruct Hc as [fuel m str Hs Hf E|ch -> E|hex -> E]; [|exact E..].
  unfold console_str in E. rewrite (put_str_spec fuel m str out Hs Hf) in E. exact E.
Qed.

(** * Properties *)

(** C14. The outputs of threads that print with [console_str], [console_char] and [console_hex] do not mix: in every
    state that the threads can reach, the
    characters on the screen are those of whole outputs, one after the other, followed by a beginning of
    the output of the thread that has the lock, if there is one; what a thread has
    printed, is printing and has still to print is what it started with, in order; and as long
    as a thread has something to print, some thread can go on.  A call of one of the functions that nothing interrupts is
    such a sequence of steps, from its first to its last statement.  (The idle thread and the handler of the keyboard
    use [put_str] and [put_char] themselves, without the lock: what they print may come anywhere.) *)
Theorem console_atomic jobs s :
  (∀ t, is_Some (jobs !! t) → t ≠ NULL) → rtc step (start jobs) s →
  (∃ log now, state_of now (the_console s) log (printers s) ∧ jobs_done jobs now log (printers s)) ∧
  ((∃ t p, printers s !! t = Some p ∧ (todo p ≠ [] ∨ printing p ≠ None)) → ∃ s', step s s') ∧
  (∀ t out outs c', printers s !! t = Some (Printer (out :: outs) None) → prints (the_console s) t out c' →
    rtc step s (System c' (<[t := Printer outs None]> (printers s)))).
Proof.
  intros Hjobs Hr. destruct (inv_reachable jobs s Hjobs Hr) as (log & now & Hinv). split_and!.
  - exists log, now. by destruct Hinv as (? & ? & _).
  - by apply (inv_progress jobs s log now).
  - intros t out outs c'. destruct s as [c ps]. apply prints_steps.
Qed.

(** [console_str] of a string, by a thread that can have the lock. *)
Lemma console_str_spec fuel m c cur str s : console_lock c = unlocked → cur ≠ NULL →
  cstr m str s → (length s < fuel)%nat → console_str fuel m c cur str = Ok (print c s).
Proof.
  intros Hl Hc Hs Hf. unfold console_str, console_acquire. rewrite Hl, mutex_acquire_unlocked by done. cbn [obind].
  rewrite (put_str_spec fuel m str s Hs Hf). cbn [obind]. unfold console_release, print. cbn [console_lock].
  rewrite mutex_release_locked. cbn [obind]. by rewrite Hl.
Qed.

(** * The hypotheses can be met *)

(** Two threads with two and one outputs; the second has begun when the first starts. *)
Definition demo_jobs : gmap Z (list (list Z)) := {[ 4096 := [[65; 66]; [67]]; 8192 := [[90]] ]}.

Lemma demo_reach : ∃ s, rtc step (start demo_jobs) s ∧ output (the_console s) = [90; 65] ∧
  printers s !! 4096 = Some (Printer [[67]] (Some [66])).
Proof.
  eexists. split; [|split].
  - eapply rtc_l; [eapply (step_acquire _ _ _ 8192); [by vm_compute|by vm_compute]|].
    eapply rtc_l; [eapply (step_put _ _ 8192); by vm_compute|].
    eapply rtc_l; [eapply (step_release _ _ _ 8192); [by vm_compute|by vm_compute]|].
    eapply rtc_l; [eapply (step_acquire _ _ _ 4096); [by vm_compute|by vm_compute]|].
    eapply rtc_l; [eapply (step_put _ _ 4096); by vm_compute|]. apply rtc_refl.
  - done.
  - by vm_compute.
Qed.

Lemma console_atomic_witness : ∃ s s' log now,
  rtc step (start demo_jobs) s ∧ output (the_console s) = [90; 65] ∧
  state_of now (the_console s) log (printers s) ∧ jobs_done demo_jobs now log (printers s) ∧ step s s'.
Proof.
  destruct demo_reach as (s & Hr & Ho & Hp).
  assert (∀ t, is_Some (demo_jobs !! t) → t ≠ NULL) as Hjobs.
  { intros t Ht ->. vm_compute in Ht. by destruct Ht. }
  destruct (console_atomic demo_jobs s Hjobs Hr) as [(log & now & Hst & Hd) [Hgo _]].
  destruct Hgo as (s' & Hs').
  - exists 4096, (Printer [[67]] (Some [66])). split; [exact Hp|by left].
  - exists s, s', log, now. split_and!; assumption.
Defined.
