(* ===== verification/Switch.v ===== *)
(** Stacks and registers: the context switch (thread/switch.S), the entry of an interrupt and
    the return from it (kernel/interrupt_s.S) with the frame [struct intr_stack] of
    include/os/thread.h, the first function of a thread (thread/thread.c), and the macros of
    include/os/interrupt.h that save the flags.  The stacks are
    words of the memory of the scheduler. *)
From S2P Require Import Prelude KList Thread Create.
Local Open Scope Z_scope.

(** * The processor *)

Record cpu := Cpu {
  edi : Z; esi : Z; ebp : Z; esp : Z; ebx : Z; edx : Z; ecx : Z; eax : Z;
  gs : Z; fs : Z; es : Z; ds : Z;
  eip : Z; cs : Z; eflags : Z; ss : Z
}.

(** [push] and [pop] of a word; a stack is the memory and the stack pointer. *)
Definition push (st : mem * Z) (v : Z) : outcome (mem * Z) :=
  let sp := u32 (st.2 - 4) in
  let! m := store st.1 sp v in
  Ok (m, sp).
Definition pop (m : mem) (sp : Z) : outcome (Z * Z) :=
  let! v := load m sp in
  Ok (v, u32 (sp + 4)).

(** Several, the first one first. *)
Fixpoint push_all (st : mem * Z) (vs : list Z) : outcome (mem * Z) :=
  match vs with
  | [] => Ok st
  | v :: vs => let! st := push st v in push_all st vs
  end.

(** * The context switch *)

Definition set_stack (sp : Z) (x : task_struct) : task_struct :=
  TaskStruct sp (status x) (priority x) (pid x) (ticks x) (elapsed_ticks x) (Thread.name x)
    (Thread.pde_addr x) (stack_boundary x).

(** [switch_to(current, next)]: on entry the stack has the return address and the two
    arguments; [self_kernel_stack] is the first field of the structure. *)
Definition switch_to (k : kstate) (c : cpu) : outcome (kstate * cpu) :=
  let! (m, sp) := push_all (nodes k, esp c) [esi c; edi c; ebx c; ebp c] in
  let! current := load m (sp + 20) in
  let! k := update_task (set_nodes k m) current (set_stack sp) in
  let! next := load m (sp + 24) in
  let! x := get_task k next in
  let! (ebp', sp) := pop m (self_kernel_stack x) in
  let! (ebx', sp) := pop m sp in
  let! (edi', sp) := pop m sp in
  let! (esi', sp) := pop m sp in
  let! (eip', sp) := pop m sp in
  Ok (k, Cpu edi' esi' ebp' sp ebx' (edx c) (ecx c) next (gs c) (fs c) (es c) (ds c)
    eip' (cs c) (eflags c) (ss c)).

(** [kernel_func(function, func_argc)], up to the call of [function]: the function and its
    argument; the interrupt flag is the one of the state. *)
Definition kernel_func (k : kstate) (c : cpu) : outcome (kstate * (Z * Z)) :=
  let! function := load (nodes k) (esp c + 4) in
  let! func_argc := load (nodes k) (esp c + 8) in
  let k := fst (local_irq_enable k) in
  Ok (k, (function, func_argc)).

(** * Interrupts *)

(** The ring of the code that runs. *)
Definition ring (c : cpu) : Z := Z.land (cs c) 3.

(** What the processor does when an interrupt or an exception comes while [c] runs: if that is
    not kernel code, it takes the stack pointer [esp0] of the task state segment; [code]: the
    error code, for the exceptions that have one. *)
Definition deliver (m : mem) (c : cpu) (esp0 : Z) (code : option Z) : outcome (mem * Z) :=
  let! st :=
    if ring c =? 0 then Ok (m, esp c) else push_all (m, esp0) [ss c; esp c] in
  let! st := push_all st [eflags c; cs c; eip c] in
  match code with Some e => push_all st [e] | None => Ok st end.

(** The macro [VECTOR] up to the call of the handler, but for the two EOIs; [zero]: its second
    argument is ZERO. *)
Definition pushad (st : mem * Z) (c : cpu) : outcome (mem * Z) :=
  push_all st [eax c; ecx c; edx c; ebx c; st.2; ebp c; esi c; edi c].
Definition save_context (st : mem * Z) (c : cpu) (zero : bool) (vec : Z) : outcome (mem * Z) :=
  let! st := if zero then push_all st [0] else Ok st in
  let! st := push_all st [ds c; es c; fs c; gs c] in
  let! st := pushad st c in
  push_all st [vec].
Definition intr_entry (m : mem) (c : cpu) (esp0 : Z) (code : option Z) (zero : bool) (vec : Z)
    : outcome (mem * Z) :=
  let! st := deliver m c esp0 code in
  save_context st c zero vec.

(** The second argument of [VECTOR] in the table of interrupt_s.S, and the exceptions for which
    the processor pushes an error code (as far as the kernel has names for them). *)
Definition ZERO (vec : Z) : bool :=
  bool_decide (vec ∉ [0x08; 0x0a; 0x0b; 0x0d; 0x0e; 0x11; 0x18; 0x1a; 0x1b; 0x1d; 0x1e]).
Definition has_error_code (vec : Z) : bool := bool_decide (vec ∈ [8; 10; 11; 12; 13; 14; 17]).

(** [intr_exit] with the stack pointer [sp], from the kernel with the stack segment [ss0]; [popad]
    skips the saved [esp], and [iretd] leaves the stack for another one only when it goes to
    another ring. *)
Definition intr_exit (m : mem) (sp ss0 : Z) : outcome cpu :=
  let sp := u32 (sp + 4) in
  let! (edi, sp) := pop m sp in
  let! (esi, sp) := pop m sp in
  let! (ebp, sp) := pop m sp in
  let sp := u32 (sp + 4) in
  let! (ebx, sp) := pop m sp in
  let! (edx, sp) := pop m sp in
  let! (ecx, sp) := pop m sp in
  let! (eax, sp) := pop m sp in
  let! (gs, sp) := pop m sp in
  let! (fs, sp) := pop m sp in
  let! (es, sp) := pop m sp in
  let! (ds, sp) := pop m sp in
  let sp := u32 (sp + 4) in
  let! (eip, sp) := pop m sp in
  let! (cs, sp) := pop m sp in
  let! (eflags, sp) := pop m sp in
  if Z.land cs 3 =? 0 then Ok (Cpu edi esi ebp sp ebx edx ecx eax gs fs es ds eip cs eflags ss0)
  else
    let! (esp, sp) := pop m sp in
    let! (ss, sp) := pop m sp in
    Ok (Cpu edi esi ebp esp ebx edx ecx eax gs fs es ds eip cs eflags ss).

(** * The macros for the interrupt flag *)

(** [local_irq_save] and [local_irq_restore] (include/os/interrupt.h).  The function behind the
    first pops the flags into its parameter [f], which is a copy of the caller's variable
    [flags]; the variable itself stays as it is. *)
Definition EFLAGS_IF : Z := 0x200.
Definition set_eflags (v : Z) (c : cpu) : cpu :=
  Cpu (edi c) (esi c) (ebp c) (esp c) (ebx c) (edx c) (ecx c) (eax c) (gs c) (fs c) (es c) (ds c)
    (eip c) (cs c) v (ss c).
Definition cli (c : cpu) : cpu := set_eflags (Z.ldiff (eflags c) EFLAGS_IF) c.
Definition sti (c : cpu) : cpu := set_eflags (Z.lor (eflags c) EFLAGS_IF) c.

Definition raw_local_irq_save (c : cpu) (f : Z) : cpu * Z :=
  let f := eflags c in
  (cli c, f).
Definition local_irq_save (c : cpu) (flags : Z) : cpu * Z :=
  let (c, _) := raw_local_irq_save c flags in (c, flags).

(** The result is the processor after [sti] and after [popfl]: an interrupt can come in between. *)
Definition raw_local_irq_restore (c : cpu) (f : Z) : cpu * cpu :=
  let c := sti c in
  (c, set_eflags f c).

(** * Lemmas *)

(** The words [vs] from [p] on. *)
Fixpoint words_at (m : mem) (p : Z) (vs : list Z) : Prop :=
  match vs with [] => True | v :: vs => m !! p = Some v ∧ words_at m (p + 4) vs end.

Lemma words_at_app m p vs ws : words_at m p (vs ++ ws) ↔
  words_at m p vs ∧ words_at m (p + 4 * Z.of_nat (length vs)) ws.
Proof.
  revert p. induction vs as [|v vs IH]; intros p; cbn [app words_at length].
  - rewrite Z.add_0_r. tauto.
  - rewrite IH. replace (p + 4 + 4 * Z.of_nat (length vs)) with (p + 4 * Z.of_nat (S (length vs))) by lia. tauto.
Qed.

Lemma words_at_same m m' p vs : words_at m p vs →
  (∀ a, p ≤ a < p + 4 * Z.of_nat (length vs) → m' !! a = m !! a) → words_at m' p vs.
Proof.
  revert p. induction vs as [|v vs IH]; intros p; cbn [words_at length]; [done|].
  intros [Hv Hvs] Hsame. split; [rewrite Hsame by lia; done|]. apply IH; [done|]. intros a Ha. apply Hsame. lia.
Qed.

Lemma push_all_app st vs ws : push_all st (vs ++ ws) = let! st := push_all st vs in push_all st ws.
Proof. revert st. induction vs as [|v vs IH]; intros st; [done|]. cbn. by destruct (push st v); cbn. Qed.

Lemma obind_assoc {A B C} (a : outcome A) (f : A → outcome B) (g : B → outcome C) :
  obind (obind a f) g = obind a (λ x, obind (f x) g).
Proof. by destruct a. Qed.

Lemma push_all_bind {A} st vs ws (k : mem * Z → outcome A) :
  obind (push_all st vs) (λ st, obind (push_all st ws) k) = obind (push_all st (vs ++ ws)) k.
Proof. by rewrite push_all_app, obind_assoc. Qed.

(** Pushes on a stack that is mapped. *)
Lemma push_all_spec vs m sp : 4 * Z.of_nat (length vs) ≤ sp < 4294967296 →
  (∀ j, 1 ≤ j ≤ Z.of_nat (length vs) → is_Some (m !! (sp - 4 * j))) →
  ∃ m', push_all (m, sp) vs = Ok (m', sp - 4 * Z.of_nat (length vs)) ∧
    words_at m' (sp - 4 * Z.of_nat (length vs)) (rev vs) ∧
    (∀ a, a < sp - 4 * Z.of_nat (length vs) ∨ sp ≤ a → m' !! a = m !! a) ∧
    (∀ a, is_Some (m !! a) → is_Some (m' !! a)).
Proof.
  revert m sp. induction vs as [|v vs IH]; intros m sp Hsp Hm; cbn [push_all length] in *.
  { exists m. rewrite Z.mul_0_r, Z.sub_0_r. by split_and!. }
  unfold push. cbn [fst snd]. rewrite u32_small by lia.
  rewrite store_is_Some by (replace (sp - 4) with (sp - 4 * 1) by lia; apply Hm; lia). cbn [obind].
  destruct (IH (<[sp - 4 := v]> m) (sp - 4)) as (m' & E & Hw & Hsame & Hmono); [lia| |].
  { intros j Hj. replace (sp - 4 - 4 * j) with (sp - 4 * (j + 1)) by lia. apply is_Some_insert, Hm. lia. }
  exists m'. replace (sp - 4 * Z.of_nat (S (length vs))) with (sp - 4 - 4 * Z.of_nat (length vs)) by lia.
  split_and!; [done| | |].
  - cbn [rev]. rewrite words_at_app. split; [done|]. rewrite length_rev. cbn [words_at]. split; [|done].
    rewrite Hsame by lia.
    replace (sp - 4 - 4 * Z.of_nat (length vs) + 4 * Z.of_nat (length vs)) with (sp - 4) by lia.
    apply lookup_insert_eq.
  - intros a Ha. rewrite Hsame by lia. apply lookup_insert_ne. lia.
  - intros a Ha. by apply Hmono, is_Some_insert.
Qed.

Lemma words_at_lookup m p vs i v : words_at m p vs → vs !! i = Some v → m !! (p + 4 * Z.of_nat i) = Some v.
Proof.
  revert p i. induction vs as [|w vs IH]; intros p i; [done|]. intros [Hw Hvs].
  destruct i as [|i]; cbn; [intros [= <-]; by rewrite Z.add_0_r|].
  intros Hi. rewrite <- (IH _ i Hvs Hi). f_equal. lia.
Qed.

Lemma words_at_of_lookup m p vs : (∀ i v, vs !! i = Some v → m !! (p + 4 * Z.of_nat i) = Some v) → words_at m p vs.
Proof.
  revert p. induction vs as [|v vs IH]; intros p Hvs; [done|]. split.
  - rewrite <- (Hvs 0%nat v eq_refl). f_equal. lia.
  - apply IH. intros i w Hi. rewrite <- (Hvs (S i) w Hi). f_equal. lia.
Qed.

Lemma load_word_at m p vs i o v : words_at m p vs → vs !! i = Some v → o = 4 * Z.of_nat i → load m (p + o) = Ok v.
Proof. intros H Hi ->. by apply load_Some, (words_at_lookup m p vs). Qed.

Lemma pop_word m p vs i o v : words_at m p vs → vs !! i = Some v → o = 4 * Z.of_nat i → 0 ≤ p + o →
  p + o + 4 < 4294967296 → pop m (p + o) = Ok (v, p + (o + 4)).
Proof.
  intros H Hi Ho H0 H1. unfold pop. rewrite (load_word_at m p vs i o v H Hi Ho). cbn [obind].
  by rewrite <- Z.add_assoc, u32_small by lia.
Qed.

(** Pop or skip the words of the stack in [H], starting with the one at [o]. *)
Ltac add_up o := let o' := eval vm_compute in (o + 4) in change (o + 4) with o'.
Ltac pop_step H :=
  match goal with
  | |- context [pop ?m (?p + ?o)] =>
      let i := eval vm_compute in (Z.to_nat (o / 4)) in
      rewrite (pop_word m p _ i o _ H eq_refl eq_refl) by lia; add_up o; cbn [obind]
  | |- context [u32 (?p + ?o + 4)] =>
      rewrite <- (Z.add_assoc p o 4), (u32_small (p + (o + 4))) by lia; add_up o
  end.

(** ** The frame of an interrupt *)

(** Where the frame ends. *)
Definition frame_top (c : cpu) (esp0 : Z) : Z := if ring c =? 0 then esp c else esp0.
(** [struct intr_stack], in the order of its fields; [old] is the field [esp_old]. *)
Definition intr_stack (c : cpu) (vec old e : Z) : list Z :=
  [vec; edi c; esi c; ebp c; old; ebx c; edx c; ecx c; eax c; gs c; fs c; es c; ds c; e;
   eip c; cs c; eflags c] ++ (if ring c =? 0 then [] else [esp c; ss c]).

(** A stack with room for a frame of nineteen words below [top]. *)
Definition room (m : mem) (top : Z) : Prop :=
  76 ≤ top < 4294967296 ∧ ∀ j, 1 ≤ j ≤ 19 → is_Some (m !! (top - 4 * j)).

Lemma intr_entry_frame m c esp0 code zero vec : room m (frame_top c esp0) →
  zero = (if code is Some _ then false else true) →
  let size := 4 * Z.of_nat (length (intr_stack c vec 0 0)) in
  ∃ m' sp old, intr_entry m c esp0 code zero vec = Ok (m', sp) ∧ sp = frame_top c esp0 - size ∧
    words_at m' sp (intr_stack c vec old (default 0 code)) ∧
    (∀ a, a < sp ∨ frame_top c esp0 ≤ a → m' !! a = m !! a) ∧ (∀ a, is_Some (m !! a) → is_Some (m' !! a)).
Proof.
  intros [Htop Hm] -> size.
  set (l1 := (if ring c =? 0 then [] else [ss c; esp c]) ++ [eflags c; cs c; eip c; default 0 code; ds c; es c; fs c; gs c]).
  assert ((length l1 = 8 ∨ length l1 = 10)%nat ∧ size = 4 * (Z.of_nat (length l1) + 9)) as [Hl1 Hsize]
    by (subst l1 size; unfold intr_stack; destruct (ring c =? 0); cbn [length app]; lia).
  set (old := frame_top c esp0 - 4 * Z.of_nat (length l1)).
  set (l2 := [eax c; ecx c; edx c; ebx c; old; ebp c; esi c; edi c; vec]).
  assert (intr_entry m c esp0 code (if code is Some _ then false else true) vec = push_all (m, frame_top c esp0) (l1 ++ l2)) as ->.
  { destruct (push_all_spec l1 m (frame_top c esp0)) as (m1 & E1 & _); [lia|intros j Hj; apply Hm; lia|].
    fold old in E1. rewrite push_all_app, E1. cbn [obind].
    assert (∀ k : mem * Z → outcome (mem * Z), obind (push_all (m, frame_top c esp0) l1) k = k (m1, old)) as Hk
      by (intros k; by rewrite E1).
    change l2 with ([eax c; ecx c; edx c; ebx c; old; ebp c; esi c; edi c] ++ [vec]). rewrite push_all_app.
    change (push_all (m1, old) [eax c; ecx c; edx c; ebx c; old; ebp c; esi c; edi c]) with (pushad (m1, old) c).
    rewrite <- (Hk (λ st, obind (pushad st c) (λ st, push_all st [vec]))).
    unfold intr_entry, deliver, save_context. subst l1. unfold frame_top.
    destruct (ring c =? 0); cbn [obind]; [|rewrite push_all_app, !obind_assoc;
      destruct (push_all (m, esp0) [ss c; esp c]); cbn [obind]; [|done..]];
      destruct code; rewrite ?obind_assoc; cbn [obind]; by rewrite !push_all_bind. }
  destruct (push_all_spec (l1 ++ l2) m (frame_top c esp0)) as (m' & E & Hw & Hsame & Hmono).
  { rewrite length_app. cbn [length l2]. lia. }
  { intros j Hj. apply Hm. rewrite length_app in Hj. cbn [length l2] in Hj. lia. }
  rewrite length_app in *. cbn [length l2] in *.
  exists m', (frame_top c esp0 - size), old. rewrite E.
  replace (4 * Z.of_nat (length l1 + 9)) with size in * by lia.
  split_and!; [done|done| |done|done]. rewrite rev_app_distr in Hw. unfold intr_stack.
  subst l1 l2. cbn [rev app] in Hw. rewrite rev_app_distr in Hw. cbn [rev app] in *. by destruct (ring c =? 0).
Qed.

Lemma intr_exit_frame m sp c vec old e ss0 : words_at m sp (intr_stack c vec old e) → 0 ≤ sp →
  sp + 4 * (if ring c =? 0 then 17 else 19) < 4294967296 → (ring c = 0 → esp c = sp + 68 ∧ ss c = ss0) →
  intr_exit m sp ss0 = Ok c.
Proof.
  intros H H0 H1 Hring. assert (sp + 68 < 4294967296) as H2 by (destruct (ring c =? 0); lia).
  assert (ring c ≠ 0 → sp + 76 < 4294967296) as H3 by (destruct (Z.eqb_spec (ring c) 0); [done|lia]).
  clear H1. unfold intr_exit, intr_stack in *. unfold ring in *.
  rewrite (u32_small (sp + 4)) by lia.
  repeat pop_step H.
  destruct (Z.eqb_spec (Z.land (cs c) 3) 0) as [E|E].
  - destruct (Hring E) as [He Hs]. rewrite <- He, <- Hs. by destruct c.
  - specialize (H3 E). repeat pop_step H. by destruct c.
Qed.

Lemma length_intr_stack c vec old e :
  Z.of_nat (length (intr_stack c vec old e)) = if ring c =? 0 then 17 else 19.
Proof. unfold intr_stack. by destruct (ring c =? 0). Qed.

(** ** The context switch *)

(** [switch_to(current, next)] has been called and will return to [ret]; the stack has room for
    the four registers. *)
Record called (k : kstate) (c : cpu) (ret current next : Z) : Prop := {
  ca_args : words_at (nodes k) (esp c) [ret; current; next];
  ca_range : 16 ≤ esp c ∧ esp c + 12 ≤ 4294967296;
  ca_room : ∀ j, 1 ≤ j ≤ 4 → is_Some (nodes k !! (esp c - 4 * j));
  ca_current : is_Some (tasks k !! current);
  ca_next : is_Some (tasks k !! next)
}.

(** The saved registers, and the return address behind them. *)
Definition saved (m : mem) (sp : Z) (c : cpu) (ret : Z) : Prop :=
  words_at m sp [ebp c; ebx c; edi c; esi c; ret].

(** Up to the change of stacks, and from there on with the stack at [sp]. *)
Lemma switch_to_spec k c ret current next x sp regs :
  called k c ret current next → current ≠ next → tasks k !! next = Some x → self_kernel_stack x = sp →
  words_at (nodes k) sp regs → length regs = 5%nat → 0 ≤ sp → sp + 20 < 4294967296 →
  (sp + 20 ≤ esp c - 16 ∨ esp c ≤ sp) →
  ∃ m y, tasks k !! current = Some y ∧
    switch_to k c = Ok (set_tasks (set_nodes k m) (<[current := set_stack (esp c - 16) y]> (tasks k)),
      Cpu (default 0 (regs !! 2%nat)) (default 0 (regs !! 3%nat)) (default 0 (regs !! 0%nat)) (sp + 20)
        (default 0 (regs !! 1%nat)) (edx c) (ecx c) next (gs c) (fs c) (es c) (ds c)
        (default 0 (regs !! 4%nat)) (cs c) (eflags c) (ss c)) ∧
    saved m (esp c - 16) c ret ∧ (∀ a, a < esp c - 16 ∨ esp c ≤ a → m !! a = nodes k !! a).
Proof.
  intros [Hargs Hrange Hroom [y Ey] _] Hne Ex Esp Hregs Hlen H0 H1 Hapart.
  destruct (push_all_spec [esi c; edi c; ebx c; ebp c] (nodes k) (esp c)) as (m & E & Hw & Hsame & _);
    [cbn; lia|exact Hroom|].
  change (esp c - 4 * Z.of_nat (length [esi c; edi c; ebx c; ebp c])) with (esp c - 16) in *.
  cbn [rev app] in Hw.
  assert (words_at m (esp c - 16) ([ebp c; ebx c; edi c; esi c] ++ [ret; current; next])) as Hall.
  { apply words_at_app. split; [done|]. apply (words_at_same (nodes k)).
    - cbn [length]. by replace (esp c - 16 + 4 * Z.of_nat 4) with (esp c) by lia.
    - intros a Ha. apply Hsame. cbn [length] in Ha. lia. }
  assert (words_at m sp regs) as Hregs'.
  { apply (words_at_same (nodes k)); [done|]. rewrite Hlen. intros a Ha. apply Hsame. lia. }
  exists m, y. split; [done|]. split_and!; [|by apply (words_at_app _ _ ([ebp c; ebx c; edi c; esi c] ++ [ret]) [current; next])|done].
  unfold switch_to. rewrite E. cbn [obind].
  rewrite (load_word_at m _ _ 5 20 current Hall) by done. cbn [obind].
  rewrite (update_task_Some _ current _ y) by exact Ey. cbn [obind].
  rewrite (load_word_at m _ _ 6 24 next Hall) by done. cbn [obind].
  unfold get_task. cbn [tasks set_tasks set_nodes]. rewrite lookup_insert_ne by done. rewrite Ex. cbn [obind].
  rewrite Esp. destruct regs as [|r0 [|r1 [|r2 [|r3 [|r4 [|]]]]]]; try discriminate Hlen.
  replace (pop m sp) with (pop m (sp + 0)) by (f_equal; lia).
  repeat pop_step Hregs'. done.
Qed.

(** * Properties *)

(** C10. An interrupt is transparent: on a stack with room for it, the frame that the processor
    and the stub of [VECTOR] push is a [struct intr_stack] with the registers that were interrupted,
    and after a handler that leaves the frame as it is, [intr_exit] goes on with exactly these
    registers, in the kernel as well as in a user program; provided that ZERO is given just for
    the vectors without an error code, as it is for all but vector 12 (the stack fault). *)
Theorem interrupt_roundtrip m c esp0 code vec zero :
  room m (frame_top c esp0) → zero = (if code is Some _ then false else true) →
  (∃ m' sp old, intr_entry m c esp0 code zero vec = Ok (m', sp) ∧
    words_at m' sp (intr_stack c vec old (default 0 code)) ∧
    (∀ a, frame_top c esp0 ≤ a → m' !! a = m !! a) ∧
    ∀ m2, (∀ a, sp ≤ a < frame_top c esp0 → m2 !! a = m' !! a) → intr_exit m2 sp (ss c) = Ok c) ∧
  ∀ v, 0 ≤ v < 20 ∨ 0x20 ≤ v < 0x30 → ZERO v = negb (has_error_code v) ↔ v ≠ 12.
Proof.
  intros Hroom Hzero. split.
  - destruct (intr_entry_frame m c esp0 code zero vec Hroom Hzero) as (m' & sp & old & E & Hsp & Hw & Hsame & _).
    destruct Hroom as [Htop _]. rewrite length_intr_stack in Hsp.
    assert (68 ≤ 4 * (if ring c =? 0 then 17 else 19) ≤ 76) as Hsize by (destruct (ring c =? 0); lia).
    exists m', sp, old. split_and!; [done|done|intros a Ha; apply Hsame; by right|].
    intros m2 Hm2. apply (intr_exit_frame m2 sp c vec old (default 0 code)); [|lia..|].
    + apply (words_at_same m'); [done|]. rewrite length_intr_stack. intros a Ha. apply Hm2. lia.
    + intros Hr. unfold frame_top in Hsp. rewrite Hr in Hsp. change (0 =? 0) with true in Hsp. cbv iota in Hsp. lia.
  - assert (Forall (λ v, ZERO v = negb (has_error_code v) ↔ v ≠ 12) (seqZ 0 20 ++ seqZ 0x20 16)) as Hall
      by (apply (bool_decide_unpack _); by vm_compute).
    intros v Hv. rewrite Forall_forall in Hall. apply Hall. rewrite elem_of_app, !elem_of_seqZ. lia.
Qed.

(** C11. A thread that is switched out comes back as it was: [switch_to] saves its registers on its
    stack and the stack pointer in its PCB, and changes nothing else of the tasks and the memory
    above and below the four words; when, later, another thread switches to it (the saved words
    and the stack pointer being as they were left), [ebp], [ebx], [edi] and [esi] are as before,
    and it returns from [switch_to] to its caller, with its arguments on top of the stack. *)
Theorem switch_roundtrip k c ret current next x regs :
  called k c ret current next → current ≠ next → tasks k !! next = Some x →
  words_at (nodes k) (self_kernel_stack x) regs → length regs = 5%nat →
  0 ≤ self_kernel_stack x → self_kernel_stack x + 20 < 4294967296 →
  (self_kernel_stack x + 20 ≤ esp c - 16 ∨ esp c ≤ self_kernel_stack x) →
  ∃ k1 c1, switch_to k c = Ok (k1, c1) ∧
    (∀ t, t ≠ current → tasks k1 !! t = tasks k !! t) ∧
    (∀ a, a < esp c - 16 ∨ esp c ≤ a → nodes k1 !! a = nodes k !! a) ∧
    ∃ y, tasks k1 !! current = Some y ∧
    ∀ k2 c2 ret2 other z, called k2 c2 ret2 other current → other ≠ current →
      tasks k2 !! current = Some z → self_kernel_stack z = self_kernel_stack y →
      (∀ a, esp c - 16 ≤ a < esp c + 4 → nodes k2 !! a = nodes k1 !! a) →
      (esp c + 4 ≤ esp c2 - 16 ∨ esp c2 ≤ esp c - 16) →
      ∃ k3 c3, switch_to k2 c2 = Ok (k3, c3) ∧
        ebp c3 = ebp c ∧ ebx c3 = ebx c ∧ edi c3 = edi c ∧ esi c3 = esi c ∧
        eip c3 = ret ∧ esp c3 = esp c + 4.
Proof.
  intros Hcall Hne Ex Hregs Hlen H0 H1 Hapart. pose proof (ca_range _ _ _ _ _ Hcall) as Hrange.
  destruct (switch_to_spec k c ret current next x _ regs Hcall Hne Ex eq_refl Hregs Hlen H0 H1 Hapart)
    as (m & y & Ey & E & Hsaved & Hsame).
  do 2 eexists. split; [exact E|]. cbn [tasks set_tasks set_nodes nodes].
  split_and!; [intros t Ht; by rewrite lookup_insert_ne|exact Hsame|].
  exists (set_stack (esp c - 16) y). split; [apply lookup_insert_eq|].
  intros k2 c2 ret2 other z Hcall2 Hne2 Ez Esp Hsame2 Hapart2. cbn [self_kernel_stack set_stack] in Esp.
  destruct (switch_to_spec k2 c2 ret2 other current z (esp c - 16) [ebp c; ebx c; edi c; esi c; ret])
    as (m3 & y3 & _ & E3 & _); [done|done|done|done| |done|lia|lia|lia|].
  { apply (words_at_same m); [exact Hsaved|]. cbn [length]. intros a Ha. apply Hsame2. lia. }
  do 2 eexists. split; [exact E3|]. cbn. split_and!; try done. lia.
Qed.

(** C38. A new thread runs its function: when the processor is switched to a thread for the
    first time after [thread_creat], it starts in [kernel_func] with an empty frame, which enables
    the interrupts and calls [function(func_argc)]; behind that, the return address of
    [kernel_func] is whatever was in the page: a thread must not return. *)
Theorem new_thread_runs kf k t x function func_argc sp c ret current :
  tasks k !! t = Some x → u32 (u32 (self_kernel_stack x - 304) - 128) = sp → words (nodes k) sp 32 →
  0 ≤ sp → sp + 32 < 4294967296 → current ≠ t →
  ∃ k1, thread_creat kf k t function func_argc = Ok k1 ∧
    (called k1 c ret current t → (sp + 32 ≤ esp c - 16 ∨ esp c ≤ sp) →
     ∃ k2 c2, switch_to k1 c = Ok (k2, c2) ∧ eip c2 = kf ∧
       ebp c2 = 0 ∧ ebx c2 = 0 ∧ edi c2 = 0 ∧ esi c2 = 0 ∧
       nodes k2 !! esp c2 = nodes k !! (sp + 20) ∧
       ∃ k3, kernel_func k2 c2 = Ok (k3, (function, func_argc)) ∧ intr_on k3 = true).
Proof.
  intros Ex Esp Hw H0 H1 Hne.
  destruct (thread_creat_spec kf k t x function func_argc sp Ex Esp Hw) as (m & E & Hframe & Hsame & Hmono).
  eexists. split; [exact E|]. intros Hcall Hapart. set (k1 := set_tasks _ _) in *.
  destruct Hframe as (Hebp & Hebx & Hedi & Hesi & Heip & Hfun & Harg).
  unfold ebp_off, ebx_off, edi_off, esi_off, eip_off, function_off, func_argc_off in *.
  pose proof (ca_range _ _ _ _ _ Hcall) as Hrange.
  destruct (switch_to_spec k1 c ret current t (stack_down sizeof_thread_stack (stack_down sizeof_intr_stack x)) sp
    [0; 0; 0; 0; kf]) as (m2 & y & Ey & E2 & _ & Hsame2);
    [done|done|apply lookup_insert_eq|exact Esp| |done|lia|lia|lia|].
  { cbn [words_at nodes k1 set_tasks set_nodes]. rewrite <- !Z.add_assoc. rewrite Z.add_0_r in Hebp. by split_and!. }
  do 2 eexists. split; [exact E2|]. cbn [eip ebp ebx edi esi esp nodes set_tasks set_nodes].
  split_and!; try done.
  - rewrite Hsame2 by lia. apply Hsame. lia.
  - unfold kernel_func. cbn [nodes set_tasks set_nodes esp]. rewrite <- !Z.add_assoc.
    rewrite (load_Some _ _ function), (load_Some _ _ func_argc) by (rewrite Hsame2 by lia; assumption).
    cbn [obind]. eexists. split; [done|]. unfold local_irq_enable.
    by destruct (get_intr_status _) eqn:Hi.
Qed.

(** A section between [local_irq_save] and [local_irq_restore] runs without interrupts, but the
    second macro does not bring back the flags that the first one found: it loads what
    the variable held before, after a moment with interrupts enabled. *)
Lemma irq_macros_lose_flags c flags :
  let (c1, v) := local_irq_save c flags in
  let (c2, c3) := raw_local_irq_restore c1 v in
  Z.testbit (eflags c1) 9 = false ∧ v = flags ∧
  Z.testbit (eflags c2) 9 = true ∧ c3 = set_eflags flags c.
Proof.
  cbn [local_irq_save raw_local_irq_save raw_local_irq_restore cli sti set_eflags eflags].
  change EFLAGS_IF with (2 ^ 9). rewrite Z.ldiff_spec, Z.lor_spec, Z.pow2_bits_true by lia.
  by rewrite andb_false_r, orb_true_r.
Qed.

(** * The hypotheses can be met *)

Definition demo_words (p : Z) (vs : list Z) : list (Z * Z) := imap (λ i v, (p + 4 * Z.of_nat i, v)) vs.
Definition demo_task (sp : Z) : task_struct := TaskStruct sp TASK_READY 1 1 1 0 [] NULL 0x20130901.

(** Registers in the kernel and in a user program. *)
Definition demo_cpu (sp code_sel data_sel : Z) : cpu :=
  Cpu 11 12 13 sp 14 15 16 17 0 data_sel data_sel data_sel 0xc0002000 code_sel 0x202 data_sel.

(** Threads with PCBs at 5000, which is in a call of [switch_to], and 6000, which was switched out. *)
Definition demo_stacks : mem :=
  list_to_map (demo_words 984 [0; 0; 0; 0; 77; 5000; 6000] ++ demo_words 1984 [21; 22; 23; 24; 88]).
Definition demo_k : kstate :=
  KState demo_stacks {[ 5000 := demo_task 0; 6000 := demo_task 1984 ]} queue_init 5000 0 false.

Lemma demo_room m top : forallb (λ j, bool_decide (is_Some (m !! (top - 4 * j)))) (seqZ 1 19) = true →
  76 ≤ top < 4294967296 → room m top.
Proof.
  intros Hm Htop. split; [done|]. intros j Hj. rewrite forallb_forall in Hm.
  specialize (Hm j). rewrite <- list_elem_of_In, elem_of_seqZ in Hm. specialize (Hm ltac:(lia)). by apply bool_decide_eq_true in Hm.
Qed.

Ltac is_there := apply (bool_decide_unpack _); by vm_compute.

Lemma demo_called : called demo_k (demo_cpu 1000 8 16) 77 5000 6000.
Proof.
  split; [by vm_compute|cbn; lia| |is_there|is_there].
  intros j Hj. assert (j = 1 ∨ j = 2 ∨ j = 3 ∨ j = 4) as [->|[->|[->| ->]]] by lia; is_there.
Qed.

Lemma interrupt_roundtrip_witness : ∃ m' sp old,
  intr_entry (list_to_map (demo_words 924 (replicate 19 0))) (demo_cpu 5 0x2b 0x33) 1000 None true 0x21 = Ok (m', sp) ∧
  words_at m' sp (intr_stack (demo_cpu 5 0x2b 0x33) 0x21 old 0) ∧
  intr_exit m' sp 0x33 = Ok (demo_cpu 5 0x2b 0x33).
Proof.
  destruct (interrupt_roundtrip (list_to_map (demo_words 924 (replicate 19 0))) (demo_cpu 5 0x2b 0x33) 1000 None 0x21 true)
    as ((m' & sp & old & E & Hw & _ & Hexit) & _); [apply demo_room; [by vm_compute|by vm_compute]|done|].
  exists m', sp, old. split_and!; [exact E|exact Hw|]. by apply Hexit.
Defined.

Lemma switch_roundtrip_witness : ∃ k1 c1 m2 k3 c3,
  switch_to demo_k (demo_cpu 1000 8 16) = Ok (k1, c1) ∧
  switch_to (set_nodes k1 m2) (demo_cpu 2000 8 16) = Ok (k3, c3) ∧ eip c3 = 77 ∧ esi c3 = 12.
Proof.
  destruct (switch_roundtrip demo_k (demo_cpu 1000 8 16) 77 5000 6000 (demo_task 1984) [21; 22; 23; 24; 88])
    as (k1 & c1 & E1 & Ht & Hm & y & Ey & Hback);
    [apply demo_called|done|done|by vm_compute|done|done|done|right; cbn; lia|].
  set (m2 := <[2000 := 99]> (<[2004 := 6000]> (<[2008 := 5000]> (nodes k1)))).
  destruct (Hback (set_nodes k1 m2) (demo_cpu 2000 8 16) 99 6000 y) as (k3 & c3 & E3 & _ & _ & _ & Hesi & Heip & _).
  - split; [by subst m2; cbn; simplify_map_eq|cbn; lia| |cbn; rewrite Ht by done; by eexists|by eexists].
    intros j Hj. cbn. subst m2.
    rewrite !lookup_insert_ne, Hm by (cbn; lia).
    assert (j = 1 ∨ j = 2 ∨ j = 3 ∨ j = 4) as [->|[->|[->| ->]]] by lia; is_there.
  - done.
  - exact Ey.
  - done.
  - intros a Ha. cbn in *. subst m2. by rewrite !lookup_insert_ne by lia.
  - left. cbn. lia.
  - exists k1, c1, m2, k3, c3. split_and!; [exact E1|exact E3|exact Heip|exact Hesi].
Defined.

(** A new PCB at 6000 whose stack ends at 3000, entered from the thread at 5000. *)
Definition demo_new : kstate :=
  KState (list_to_map (demo_words 984 [0; 0; 0; 0; 77; 5000; 6000] ++ demo_words 2568 (replicate 8 55)))
    {[ 5000 := demo_task 0; 6000 := demo_task 3000 ]} queue_init 5000 0 false.

Lemma new_thread_runs_witness : ∃ k1 k2 c2 k3,
  thread_creat 0xc0003000 demo_new 6000 0xc0004000 9 = Ok k1 ∧ switch_to k1 (demo_cpu 1000 8 16) = Ok (k2, c2) ∧
  eip c2 = 0xc0003000 ∧ kernel_func k2 c2 = Ok (k3, (0xc0004000, 9)) ∧ intr_on k3 = true.
Proof.
  destruct (new_thread_runs 0xc0003000 demo_new 6000 (demo_task 3000) 0xc0004000 9 2568 (demo_cpu 1000 8 16) 77 5000)
    as (k1 & E & Hrun); [done|done| |done|done|done|].
  - intros j Hj. assert (j = 0 ∨ j = 1 ∨ j = 2 ∨ j = 3 ∨ j = 4 ∨ j = 5 ∨ j = 6 ∨ j = 7)
      as [->|[->|[->|[->|[->|[->|[->| ->]]]]]]] by lia; is_there.
  - assert (Ok k1 = thread_creat 0xc0003000 demo_new 6000 0xc0004000 9) as E1 by (by rewrite E). vm_compute in E1.
    destruct Hrun as (k2 & c2 & E2 & Hip & _ & _ & _ & _ & _ & k3 & E3 & Hi).
    + injection E1 as ->. split; [by vm_compute|cbn; lia| |is_there|is_there].
      intros j Hj. assert (j = 1 ∨ j = 2 ∨ j = 3 ∨ j = 4) as [->|[->|[->| ->]]] by lia; is_there.
    + right. cbn. lia.
    + exists k1, k2, c2, k3. split_and!; [exact E|exact E2|exact Hip|exact E3|exact Hi].
Defined.
