(* ===== verification/Process.v ===== *)
(** User processes (userprog/process.c): the frame with which a process enters ring 3, and
    the page directory and kernel stack of the task that is going to run. *)
From S2P Require Import Prelude KList Pool PageTable Thread Create Desc Switch.
Local Open Scope Z_scope.
Local Abbreviation length := List.length.

(** * Operations *)

(** Selectors of the user segments, and bits of [eflags]. *)
Definition SELECTOR_U_CODE : Z := Z.shiftl 5 3 + Z.shiftl 0 2 + 3.
Definition SELECTOR_U_DATA : Z := Z.shiftl 6 3 + Z.shiftl 0 2 + 3.
Definition SELECTOR_U_STACK : Z := SELECTOR_U_DATA.
Definition EFLAGS_MBS : Z := Z.shiftl 1 1.
Definition EFLAGS_IF_1 : Z := Z.shiftl 1 9.
Definition EFLAGS_IOPL_0 : Z := Z.shiftl 0 12.

(** Assignments to fields of the structure at [p], by their offsets. *)
Fixpoint store_fields (m : mem) (p : Z) (fields : list (Z * Z)) : outcome mem :=
  match fields with
  | [] => Ok m
  | (off, v) :: fields => let! m := store m (p + off) v in store_fields m p fields
  end.

(** The fields of the frame that are set, in the order of the assignments. *)
Definition proc_fields (function : Z) : list (Z * Z) := [
  (4, 0)   (* edi *); (8, 0)   (* esi *); (12, 0)  (* ebp *); (16, 0)  (* esp_old *);
  (32, 0)  (* eax *); (28, 0)  (* ecx *); (24, 0)  (* edx *); (20, 0)  (* ebx *);
  (36, 0)  (* gs *);
  (40, SELECTOR_U_DATA) (* fs *); (44, SELECTOR_U_DATA) (* es *); (48, SELECTOR_U_DATA) (* ds *);
  (56, function) (* eip *); (60, SELECTOR_U_CODE) (* cs *);
  (64, Z.lor (Z.lor EFLAGS_IOPL_0 EFLAGS_MBS) EFLAGS_IF_1) (* eflags *);
  (72, SELECTOR_U_STACK) (* ss *)].

(** [start_process], up to the assembly: the state, and the new stack pointer, with which it
    jumps to [intr_exit]. *)
Definition start_process (k : kstate) (filename_ : Z) : outcome (kstate * Z) :=
  let function := filename_ in
  let cur_task := get_cur_task k in
  let! k := update_task k cur_task (λ x, set_stack (u32 (self_kernel_stack x + 4 * sizeof_task_struct)) x) in
  let! x := get_task k cur_task in
  let proc_stack := self_kernel_stack x in
  let! m := store_fields (nodes k) proc_stack (proc_fields function) in
  Ok (set_nodes k m, proc_stack).

(** The whole function: [intr_exit] loads the registers, from a kernel stack in segment [ss0]. *)
Definition enter_process (k : kstate) (filename_ ss0 : Z) : outcome (kstate * cpu) :=
  let! (k, proc_stack) := start_process k filename_ in
  let! c := intr_exit (nodes k) proc_stack ss0 in
  Ok (k, c).

(** [page_dir_activate]: the new [cr3]. *)
Definition page_dir_activate (ptask : task_struct) : Z :=
  let phy_pde_addr := PAGE_DIR_TABLE in
  if negb (Thread.pde_addr ptask =? NULL) then __pa (Thread.pde_addr ptask) else phy_pde_addr.

(** [process_activate]: the new [cr3] and the task state segment. *)
Definition process_activate (k : kstate) (tss : list Z) (ptask : Z) : outcome (Z * list Z) :=
  ASSERT (negb (ptask =? NULL)) ;!
  let! x := get_task k ptask in
  let cr3 := page_dir_activate x in
  let tss := if negb (Thread.pde_addr x =? NULL) then set_tss_esp0 ptask tss else tss in
  Ok (cr3, tss).

(** * Lemmas *)

Lemma store_fields_spec m p fields : (∀ o v, (o, v) ∈ fields → is_Some (m !! (p + o))) →
  ∃ m', store_fields m p fields = Ok m' ∧
    (∀ a, (∀ o v, (o, v) ∈ fields → a ≠ p + o) → m' !! a = m !! a) ∧
    (NoDup fields.*1 → ∀ o v, (o, v) ∈ fields → m' !! (p + o) = Some v).
Proof.
  revert m. induction fields as [|[o v] fields IH]; intros m Hm; cbn [store_fields].
  { exists m. split_and!; [done|done|]. intros _ o v Hin. by apply not_elem_of_nil in Hin. }
  rewrite store_is_Some by (apply (Hm o v); by left). cbn [obind].
  destruct (IH (<[p + o := v]> m)) as (m' & E & Hout & Hin).
  { intros o' v' Hin. apply is_Some_insert, (Hm o' v'). by right. }
  exists m'. split_and!; [done| |].
  - intros a Ha. rewrite Hout by (intros o' v' Hin'; apply (Ha o' v'); by right).
    apply lookup_insert_ne. intros Heq. by apply (Ha o v); [left|].
  - intros Hnd o' v' [[= -> ->]|Hin']%elem_of_cons; cbn in Hnd; apply NoDup_cons in Hnd as [Hnot Hnd].
    + rewrite Hout; [apply lookup_insert_eq|]. intros o' v' Hin' Heq. apply Hnot.
      assert (o' = o) as <- by lia. apply list_elem_of_fmap. by exists (o', v').
    + by apply Hin.
Qed.

Lemma fields_range function o v : (o, v) ∈ proc_fields function →
  ∃ j, o = 4 * j ∧ 0 ≤ j < 19 ∧ ¬ (j = 0 ∨ j = 13 ∨ j = 17).
Proof.
  intros Ho. assert (o ∈ (proc_fields function).*1) as Hin by (apply list_elem_of_fmap; by exists (o, v)).
  cbn in Hin. exists (o / 4). rewrite !elem_of_cons, elem_of_nil in Hin.
  repeat destruct Hin as [->|Hin]; try done; vm_compute; intuition congruence.
Qed.

(** What [intr_exit] finds in the frame of [start_process]: [w] is the word that is not set. *)
Definition user_cpu (function w : Z) : cpu :=
  Cpu 0 0 0 w 0 0 0 0 0 SELECTOR_U_DATA SELECTOR_U_DATA SELECTOR_U_DATA function SELECTOR_U_CODE 0x202
    SELECTOR_U_STACK.

(** * Properties *)

(** C39. [start_process] enters the function of the process in ring 3: on a stack that is
    mapped, [intr_exit] loads cleared registers, the user segments that [tss_init] has described,
    interrupts enabled and no I/O privilege.  But the stack pointer of the process is whatever
    the word was that is never set; and since the stack pointer of the PCB is increased by the size
    of the structure in words, the frame of a thread that [thread_start] made is in the page behind
    that of its stack. *)
Theorem start_process_enters_user k x function ss0 tss_addr r :
  let cur := get_cur_task k in
  let p := u32 (self_kernel_stack x + 800) in
  tasks k !! cur = Some x → p + 76 < 4294967296 → words (nodes k) p 76 →
  (∃ k' c w, enter_process k function ss0 = Ok (k', c) ∧ c = user_cpu function w ∧
    nodes k !! (p + 68) = Some w ∧ ring c = 3 ∧ Z.testbit (eflags c) 9 = true ∧ Z.land (eflags c) 0x3000 = 0 ∧
    (∀ a, a < p ∨ p + 76 ≤ a → nodes k' !! a = nodes k !! a) ∧
    let descs := snd (fst (tss_init tss_addr)) in
    descs !! Z.to_nat (Z.shiftr (cs c) 3 - 4) = Some (creat_gdt_desc 0 0xfffff GDT_CODE_ATTR_LOW_DPL3 GDT_ATTR_HIGH) ∧
    descs !! Z.to_nat (Z.shiftr (ss c) 3 - 4) = Some (creat_gdt_desc 0 0xfffff GDT_DATA_ATTR_LOW_DPL3 GDT_ATTR_HIGH)) ∧
  (self_kernel_stack x = page_addr (r + 199) + 3664 → 0 ≤ page_addr r → page_addr (r + 201) < 4294967296 →
   p = page_addr (r + 200) + 368).
Proof.
  intros cur p Ex Hp Hw. split.
  - unfold enter_process, start_process. fold cur.
    rewrite (update_task_Some k cur _ x) by exact Ex. cbn [obind].
    unfold get_task. cbn [tasks set_tasks]. rewrite lookup_insert_eq. cbn [obind self_kernel_stack set_stack].
    change (4 * sizeof_task_struct) with 800. fold p. cbn [nodes set_tasks].
    assert (∀ j, 0 ≤ j < 19 → is_Some (nodes k !! (p + 4 * j))) as Hw' by (intros j Hj; apply Hw; lia).
    destruct (Hw' 0 ltac:(lia)) as [w0 Hw0], (Hw' 13 ltac:(lia)) as [w13 Hw13], (Hw' 17 ltac:(lia)) as [w Hw17].
    destruct (store_fields_spec (nodes k) p (proc_fields function)) as (m & E & Hout & Hin).
    { intros o v Ho. destruct (fields_range function o v Ho) as (j & -> & Hj & _). apply Hw'. lia. }
    assert (∀ j, 0 ≤ j < 19 → j = 0 ∨ j = 13 ∨ j = 17 → m !! (p + 4 * j) = nodes k !! (p + 4 * j)) as Hkeep.
    { intros j _ Hj. apply Hout. intros o v Ho. destruct (fields_range function o v Ho) as (j' & -> & ? & ?). lia. }
    specialize (Hin ltac:(apply (bool_decide_unpack _); by vm_compute)).
    rewrite E. cbn [obind]. cbn [nodes set_nodes].
    rewrite (intr_exit_frame m p (user_cpu function w) w0 0 w13 ss0).
    + cbn [obind]. do 3 eexists. split; [reflexivity|]. split_and!; try done.
      intros a Ha. apply Hout. intros o v Ho. destruct (fields_range function o v Ho) as (j' & -> & ? & ?). lia.
    + apply words_at_of_lookup. intros i v Hi. unfold intr_stack in Hi. cbn in Hi.
      do 19 (destruct i as [|i]; [cbn in Hi; injection Hi as <-;
        match goal with |- _ !! (_ + ?o) = _ => let o' := eval vm_compute in o in change o with o' end;
        first [apply Hin; by repeat constructor | by rewrite <- Hw0, <- (Hkeep 0 ltac:(lia) ltac:(lia))
          | by rewrite <- Hw13, <- (Hkeep 13 ltac:(lia) ltac:(lia)) | by rewrite <- Hw17, <- (Hkeep 17 ltac:(lia) ltac:(lia))]|]).
      done.
    + apply u32_range.
    + by change (ring (user_cpu function w) =? 0) with false.
    + by intros Hr.
  - intros Es H0 H1. subst p. rewrite Es. unfold page_addr, PAGE_SIZE in *. rewrite u32_small; lia.
Qed.

(** [process_activate] prepares the processor for a task: a thread of the kernel runs on the
    page directory of the kernel, and the task state segment stays as it is; a process gets
    its own page directory, by its physical address, and the next interrupt of its program
    pushes its frame at the end of the page of the PCB, behind the PCB. *)
Theorem process_activate_prepares k tss ptask x :
  ptask ≠ NULL → tasks k !! ptask = Some x → length tss = tss_words → 0 ≤ ptask → ptask + 4096 < 4294967296 →
  (Thread.pde_addr x = NULL → process_activate k tss ptask = Ok (PAGE_DIR_TABLE, tss)) ∧
  (Thread.pde_addr x ≠ NULL → PAGE_OFFEST ≤ Thread.pde_addr x < 4294967296 →
   ∃ tss', process_activate k tss ptask = Ok (Thread.pde_addr x - PAGE_OFFEST, tss') ∧
     (∀ i, i ≠ esp0 → tss' !! i = tss !! i) ∧
     ∃ sp0, tss' !! esp0 = Some sp0 ∧
     ∀ m c vec, ring c ≠ 0 → room m sp0 →
       ∃ m' sp old, intr_entry m c sp0 None true vec = Ok (m', sp) ∧
         words_at m' sp (intr_stack c vec old 0) ∧ ptask + sizeof_task_struct ≤ sp ∧ sp + 76 = ptask + 4096 ∧
         (∀ a, a < sp → m' !! a = m !! a)).
Proof.
  intros Hn Ex Hlen H0 H1. unfold process_activate, get_task, page_dir_activate.
  rewrite (proj2 (Z.eqb_neq _ _) Hn). cbn [negb ASSERT obind]. rewrite Ex. cbn [obind]. split.
  - by intros ->.
  - intros Hpde Hrange. rewrite (proj2 (Z.eqb_neq _ _) Hpde). cbn [negb].
    unfold __pa. rewrite u32_small by (unfold PAGE_OFFEST in *; lia). eexists. split; [done|].
    split; [intros i Hi; by apply list_lookup_insert_ne|].
    exists (ptask + 4096). split.
    { unfold set_tss_esp0. rewrite u32_small by lia. apply list_lookup_insert_eq. rewrite Hlen. unfold esp0, tss_words. lia. }
    intros m c vec Hring Hroom.
    assert (frame_top c (ptask + 4096) = ptask + 4096) as Htop
      by (unfold frame_top; by rewrite (proj2 (Z.eqb_neq _ _) Hring)).
    destruct (intr_entry_frame m c (ptask + 4096) None true vec) as (m' & sp & old & E & Hsp & Hw & Hsame & _);
      [by rewrite Htop|done|].
    rewrite length_intr_stack, (proj2 (Z.eqb_neq _ _) Hring), Htop in Hsp.
    exists m', sp, old. unfold sizeof_task_struct. split_and!; [done|done|lia|lia|]. intros a Ha. apply Hsame. by left.
Qed.

(** * The hypotheses can be met *)

(** A task at 8192 whose stack pointer is 12000, with a page directory at 0xc0200000. *)
Definition demo_proc : task_struct := TaskStruct 12000 TASK_RUNNING 1 1 1 0 [] 0xc0200000 0x20130901.
Definition demo_proc_k : kstate :=
  KState (list_to_map (demo_words 12800 (replicate 19 7))) {[ 8192 := demo_proc ]} queue_init 8192 0 false.

Lemma demo_proc_words : words (nodes demo_proc_k) 12800 76.
Proof.
  assert (Forall (λ j, is_Some (nodes demo_proc_k !! (12800 + 4 * j))) (seqZ 0 19)) as Hall
    by (apply (bool_decide_unpack _); by vm_compute).
  intros j Hj. rewrite Forall_forall in Hall. apply Hall. rewrite elem_of_seqZ. lia.
Qed.

Lemma start_process_enters_user_witness : ∃ k' c,
  enter_process demo_proc_k 0x8048000 16 = Ok (k', c) ∧ eip c = 0x8048000 ∧ ring c = 3 ∧ esp c = 7.
Proof.
  destruct (start_process_enters_user demo_proc_k demo_proc 0x8048000 16 0xc0010000 0) as [(k' & c & w & E & Hc & Hw & Hr & _) _];
    [reflexivity|reflexivity|exact demo_proc_words|].
  exists k', c. subst c. split_and!; [exact E|reflexivity|exact Hr|].
  vm_compute in Hw. by injection Hw as <-.
Defined.

Lemma process_activate_prepares_witness : ∃ tss',
  process_activate demo_proc_k (replicate 27 0) 8192 = Ok (0x200000, tss') ∧ tss' !! 1%nat = Some 12288.
Proof.
  destruct (process_activate_prepares demo_proc_k (replicate 27 0) 8192 demo_proc) as [_ H];
    [discriminate|reflexivity|reflexivity|discriminate|reflexivity|].
  destruct H as (tss' & E & _ & sp0 & Hsp & _); [discriminate|split; [discriminate|reflexivity]|].
  exists tss'. split; [exact E|]. injection E as <-. reflexivity.
Defined.
