(* ===== verification/Syscall.v ===== *)
(** System calls: the table and the functions of userprog/syscall_init.c, the entry
    [syscall_handler] of kernel/interrupt_s.S, and the stubs of lib/user/syscall.c. *)
From S2P Require Import Prelude KList Pool Mutex Heap Thread Create CString Screen Console Switch.
Local Open Scope Z_scope.

(** * State *)

(** What the functions work on: the scheduler and the pools, the console, and the memory of
    characters. *)
Record kernel := Kernel { k_world : world; k_console : console; k_chars : mem }.

Definition SYSCALL_CNT : Z := 32.
Definition NR_getpid : Z := 0.
Definition NR_write : Z := 1.
Definition NR_malloc : Z := 2.
Definition NR_free : Z := 3.

(** [register_syscall]: the table is indexed without a check. *)
Definition register_syscall (syscall_table : list Z) (number func : Z) : outcome (list Z) :=
  match syscall_table !! Z.to_nat number with
  | Some _ => Ok (<[Z.to_nat number := func]> syscall_table)
  | None => Fault
  end.

Section syscalls.
(** Fuel of the loops; the array of the block descriptors of the kernel; the addresses of the
    functions. *)
Variable fuel : nat.
Variable kd : Z.
Variables a_getpid a_write a_malloc a_free : Z.
(** The address of [syscall_table], the words around it in memory ([None]: the access faults),
    and what happens at an address where none of the four functions starts: it ends or not, and
    can do anything to the state. *)
Variable syscall_table_at : Z.
Variable memory_word : Z → option Z.
Variable jump : Z → list Z → kernel → outcome (kernel * Z).

(** * The functions *)

Definition sys_getpid (s : kernel) : outcome (kernel * Z) :=
  let! x := get_task (kern (k_world s)) (get_cur_task (kern (k_world s))) in
  Ok (s, u32 (pid x)).

Definition sys_write (s : kernel) (str : Z) : outcome (kernel * Z) :=
  let! c := console_str fuel (k_chars s) (k_console s) (get_cur_task (kern (k_world s))) str in
  let! n := strlen fuel (k_chars s) str in
  Ok (Kernel (k_world s) c (k_chars s), n).

(** [sys_malloc] and [sys_free] of [Heap], for the task that runs. *)
Definition do_malloc (s : kernel) (size : Z) : outcome (kernel * Z) :=
  let! t := running_task (kern (k_world s)) in
  let! (h, p) := sys_malloc fuel kd (to_heap (k_world s)) t size in
  Ok (Kernel (of_heap (k_world s) h) (k_console s) (k_chars s), p).

(** [sys_free] has no result; [r] is what it leaves in [eax]. *)
Definition do_free (r : Z) (s : kernel) (ptr : Z) : outcome (kernel * Z) :=
  let! t := running_task (kern (k_world s)) in
  let! h := sys_free fuel (to_heap (k_world s)) t ptr in
  Ok (Kernel (of_heap (k_world s) h) (k_console s) (k_chars s), r).

(** [syscall_init]: the table. *)
Definition syscall_init (syscall_table : list Z) : outcome (list Z) :=
  let! t := register_syscall syscall_table NR_getpid a_getpid in
  let! t := register_syscall t NR_write a_write in
  let! t := register_syscall t NR_malloc a_malloc in
  register_syscall t NR_free a_free.

(** Calling the function at [addr], with the arguments on the stack. *)
Definition call_function (r addr : Z) (args : list Z) (s : kernel) : outcome (kernel * Z) :=
  let arg := default 0 (head args) in
  if addr =? a_getpid then sys_getpid s
  else if addr =? a_write then sys_write s arg
  else if addr =? a_malloc then do_malloc s arg
  else if addr =? a_free then do_free r s arg
  else jump addr args s.

(** The operand of [call [syscall_table + eax*4]]: the sum wraps around, and is not compared with
    the size of the table. *)
Definition table_word (syscall_table : list Z) (eax : Z) : option Z :=
  let address := u32 (syscall_table_at + u32 (eax * 4)) in
  match syscall_table !! Z.to_nat (u32 (address - syscall_table_at) / 4) with
  | Some f => Some f
  | None => memory_word address
  end.

(** * The entry *)

(** [int 0x80] and [syscall_handler]: [stack] is the memory of the kernel stack, [esp0] that of
    the task state segment; the functions do not write into the frames of
    their callers. *)
Definition syscall_handler (r : Z) (syscall_table : list Z) (esp0 : Z) (stack : mem) (c : cpu) (s : kernel)
    : outcome (mem * kernel * cpu) :=
  let! st := intr_entry stack c esp0 None true 0x80 in
  let! st := push_all st [edx c; ecx c; ebx c] in
  match table_word syscall_table (eax c) with
  | None => Fault
  | Some f =>
      let! (s, eax) := call_function r f [ebx c; ecx c; edx c] s in
      let sp := u32 (st.2 + 12) in
      let! m := store st.1 (u32 (sp + 32)) eax in
      let! c := intr_exit m sp (ss c) in
      Ok (m, s, c)
  end.

(** * The stubs *)

Definition set_eax (v : Z) (c : cpu) : cpu :=
  Cpu (edi c) (esi c) (ebp c) (esp c) (ebx c) (edx c) (ecx c) v (gs c) (fs c) (es c) (ds c)
    (eip c) (cs c) (eflags c) (ss c).
Definition set_args (b cx d : Z) (c : cpu) : cpu :=
  Cpu (edi c) (esi c) (ebp c) (esp c) b d cx (eax c) (gs c) (fs c) (es c) (ds c)
    (eip c) (cs c) (eflags c) (ss c).

Section stubs.
Context (r : Z) (table : list Z) (esp0 : Z) (stack : mem).

(** [_syscall0] to [_syscall3]: the registers that are given, and the result in [eax]. *)
Definition _syscall0 (NAME : Z) (c : cpu) (s : kernel) : outcome (mem * kernel * cpu * Z) :=
  let! (m, s, c) := syscall_handler r table esp0 stack (set_eax NAME c) s in
  Ok (m, s, c, eax c).
Definition _syscall1 (NAME ARG1 : Z) (c : cpu) (s : kernel) : outcome (mem * kernel * cpu * Z) :=
  let! (m, s, c) := syscall_handler r table esp0 stack (set_eax NAME (set_args ARG1 (ecx c) (edx c) c)) s in
  Ok (m, s, c, eax c).
Definition _syscall2 (NAME ARG1 ARG2 : Z) (c : cpu) (s : kernel) : outcome (mem * kernel * cpu * Z) :=
  let! (m, s, c) := syscall_handler r table esp0 stack (set_eax NAME (set_args ARG1 ARG2 (edx c) c)) s in
  Ok (m, s, c, eax c).
Definition _syscall3 (NAME ARG1 ARG2 ARG3 : Z) (c : cpu) (s : kernel) : outcome (mem * kernel * cpu * Z) :=
  let! (m, s, c) := syscall_handler r table esp0 stack (set_eax NAME (set_args ARG1 ARG2 ARG3 c)) s in
  Ok (m, s, c, eax c).

Definition getpid := _syscall0 NR_getpid.
Definition write (str : Z) := _syscall1 NR_write str.
Definition malloc (size : Z) := _syscall1 NR_malloc size.
Definition free (ptr : Z) := _syscall1 NR_free ptr.
End stubs.
End syscalls.

(** * Lemmas *)

Lemma words_at_insert m p vs i v : words_at m p vs → (i < length vs)%nat →
  words_at (<[p + 4 * Z.of_nat i := v]> m) p (<[i := v]> vs).
Proof.
  intros Hw Hi. apply words_at_of_lookup. intros j w Hj. destruct (decide (j = i)) as [->|Hne].
  - rewrite list_lookup_insert_eq in Hj by done. injection Hj as <-. apply lookup_insert_eq.
  - rewrite list_lookup_insert_ne in Hj by done. rewrite lookup_insert_ne by lia. by apply (words_at_lookup m p vs).
Qed.

(** A stack with room for the frame and the three arguments. *)
Definition call_room (m : mem) (top : Z) : Prop :=
  88 ≤ top < 4294967296 ∧ ∀ j, 1 ≤ j ≤ 22 → is_Some (m !! (top - 4 * j)).

(** The entry that a number reaches: its first two bits are lost. *)
Lemma table_word_eq at_ mw table n : table_word at_ mw table n =
  match table !! Z.to_nat (n mod 0x40000000) with
  | Some f => Some f
  | None => mw (u32 (at_ + 4 * (n mod 0x40000000)))
  end.
Proof.
  unfold table_word, u32. rewrite Zminus_mod_idemp_l.
  replace (at_ + (n * 4) mod 4294967296 - at_) with ((n * 4) mod 4294967296) by lia.
  rewrite Z.mod_mod by lia. change 4294967296 with (0x40000000 * 4).
  rewrite Z.mul_mod_distr_r by lia. rewrite Z.div_mul by lia. by rewrite (Z.mul_comm (n mod 0x40000000) 4).
Qed.

Lemma table_word_in at_ mw table n f : 0 ≤ n < 0x40000000 → table !! Z.to_nat n = Some f →
  table_word at_ mw table n = Some f.
Proof. intros Hn Hf. by rewrite table_word_eq, Z.mod_small, Hf. Qed.

Section handler.
Context (fuel : nat) (kd a_getpid a_write a_malloc a_free at_ : Z) (mw : Z → option Z)
  (jump : Z → list Z → kernel → outcome (kernel * Z)) (r : Z) (table : list Z).
Local Abbreviation handler := (syscall_handler fuel kd a_getpid a_write a_malloc a_free at_ mw jump r table).
Local Abbreviation call := (call_function fuel kd a_getpid a_write a_malloc a_free jump r).

(** The frame and the arguments on the stack. *)
Lemma handler_stack esp0 stack c : call_room stack (frame_top c esp0) →
  ∃ m1 sp m2 old, intr_entry stack c esp0 None true 0x80 = Ok (m1, sp) ∧
    push_all (m1, sp) [edx c; ecx c; ebx c] = Ok (m2, sp - 12) ∧
    sp = frame_top c esp0 - 4 * (if ring c =? 0 then 17 else 19) ∧ 12 ≤ sp ∧ sp + 68 ≤ frame_top c esp0 ∧
    words_at m2 sp (intr_stack c 0x80 old 0).
Proof.
  intros [Htop Hroom].
  destruct (intr_entry_frame stack c esp0 None true 0x80) as (m1 & sp & old & E1 & Hsp & Hw & _ & Hmono);
    [split; [lia|intros j Hj; apply Hroom; lia]|done|].
  rewrite length_intr_stack in Hsp.
  assert (∃ q, sp = frame_top c esp0 - 4 * q ∧ 17 ≤ q ≤ 19) as (q & Hq & Hq')
    by (exists (if ring c =? 0 then 17 else 19); destruct (ring c =? 0); lia).
  destruct (push_all_spec [edx c; ecx c; ebx c] m1 sp) as (m2 & E2 & _ & Hsame & _).
  { cbn [length]. lia. }
  { intros j Hj. apply Hmono. rewrite Hq. cbn [length] in Hj.
    replace (frame_top c esp0 - 4 * q - 4 * j) with (frame_top c esp0 - 4 * (q + j)) by lia. apply Hroom. lia. }
  exists m1, sp, m2, old. split_and!; [done|done|done|lia|lia|].
  apply (words_at_same m1); [done|]. intros a Ha. apply Hsame. lia.
Qed.

(** If the operand cannot be read. *)
Lemma handler_no_entry esp0 stack c s : call_room stack (frame_top c esp0) → table_word at_ mw table (eax c) = None →
  handler esp0 stack c s = Fault.
Proof.
  intros Hroom Hf. destruct (handler_stack esp0 stack c Hroom) as (m1 & sp & m2 & old & E1 & E2 & _).
  unfold syscall_handler. rewrite E1. cbn [obind]. rewrite E2. cbn [obind]. by rewrite Hf.
Qed.

(** The handler calls the function of the table, and comes back with its result in [eax]. *)
Lemma handler_spec esp0 stack c s f : call_room stack (frame_top c esp0) → table_word at_ mw table (eax c) = Some f →
  ∃ stk, handler esp0 stack c s =
    let! (s', v) := call f [ebx c; ecx c; edx c] s in Ok (stk v, s', set_eax v c).
Proof.
  intros Hroom Hf. destruct (handler_stack esp0 stack c Hroom) as (m1 & sp & m2 & old & E1 & E2 & Hsp & H12 & Htop & Hw2).
  destruct Hroom as [Hbound _].
  exists (λ v, <[sp + 32 := v]> m2). unfold syscall_handler. rewrite E1. cbn [obind]. rewrite E2. cbn [obind].
  rewrite Hf. destruct (call f _ s) as [[s' v]| | |]; cbn [obind]; [|done..]. cbn [fst snd].
  replace (u32 (sp - 12 + 12)) with sp by (rewrite u32_small; lia). rewrite (u32_small (sp + 32)) by lia.
  pose proof (words_at_lookup _ _ _ 8 (eax c) Hw2 eq_refl) as Heax. change (4 * Z.of_nat 8) with 32 in Heax.
  rewrite (store_Some _ _ _ _ Heax). cbn [obind].
  rewrite (intr_exit_frame _ sp (set_eax v c) 0x80 old 0); [done| |lia| |].
  - change (intr_stack (set_eax v c) 0x80 old 0) with (<[8%nat := v]> (intr_stack c 0x80 old 0)).
    change 32 with (4 * Z.of_nat 8). apply words_at_insert; [done|]. unfold intr_stack. cbn [length app]. lia.
  - change (ring (set_eax v c)) with (ring c). rewrite Hsp in *. lia.
  - change (ring (set_eax v c)) with (ring c). intros Hr. split; [|done]. cbn [esp set_eax].
    rewrite Hr in Hsp. change (0 =? 0) with true in Hsp. unfold frame_top in Hsp. rewrite Hr in Hsp.
    change (0 =? 0) with true in Hsp. cbv iota in Hsp. lia.
Qed.
End handler.

(** * Properties *)

Section calls.
Context (fuel : nat) (kd a_getpid a_write a_malloc a_free at_ : Z) (mw : Z → option Z)
  (jump : Z → list Z → kernel → outcome (kernel * Z)) (r : Z) (table0 table : list Z).
(** The functions have different addresses, and the table is the one of [syscall_init]. *)
Definition table_ok : Prop :=
  NoDup [NULL; a_getpid; a_write; a_malloc; a_free] ∧ length table0 = 32%nat ∧
  syscall_init a_getpid a_write a_malloc a_free table0 = Ok table.

Lemma table_lookup : table_ok → table !! 0%nat = Some a_getpid ∧ table !! 1%nat = Some a_write ∧
  table !! 2%nat = Some a_malloc ∧ table !! 3%nat = Some a_free ∧
  (∀ i, (4 ≤ i)%nat → table !! i = table0 !! i).
Proof.
  intros (_ & Hlen & E). unfold syscall_init, register_syscall, NR_getpid, NR_write, NR_malloc, NR_free in E.
  change (Z.to_nat 0) with 0%nat in E. change (Z.to_nat 1) with 1%nat in E.
  change (Z.to_nat 2) with 2%nat in E. change (Z.to_nat 3) with 3%nat in E.
  revert Hlen E. generalize table0 as l. intros l Hlen E.
  do 32 (destruct l as [|? l]; [discriminate Hlen|]). destruct l; [|discriminate Hlen].
  cbn in E. injection E as <-. split_and!; try done.
  intros i Hi. do 4 (destruct i as [|i]; [lia|]). done.
Qed.

(** C9. A system call is a call: with the table of [syscall_init] and room on the kernel stack, in
    the kernel as well as in a user program, each stub has the effect of the function of the kernel, with the
    same argument, gives its result, and changes no register but [eax] and the one with the
    argument; and it fails where the function fails. *)
Theorem syscalls_are_calls esp0 stack c s arg :
  table_ok → call_room stack (frame_top c esp0) →
  (∃ stk, getpid fuel kd a_getpid a_write a_malloc a_free at_ mw jump r table esp0 stack c s =
     let! (s', v) := sys_getpid s in Ok (stk v, s', set_eax v c, v)) ∧
  (∃ stk, write fuel kd a_getpid a_write a_malloc a_free at_ mw jump r table esp0 stack arg c s =
     let! (s', v) := sys_write fuel s arg in Ok (stk v, s', set_eax v (set_args arg (ecx c) (edx c) c), v)) ∧
  (∃ stk, malloc fuel kd a_getpid a_write a_malloc a_free at_ mw jump r table esp0 stack arg c s =
     let! (s', v) := do_malloc fuel kd s arg in Ok (stk v, s', set_eax v (set_args arg (ecx c) (edx c) c), v)) ∧
  (∃ stk, free fuel kd a_getpid a_write a_malloc a_free at_ mw jump r table esp0 stack arg c s =
     let! (s', v) := do_free fuel r s arg in Ok (stk v, s', set_eax v (set_args arg (ecx c) (edx c) c), v)).
Proof.
  intros Ht Hroom. destruct (table_lookup Ht) as (H0 & H1 & H2 & H3 & _). destruct Ht as (Hnd & _).
  rewrite !NoDup_cons, !not_elem_of_cons in Hnd.
  destruct Hnd as ((N1 & N2 & N3 & N4 & _) & (N5 & N6 & N7 & _) & (N8 & N9 & _) & (N10 & _) & _).
  unfold getpid, write, malloc, free, _syscall0, _syscall1, NR_getpid, NR_write, NR_malloc, NR_free.
  split_and!.
  - destruct (handler_spec fuel kd a_getpid a_write a_malloc a_free at_ mw jump r table esp0 stack (set_eax 0 c) s a_getpid)
      as (stk & ->); [exact Hroom|apply table_word_in; [done|exact H0]|]. exists stk. unfold call_function.
    rewrite Z.eqb_refl.
    by destruct (sys_getpid s) as [[s' v]| | |].
  - destruct (handler_spec fuel kd a_getpid a_write a_malloc a_free at_ mw jump r table esp0 stack
      (set_eax 1 (set_args arg (ecx c) (edx c) c)) s a_write) as (stk & ->); [exact Hroom|apply table_word_in; [done|exact H1]|].
    exists stk.
    unfold call_function. rewrite !(proj2 (Z.eqb_neq a_write _)), Z.eqb_refl by done.
    match goal with |- context [default 0 (head ?l)] => change (default 0 (head l)) with arg end.
    by destruct (sys_write fuel s arg) as [[s' v]| | |].
  - destruct (handler_spec fuel kd a_getpid a_write a_malloc a_free at_ mw jump r table esp0 stack
      (set_eax 2 (set_args arg (ecx c) (edx c) c)) s a_malloc) as (stk & ->); [exact Hroom|apply table_word_in; [done|exact H2]|].
    exists stk.
    unfold call_function. rewrite !(proj2 (Z.eqb_neq a_malloc _)), Z.eqb_refl by done.
    match goal with |- context [default 0 (head ?l)] => change (default 0 (head l)) with arg end.
    by destruct (do_malloc fuel kd s arg) as [[s' v]| | |].
  - destruct (handler_spec fuel kd a_getpid a_write a_malloc a_free at_ mw jump r table esp0 stack
      (set_eax 3 (set_args arg (ecx c) (edx c) c)) s a_free) as (stk & ->); [exact Hroom|apply table_word_in; [done|exact H3]|].
    exists stk.
    unfold call_function. rewrite !(proj2 (Z.eqb_neq a_free _)), Z.eqb_refl by done.
    match goal with |- context [default 0 (head ?l)] => change (default 0 (head l)) with arg end.
    by destruct (do_free fuel r s arg) as [[s' v]| | |].
Qed.

(** C40. The number of a system call is not checked.  From a user program too, every number reaches a
    word of memory and [syscall_handler] calls what it finds there, with the three arguments: of the number
    only the low 30 bits count, so that 0x40000000 is [sys_getpid] too; the numbers 4 to 31 call address 0; and
    the others whatever word is behind the table, or, because the address wraps around, before it. *)
Theorem syscall_unchecked esp0 stack c s number a b d :
  table_ok → table0 = replicate 32 0 → call_room stack (frame_top c esp0) →
  let n := number mod 0x40000000 in
  ∃ stk, _syscall3 fuel kd a_getpid a_write a_malloc a_free at_ mw jump r table esp0 stack number a b d c s =
    match (if n <? 4 then [a_getpid; a_write; a_malloc; a_free] !! Z.to_nat n
           else if n <? SYSCALL_CNT then Some NULL else mw (u32 (at_ + 4 * n))) with
    | None => Fault
    | Some f =>
        let! (s', v) := call_function fuel kd a_getpid a_write a_malloc a_free jump r f [a; b; d] s in
        Ok (stk v, s', set_eax v (set_args a b d c), v)
    end.
Proof.
  intros Ht H0 Hroom n. destruct (table_lookup Ht) as (T0 & T1 & T2 & T3 & Hrest).
  assert (0 ≤ n < 0x40000000) as Hn by (by apply Z.mod_pos_bound).
  set (c' := set_eax number (set_args a b d c)).
  set (w := if n <? 4 then [a_getpid; a_write; a_malloc; a_free] !! Z.to_nat n
    else if n <? SYSCALL_CNT then Some NULL else mw (u32 (at_ + 4 * n))).
  assert (table_word at_ mw table (eax c') = w) as Ew.
  { subst w. rewrite table_word_eq. change (eax c' mod 0x40000000) with n. unfold SYSCALL_CNT.
    destruct (Z.ltb_spec n 4).
    - assert (n = 0 ∨ n = 1 ∨ n = 2 ∨ n = 3) as [->|[->|[->| ->]]] by lia;
        [change (Z.to_nat 0) with 0%nat|change (Z.to_nat 1) with 1%nat|change (Z.to_nat 2) with 2%nat
        |change (Z.to_nat 3) with 3%nat]; by rewrite ?T0, ?T1, ?T2, ?T3.
    - rewrite Hrest by lia. rewrite H0. destruct (Z.ltb_spec n 32).
      + by rewrite lookup_replicate_2 by lia.
      + by rewrite (lookup_ge_None_2 (replicate 32 0)) by (rewrite length_replicate; lia). }
  unfold _syscall3. fold c'. rewrite <- Ew. destruct (table_word _ _ _ _) as [f|] eqn:E.
  - destruct (handler_spec fuel kd a_getpid a_write a_malloc a_free at_ mw jump r table esp0 stack c' s f)
      as (stk & ->); [exact Hroom|exact E|]. exists stk.
    change [ebx c'; ecx c'; edx c'] with [a; b; d]. by destruct (call_function _ _ _ _ _ _ _ _ f _ s) as [[s' v]| | |].
  - exists (λ _, ∅). by rewrite handler_no_entry.
Qed.
End calls.

(** * The hypotheses can be met *)

(** A kernel whose current task has pid 7, and a stack that ends at 1000. *)
Definition demo_kernel : kernel :=
  Kernel (World (KState ∅ {[ 8192 := TaskStruct 0 TASK_RUNNING 1 7 1 0 [] NULL 0 ]} queue_init 8192 0 true)
    demo_boot_pools unlocked unlocked unlocked 7 8192) (Console unlocked []) (list_to_map [(64, 72); (65, 105); (66, 0)]).
Definition demo_kstack : mem := list_to_map (demo_words 912 (replicate 22 0)).
Definition demo_table : list Z := [100; 200; 300; 400] ++ replicate 28 0.

(** The words around the table are 1, and nothing returns from another address. *)
Definition demo_around (_ : Z) : option Z := Some 1.
Definition demo_jump (_ : Z) (_ : list Z) (_ : kernel) : outcome (kernel * Z) := Fault.

Lemma demo_table_ok : table_ok 100 200 300 400 (replicate 32 0) demo_table.
Proof. split_and!; [by apply (bool_decide_unpack _); vm_compute|done|done]. Qed.

Lemma demo_call_room : call_room demo_kstack 1000.
Proof.
  assert (Forall (λ j, is_Some (demo_kstack !! (1000 - 4 * j))) (seqZ 1 22)) as Hall
    by (apply (bool_decide_unpack _); by vm_compute).
  split; [lia|]. intros j Hj. rewrite Forall_forall in Hall. apply Hall. rewrite elem_of_seqZ. lia.
Qed.

Lemma syscalls_are_calls_witness : ∃ stk stk',
  getpid 5 0 100 200 300 400 4096 demo_around demo_jump 0 demo_table 1000 demo_kstack (demo_cpu 5 0x2b 0x33) demo_kernel =
    Ok (stk, demo_kernel, set_eax 7 (demo_cpu 5 0x2b 0x33), 7) ∧
  write 5 0 100 200 300 400 4096 demo_around demo_jump 0 demo_table 1000 demo_kstack 64 (demo_cpu 5 0x2b 0x33) demo_kernel =
    Ok (stk', Kernel (k_world demo_kernel) (Console unlocked [72; 105]) (k_chars demo_kernel),
      set_eax 2 (set_args 64 16 15 (demo_cpu 5 0x2b 0x33)), 2).
Proof.
  destruct (syscalls_are_calls 5 0 100 200 300 400 4096 demo_around demo_jump 0 (replicate 32 0) demo_table 1000 demo_kstack
    (demo_cpu 5 0x2b 0x33) demo_kernel 64 demo_table_ok demo_call_room) as ((stk & E1) & (stk' & E2) & _).
  exists (stk 7), (stk' 2). split; [rewrite E1|rewrite E2]; reflexivity.
Defined.

Lemma syscall_unchecked_witness : ∃ stk,
  _syscall3 5 0 100 200 300 400 4096 demo_around demo_jump 0 demo_table 1000 demo_kstack 0x40000000 1 2 3
    (demo_cpu 5 0x2b 0x33) demo_kernel = Ok (stk, demo_kernel, set_eax 7 (set_args 1 2 3 (demo_cpu 5 0x2b 0x33)), 7) ∧
  _syscall3 5 0 100 200 300 400 4096 demo_around demo_jump 0 demo_table 1000 demo_kstack 40 1 2 3
    (demo_cpu 5 0x2b 0x33) demo_kernel = Fault.
Proof.
  destruct (syscall_unchecked 5 0 100 200 300 400 4096 demo_around demo_jump 0 (replicate 32 0) demo_table 1000 demo_kstack
    (demo_cpu 5 0x2b 0x33) demo_kernel 0x40000000 1 2 3 demo_table_ok eq_refl demo_call_room) as (stk & E).
  destruct (syscall_unchecked 5 0 100 200 300 400 4096 demo_around demo_jump 0 (replicate 32 0) demo_table 1000 demo_kstack
    (demo_cpu 5 0x2b 0x33) demo_kernel 40 1 2 3 demo_table_ok eq_refl demo_call_room) as (stk' & E').
  exists (stk 7). split; [rewrite E; reflexivity|rewrite E'; reflexivity].
Defined.
