(* ===== verification/Boot.v ===== *)
(** The boot sector and the loader (boot/mbr.S, boot/loader.S): the size of the memory, the
    transfer of the kernel from the disk, the first page tables, and the copying of the
    segments of the kernel to their addresses.  Memory is a function from physical addresses
    to bytes; the BIOS and the disk are parameters. *)
From S2P Require Import Prelude Bitmap Pool PageTable Desc Ide.
Local Open Scope Z_scope.
Local Abbreviation length := List.length.

(** * Constants (boot/include/boot.inc) *)

Definition LOADER_BASE_ADDR : Z := 0x900.
Definition LOADER_START_SECTOR : Z := 2.
Definition KERNEL_BIN_BASE_ADDR : Z := 0x70000.
Definition KERNEL_START_SECTOR : Z := 9.
Definition KERNEL_ENTRY_POINT : Z := 0xc0015000.
Definition KERNEL_STACK_TOP : Z := 0x9f000 + PAGE_OFFEST.
Definition PAGE_DIR_TABLE_POS : Z := 0x1000000.
Definition PG_ATTR : Z := Z.lor (Z.lor PG_US_U PG_RW_W) PG_P_ENABLE.

(** The descriptors: code, data and stack, video. *)
Definition DESC_CODE_HIGH4 : Z :=
  Z.shiftl 0 24 + Z.shiftl 1 23 + Z.shiftl 1 22 + Z.shiftl 0xf 16 + Z.shiftl 1 15 + Z.shiftl 1 12 + Z.shiftl 8 8.
Definition DESC_DATA_HIGH4 : Z :=
  Z.shiftl 0 24 + Z.shiftl 1 23 + Z.shiftl 1 22 + Z.shiftl 0xf 16 + Z.shiftl 1 15 + Z.shiftl 1 12 + Z.shiftl 2 8.
Definition DESC_VIDEO_HIGH4 : Z :=
  Z.shiftl 0 24 + Z.shiftl 1 23 + Z.shiftl 1 22 + Z.shiftl 0 16 + Z.shiftl 1 15 + Z.shiftl 1 12 + Z.shiftl 2 8 + 0x0b.

(** The table at [GDT_BASE], in words of 32 bits, without the 60 free slots. *)
Definition GDT_BASE : Z := LOADER_BASE_ADDR.
Definition loader_gdt : list Z :=
  [0; 0; 0x0000ffff; DESC_CODE_HIGH4; 0x0000ffff; DESC_DATA_HIGH4; 0x80000007; DESC_VIDEO_HIGH4].
Definition GDT_LIMIT : Z := 4 * 8 - 1.

(** The variables of the loader behind the table. *)
Definition total_mem_bytes : Z := GDT_BASE + 4 * 8 + 60 * 8.
Definition gdt_ptr : Z := total_mem_bytes + 4.
Definition ards_buf_size : Z := 244.

(** * Physical memory *)

Abbreviation bytes := (Z → Z).
Definition put8 (m : bytes) (a v : Z) : bytes := λ x, if x =? a then u8 v else m x.
Definition put16 (m : bytes) (a v : Z) : bytes := put8 (put8 m a v) (a + 1) (v / 256).
Definition put32 (m : bytes) (a v : Z) : bytes := put16 (put16 m a v) (a + 2) (v / 65536).
Definition get16 (m : bytes) (a : Z) : Z := m a + 256 * m (a + 1).
Definition get32 (m : bytes) (a : Z) : Z := get16 m a + 65536 * get16 m (a + 2).

(** * The size of the memory *)

(** An address range descriptor of INT 15h, E820h: the fields that are read. *)
Record ards := Ards { base_add_low : Z; length_low : Z }.

(** The answers of the BIOS: E820h for a continuation value, with the next one; E801h with
    AX and BX; 88h with AX.  [None] is the carry flag. *)
Record bios := Bios {
  int15_e820 : Z → option (ards * Z);
  int15_e801 : option (Z * Z);
  int15_88 : option Z
}.

(** [.e820_mem_get_loop]: [None] if a call fails.  The buffer is the list of its descriptors, and
    not part of the memory below; it has room for twelve descriptors
    of 20 bytes; behind it are [ards_nr] and the code of the loader. *)
Fixpoint e820_mem_get_loop (fuel : nat) (b : bios) (ebx : Z) (buf : list ards) : outcome (option (list ards)) :=
  match fuel with
  | O => NoFuel
  | S fuel =>
      match int15_e820 b ebx with
      | None => Ok None
      | Some (a, ebx) =>
          if ards_buf_size <? 20 * Z.of_nat (length buf + 1) then Fault
          else
            let buf := buf ++ [a] in
            if ebx =? 0 then Ok (Some buf) else e820_mem_get_loop fuel b ebx buf
      end
  end.

(** [.find_max_mem_area]; [jge] compares signed numbers. *)
Fixpoint find_max_mem_area (buf : list ards) (edx : Z) : Z :=
  match buf with
  | [] => edx
  | a :: buf =>
      let eax := u32 (base_add_low a + length_low a) in
      find_max_mem_area buf (if s32 eax <=? s32 edx then edx else eax)
  end.

(** [mul] of 16-bit registers: DX and AX. *)
Definition mul16 (a b : Z) : Z * Z := (a * b / 65536, (a * b) mod 65536).

Definition mem_e801 (ax bx : Z) : Z :=
  let (dx, ax) := mul16 (u16 ax) 0x400 in
  let edx := u32 (Z.shiftl dx 16) in
  let eax := Z.land ax 0x0000ffff in
  let edx := Z.lor edx eax in
  let edx := u32 (edx + 0x100000) in
  let esi := edx in
  let eax := u32 (u16 bx * 0x10000) in
  u32 (esi + eax).

Definition mem_88 (ax : Z) : Z :=
  let (dx, ax) := mul16 (u16 ax) 0x400 in
  let edx := u32 (Z.shiftl dx 16) in
  let edx := Z.lor edx ax in
  u32 (edx + 0x100000).

(** From [loader_start] to [.mem_get_ok]; [None]: the processor is stopped. *)
Definition detect_memory (fuel : nat) (b : bios) : outcome (option Z) :=
  let! r := e820_mem_get_loop fuel b 0 [] in
  match r with
  | Some buf => Ok (Some (find_max_mem_area buf 0))
  | None =>
      match int15_e801 b with
      | Some (ax, bx) => Ok (Some (mem_e801 ax bx))
      | None =>
          match int15_88 b with
          | Some ax => Ok (Some (mem_88 ax))
          | None => Ok None
          end
      end
  end.

(** * Reading from the disk *)

(** [loop] with the counter [n] of [2^w] values: it counts down before it tests. *)
Definition loop_count (w n : Z) : nat := Z.to_nat (if n =? 0 then 2 ^ w else n).

Section disk.
Context {D : Type} `{AtaBus D}.

Definition select_sectors (d : D) (lba n : Z) : D :=
  let d := outb d 0x1f2 (u8 n) in
  let d := outb d 0x1f3 (u8 lba) in
  let d := outb d 0x1f4 (u8 (Z.shiftr lba 8)) in
  let d := outb d 0x1f5 (u8 (Z.shiftr lba 16)) in
  let d := outb d 0x1f6 (Z.lor (Z.land (u8 (Z.shiftr lba 24)) 0x0f) 0xe0) in
  outb d 0x1f7 0x20.

Fixpoint not_ready (fuel : nat) (d : D) : outcome D :=
  match fuel with
  | O => NoFuel
  | S fuel =>
      let (d, al) := inb d 0x1f7 in
      if Z.land al 0x88 =? 0x08 then Ok d else not_ready fuel d
  end.

(** [.go_on_read]; [wrap] is [u32], or [u16] where the code uses BX.  [in ax, dx] is the
    transfer of one word. *)
Fixpoint go_on_read (wrap : Z → Z) (n : nat) (d : D) (m : bytes) (ebx : Z) : D * bytes :=
  match n with
  | O => (d, m)
  | S n =>
      let (d, ws) := insw d 0x1f0 1 in
      let m := put16 m ebx (hd 0 ws) in
      go_on_read wrap n d m (wrap (ebx + 2))
  end.

Definition rd_disk_m_32 (fuel : nat) (d : D) (m : bytes) (eax ebx ecx : Z) : outcome (D * bytes) :=
  let di := u16 ecx in
  let d := select_sectors d eax ecx in
  let! d := not_ready fuel d in
  let ecx := ecx / 65536 * 65536 + (di * 256) mod 65536 in
  Ok (go_on_read u32 (loop_count 32 ecx) d m ebx).

Definition rd_disk_m_16 (fuel : nat) (d : D) (m : bytes) (eax bx cx : Z) : outcome (D * bytes) :=
  let d := select_sectors d eax cx in
  let! d := not_ready fuel d in
  let cx := (cx * 256) mod 65536 in
  Ok (go_on_read u16 (loop_count 16 cx) d m bx).

(** boot/mbr.S, without the text on the screen: it goes on at 0x300 in the loader. *)
Definition mbr (fuel : nat) (d : D) (m : bytes) : outcome (D * bytes * Z) :=
  let! (d, m) := rd_disk_m_16 fuel d m LOADER_START_SECTOR LOADER_BASE_ADDR 4 in
  Ok (d, m, LOADER_BASE_ADDR + 0x300).
End disk.

(** * The first page tables *)

Definition setup_page (m : bytes) : bytes :=
  let m := for_range 0 (Z.to_nat 4096) (λ esi m, put8 m (PAGE_DIR_TABLE_POS + esi) 0) m in
  let eax := PAGE_DIR_TABLE_POS + 0x1000 in
  let ebx := eax in
  let eax := Z.lor eax PG_ATTR in
  let m := put32 m (PAGE_DIR_TABLE_POS + 0x0) eax in
  let m := put32 m (PAGE_DIR_TABLE_POS + 0xc00) eax in
  let eax := eax - 0x1000 in
  let m := put32 m (PAGE_DIR_TABLE_POS + 4092) eax in
  let edx := PG_ATTR in
  let m := for_range 0 (Z.to_nat 1024) (λ esi m, put32 m (ebx + 4 * esi) (edx + 4096 * esi)) m in
  let eax := Z.lor (PAGE_DIR_TABLE_POS + 0x2000) PG_ATTR in
  for_range 769 (Z.to_nat 254) (λ esi m, put32 m (PAGE_DIR_TABLE_POS + 4 * esi) (eax + 0x1000 * (esi - 769))) m.

(** * The segments of the kernel *)

(** Accesses with paging on, through the tables at [PAGE_DIR_TABLE_POS]. *)
Definition phys_of (m : bytes) (va : Z) : outcome Z :=
  match translate (get32 m) PAGE_DIR_TABLE_POS va with Some pa => Ok pa | None => Fault end.
Definition vget8 (m : bytes) (va : Z) : outcome Z := let! pa := phys_of m va in Ok (m pa).
Definition vput8 (m : bytes) (va v : Z) : outcome bytes := let! pa := phys_of m va in Ok (put8 m pa v).
Definition vget16 (m : bytes) (va : Z) : outcome Z :=
  let! a := vget8 m va in let! b := vget8 m (u32 (va + 1)) in Ok (a + 256 * b).
Definition vget32 (m : bytes) (va : Z) : outcome Z :=
  let! a := vget16 m va in let! b := vget16 m (u32 (va + 2)) in Ok (a + 65536 * b).

(** [rep movsb]. *)
Fixpoint mem_cpy (n : nat) (m : bytes) (edi esi : Z) : outcome bytes :=
  match n with
  | O => Ok m
  | S n =>
      let! v := vget8 m esi in
      let! m := vput8 m edi v in
      mem_cpy n m (u32 (edi + 1)) (u32 (esi + 1))
  end.

Definition PT_NULL : Z := 0.

(** [.each_segment]: the program headers are [edx] bytes apart. *)
Fixpoint each_segment (n : nat) (m : bytes) (ebx edx : Z) : outcome bytes :=
  match n with
  | O => Ok m
  | S n =>
      let! p_type := vget8 m (u32 (ebx + 0)) in
      let! m :=
        if p_type =? PT_NULL then Ok m
        else
          let! size := vget32 m (u32 (ebx + 16)) in
          let! eax := vget32 m (u32 (ebx + 4)) in
          let eax := u32 (eax + KERNEL_BIN_BASE_ADDR) in
          let! dst := vget32 m (u32 (ebx + 8)) in
          mem_cpy (Z.to_nat size) m dst eax in
      each_segment n m (u32 (ebx + edx)) edx
  end.

Definition kernel_init (m : bytes) : outcome bytes :=
  let! edx := vget16 m (KERNEL_BIN_BASE_ADDR + 42) in
  let! ebx := vget32 m (KERNEL_BIN_BASE_ADDR + 28) in
  let ebx := u32 (ebx + KERNEL_BIN_BASE_ADDR) in
  let! ecx := vget16 m (KERNEL_BIN_BASE_ADDR + 44) in
  each_segment (loop_count 32 ecx) m ebx edx.

(** * The loader *)

(** What the kernel is entered with: the disk, the memory, the registers EIP, ESP and GDTR. *)
Record entry (D : Type) := Entry { e_disk : D; e_memory : bytes; e_eip : Z; e_esp : Z; e_gdtr : Z * Z }.
Arguments Entry {D} _ _ _ _ _.
Arguments e_disk {D} _.
Arguments e_memory {D} _.
Arguments e_eip {D} _.
Arguments e_esp {D} _.
Arguments e_gdtr {D} _.

Section loader.
Context {D : Type} `{AtaBus D}.

(** [p_mode_start]; the stack below [LOADER_STACK_TOP] is not part of the memory. *)
Definition p_mode_start (fuel : nat) (d : D) (m : bytes) : outcome (entry D) :=
  let! (d, m) := rd_disk_m_32 fuel d m KERNEL_START_SECTOR KERNEL_BIN_BASE_ADDR 200 in
  let m := setup_page m in
  let m := put32 (put16 m gdt_ptr GDT_LIMIT) (gdt_ptr + 2) GDT_BASE in
  let ebx := get32 m (gdt_ptr + 2) in
  let m := put32 m (ebx + 0x18 + 4) (Z.lor (get32 m (ebx + 0x18 + 4)) PAGE_OFFEST) in
  let m := put32 m (gdt_ptr + 2) (u32 (get32 m (gdt_ptr + 2) + PAGE_OFFEST)) in
  let gdtr := (get16 m gdt_ptr, get32 m (gdt_ptr + 2)) in
  let! m := kernel_init m in
  Ok (Entry d m KERNEL_ENTRY_POINT KERNEL_STACK_TOP gdtr).

Definition loader (fuel : nat) (b : bios) (d : D) (m : bytes) : outcome (option (entry D)) :=
  let! r := detect_memory fuel b in
  match r with
  | None => Ok None
  | Some edx =>
      let m := put32 m total_mem_bytes edx in
      let! e := p_mode_start fuel d m in
      Ok (Some e)
  end.
End loader.

(** * Lemmas *)

(** ** Bytes and words *)

Lemma put8_eq m a v : put8 m a v a = u8 v.
Proof. unfold put8. by rewrite Z.eqb_refl. Qed.
Lemma put8_ne m a v x : x ≠ a → put8 m a v x = m x.
Proof. intros. unfold put8. by rewrite (proj2 (Z.eqb_neq x a)). Qed.

Lemma put16_out m a v x : x < a ∨ a + 2 ≤ x → put16 m a v x = m x.
Proof. intros. unfold put16. by rewrite !put8_ne by lia. Qed.
Lemma put32_out m a v x : x < a ∨ a + 4 ≤ x → put32 m a v x = m x.
Proof. intros. unfold put32. by rewrite !put16_out by lia. Qed.

(** A word of two memories that agree on its bytes. *)
Lemma get16_agree m m' a : (∀ x, a ≤ x < a + 2 → m x = m' x) → get16 m a = get16 m' a.
Proof. intros E. unfold get16. by rewrite !E by lia. Qed.
Lemma get32_agree m m' a : (∀ x, a ≤ x < a + 4 → m x = m' x) → get32 m a = get32 m' a.
Proof. intros E. unfold get32. by rewrite !(get16_agree m m') by (intros; apply E; lia). Qed.

Lemma get16_put16 m a v : get16 (put16 m a v) a = u16 v.
Proof.
  unfold get16, put16. rewrite put8_eq, put8_ne, put8_eq by lia. unfold u8, u16.
  change 65536 with (256 * 256). rewrite Z.rem_mul_r by lia. lia.
Qed.
Lemma get32_put32 m a v : get32 (put32 m a v) a = u32 v.
Proof.
  unfold get32, put32. rewrite get16_put16.
  rewrite (get16_agree _ (put16 m a v) a) by (intros; apply put16_out; lia). rewrite get16_put16.
  unfold u16, u32. change 4294967296 with (65536 * 65536). rewrite Z.rem_mul_r by lia. lia.
Qed.
Lemma get32_put32_out m a v x : x + 4 ≤ a ∨ a + 4 ≤ x → get32 (put32 m a v) x = get32 m x.
Proof. intros. apply get32_agree. intros y Hy. apply put32_out. lia. Qed.

(** Consecutive words. *)
Lemma fill32_spec lo n base (f : Z → Z) m :
  let m' := for_range lo n (λ i m, put32 m (base + 4 * i) (f i)) m in
  (∀ i, lo ≤ i < lo + Z.of_nat n → get32 m' (base + 4 * i) = u32 (f i)) ∧
  (∀ x, x < base + 4 * lo ∨ base + 4 * (lo + Z.of_nat n) ≤ x → m' x = m x).
Proof.
  intros m'. subst m'.
  assert (let m' := for_range lo n (λ i m, put32 m (base + 4 * i) (f i)) m in
    (∀ i, lo ≤ i < lo + Z.of_nat n → get32 m' (base + 4 * i) = u32 (f i)) ∧
    (∀ x, x < base + 4 * lo ∨ base + 4 * (lo + Z.of_nat n) ≤ x → m' x = m x)) as [? ?]; [|done].
  cbv zeta.
  apply (for_range_inv (λ k m', (∀ i, lo ≤ i < k → get32 m' (base + 4 * i) = u32 (f i)) ∧
    (∀ x, x < base + 4 * lo ∨ base + 4 * k ≤ x → m' x = m x))).
  - split; [lia|done].
  - intros k m1 Hk [H1 H2]. split.
    + intros i Hi. destruct (decide (i = k)) as [->|]; [apply get32_put32|].
      rewrite get32_put32_out by lia. apply H1. lia.
    + intros x Hx. rewrite put32_out by lia. apply H2. lia.
Qed.

Lemma clear8_spec n base m x :
  for_range 0 n (λ i m, put8 m (base + i) 0) m x = clear m base (Z.of_nat n) x.
Proof.
  rewrite <- (Z.add_0_l (Z.of_nat n)). revert x.
  apply (for_range_inv (λ k m', ∀ x, m' x = clear m base k x)).
  - intros x. unfold clear. destruct (Z.leb_spec base x), (Z.ltb_spec x (base + 0)); try done; lia.
  - intros k m1 Hk H1 x. unfold put8. rewrite H1. unfold clear.
    destruct (Z.eqb_spec x (base + k)), (Z.leb_spec base x), (Z.ltb_spec x (base + k)),
      (Z.ltb_spec x (base + (k + 1))); try done; lia.
Qed.

(** ** The size of the memory *)

(** The descriptors that the BIOS gives from a continuation value on. *)
Inductive areas (b : bios) : Z → list ards → Prop :=
  | areas_last ebx a : int15_e820 b ebx = Some (a, 0) → areas b ebx [a]
  | areas_next ebx a ebx' l : int15_e820 b ebx = Some (a, ebx') → ebx' ≠ 0 → areas b ebx' l →
      areas b ebx (a :: l).

Lemma e820_areas b ebx l : areas b ebx l → ∀ fuel buf,
  (length l ≤ fuel)%nat → (length buf + length l ≤ 12)%nat →
  e820_mem_get_loop fuel b ebx buf = Ok (Some (buf ++ l)).
Proof.
  induction 1 as [ebx a E|ebx a ebx' l E Hne _ IH]; intros [|fuel] buf Hf Hl; cbn [length] in Hf, Hl; try lia;
    cbn [e820_mem_get_loop]; rewrite E; unfold ards_buf_size;
    rewrite (proj2 (Z.ltb_ge 244 (20 * Z.of_nat (length buf + 1)))) by lia; [done|].
  rewrite (proj2 (Z.eqb_neq ebx' 0)) by done. rewrite IH by (rewrite ?length_app; cbn [length]; lia).
  by rewrite <- app_assoc.
Qed.

(** [k] descriptors, none of them the last, lead from one continuation value to another. *)
Inductive areas_to (b : bios) : Z → nat → Z → Prop :=
  | areas_to_here ebx : areas_to b ebx 0 ebx
  | areas_to_next ebx a ebx' k e : int15_e820 b ebx = Some (a, ebx') → ebx' ≠ 0 → areas_to b ebx' k e →
      areas_to b ebx (S k) e.

Lemma e820_to b ebx k e : areas_to b ebx k e → ∀ fuel buf, (length buf + k ≤ 12)%nat →
  ∃ l, length l = k ∧
    e820_mem_get_loop (k + fuel) b ebx buf = e820_mem_get_loop fuel b e (buf ++ l).
Proof.
  induction 1 as [ebx|ebx a ebx' k e E Hne _ IH]; intros fuel buf Hl.
  - exists []. by rewrite app_nil_r.
  - destruct (IH fuel (buf ++ [a])) as (l & Hll & Hi); [rewrite length_app; cbn [length]; lia|].
    exists (a :: l). split; [by cbn [length]; f_equal|]. cbn [Nat.add e820_mem_get_loop]. rewrite E. unfold ards_buf_size.
    rewrite (proj2 (Z.ltb_ge 244 (20 * Z.of_nat (length buf + 1)))) by lia.
    rewrite (proj2 (Z.eqb_neq ebx' 0)) by done. by rewrite Hi, <- app_assoc.
Qed.

(** What the loop makes of a call that fails, and of a thirteenth descriptor. *)
Lemma e820_fails b k e fuel : areas_to b 0 k e → (k ≤ 12)%nat → int15_e820 b e = None → (k < fuel)%nat →
  e820_mem_get_loop fuel b 0 [] = Ok None.
Proof.
  intros Hto Hk He Hf. destruct (e820_to b 0 k e Hto (S (fuel - S k)) []) as (l & _ & E); [cbn [length]; lia|].
  replace (k + S (fuel - S k))%nat with fuel in E by lia. rewrite E. cbn [e820_mem_get_loop]. by rewrite He.
Qed.
Lemma e820_overruns b e x fuel : areas_to b 0 12 e → int15_e820 b e = Some x → (12 < fuel)%nat →
  e820_mem_get_loop fuel b 0 [] = Fault.
Proof.
  intros Hto He Hf. destruct (e820_to b 0 12 e Hto (S (fuel - 13)) []) as (l & Hl & E); [cbn [length]; lia|].
  replace (12 + S (fuel - 13))%nat with fuel in E by lia. rewrite E. cbn [e820_mem_get_loop app]. rewrite He.
  destruct x. by rewrite Hl.
Qed.

(** There are no other paths. *)
Lemma e820_paths b : (∃ L, areas b 0 L ∧ (length L ≤ 12)%nat) ∨
  (∃ k e, areas_to b 0 k e ∧ (k ≤ 12)%nat ∧ int15_e820 b e = None) ∨
  (∃ e, areas_to b 0 12 e ∧ is_Some (int15_e820 b e)).
Proof.
  assert (∀ n ebx, (∃ L, areas b ebx L ∧ (length L ≤ n)%nat) ∨
    (∃ k e, areas_to b ebx k e ∧ (k ≤ n)%nat ∧ int15_e820 b e = None) ∨
    (∃ e, areas_to b ebx n e ∧ is_Some (int15_e820 b e))) as H; [|apply H].
  induction n as [|n IH]; intros ebx.
  - right. destruct (int15_e820 b ebx) eqn:E; [right|left; exists 0%nat]; exists ebx; rewrite E;
      split_and?; (done || constructor).
  - destruct (int15_e820 b ebx) as [[a ebx']|] eqn:E.
    2: { right; left. exists 0%nat, ebx. split_and!; [constructor|lia|done]. }
    destruct (decide (ebx' = 0)) as [->|Hne].
    { left. exists [a]. split; [by constructor|cbn [length]; lia]. }
    destruct (IH ebx') as [(L & HL & Hl)|[(k & e & Hto & Hk & He)|(e & Hto & He)]].
    + left. exists (a :: L). split; [by eapply areas_next|cbn [length]; lia].
    + right; left. exists (S k), e. split_and!; [by eapply areas_to_next|lia|done].
    + right; right. exists e. split; [by eapply areas_to_next|done].
Qed.

(** The end of an area, as the loader sees it. *)
Definition area_end (a : ards) : Z := u32 (base_add_low a + length_low a).

Lemma s32_low z : 0 ≤ z < 0x80000000 → s32 z = z.
Proof. intros. apply s32_small. lia. Qed.
Lemma s32_high z : 0x80000000 ≤ z < 0x100000000 → s32 z = z - 0x100000000.
Proof. intros. unfold s32. divlia. Qed.

Lemma find_max_spec l edx : 0 ≤ edx < 0x80000000 →
  let r := find_max_mem_area l edx in
  edx ≤ r < 0x80000000 ∧ (r = edx ∨ r ∈ area_end <$> l) ∧
  (∀ a, a ∈ l → area_end a < 0x80000000 → area_end a ≤ r).
Proof.
  revert edx. induction l as [|a l IH]; intros edx Hedx; cbn [find_max_mem_area].
  { split; [lia|]. split; [by left|]. by intros a ?%elem_of_nil. }
  fold (area_end a). pose proof (u32_range (base_add_low a + length_low a)) as Ha. fold (area_end a) in Ha.
  rewrite (s32_low edx) by done.
  assert (let edx' := if s32 (area_end a) <=? edx then edx else area_end a in
    edx ≤ edx' < 0x80000000 ∧ (edx' = edx ∨ edx' = area_end a) ∧ (area_end a < 0x80000000 → area_end a ≤ edx'))
    as (H1 & H2 & H3).
  { destruct (decide (area_end a < 0x80000000)).
    - rewrite s32_low by lia. destruct (Z.leb_spec (area_end a) edx); cbv zeta; [|lia]. split; [lia|]. split; [by left|lia].
    - rewrite s32_high by lia. rewrite (proj2 (Z.leb_le _ _)) by lia. split; [lia|]. split; [by left|lia]. }
  destruct (IH _ ltac:(exact (conj (Z.le_trans _ _ _ (proj1 Hedx) (proj1 H1)) (proj2 H1)))) as (R1 & R2 & R3).
  split; [lia|]. split.
  - destruct R2 as [->|R2]; [|right; by right]. destruct H2 as [->| ->]; [by left|right; by left].
  - intros a' [->|Ha']%elem_of_cons Hlow; [specialize (H3 Hlow); lia|by apply R3].
Qed.

Lemma lor_shiftl a b n : 0 ≤ n → 0 ≤ b < 2 ^ n → Z.lor (Z.shiftl a n) b = a * 2 ^ n + b.
Proof.
  intros Hn Hb. rewrite <- Z.shiftl_mul_pow2 by done.
  assert (Z.land (Z.shiftl a n) b = 0) as Hl.
  { apply Z.bits_inj_iff'. intros i Hi. rewrite Z.land_spec, Z.bits_0.
    destruct (Z.lt_ge_cases i n) as [Hlt|Hge]; [by rewrite Z.shiftl_spec_low|].
    rewrite <- (Z.mod_small b (2 ^ n)), Z.mod_pow2_bits_high by lia. apply andb_false_r. }
  pose proof (Z.add_lor_land (Z.shiftl a n) b). lia.
Qed.

Lemma mul16_word x : 0 ≤ x < 65536 → let (dx, ax) := mul16 x 0x400 in
  Z.lor (u32 (Z.shiftl dx 16)) (Z.land ax 0xffff) = x * 1024 ∧
  Z.lor (u32 (Z.shiftl dx 16)) ax = x * 1024.
Proof.
  intros Hx. unfold mul16. change 0xffff with (2 ^ 16 - 1). rewrite land_ones_mod by lia.
  change (2 ^ 16) with 65536. rewrite Zmod_mod.
  rewrite u32_small by (rewrite Z.shiftl_mul_pow2 by lia; change (2 ^ 16) with 65536; divlia).
  rewrite lor_shiftl by (try apply Z.mod_pos_bound; lia). change (2 ^ 16) with 65536. divlia.
Qed.

(** What the two older functions give: kilobytes above 1 MB, and 64 kilobytes above 16 MB. *)
Lemma mem_e801_eq ax bx : 0 ≤ ax < 65536 → 0 ≤ bx < 65536 →
  mem_e801 ax bx = u32 (0x100000 + 1024 * ax + 65536 * bx).
Proof.
  intros Ha Hb. unfold mem_e801. rewrite !u16_small by done.
  pose proof (mul16_word ax Ha) as Hm. destruct (mul16 ax 0x400) as [dx ax']. destruct Hm as [-> _].
  rewrite !(u32_small (_ * _)), (u32_small (ax * 1024 + _)) by lia. f_equal. lia.
Qed.
Lemma mem_88_eq ax : 0 ≤ ax < 65536 → mem_88 ax = 0x100000 + 1024 * ax.
Proof.
  intros Ha. unfold mem_88. rewrite u16_small by done.
  pose proof (mul16_word ax Ha) as Hm. destruct (mul16 ax 0x400) as [dx ax']. destruct Hm as [_ ->].
  rewrite u32_small by lia. lia.
Qed.

(** ** The first page tables *)

(** The entry for the frame [f]. *)
Abbreviation present f := (f + kernel_page_mark).

Record tables (m : bytes) : Prop := {
  tb_low : get32 m PAGE_DIR_TABLE_POS = present (PAGE_DIR_TABLE_POS + 0x1000);
  tb_none i : 0 < i < 768 → get32 m (PAGE_DIR_TABLE_POS + 4 * i) = 0;
  tb_high : get32 m (PAGE_DIR_TABLE_POS + 0xc00) = present (PAGE_DIR_TABLE_POS + 0x1000);
  tb_kernel i : 769 ≤ i < 1023 →
    get32 m (PAGE_DIR_TABLE_POS + 4 * i) = present (PAGE_DIR_TABLE_POS + 0x1000 * (i - 767));
  tb_self : get32 m (PAGE_DIR_TABLE_POS + 4092) = present PAGE_DIR_TABLE_POS;
  tb_pages j : 0 ≤ j < 1024 → get32 m (PAGE_DIR_TABLE_POS + 0x1000 + 4 * j) = present (4096 * j)
}.

(** The memory that the tables are in. *)
Definition in_tables (x : Z) : Prop := PAGE_DIR_TABLE_POS ≤ x < PAGE_DIR_TABLE_POS + 0x2000.

Lemma tables_agree m m' : (∀ x, in_tables x → m x = m' x) → tables m → tables m'.
Proof.
  intros E [H1 H2 H3 H4 H5 H6]. unfold in_tables in E.
  assert (∀ a, PAGE_DIR_TABLE_POS ≤ a ≤ PAGE_DIR_TABLE_POS + 0x1ffc → get32 m' a = get32 m a) as Eg.
  { intros a Ha. apply get32_agree. intros x Hx. symmetry. apply E. lia. }
  split; intros; rewrite Eg by lia; auto.
Qed.

Lemma setup_page_spec m :
  tables (setup_page m) ∧ ∀ x, ¬ in_tables x → setup_page m x = m x.
Proof.
  unfold setup_page. set (m0 := for_range 0 (Z.to_nat 4096) _ m).
  assert (∀ x, m0 x = clear m PAGE_DIR_TABLE_POS 4096 x) as H0.
  { intros x. subst m0. rewrite clear8_spec. by rewrite Z2Nat.id by lia. }
  clearbody m0. cbv zeta.
  change (Z.lor (PAGE_DIR_TABLE_POS + 0x1000) PG_ATTR) with (present (PAGE_DIR_TABLE_POS + 0x1000)).
  change (present (PAGE_DIR_TABLE_POS + 0x1000) - 0x1000) with (present PAGE_DIR_TABLE_POS).
  change (Z.lor (PAGE_DIR_TABLE_POS + 0x2000) PG_ATTR) with (present (PAGE_DIR_TABLE_POS + 0x2000)).
  change PG_ATTR with kernel_page_mark.
  set (m1 := put32 (put32 (put32 m0 _ _) _ _) _ _).
  set (m2 := for_range 0 (Z.to_nat 1024) _ m1). set (m3 := for_range 769 _ _ m2).
  destruct (fill32_spec 0 (Z.to_nat 1024) (PAGE_DIR_TABLE_POS + 0x1000) (λ j, kernel_page_mark + 4096 * j) m1)
    as [P1 P2]. fold m2 in P1, P2.
  destruct (fill32_spec 769 (Z.to_nat 254) PAGE_DIR_TABLE_POS
    (λ i, present (PAGE_DIR_TABLE_POS + 0x2000) + 0x1000 * (i - 769)) m2) as [Q1 Q2]. fold m3 in Q1, Q2.
  clearbody m2 m3. rewrite Z2Nat.id in * by lia.
  change PAGE_DIR_TABLE_POS with 0x1000000 in *. change kernel_page_mark with 7 in *. unfold in_tables.
  change PAGE_DIR_TABLE_POS with 0x1000000.
  assert (∀ a, a < 0x1000c04 ∨ 0x1000ffc ≤ a → a + 4 ≤ 0x1000c04 ∨ 0x1000ffc ≤ a → get32 m3 a = get32 m2 a) as R3.
  { intros a Ha Hb. apply get32_agree. intros x Hx. apply Q2. lia. }
  assert (∀ a, a + 4 ≤ 0x1001000 → get32 m2 a = get32 m1 a) as R2.
  { intros a Ha. apply get32_agree. intros x Hx. apply P2. lia. }
  split; [split|].
  - change PAGE_DIR_TABLE_POS with 0x1000000. rewrite R3, R2 by lia. subst m1.
    rewrite !get32_put32_out by lia. by rewrite get32_put32.
  - intros i Hi. change PAGE_DIR_TABLE_POS with 0x1000000. rewrite R3, R2 by lia. subst m1.
    rewrite !get32_put32_out by lia. unfold get32, get16. rewrite !H0. unfold clear.
    by rewrite !(proj2 (Z.leb_le _ _)), !(proj2 (Z.ltb_lt _ _)) by lia.
  - change PAGE_DIR_TABLE_POS with 0x1000000. rewrite R3, R2 by lia. subst m1.
    rewrite get32_put32_out by lia. by rewrite get32_put32.
  - intros i Hi. change PAGE_DIR_TABLE_POS with 0x1000000. rewrite Q1 by lia.
    rewrite u32_small by (change kernel_page_mark with 7; lia). change kernel_page_mark with 7. lia.
  - change PAGE_DIR_TABLE_POS with 0x1000000. rewrite R3, R2 by lia. subst m1. by rewrite get32_put32.
  - intros j Hj. change PAGE_DIR_TABLE_POS with 0x1000000. rewrite R3 by lia.
    change (0x1000000 + 0x1000) with 0x1001000 in *. rewrite P1 by lia.
    rewrite u32_small by lia. change kernel_page_mark with 7. lia.
  - intros x Hx. rewrite Q2, P2 by lia. subst m1. rewrite !put32_out by lia. rewrite H0. unfold clear.
    destruct (Z.leb_spec 0x1000000 x), (Z.ltb_spec x (0x1000000 + 4096)); try done; lia.
Qed.

Lemma boot_walk m va t f :
  0 ≤ t < 4294967296 - 4096 → t mod 4096 = 0 → 0 ≤ f < 4294967296 - 4096 → f mod 4096 = 0 →
  get32 m (PAGE_DIR_TABLE_POS + 4 * (va / 0x400000)) = present t →
  get32 m (t + 4 * (va / PAGE_SIZE mod 1024)) = present f →
  translate (get32 m) PAGE_DIR_TABLE_POS va = Some (f + va mod PAGE_SIZE).
Proof.
  intros Ht Ht' Hf Hf' E1 E2. unfold translate.
  change (Z.land PAGE_DIR_TABLE_POS PAGE_MASK) with PAGE_DIR_TABLE_POS. rewrite E1, entry_present by lia.
  change (1 =? 0) with false. cbv iota. rewrite entry_frame, E2, entry_present by lia.
  change (1 =? 0) with false. cbv iota. by rewrite entry_frame by lia.
Qed.

(** The two windows on the first 4 MB. *)
Definition window (va x : Z) : Prop := 0 ≤ x < 0x400000 ∧ (va = x ∨ va = 0xc0000000 + x).

Lemma translate_window m va x : tables m → window va x →
  translate (get32 m) PAGE_DIR_TABLE_POS va = Some x.
Proof.
  intros Hm [Hx Hva].
  assert (va / 0x400000 = 0 ∨ va / 0x400000 = 768) as Hd by divlia.
  assert (va / PAGE_SIZE mod 1024 = x / 4096 ∧ va mod PAGE_SIZE = x mod 4096) as [Ej Eo]
    by (unfold PAGE_SIZE; divlia).
  rewrite (boot_walk m va (PAGE_DIR_TABLE_POS + 0x1000) (4096 * (x / 4096))).
  - f_equal. rewrite Eo. divlia.
  - by vm_compute.
  - done.
  - divlia.
  - divlia.
  - destruct Hd as [-> | ->]; [apply (tb_low m Hm)|apply (tb_high m Hm)].
  - rewrite Ej. apply (tb_pages m Hm). divlia.
Qed.

(** Nothing between the windows. *)
Lemma translate_none m va : tables m → 0x400000 ≤ va < 0xc0000000 →
  translate (get32 m) PAGE_DIR_TABLE_POS va = None.
Proof.
  intros Hm Hva. unfold translate. change (Z.land PAGE_DIR_TABLE_POS PAGE_MASK) with PAGE_DIR_TABLE_POS.
  by rewrite (tb_none m Hm) by divlia.
Qed.

(** The directory is its own last table. *)
Lemma translate_self m off : tables m → 0 ≤ off < 4096 →
  translate (get32 m) PAGE_DIR_TABLE_POS (0xfffff000 + off) = Some (PAGE_DIR_TABLE_POS + off).
Proof.
  intros Hm Hoff. rewrite (boot_walk m _ PAGE_DIR_TABLE_POS PAGE_DIR_TABLE_POS).
  - f_equal. unfold PAGE_SIZE. divlia.
  - by vm_compute.
  - done.
  - by vm_compute.
  - done.
  - replace ((0xfffff000 + off) / 0x400000) with 1023 by divlia. apply (tb_self m Hm).
  - replace ((0xfffff000 + off) / PAGE_SIZE mod 1024) with 1023 by (unfold PAGE_SIZE; divlia).
    apply (tb_self m Hm).
Qed.

(** ** Reading from the disk *)

(** What any hardware makes of it.  *)
Section port.
Context {D : Type} `{AtaBus D}.

(** The words that [n] readings of the data port give. *)
Fixpoint port_words (n : nat) (d : D) : D * list Z :=
  match n with
  | O => (d, [])
  | S n => let (d, ws) := insw d 0x1f0 1 in let (d, l) := port_words n d in (d, hd 0 ws :: l)
  end.

Lemma length_port_words n d : length (port_words n d).2 = n.
Proof.
  revert d. induction n as [|n IH]; intros d; [done|]. cbn [port_words]. destruct (insw d 0x1f0 1) as [d1 ws].
  pose proof (IH d1) as Hl. destruct (port_words n d1). cbn [snd length] in *. by rewrite Hl.
Qed.

Lemma not_ready_more n fuel d d1 : not_ready n d = Ok d1 → (n ≤ fuel)%nat → not_ready fuel d = Ok d1.
Proof.
  revert fuel d. induction n as [|n IH]; intros [|fuel] d Hn Hf; try done; [lia|]. cbn [not_ready] in *.
  destruct (inb d 0x1f7) as [d' v]. destruct (Z.land v 0x88 =? 8); [done|]. apply IH; [done|lia].
Qed.

(** The bytes of the words go to consecutive addresses. *)
Lemma go_on_read_spec wrap n d m a :
  (∀ x, a ≤ x < a + 2 * Z.of_nat n → wrap x = x) →
  ∃ m', go_on_read wrap n d m a = ((port_words n d).1, m') ∧
    (∀ k b, word_bytes (port_words n d).2 !! k = Some b → m' (a + Z.of_nat k) = b) ∧
    (∀ x, x < a ∨ a + 2 * Z.of_nat n ≤ x → m' x = m x).
Proof.
  revert d m a. induction n as [|n IH]; intros d m a Hwrap.
  { exists m. cbn. split_and!; [done|by intros k b ?|done]. }
  cbn [go_on_read port_words]. destruct (insw d 0x1f0 1) as [d1 l]. set (w := hd 0 l).
  set (m1 := put16 m a w).
  assert (m1 a = w mod 256 ∧ m1 (a + 1) = w / 256 mod 256) as [Hlo Hhi].
  { subst m1. unfold put16. by rewrite put8_ne, !put8_eq by lia. }
  assert (∃ m', go_on_read wrap n d1 m1 (wrap (a + 2)) = ((port_words n d1).1, m') ∧
    (∀ k b, word_bytes (port_words n d1).2 !! k = Some b → m' (a + 2 + Z.of_nat k) = b) ∧
    (∀ x, x < a + 2 ∨ a + 2 + 2 * Z.of_nat n ≤ x → m' x = m1 x)) as (m' & E' & Hw & Hx).
  { destruct n as [|n]; [exists m1; cbn; split_and!; [done|by intros k b ?|done]|].
    rewrite (Hwrap (a + 2)) by lia. apply IH. intros x Hx. apply Hwrap. lia. }
  exists m'. destruct (port_words n d1) as [d' ws]. cbn [fst snd] in *. split; [exact E'|]. split.
  - change (word_bytes (w :: ws)) with (w mod 256 :: w / 256 mod 256 :: word_bytes ws).
    intros [|[|k]] b Hb; cbn in Hb.
    + injection Hb as <-. rewrite Z.add_0_r, Hx by lia. done.
    + injection Hb as <-. rewrite Hx by lia. done.
    + rewrite <- (Hw k b Hb). f_equal. lia.
  - intros x Hx'. rewrite Hx by lia. apply put16_out. lia.
Qed.

(** [rd_disk_m_32] puts at an address what the port gives, once the disk has said that it is ready. *)
Lemma rd_disk_m_32_port f d d1 m lba a n : not_ready f (select_sectors d lba n) = Ok d1 → 0 < n < 256 →
  0 ≤ a → a + 512 * n < 4294967296 →
  ∃ m', (∀ fuel, (f ≤ fuel)%nat →
      rd_disk_m_32 fuel d m lba a n = Ok ((port_words (Z.to_nat (256 * n)) d1).1, m')) ∧
    (∀ k b, word_bytes (port_words (Z.to_nat (256 * n)) d1).2 !! k = Some b → m' (a + Z.of_nat k) = b) ∧
    (∀ x, x < a ∨ a + 512 * n ≤ x → m' x = m x).
Proof.
  intros Hd Hn Ha Ha'. destruct (go_on_read_spec u32 (Z.to_nat (256 * n)) d1 m a) as (m' & E & Hb & Hx).
  { intros x Hx. apply u32_small. lia. }
  exists m'. split; [|split; [done|intros x Hx'; apply Hx; lia]].
  intros fuel Hf. unfold rd_disk_m_32. rewrite (not_ready_more f fuel _ d1) by done. cbn [obind].
  rewrite (u16_small n), Z.div_small, Z.mod_small, Z.mul_0_l, Z.add_0_l by lia.
  unfold loop_count. rewrite (proj2 (Z.eqb_neq (n * 256) 0)) by lia. by rewrite (Z.mul_comm n 256), E.
Qed.

(** [rd_disk_m_16], for an address and a length that do not wrap in 16 bits. *)
Lemma rd_disk_m_16_port f d d1 m lba a n : not_ready f (select_sectors d lba n) = Ok d1 → 0 < n < 256 →
  0 ≤ a → a + 512 * n ≤ 65536 →
  ∃ m', (∀ fuel, (f ≤ fuel)%nat →
      rd_disk_m_16 fuel d m lba a n = Ok ((port_words (Z.to_nat (256 * n)) d1).1, m')) ∧
    (∀ k b, word_bytes (port_words (Z.to_nat (256 * n)) d1).2 !! k = Some b → m' (a + Z.of_nat k) = b) ∧
    (∀ x, x < a ∨ a + 512 * n ≤ x → m' x = m x).
Proof.
  intros Hd Hn Ha Ha'. destruct (go_on_read_spec u16 (Z.to_nat (256 * n)) d1 m a) as (m' & E & Hb & Hx).
  { intros x Hx. apply u16_small. lia. }
  exists m'. split; [|split; [done|intros x Hx'; apply Hx; lia]].
  intros fuel Hf. unfold rd_disk_m_16. rewrite (not_ready_more f fuel _ d1) by done. cbn [obind].
  rewrite Z.mod_small by lia. unfold loop_count. rewrite (proj2 (Z.eqb_neq (n * 256) 0)) by lia.
  by rewrite (Z.mul_comm n 256), E.
Qed.
End port.

(** What an ATA disk promises to a program that polls it, for a disk with the sectors [sector],
    [size] of them, as the
    first drive of the first channel.  The disk is [idle] with its registers; [busy] with a read command, its
    status to be read [n] more times before it has the next sector of the words [ws] that are left; or
    [giving] the words [cur] that are left of one sector, [rest] being those of the sectors behind it.
    After the last word of a sector the disk is busy with the next one; what its data port gives while it
    is busy is not promised. *)
Class PollDisk (D : Type) `{AtaBus D} (sector : Z → list Z) (size : Z) := {
  idle : D → regs → Prop;
  busy : D → nat → list Z → Prop;
  giving : D → list Z → list Z → Prop;
  poll_length lba : length (sector lba) = 256%nat;
  poll_cnt d r v : idle d r → 0 ≤ v < 256 →
    idle (outb d 0x1f2 v) (Regs v (r_l r) (r_m r) (r_h r) (r_dev r));
  poll_l d r v : idle d r → 0 ≤ v < 256 →
    idle (outb d 0x1f3 v) (Regs (r_cnt r) v (r_m r) (r_h r) (r_dev r));
  poll_m d r v : idle d r → 0 ≤ v < 256 →
    idle (outb d 0x1f4 v) (Regs (r_cnt r) (r_l r) v (r_h r) (r_dev r));
  poll_h d r v : idle d r → 0 ≤ v < 256 →
    idle (outb d 0x1f5 v) (Regs (r_cnt r) (r_l r) (r_m r) v (r_dev r));
  poll_dev d r v : idle d r → 0 ≤ v < 256 →
    idle (outb d 0x1f6 v) (Regs (r_cnt r) (r_l r) (r_m r) (r_h r) v);
  poll_read d r : idle d r → lba_mode r → drive_of r = 0 → lba_of r + count_of r ≤ size →
    ∃ n, busy (outb d 0x1f7 0x20) n (sectors sector (lba_of r) (count_of r));
  poll_busy d n ws : busy d (S n) ws → ∃ d' v, inb d 0x1f7 = (d', v) ∧ Z.land v 0x88 ≠ 0x08 ∧ busy d' n ws;
  poll_done d ws : busy d 0 ws → ∃ d' v, inb d 0x1f7 = (d', v) ∧ Z.land v 0x88 = 0x08 ∧
    giving d' (take 256 ws) (drop 256 ws);
  poll_word d w cur rest : giving d (w :: cur) rest → ∃ d', insw d 0x1f0 1 = (d', [w]) ∧
    (cur ≠ [] → giving d' cur rest) ∧ (cur = [] → rest ≠ [] → ∃ n, busy d' n rest)
}.

(** A disk that keeps up with the loader: it has the next sector as soon as the last word of one is
    taken.  The emulated disks behave in this way; ATA does not promise it. *)
Definition keeps_up (D : Type) (sector : Z → list Z) (size : Z) `{PollDisk D sector size} : Prop :=
  ∀ d w rest, giving d [w] rest → rest ≠ [] → ∃ d', insw d 0x1f0 1 = (d', [w]) ∧
    giving d' (take 256 rest) (drop 256 rest).

Section polling.
Context {D : Type} (sector : Z → list Z) (size : Z) `{PollDisk D sector size}.

Lemma not_ready_spec n d ws fuel : busy d n ws → (n < fuel)%nat →
  ∃ d', not_ready fuel d = Ok d' ∧ giving d' (take 256 ws) (drop 256 ws).
Proof.
  revert d fuel. induction n as [|n IH]; intros d [|fuel] Hd Hf; try lia; cbn [not_ready].
  - destruct (poll_done d ws Hd) as (d' & v & -> & -> & Hd'). by eexists.
  - destruct (poll_busy d n ws Hd) as (d' & v & -> & Hv & Hd'). rewrite (proj2 (Z.eqb_neq _ _)) by done.
    apply IH; [done|lia].
Qed.

(** The words of one sector come first, whatever is read behind them. *)
Lemma port_words_first cur rest d n : giving d cur rest →
  take (length cur) (port_words (length cur + n) d).2 = cur.
Proof.
  revert d. induction cur as [|w cur IH]; intros d Hd; [done|]. cbn [length Nat.add port_words].
  destruct (poll_word d w cur rest Hd) as (d' & -> & Hnext & _). cbn [hd].
  destruct cur as [|w2 cur]; [by destruct (port_words _ d')|]. pose proof (IH d' (Hnext ltac:(done))) as E.
  destruct (port_words _ d') as [d2 l]. cbn [snd] in *. cbn [take]. by rewrite E.
Qed.

(** On a disk that keeps up all of them come. *)
Lemma port_words_all (Hup : keeps_up D sector size) n ws cur rest d : length ws = n → giving d cur rest → cur ++ rest = ws → cur ≠ [] →
  (port_words n d).2 = ws.
Proof.
  intros <-. revert cur rest d. induction ws as [|w ws IH]; intros cur rest d Hd E Hc.
  { by apply app_eq_nil in E as [-> _]. }
  destruct cur as [|w' cur]; [done|]. injection E as -> E. cbn [length port_words].
  destruct cur as [|w2 cur].
  - cbn [app] in E. subst rest. destruct (decide (ws = [])) as [->|Hne].
    { destruct (poll_word d w [] [] Hd) as (d' & -> & _). done. }
    destruct (Hup d w ws Hd Hne) as (d' & -> & Hd'). cbn [hd].
    pose proof (IH _ _ d' Hd' (take_drop 256 ws)) as E. destruct ws as [|w3 ws]; [done|].
    specialize (E ltac:(done)). destruct (port_words _ d'). cbn [snd] in *. by rewrite E.
  - destruct (poll_word d w (w2 :: cur) rest Hd) as (d' & -> & Hnext & _). cbn [hd].
    pose proof (IH _ _ d' (Hnext ltac:(done)) E ltac:(done)) as E'.
    destruct (port_words _ d'). cbn [snd] in *. by rewrite E'.
Qed.

(** The device register with an address: LBA mode, the first drive. *)
Lemma dev_lba q : 0 ≤ q < 16 → Z.land (0xe0 + q) 0xe0 = 0xe0 ∧ Z.testbit (0xe0 + q) 4 = false.
Proof.
  intros Hq. assert (q ∈ seqZ 0 16) as Hin by (apply elem_of_seqZ; lia). clear Hq. revert q Hin.
  apply Forall_forall. apply (bool_decide_unpack _). by vm_compute.
Qed.

(** The registers when the command is given. *)
Lemma select_sectors_spec d r lba n : idle d r → 0 ≤ lba < 0x10000000 → 0 < n ≤ 256 → lba + n ≤ size →
  ∃ k, busy (select_sectors d lba n) k (sectors sector lba n).
Proof.
  intros Hd Hlba Hn Hsize. unfold select_sectors.
  assert (∀ v, 0 ≤ u8 v < 256) as Hu by apply u8_range.
  apply (poll_cnt _ _ (u8 n)) in Hd; [|done]. apply (poll_l _ _ (u8 lba)) in Hd; [|done].
  apply (poll_m _ _ (u8 (Z.shiftr lba 8))) in Hd; [|done]. apply (poll_h _ _ (u8 (Z.shiftr lba 16))) in Hd; [|done].
  rewrite !Z.shiftr_div_pow2 in * by lia.
  assert (Z.lor (Z.land (u8 (lba / 2 ^ 24)) 0x0f) 0xe0 = 0xe0 + lba / 16777216) as Edev.
  { change 0x0f with (2 ^ 4 - 1). rewrite land_ones_mod by lia. change (2 ^ 24) with 16777216.
    rewrite (u8_small (lba / 16777216)) by divlia. change (2 ^ 4) with 16.
    rewrite Z.mod_small by divlia. rewrite Z.lor_comm. change 0xe0 with (Z.shiftl 14 4) at 1.
    rewrite lor_shiftl by (try change (2 ^ 4) with 16; try divlia; lia). lia. }
  rewrite Edev. apply (poll_dev _ _ (0xe0 + lba / 16777216)) in Hd; [|divlia].
  cbn [r_cnt r_l r_m r_h r_dev] in Hd. unfold u8 in Hd.
  set (q := lba / 16777216) in *. assert (0 ≤ q < 16) as Hq by (subst q; divlia).
  destruct (dev_lba q Hq) as [Hmode Hdrive]. change (2 ^ 8) with 256 in Hd. change (2 ^ 16) with 65536 in Hd.
  set (r' := Regs (n mod 256) (lba mod 256) (lba / 256 mod 256) (lba / 65536 mod 256) (0xe0 + q)) in Hd.
  assert (lba_of r' = lba) as El.
  { unfold lba_of, r'. cbn [r_l r_m r_h r_dev]. subst q. divlia. }
  assert (count_of r' = n) as Ec.
  { unfold count_of, r'. cbn [r_cnt]. destruct (Z.eqb_spec (n mod 256) 0); divlia. }
  destruct (poll_read _ _ Hd) as (k & Hk); [exact Hmode|unfold drive_of, r'; cbn [r_dev]; by rewrite Hdrive|by rewrite El, Ec|].
  rewrite El, Ec in Hk. by exists k.
Qed.
Lemma length_disk_sectors lba n : 0 ≤ n → length (sectors sector lba n) = Z.to_nat (256 * n).
Proof. apply length_sectors. apply poll_length. Qed.

(** The polling ends, and leaves the disk with the words of the sectors. *)
Lemma polling_ends d r lba n : idle d r → 0 ≤ lba < 0x10000000 → 0 < n ≤ 256 → lba + n ≤ size →
  ∃ k d1, (∀ fuel, (k < fuel)%nat → not_ready fuel (select_sectors d lba n) = Ok d1) ∧
    take 256 (port_words (Z.to_nat (256 * n)) d1).2 = sector lba ∧
    (keeps_up D sector size → (port_words (Z.to_nat (256 * n)) d1).2 = sectors sector lba n).
Proof.
  intros Hd Hlba Hn Hsize. destruct (select_sectors_spec d r lba n Hd Hlba Hn Hsize) as (k & Hk).
  destruct (not_ready_spec k _ _ (S k) Hk) as (d1 & E & Hd1); [lia|]. exists k, d1.
  pose proof (length_disk_sectors lba n ltac:(lia)) as Hlen.
  assert (take 256 (sectors sector lba n) = sector lba) as Efirst.
  { replace n with (1 + (n - 1)) by lia. rewrite sectors_app by lia. unfold sectors at 1.
    change (seqZ lba 1) with [lba]. cbn [mbind list_bind]. rewrite app_nil_r. by rewrite take_app_length' by (by rewrite poll_length). }
  split_and!.
  - intros fuel Hf. apply (not_ready_more (S k)); [done|lia].
  - pose proof (port_words_first _ _ d1 (Z.to_nat (256 * n) - 256) Hd1) as Ew. rewrite Efirst, poll_length in Ew.
    by replace (256 + (Z.to_nat (256 * n) - 256))%nat with (Z.to_nat (256 * n)) in Ew by lia.
  - intros Hup. apply (port_words_all Hup _ _ _ _ d1 Hlen Hd1 (take_drop _ _)). rewrite Efirst.
    intros E0. pose proof (poll_length lba) as Hl. by rewrite E0 in Hl.
Qed.
End polling.

(** ** The segments of the kernel *)

(** [n] bytes at the virtual address [va], which are at [x]. *)
Definition span (va x n : Z) : Prop := 0 ≤ x ∧ x + n ≤ 0x400000 ∧ (va = x ∨ va = 0xc0000000 + x).

Lemma span_window va x n k : span va x n → 0 ≤ k < n → window (va + k) (x + k) ∧ u32 (va + k) = va + k.
Proof. intros (Hx & Hn & Hva) Hk. split; [split; lia|apply u32_small; lia]. Qed.

Section paging.
Context (m : bytes) (Hm : tables m).

Lemma vget8_window va x : window va x → vget8 m va = Ok (m x).
Proof using Hm. intros Hw. unfold vget8, phys_of. by rewrite (translate_window m va x Hm Hw). Qed.
Lemma vput8_window va x v : window va x → vput8 m va v = Ok (put8 m x v).
Proof using Hm. intros Hw. unfold vput8, phys_of. by rewrite (translate_window m va x Hm Hw). Qed.

Lemma vget8_span va x n k : span va x n → 0 ≤ k < n → vget8 m (u32 (va + k)) = Ok (m (x + k)).
Proof using Hm. intros Hs Hk. destruct (span_window va x n k Hs Hk) as [Hw ->]. by apply vget8_window. Qed.

Lemma vget16_span va x n k : span va x n → 0 ≤ k → k + 2 ≤ n → vget16 m (u32 (va + k)) = Ok (get16 m (x + k)).
Proof using Hm.
  intros Hs Hk Hn. unfold vget16. rewrite (vget8_span va x n k Hs) by lia. cbn [obind].
  rewrite u32_add_u32, <- Z.add_assoc, (vget8_span va x n (k + 1) Hs) by lia. cbn [obind].
  unfold get16. by rewrite Z.add_assoc.
Qed.
Lemma vget32_span va x n k : span va x n → 0 ≤ k → k + 4 ≤ n → vget32 m (u32 (va + k)) = Ok (get32 m (x + k)).
Proof using Hm.
  intros Hs Hk Hn. unfold vget32. rewrite (vget16_span va x n k Hs) by lia. cbn [obind].
  rewrite u32_add_u32, <- Z.add_assoc, (vget16_span va x n (k + 2) Hs) by lia. cbn [obind].
  unfold get32. by rewrite Z.add_assoc.
Qed.
End paging.

(** [n] bytes copied from [y] to [x]. *)
Definition copied (m : bytes) (x y n : Z) : bytes :=
  λ a, if (x <=? a) && (a <? x + n) then u8 (m (y + (a - x))) else m a.

Lemma mem_cpy_spec n m dst x src y : tables m → span dst x (Z.of_nat n) → span src y (Z.of_nat n) →
  x + Z.of_nat n ≤ y ∨ y + Z.of_nat n ≤ x →
  ∃ m', mem_cpy n m dst src = Ok m' ∧ ∀ a, m' a = copied m x y (Z.of_nat n) a.
Proof.
  revert m dst x src y. induction n as [|n IH]; intros m dst x src y Hm Hd Hs Hdis; cbn [mem_cpy].
  { exists m. split; [done|]. intros a. unfold copied. destruct (Z.leb_spec x a), (Z.ltb_spec a (x + Z.of_nat 0)); try done; lia. }
  destruct (span_window dst x _ 0 Hd) as [Hw _]; [lia|]. destruct (span_window src y _ 0 Hs) as [Hr _]; [lia|].
  rewrite !Z.add_0_r in Hw, Hr. rewrite (vget8_window m Hm src y Hr). cbn [obind].
  rewrite (vput8_window m Hm dst x _ Hw). cbn [obind].
  assert (tables (put8 m x (m y))) as Hm1.
  { apply (tables_agree m); [|done]. intros z Hz. rewrite put8_ne; [done|]. destruct Hw as [Hx _].
    unfold in_tables in Hz. change PAGE_DIR_TABLE_POS with 0x1000000 in Hz. lia. }
  destruct (decide (n = 0%nat)) as [->|Hn].
  { exists (put8 m x (m y)). split; [done|]. intros a. unfold copied, put8.
    destruct (Z.eqb_spec a x), (Z.leb_spec x a), (Z.ltb_spec a (x + Z.of_nat 1)); cbn [andb]; try done; try lia.
    do 2 f_equal. lia. }
  destruct (span_window dst x _ 1 Hd) as [_ ->]; [lia|]. destruct (span_window src y _ 1 Hs) as [_ ->]; [lia|].
  destruct (IH _ (dst + 1) (x + 1) (src + 1) (y + 1) Hm1) as (m' & E & Hm'); [unfold span in *; lia..|].
  exists m'. split; [exact E|]. intros a. rewrite Hm'. unfold copied, put8.
  destruct (Z.leb_spec (x + 1) a), (Z.ltb_spec a (x + 1 + Z.of_nat n)), (Z.leb_spec x a),
    (Z.ltb_spec a (x + Z.of_nat (S n))); cbn [andb]; try lia.
  all: destruct (Z.eqb_spec (y + 1 + (a - (x + 1))) x), (Z.eqb_spec a x); try lia; try done.
  all: do 2 f_equal; lia.
Qed.

(** A program header of the file. *)
Record phdr := Phdr { ph_type : Z; ph_offset : Z; ph_vaddr : Z; ph_filesz : Z }.
Definition phdr_at (img : bytes) (o : Z) : phdr :=
  Phdr (img o) (get32 img (o + 4)) (get32 img (o + 8)) (get32 img (o + 16)).
Fixpoint headers (img : bytes) (o size : Z) (n : nat) : list phdr :=
  match n with O => [] | S n => phdr_at img o :: headers img (o + size) size n end.

(** The physical address of a segment, its bytes, and what loading it should do. *)
Definition dest (h : phdr) : Z := if 0xc0000000 <=? ph_vaddr h then ph_vaddr h - 0xc0000000 else ph_vaddr h.
Definition in_segment (h : phdr) (a : Z) : bool :=
  negb (ph_type h =? PT_NULL) && (dest h <=? a) && (a <? dest h + ph_filesz h).
Definition load_segment (img : bytes) (m : bytes) (h : phdr) : bytes :=
  λ a, if in_segment h a then img (ph_offset h + (a - dest h)) else m a.

(** The file as far as it was read. *)
Definition IMAGE_SIZE : Z := 200 * 512.
(** A segment that the loader can load: from that part of the file, and to the first 4 MB,
    above the loader and outside the file. *)
Definition loadable (h : phdr) : Prop :=
  ph_type h ≠ PT_NULL → 0 ≤ ph_offset h ∧ 0 ≤ ph_filesz h ∧ ph_offset h + ph_filesz h ≤ IMAGE_SIZE ∧
    0x1100 ≤ dest h ∧ dest h + ph_filesz h ≤ 0x400000 ∧
    (dest h + ph_filesz h ≤ KERNEL_BIN_BASE_ADDR ∨ KERNEL_BIN_BASE_ADDR + IMAGE_SIZE ≤ dest h).

Lemma in_segment_spec h a : in_segment h a = true ↔ ph_type h ≠ PT_NULL ∧ dest h ≤ a < dest h + ph_filesz h.
Proof.
  unfold in_segment. rewrite !andb_true_iff, negb_true_iff, Z.eqb_neq, Z.leb_le, Z.ltb_lt. tauto.
Qed.

(** The reference: loading all segments, one after the other. *)
Abbreviation load_segments img m hs := (foldl (load_segment img) m hs).

Lemma load_segments_ext img hs m1 m2 : (∀ a, m1 a = m2 a) → ∀ a, load_segments img m1 hs a = load_segments img m2 hs a.
Proof.
  revert m1 m2. induction hs as [|h hs IH]; intros m1 m2 E; [done|]. cbn [foldl]. apply IH.
  intros a. unfold load_segment. by rewrite E.
Qed.

Lemma load_segments_out img hs m a : (∀ h, h ∈ hs → in_segment h a = false) → load_segments img m hs a = m a.
Proof.
  revert m. induction hs as [|h hs IH]; intros m Hout; [done|]. cbn [foldl].
  rewrite IH by (intros h' Hh'; apply Hout; by right). unfold load_segment. by rewrite Hout by left.
Qed.

Lemma load_segments_in img hs m i h a : hs !! i = Some h → in_segment h a = true →
  (∀ j h', hs !! j = Some h' → j ≠ i → in_segment h' a = false) →
  load_segments img m hs a = img (ph_offset h + (a - dest h)).
Proof.
  intros Hi Ha Hother. rewrite <- (take_drop_middle hs i h Hi), foldl_app. cbn [foldl].
  rewrite load_segments_out; [unfold load_segment; by rewrite Ha|].
  intros h' (j & Hj)%list_elem_of_lookup. rewrite lookup_drop in Hj. apply (Hother (S i + j)%nat); [done|lia].
Qed.

Section segments.
Context (img : bytes) (Himg : ∀ k, 0 ≤ img k < 256).

Definition image_in (m : bytes) : Prop := ∀ k, 0 ≤ k < IMAGE_SIZE → m (KERNEL_BIN_BASE_ADDR + k) = img k.

Lemma get32_range o : 0 ≤ get32 img o < 4294967296.
Proof using Himg.
  unfold get32, get16. pose proof (Himg o). pose proof (Himg (o + 1)). pose proof (Himg (o + 2)).
  pose proof (Himg (o + 2 + 1)). lia.
Qed.
Lemma get16_range o : 0 ≤ get16 img o < 65536.
Proof using Himg. unfold get16. pose proof (Himg o). pose proof (Himg (o + 1)). lia. Qed.

Lemma image_get32 m k : image_in m → 0 ≤ k → k + 4 ≤ IMAGE_SIZE → get32 m (KERNEL_BIN_BASE_ADDR + k) = get32 img k.
Proof using.
  intros Hm H0 Hk. unfold get32, get16. rewrite <- !Z.add_assoc, !Hm by lia. done.
Qed.
Lemma image_get16 m k : image_in m → 0 ≤ k → k + 2 ≤ IMAGE_SIZE → get16 m (KERNEL_BIN_BASE_ADDR + k) = get16 img k.
Proof using. intros Hm H0 Hk. unfold get16. rewrite <- !Z.add_assoc, !Hm by lia. done. Qed.

(** The file in the first window. *)
Lemma image_span : span KERNEL_BIN_BASE_ADDR KERNEL_BIN_BASE_ADDR IMAGE_SIZE.
Proof using. split; [done|]. split; [done|by left]. Qed.

(** A segment keeps the tables and the file. *)
Lemma load_segment_keeps m h : loadable h → tables m → image_in m →
  tables (load_segment img m h) ∧ image_in (load_segment img m h).
Proof using.
  intros Hh Hm Hi.
  assert (∀ a, in_segment h a = true → 0x1100 ≤ a < 0x400000 ∧ (a < KERNEL_BIN_BASE_ADDR ∨ KERNEL_BIN_BASE_ADDR + IMAGE_SIZE ≤ a))
    as Hin by (intros a (Ht & Ha)%in_segment_spec; destruct (Hh Ht) as (?&?&?&?&?&?); lia).
  split.
  - apply (tables_agree m); [|done]. intros x Hx. unfold load_segment. destruct (in_segment h x) eqn:E; [|done].
    apply Hin in E. unfold in_tables in Hx. change PAGE_DIR_TABLE_POS with 0x1000000 in Hx. lia.
  - intros k Hk. unfold load_segment. destruct (in_segment h _) eqn:E; [apply Hin in E; lia|by apply Hi].
Qed.

Lemma mem_cpy_loads m h : loadable h → ph_type h ≠ PT_NULL → 0 ≤ ph_vaddr h < 4294967296 → tables m → image_in m →
  ∃ m', mem_cpy (Z.to_nat (ph_filesz h)) m (ph_vaddr h) (u32 (ph_offset h + KERNEL_BIN_BASE_ADDR)) = Ok m' ∧
    ∀ a, m' a = load_segment img m h a.
Proof using Himg.
  intros Hh Ht Hva Hm Hi. destruct (Hh Ht) as (Ho & Hz & Hoz & Hd & Hdz & Hdis).
  assert (IMAGE_SIZE = 102400) as Esz by done. assert (KERNEL_BIN_BASE_ADDR = 0x70000) as Eb by done.
  rewrite u32_small by lia.
  destruct (mem_cpy_spec (Z.to_nat (ph_filesz h)) m (ph_vaddr h) (dest h)
    (ph_offset h + KERNEL_BIN_BASE_ADDR) (ph_offset h + KERNEL_BIN_BASE_ADDR) Hm) as (m' & E & Hm').
  - rewrite Z2Nat.id by done. unfold span. split; [lia|]. split; [lia|].
    unfold dest in *. destruct (Z.leb_spec 0xc0000000 (ph_vaddr h)); [right; lia|by left].
  - rewrite Z2Nat.id by done. split; [lia|]. split; [lia|by left].
  - lia.
  - exists m'. split; [exact E|]. intros a. rewrite Hm', Z2Nat.id by done. unfold copied, load_segment, in_segment.
    rewrite (proj2 (Z.eqb_neq (ph_type h) PT_NULL)) by done. cbn [negb andb].
    destruct (Z.leb_spec (dest h) a), (Z.ltb_spec a (dest h + ph_filesz h)); cbn [andb]; try done.
    replace (ph_offset h + KERNEL_BIN_BASE_ADDR + (a - dest h))
      with (KERNEL_BIN_BASE_ADDR + (ph_offset h + (a - dest h))) by lia.
    rewrite Hi by lia. apply u8_small, Himg.
Qed.

Lemma each_segment_spec n m o sz : 0 ≤ o → 0 ≤ sz < 65536 → tables m → image_in m →
  (∀ i, 0 ≤ i < Z.of_nat n → o + i * sz + 20 ≤ IMAGE_SIZE) → Forall loadable (headers img o sz n) →
  ∃ m', each_segment n m (KERNEL_BIN_BASE_ADDR + o) sz = Ok m' ∧ tables m' ∧ image_in m' ∧
    ∀ a, m' a = load_segments img m (headers img o sz n) a.
Proof using Himg.
  revert m o. induction n as [|n IH]; intros m o Ho Hsz Hm Hi Hin Hl; cbn [each_segment headers].
  { exists m. done. }
  assert (IMAGE_SIZE = 102400) as Esz by done. assert (KERNEL_BIN_BASE_ADDR = 0x70000) as Eb by done.
  pose proof (Hin 0 ltac:(lia)) as Ho20. cbn [headers] in Hl. apply Forall_cons in Hl as [Hh Hl].
  assert (∀ k, u32 (KERNEL_BIN_BASE_ADDR + o + k) = u32 (KERNEL_BIN_BASE_ADDR + (o + k))) as Ea
    by (intros k; f_equal; lia).
  rewrite !Ea, (vget8_span m Hm _ _ _ (o + 0) image_span), Hi, Z.add_0_r by lia. cbn [obind].
  set (h := phdr_at img o) in *.
  assert (∃ m1, (if img o =? PT_NULL then Ok m else
      let! size := vget32 m (u32 (KERNEL_BIN_BASE_ADDR + (o + 16))) in
      let! eax := vget32 m (u32 (KERNEL_BIN_BASE_ADDR + (o + 4))) in
      let! dst := vget32 m (u32 (KERNEL_BIN_BASE_ADDR + (o + 8))) in
      mem_cpy (Z.to_nat size) m dst (u32 (eax + KERNEL_BIN_BASE_ADDR))) = Ok m1 ∧ ∀ a, m1 a = load_segment img m h a) as (m1 & E1 & Hm1).
  { destruct (Z.eqb_spec (img o) PT_NULL) as [Ht|Ht].
    - exists m. split; [done|]. intros a. unfold load_segment, in_segment. change (ph_type h) with (img o).
      by rewrite (proj2 (Z.eqb_eq _ _) Ht).
    - rewrite !(vget32_span m Hm _ _ _ _ image_span), !(image_get32 m _ Hi) by lia. cbn [obind].
      apply (mem_cpy_loads m h); [done|done|apply get32_range|done|done]. }
  rewrite E1. cbn [obind].
  destruct (load_segment_keeps m h Hh Hm Hi) as [Hm2 Hi2].
  assert (tables m1) as Hm3 by (apply (tables_agree (load_segment img m h)); [intros; symmetry; apply Hm1|done]).
  assert (image_in m1) as Hi3 by (intros k Hk; rewrite Hm1; by apply Hi2).
  rewrite u32_small by lia.
  destruct (IH m1 (o + sz)) as (m' & E' & Ht' & Hi' & Hm'); [lia|done|done|done| |done|].
  { intros i Hi4. specialize (Hin (i + 1) ltac:(lia)). lia. }
  exists m'. split; [exact E'|]. split; [done|]. split; [done|]. intros a. rewrite Hm'.
  cbn [foldl]. by apply load_segments_ext.
Qed.

(** What the code relies on in the header of the file. *)
Definition program_headers : list phdr :=
  headers img (get32 img 28) (get16 img 42) (Z.to_nat (get16 img 44)).
Record elf_ok : Prop := {
  elf_some : get16 img 44 ≠ 0;
  elf_size : get32 img 28 + (get16 img 44 - 1) * get16 img 42 + 20 ≤ IMAGE_SIZE;
  elf_loadable : Forall loadable program_headers
}.

Lemma kernel_init_spec m : elf_ok → tables m → image_in m →
  ∃ m', kernel_init m = Ok m' ∧ tables m' ∧ ∀ a, m' a = load_segments img m program_headers a.
Proof using Himg.
  intros [Hn Hsize Hl] Hm Hi.
  assert (IMAGE_SIZE = 102400) as Esz by done. assert (KERNEL_BIN_BASE_ADDR = 0x70000) as Eb by done.
  pose proof (get32_range 28) as Ho. pose proof (get16_range 42) as Hz. pose proof (get16_range 44) as Hc.
  unfold kernel_init. 
  assert (∀ k, 0 ≤ k → k + 2 ≤ IMAGE_SIZE → vget16 m (KERNEL_BIN_BASE_ADDR + k) = Ok (get16 img k)) as E16.
  { intros k H0 Hk. rewrite <- (u32_small (KERNEL_BIN_BASE_ADDR + k)) by lia.
    rewrite (vget16_span m Hm _ _ _ _ image_span) by lia. by rewrite image_get16. }
  rewrite !E16 by lia. cbn [obind].
  rewrite <- (u32_small (KERNEL_BIN_BASE_ADDR + 28)) by lia.
  rewrite (vget32_span m Hm _ _ _ _ image_span), (image_get32 m _ Hi) by lia. cbn [obind].
  unfold loop_count. rewrite (proj2 (Z.eqb_neq _ 0)) by done.
  assert (0 ≤ (get16 img 44 - 1) * get16 img 42) by nia.
  rewrite u32_small, (Z.add_comm (get32 img 28)) by lia.
  destruct (each_segment_spec (Z.to_nat (get16 img 44)) m (get32 img 28) (get16 img 42)) as (m' & E & Ht & _ & Hm');
    [lia|done|done|done| |exact Hl|].
  - intros i Hi'. assert (i * get16 img 42 ≤ (get16 img 44 - 1) * get16 img 42) by (apply Z.mul_le_mono_nonneg_r; lia). lia.
  - exists m'. split; [exact E|]. split; [done|exact Hm'].
Qed.
End segments.

(** ** The loader *)

Lemma put32_byte m a v j : 0 ≤ j < 4 → put32 m a v (a + j) = u8 (Z.shiftr v (8 * j)).
Proof.
  intros Hj. assert (j = 0 ∨ j = 1 ∨ j = 2 ∨ j = 3) as [->|[->|[->| ->]]] by lia;
    rewrite Z.shiftr_div_pow2 by lia; unfold put32, put16;
    repeat first [rewrite Z.add_0_r | rewrite <- Z.add_assoc | rewrite put8_eq | rewrite put8_ne by lia].
  - by rewrite Z.div_1_r.
  - done.
  - done.
  - rewrite Z.div_div by lia. done.
Qed.

(** The bytes of words. *)
Definition long_bytes (ws : list Z) : list Z :=
  ws ≫= λ w, [u8 w; u8 (Z.shiftr w 8); u8 (Z.shiftr w 16); u8 (Z.shiftr w 24)].

(** The descriptor that the processor finds at an address. *)
Definition desc_at (m : bytes) (a : Z) : gdt_desc :=
  GdtDesc (get16 m a) (get16 m (a + 2)) (m (a + 4)) (m (a + 5)) (m (a + 6)) (m (a + 7)).

Lemma desc_at_agree m m' a : (∀ x, a ≤ x < a + 8 → m x = m' x) → desc_at m a = desc_at m' a.
Proof. intros E. unfold desc_at. rewrite !(get16_agree m m') by (intros; apply E; lia). by rewrite !E by lia. Qed.

(** The table of the loader and the one that the kernel gets, as memory. *)
Definition gdt_memory (ws : list Z) : bytes := λ a, default 0 (long_bytes ws !! Z.to_nat (a - GDT_BASE)).
Definition kernel_gdt : list Z := <[7%nat := Z.lor DESC_VIDEO_HIGH4 PAGE_OFFEST]> loader_gdt.

(** The table after the change to its last word. *)
Lemma descriptors_patched m :
  (∀ a, GDT_BASE ≤ a < GDT_BASE + 0x1c → m a = gdt_memory loader_gdt a) →
  (∀ j, 0 ≤ j < 4 → m (GDT_BASE + 0x1c + j) =
    u8 (Z.shiftr (Z.lor (get32 (gdt_memory loader_gdt) (GDT_BASE + 0x1c)) PAGE_OFFEST) (8 * j))) →
  (λ i, desc_at m (0x900 + 8 * i)) <$> [1; 2; 3] =
    [creat_gdt_desc 0 0xfffff 0x98 0xc0; creat_gdt_desc 0 0xfffff 0x92 0xc0; creat_gdt_desc 0xc00b8000 7 0x92 0xc0].
Proof.
  intros Hlow Hhigh. change GDT_BASE with 0x900 in *.
  assert (∀ a, 0x900 ≤ a < 0x920 → m a = gdt_memory kernel_gdt a) as Htab.
  { intros a Ha. destruct (decide (a < 0x91c)).
    - rewrite Hlow by lia. assert (a ∈ seqZ 0x900 28) as Hin by (apply elem_of_seqZ; lia).
      clear - Hin. revert a Hin. apply Forall_forall. apply (bool_decide_unpack _). by vm_compute.
    - replace a with (0x900 + 0x1c + (a - 0x91c)) by lia. rewrite Hhigh by lia.
      assert (a - 0x91c ∈ seqZ 0 4) as Hin by (apply elem_of_seqZ; lia).
      clear - Hin. revert Hin. generalize (a - 0x91c). apply Forall_forall. apply (bool_decide_unpack _). by vm_compute. }
  assert (∀ i, 0 ≤ i < 4 → desc_at m (0x900 + 8 * i) = desc_at (gdt_memory kernel_gdt) (0x900 + 8 * i)) as Hdesc
    by (intros i Hi; apply desc_at_agree; intros x Hx; apply Htab; lia).
  cbn [fmap list_fmap]. rewrite !Hdesc by lia. by vm_compute.
Qed.

(** The variables that the loader changes: the operand of [lgdt], and half of a descriptor. *)
Definition patched (a : Z) : Prop := gdt_ptr ≤ a < gdt_ptr + 6 ∨ GDT_BASE + 0x1c ≤ a < GDT_BASE + 0x20.

Section start.
Context {D : Type} `{AtaBus D}.

(** The bytes of the kernel file, as far as it is read. *)
Definition file_bytes (ws : list Z) : bytes := λ k, default 0 (word_bytes ws !! Z.to_nat k).

(** A byte of the file by its sector and word. *)
Definition file_byte (sector : Z → list Z) (k : Z) : Z :=
  let w := default 0 (sector (KERNEL_START_SECTOR + k / 512) !! Z.to_nat (k / 2 mod 256)) in
  if k mod 2 =? 0 then w mod 256 else w / 256 mod 256.

Lemma word_bytes_lookup ws i w : ws !! i = Some w →
  word_bytes ws !! (2 * i)%nat = Some (w mod 256) ∧ word_bytes ws !! (2 * i + 1)%nat = Some (w / 256 mod 256).
Proof using.
  revert i. induction ws as [|w' ws IH]; intros [|i] Hi; try done.
  - by injection Hi as ->.
  - destruct (IH i Hi) as [H1 H2]. change (word_bytes (w' :: ws)) with (w' mod 256 :: w' / 256 mod 256 :: word_bytes ws).
    replace (2 * S i)%nat with (S (S (2 * i))) by lia. done.
Qed.

Lemma file_bytes_eq (sector : Z → list Z) k : (∀ lba, length (sector lba) = 256%nat) → 0 ≤ k < IMAGE_SIZE →
  file_bytes (sectors sector KERNEL_START_SECTOR 200) k = file_byte sector k.
Proof using.
  intros Hlen Hk. change IMAGE_SIZE with 102400 in Hk. unfold file_bytes, file_byte.
  set (q := k / 512). set (j := Z.to_nat (k / 2 mod 256)).
  destruct (lookup_lt_is_Some_2 (sector (KERNEL_START_SECTOR + q)) j) as [w Hw].
  { rewrite Hlen. subst j. divlia. }
  assert (sectors sector KERNEL_START_SECTOR 200 !! Z.to_nat (k / 2) = Some w) as Hs.
  { replace 200 with (q + (1 + (199 - q))) by lia. rewrite !sectors_app by (subst q; divlia).
    rewrite lookup_app_r by (rewrite (length_sectors sector) by (done || (subst q; divlia)); subst q; divlia).
    rewrite (length_sectors sector) by (done || (subst q; divlia)).
    replace (Z.to_nat (k / 2) - Z.to_nat (256 * q))%nat with j by (subst q j; divlia).
    unfold sectors at 1. change (seqZ (KERNEL_START_SECTOR + q) 1) with [KERNEL_START_SECTOR + q].
    cbn [mbind list_bind]. rewrite app_nil_r. by apply lookup_app_l_Some. }
  rewrite Hw. cbn [default]. destruct (word_bytes_lookup _ _ _ Hs) as [H1 H2].
  destruct (Z.eqb_spec (k mod 2) 0).
  - replace (Z.to_nat k) with (2 * Z.to_nat (k / 2))%nat by divlia. by rewrite H1.
  - replace (Z.to_nat k) with (2 * Z.to_nat (k / 2) + 1)%nat by divlia. by rewrite H2.
Qed.

Lemma word_bytes_range ws : Forall (λ b, 0 ≤ b < 256) (word_bytes ws).
Proof using.
  induction ws as [|w ws IH]; [constructor|]. change (word_bytes (w :: ws)) with (w mod 256 :: w / 256 mod 256 :: word_bytes ws).
  repeat constructor; try apply Z.mod_pos_bound; try lia. done.
Qed.
Lemma file_bytes_range ws k : 0 ≤ file_bytes ws k < 256.
Proof using.
  unfold file_bytes. destruct (word_bytes ws !! Z.to_nat k) as [b|] eqn:E; cbn; [|lia].
  apply (Forall_lookup_1 _ _ _ _ (word_bytes_range _) E).
Qed.

Lemma p_mode_start_spec f d d1 m : not_ready f (select_sectors d KERNEL_START_SECTOR 200) = Ok d1 →
  let img := file_bytes (port_words (Z.to_nat (256 * 200)) d1).2 in
  let hs := program_headers img in
  elf_ok img →
  ∃ e m5, (∀ fuel, (f ≤ fuel)%nat → p_mode_start fuel d m = Ok e) ∧
    e_eip e = KERNEL_ENTRY_POINT ∧ e_esp e = KERNEL_STACK_TOP ∧ e_gdtr e = (GDT_LIMIT, GDT_BASE + PAGE_OFFEST) ∧
    tables (e_memory e) ∧ (∀ a, e_memory e a = load_segments img m5 hs a) ∧
    (∀ a, a < KERNEL_BIN_BASE_ADDR ∨ KERNEL_BIN_BASE_ADDR + IMAGE_SIZE ≤ a < PAGE_DIR_TABLE_POS →
      ¬ patched a → m5 a = m a) ∧
    (∀ j, 0 ≤ j < 4 → m5 (GDT_BASE + 0x1c + j) =
      u8 (Z.shiftr (Z.lor (get32 m (GDT_BASE + 0x1c)) PAGE_OFFEST) (8 * j))).
Proof using.
  intros Hd img hs Helf.
  assert (IMAGE_SIZE = 102400) as Esz by done. assert (KERNEL_BIN_BASE_ADDR = 0x70000) as Eb by done.
  assert (gdt_ptr = 0xb04) as Ep by done. assert (GDT_BASE = 0x900) as Eg by done.
  assert (PAGE_DIR_TABLE_POS = 0x1000000) as Et by done.
  destruct (rd_disk_m_32_port f d d1 m KERNEL_START_SECTOR KERNEL_BIN_BASE_ADDR 200 Hd) as (m1 & E1 & Hb1 & Hx1); [lia..|].
  set (ws := (port_words (Z.to_nat (256 * 200)) d1).2) in *.
  set (d' := (port_words (Z.to_nat (256 * 200)) d1).1) in *.
  destruct (setup_page_spec m1) as [Ht2 Hx2]. set (m2 := setup_page m1) in *. unfold in_tables in Hx2.
  set (m3 := put32 (put16 m2 gdt_ptr GDT_LIMIT) (gdt_ptr + 2) GDT_BASE).
  assert (get32 m3 (gdt_ptr + 2) = GDT_BASE) as E3 by (subst m3; by rewrite get32_put32).
  assert (∀ a, ¬ patched a → m3 a = m2 a) as H3.
  { intros a Ha. unfold patched in Ha. subst m3. rewrite put32_out, put16_out by lia. done. }
  assert (get32 m3 (GDT_BASE + 0x1c) = get32 m (GDT_BASE + 0x1c)) as E3'.
  { apply get32_agree. intros x Hx. subst m3. rewrite put32_out, put16_out, Hx2, Hx1 by lia. done. }
  set (v := Z.lor (get32 m (GDT_BASE + 0x1c)) PAGE_OFFEST).
  set (m4 := put32 m3 (GDT_BASE + 0x1c) v).
  assert (get32 m4 (gdt_ptr + 2) = GDT_BASE) as E4 by (subst m4; by rewrite get32_put32_out by lia).
  set (m5 := put32 m4 (gdt_ptr + 2) (u32 (GDT_BASE + PAGE_OFFEST))).
  assert (∀ a, ¬ patched a → m5 a = m2 a) as H5.
  { intros a Ha. rewrite <- H3 by done. unfold patched in Ha. subst m5 m4. rewrite !put32_out by lia. done. }
  assert (get16 m5 gdt_ptr = GDT_LIMIT) as Elim.
  { subst m5 m4 m3. rewrite <- (get16_agree (put16 m2 gdt_ptr GDT_LIMIT)); [by rewrite get16_put16|].
    intros x Hx. by rewrite !put32_out by lia. }
  assert (get32 m5 (gdt_ptr + 2) = GDT_BASE + PAGE_OFFEST) as Ebase by (subst m5; by rewrite get32_put32).
  assert (tables m5) as Ht5.
  { apply (tables_agree m2); [|done]. intros x Hx. symmetry. apply H5. unfold patched, in_tables in *. lia. }
  assert (image_in img m5) as Hi5.
  { intros i Hi. rewrite H5, Hx2 by (unfold patched; lia).
    destruct (lookup_lt_is_Some_2 (word_bytes ws) (Z.to_nat i)) as [b Hb];
      [rewrite length_word_bytes; subst ws; rewrite length_port_words; lia|].
    subst img. unfold file_bytes. rewrite Hb. cbn. rewrite <- (Hb1 _ _ Hb). f_equal. lia. }
  destruct (kernel_init_spec img (file_bytes_range ws) m5 Helf Ht5 Hi5) as (m6 & E6 & Ht6 & Hm6).
  exists (Entry d' m6 KERNEL_ENTRY_POINT KERNEL_STACK_TOP (get16 m5 gdt_ptr, get32 m5 (gdt_ptr + 2))), m5.
  split.
  { intros fuel Hf. unfold p_mode_start. rewrite E1 by done. cbn [obind]. fold m2 m3. rewrite E3.
    replace (GDT_BASE + 0x18 + 4) with (GDT_BASE + 0x1c) by lia. rewrite E3'. fold v m4. rewrite E4. fold m5.
    by rewrite E6. }
  cbn [e_eip e_esp e_gdtr e_memory].
  split; [done|]. split; [done|]. split; [by rewrite Elim, Ebase|]. split; [done|]. split; [exact Hm6|]. split.
  - intros a Ha Hp. rewrite (H5 a Hp), Hx2, Hx1 by lia. reflexivity.
  - intros j Hj. subst m5. rewrite put32_out by lia. by apply put32_byte.
Qed.
End start.

(** * Properties *)

(** C21. The size of the memory that the loader finds, on every path ([e820_paths]: there is no
    other).  From the memory map (E820h, at most
    the twelve areas that the buffer has room for) it takes the highest end of an area below
    2 GB: ends are 32-bit numbers that are compared with their sign, so that areas
    that end above 2 GB do not count.  If a call for the map fails, the first or one after [k]
    areas, these areas are forgotten: the two older functions give kilobytes above
    1 MB (and 64 kilobytes above 16 MB, modulo 4 GB); and if no function works the machine stops.
    A thirteenth area is stored behind the buffer. *)
Theorem memory_detected fuel b :
  (∀ L, areas b 0 L → (length L ≤ 12)%nat → (length L ≤ fuel)%nat →
   ∃ total, detect_memory fuel b = Ok (Some total) ∧ 0 ≤ total < 0x80000000 ∧
     (total = 0 ∨ total ∈ area_end <$> L) ∧ (∀ a, a ∈ L → area_end a < 0x80000000 → area_end a ≤ total)) ∧
  (∀ k e, areas_to b 0 k e → (k ≤ 12)%nat → int15_e820 b e = None → (k < fuel)%nat →
   match int15_e801 b, int15_88 b with
   | Some (ax, bx), _ => 0 ≤ ax < 65536 → 0 ≤ bx < 65536 →
       detect_memory fuel b = Ok (Some (u32 (0x100000 + 1024 * ax + 65536 * bx)))
   | None, Some ax => 0 ≤ ax < 65536 → detect_memory fuel b = Ok (Some (0x100000 + 1024 * ax))
   | None, None => detect_memory fuel b = Ok None
   end) ∧
  (∀ e x, areas_to b 0 12 e → int15_e820 b e = Some x → (12 < fuel)%nat → detect_memory fuel b = Fault).
Proof.
  unfold detect_memory. split_and!.
  - intros L HL H12 Hf. rewrite (e820_areas b 0 L HL fuel []) by (cbn [length]; lia). cbn [obind app].
    destruct (find_max_spec L 0 ltac:(lia)) as (H1 & H2 & H3). by eexists.
  - intros k e Hto Hk He Hf. rewrite (e820_fails b k e fuel) by done. cbn [obind].
    destruct (int15_e801 b) as [[ax bx]|].
    + intros Ha Hb. by rewrite mem_e801_eq.
    + destruct (int15_88 b) as [ax|]; [|done]. intros Ha. by rewrite mem_88_eq.
  - intros e x Hto He Hf. by rewrite (e820_overruns b e x fuel).
Qed.

(** C20. The page tables of the loader: the first 4 MB at their own addresses and again from 0xc0000000 on,
    nothing between the two, and the page directory in the last page. *)
Theorem boot_page_tables m va :
  0 ≤ va < 0xc0400000 →
  (translate (get32 (setup_page m)) PAGE_DIR_TABLE_POS va =
     if decide (va < 0x400000) then Some va
     else if decide (va < 0xc0000000) then None else Some (va - 0xc0000000)) ∧
  (∀ off, 0 ≤ off < 4096 →
     translate (get32 (setup_page m)) PAGE_DIR_TABLE_POS (0xfffff000 + off) = Some (PAGE_DIR_TABLE_POS + off)) ∧
  (∀ x, ¬ in_tables x → setup_page m x = m x).
Proof.
  intros Hva. destruct (setup_page_spec m) as [Hm Hout]. split; [|split; [by intros; apply translate_self|done]].
  repeat case_decide.
  - apply translate_window; [done|]. split; [lia|by left].
  - apply translate_none; [done|lia].
  - apply translate_window; [done|]. split; [lia|right; lia].
Qed.

(** C22. What the transfers read: on a disk with the sector [lba], [rd_disk_m_32] ends its polling, and stores
    this sector at the address, low bytes first.  More than one sector it reads right if the disk keeps up:
    the status is polled once, and not again between the sectors, as ATA asks for; on another disk
    the bytes behind the first sector are what the data port gives meanwhile.  In any case nothing outside the
    [512 * n] bytes changes. *)
Theorem loader_reads_sectors {D} (sector : Z → list Z) (size : Z) `{PollDisk D sector size} d r m lba a n :
  idle d r → 0 ≤ lba < 0x10000000 → 0 < n < 256 → lba + n ≤ size → 0 ≤ a → a + 512 * n < 4294967296 →
  ∃ k d' m', (∀ fuel, (k < fuel)%nat → rd_disk_m_32 fuel d m lba a n = Ok (d', m')) ∧
    (∀ k b, word_bytes (sector lba) !! k = Some b → m' (a + Z.of_nat k) = b) ∧
    (keeps_up D sector size →
     ∀ k b, word_bytes (sectors sector lba n) !! k = Some b → m' (a + Z.of_nat k) = b) ∧
    (∀ x, x < a ∨ a + 512 * n ≤ x → m' x = m x).
Proof.
  intros Hd Hlba Hn Hsize Ha Ha'. destruct (polling_ends sector size d r lba n Hd Hlba) as (k & d1 & Hk & H1 & Hall); [lia..|].
  destruct (rd_disk_m_32_port (S k) d d1 m lba a n (Hk (S k) ltac:(lia)) Hn Ha Ha') as (m' & E & Hb & Hx).
  eexists k, _, m'. split; [intros fuel Hf; apply E; lia|]. split_and!; [| |done].
  - intros i b Hi. apply Hb. rewrite <- (take_drop 256 (port_words _ d1).2), H1, word_bytes_app.
    by apply lookup_app_l_Some.
  - intros Hup i b Hi. apply Hb. by rewrite Hall.
Qed.

(** C8. The loader brings the kernel to its place, whatever the disk is: if the polling ends, and
    the words that the data port then gives, in as many readings as 200 sectors have words, are a kernel file whose program
    headers are in the part that is read and name segments that the loader can load, one apart from the other,
    then from any memory that has the table of descriptors the loader enters the kernel at 0xc0015000, with paging on,
    such that: the size of the memory is at 0xb00; each byte of each segment is at its virtual address;
    every other byte behind the loader and below the file is as it was (so the part of a segment
    that is not in the file, the variables that C takes to be zero, is not cleared); and the table of
    descriptors has flat segments for code and data, and the screen at its address above 0xc0000000.
    (That the words are the sectors 9 to 208 is [loader_reads_sectors]: ATA promises it only for the first of them.) *)
Theorem loader_starts_kernel {D} `{AtaBus D} b d d1 m total n :
  not_ready n (select_sectors d KERNEL_START_SECTOR 200) = Ok d1 →
  let img := file_bytes (port_words (Z.to_nat (256 * 200)) d1).2 in
  let hs := program_headers img in
  (∀ fuel, (n ≤ fuel)%nat → detect_memory fuel b = Ok (Some total)) → 0 ≤ total < 4294967296 →
  (∀ a, GDT_BASE ≤ a < GDT_BASE + 0x20 → m a = gdt_memory loader_gdt a) →
  elf_ok img →
  (∀ i j h h' a, hs !! i = Some h → hs !! j = Some h' → i ≠ j → in_segment h a = true → in_segment h' a = false) →
  ∃ e, (∀ fuel, (n ≤ fuel)%nat → loader fuel b d m = Ok (Some e)) ∧
    e_eip e = 0xc0015000 ∧ e_esp e = 0xc009f000 ∧ tables (e_memory e) ∧ vget32 (e_memory e) 0xb00 = Ok total ∧
    (∀ h k, h ∈ hs → ph_type h ≠ PT_NULL → 0 ≤ k < ph_filesz h →
       vget8 (e_memory e) (u32 (ph_vaddr h + k)) = Ok (img (ph_offset h + k))) ∧
    (∀ a, 0x1100 ≤ a < KERNEL_BIN_BASE_ADDR → (∀ h, h ∈ hs → in_segment h a = false) → e_memory e a = m a) ∧
    e_gdtr e = (31, 0xc0000900) ∧
    (λ i, desc_at (e_memory e) (0x900 + 8 * i)) <$> [1; 2; 3] =
      [creat_gdt_desc 0 0xfffff 0x98 0xc0; creat_gdt_desc 0 0xfffff 0x92 0xc0; creat_gdt_desc 0xc00b8000 7 0x92 0xc0].
Proof.
  intros Hd img hs Hdet Htot Hgdt Helf Hdis. set (m1 := put32 m total_mem_bytes total).
  destruct (p_mode_start_spec n d d1 m1 Hd Helf) as (e & m5 & E & Hip & Hsp & Hgdtr & Ht & Hmem & Hkeep & Hpatch).
  fold img hs in Hmem. exists e.
  assert (∀ h, h ∈ hs → loadable h) as Hl by (intros h Hh; by apply (proj1 (Forall_forall _ _) (elf_loadable _ Helf))).
  assert (gdt_ptr = 0xb04 ∧ GDT_BASE = 0x900 ∧ total_mem_bytes = 0xb00 ∧ KERNEL_BIN_BASE_ADDR = 0x70000) as (Ep & Eg & Em & Eb) by done.
  assert (∀ a, a < KERNEL_BIN_BASE_ADDR → (∀ h, h ∈ hs → in_segment h a = false) → ¬ patched a → e_memory e a = m1 a) as Hout.
  { intros a Ha Hseg Hp. rewrite Hmem, load_segments_out by done. apply Hkeep; [by left|done]. }
  assert (∀ a, a < 0x1100 → ∀ h, h ∈ hs → in_segment h a = false) as Hlow.
  { intros a Ha h Hh. destruct (in_segment h a) eqn:Ea; [|done]. apply in_segment_spec in Ea as [Hty Ha'].
    destruct (Hl h Hh Hty) as (_ & _ & _ & ? & _). lia. }
  split.
  { intros fuel Hf. unfold loader. rewrite Hdet by done. cbn [obind]. fold m1. by rewrite E. }
  split; [exact Hip|]. split; [exact Hsp|]. split; [exact Ht|]. split_and!.
  - rewrite <- (Z.add_0_r 0xb00), <- (u32_small (0xb00 + 0)) by lia.
    rewrite (vget32_span _ Ht 0xb00 0xb00 4) by (unfold span; lia). f_equal.
    rewrite (get32_agree _ m1); [subst m1; by rewrite Em, get32_put32, u32_small by lia|].
    intros x Hx. apply Hout; [lia|apply Hlow; lia|unfold patched; lia].
  - intros h j Hh Hty Hj. destruct (Hl h Hh Hty) as (Ho & Hz & Hoz & Hd1 & Hd2 & _).
    rewrite (vget8_span _ Ht (ph_vaddr h) (dest h) (ph_filesz h)); [|unfold span, dest in *; destruct (Z.leb_spec 0xc0000000 (ph_vaddr h)); lia|done].
    f_equal. rewrite Hmem. apply list_elem_of_lookup in Hh as (i & Hi).
    assert (in_segment h (dest h + j) = true) as Hin by (apply in_segment_spec; split; [done|lia]).
    rewrite (load_segments_in _ _ _ i h _ Hi Hin); [f_equal; lia|].
    intros j' h' Hj' Hne. apply (Hdis i j' h h'); congruence.
  - intros a Ha Hseg. rewrite Hout; [|lia|done|unfold patched; lia]. subst m1. apply put32_out. lia.
  - exact Hgdtr.
  - apply descriptors_patched.
    + intros a Ha. rewrite Hout; [|lia|apply Hlow; lia|unfold patched; lia].
      subst m1. rewrite put32_out by lia. apply Hgdt. lia.
    + intros j Hj. rewrite Hmem, load_segments_out by (apply Hlow; lia). rewrite Hpatch by done.
      do 3 f_equal. apply get32_agree. intros x Hx. subst m1. rewrite put32_out by lia. apply Hgdt. lia.
Qed.

(** The boot sector puts sectors 2 to 5, the loader, at 0x900, on a disk that keeps up, and goes on behind
    the table of descriptors and the variables. *)
Lemma mbr_loads {D} (sector : Z → list Z) (size : Z) `{PollDisk D sector size} d r m : idle d r → 6 ≤ size →
  keeps_up D sector size →
  ∃ k, ∀ fuel, (k < fuel)%nat → ∃ d' m', mbr fuel d m = Ok (d', m', gdt_ptr + 6 + ards_buf_size + 2) ∧
    (∀ k b, word_bytes (sectors sector 2 4) !! k = Some b → m' (0x900 + Z.of_nat k) = b) ∧
    (∀ x, x < 0x900 ∨ 0x1100 ≤ x → m' x = m x).
Proof.
  intros Hd Hsize Hup. destruct (polling_ends sector size d r 2 4 Hd) as (k & d1 & Hk & _ & Hall); [lia..|].
  destruct (rd_disk_m_16_port (S k) d d1 m 2 0x900 4 (Hk (S k) ltac:(lia))) as (m' & E & Hb & Hx); [lia..|].
  rewrite (Hall Hup) in Hb.
  exists k. intros fuel Hf. eexists _, m'. unfold mbr.
  change LOADER_START_SECTOR with 2. change LOADER_BASE_ADDR with 0x900. rewrite E by lia. cbn [obind]. done.
Qed.

(** * The hypotheses can be met *)

(** The memory map of a PC with 512 MB: low memory, the BIOS, the memory above 1 MB, and the
    ROM at the end of the address space, whose end is 0 in 32 bits. *)
Definition demo_map : list ards :=
  [Ards 0 0x9fc00; Ards 0x9fc00 0x400; Ards 0xf0000 0x10000; Ards 0x100000 0x1ff00000; Ards 0xfffc0000 0x40000].
Definition demo_bios : bios :=
  Bios (λ ebx, a ← demo_map !! Z.to_nat ebx; Some (a, (ebx + 1) mod 5)) (Some (0x3c00, 0x1f00)) None.

Lemma demo_areas : areas demo_bios 0 demo_map.
Proof.
  apply (areas_next _ 0 _ 1); [reflexivity|lia|]. apply (areas_next _ 1 _ 2); [reflexivity|lia|].
  apply (areas_next _ 2 _ 3); [reflexivity|lia|]. apply (areas_next _ 3 _ 4); [reflexivity|lia|].
  by apply areas_last.
Qed.

(** A BIOS whose memory map breaks off after two areas. *)
Definition broken_bios : bios :=
  Bios (λ ebx, if ebx <? 2 then Some (Ards 0 0x9fc00, ebx + 1) else None) (Some (0x3c00, 0x1f00)) None.

Lemma memory_detected_witness :
  (∃ total, detect_memory 5 demo_bios = Ok (Some total) ∧ 0x20000000 ≤ total < 0x80000000) ∧
  detect_memory 3 broken_bios = Ok (Some 0x20000000).
Proof.
  destruct (memory_detected 5 demo_bios) as [Hmap _].
  destruct (memory_detected 3 broken_bios) as [_ [Hold _]].
  destruct (Hmap demo_map demo_areas) as (total & E & Hr & _ & Hmax); [cbn; lia|cbn; lia|].
  split.
  - exists total. split; [exact E|]. split; [|lia].
    apply (Hmax (Ards 0x100000 0x1ff00000)); [do 3 right; left|by vm_compute].
  - apply (Hold 2%nat 2); [|lia|reflexivity|lia|lia|lia].
    apply (areas_to_next _ 0 (Ards 0 0x9fc00) 1); [reflexivity|lia|].
    apply (areas_to_next _ 1 (Ards 0 0x9fc00) 2); [reflexivity|lia|constructor].
Defined.

Lemma boot_page_tables_witness :
  translate (get32 (setup_page (λ _, 0xff))) PAGE_DIR_TABLE_POS 0xc0015004 = Some 0x15004.
Proof. destruct (boot_page_tables (λ _, 0xff) 0xc0015004) as [E _]; [lia|]. rewrite E. reflexivity. Defined.

(** A disk that is busy for three readings of its status, and then keeps up. *)
Inductive poll_phase := PIdle | PBusy (n : nat) (ws : list Z) | PGiving (ws : list Z).
Record poll_disk := DemoPoll { p_image : Z → list Z; p_regs : regs; p_phase : poll_phase }.

Definition poll_outb (d : poll_disk) (port v : Z) : poll_disk :=
  let '(Regs c l m h dev) := p_regs d in
  if port =? 0x1f2 then DemoPoll (p_image d) (Regs v l m h dev) (p_phase d)
  else if port =? 0x1f3 then DemoPoll (p_image d) (Regs c v m h dev) (p_phase d)
  else if port =? 0x1f4 then DemoPoll (p_image d) (Regs c l v h dev) (p_phase d)
  else if port =? 0x1f5 then DemoPoll (p_image d) (Regs c l m v dev) (p_phase d)
  else if port =? 0x1f6 then DemoPoll (p_image d) (Regs c l m h v) (p_phase d)
  else if (port =? 0x1f7) && (v =? 0x20) then
    DemoPoll (p_image d) (p_regs d) (PBusy 3 (sectors (p_image d) (lba_of (p_regs d)) (count_of (p_regs d))))
  else d.
Definition poll_inb (d : poll_disk) (port : Z) : poll_disk * Z :=
  match p_phase d with
  | PBusy (S n) ws => (DemoPoll (p_image d) (p_regs d) (PBusy n ws), 0x80)
  | PBusy O ws => (DemoPoll (p_image d) (p_regs d) (PGiving ws), 0x58)
  | PGiving (_ :: _) => (d, 0x58)
  | _ => (d, 0x50)
  end.
Definition poll_insw (d : poll_disk) (port : Z) (n : nat) : poll_disk * list Z :=
  match p_phase d with
  | PGiving ws => (DemoPoll (p_image d) (p_regs d) (PGiving (drop n ws)), take n ws)
  | _ => (d, replicate n 0)
  end.
#[export] Instance poll_bus : AtaBus poll_disk := {
  outb := poll_outb; inb := poll_inb; insw := poll_insw; outsw d _ _ := d; ten_ms d := d; await d _ := None
}.

Program Definition demo_poll (image : Z → list Z) (size : Z) (Himage : ∀ lba, length (image lba) = 256%nat) :
    PollDisk poll_disk image size := {|
  idle d r := d = DemoPoll image r PIdle;
  busy d n ws := p_phase d = PBusy n ws ∨ (n = 0%nat ∧ ws ≠ [] ∧ p_phase d = PGiving ws);
  giving d cur rest := p_phase d = PGiving (cur ++ rest)
|}.
Next Obligation. done. Qed.
Next Obligation. by intros image _ _ ? [] v -> _. Qed.
Next Obligation. by intros image _ _ ? [] v -> _. Qed.
Next Obligation. by intros image _ _ ? [] v -> _. Qed.
Next Obligation. by intros image _ _ ? [] v -> _. Qed.
Next Obligation. by intros image _ _ ? [] v -> _. Qed.
Next Obligation. intros image _ _ ? [] -> _ _ _. exists 3%nat. by left. Qed.
Next Obligation.
  intros image _ _ d n ws [E|[? _]]; [|done]. cbn. unfold poll_inb. rewrite E. eexists _, _.
  split_and!; [reflexivity|done|by left].
Qed.
Next Obligation.
  intros image _ _ d ws E. cbn. unfold poll_inb.
  destruct E as [E|(_ & Hne & E)]; [|destruct ws as [|w ws]; [done|]]; rewrite E; eexists _, _;
    (split; [reflexivity|]; split; [done|]); rewrite ?E; exact (f_equal PGiving (eq_sym (take_drop 256 _))).
Qed.
Next Obligation.
  intros image _ _ d w cur rest E. cbn. unfold poll_insw. rewrite E. eexists. split; [reflexivity|]. cbn.
  split; [done|]. intros -> Hne. exists 0%nat. right. by split_and!.
Qed.

Lemma demo_keeps_up image size Himage : keeps_up poll_disk image size (H0 := demo_poll image size Himage).
Proof.
  intros d w rest E Hne. cbn in *. unfold poll_insw. rewrite E. eexists. split; [reflexivity|]. cbn.
  exact (f_equal PGiving (eq_sym (take_drop 256 _))).
Qed.

(** A kernel file with one segment of 16 bytes at 0xc0015000 and an unused program header. *)
Definition demo_header : list (Z * Z) :=
  [(14, 52); (21, 32); (22, 2); (26, 1); (28, 4096); (30, 0x5000); (31, 0xc001); (34, 16)].
Definition demo_kernel (lba : Z) : list Z :=
  (λ j, if lba =? 9 then default 0 ((list_to_map demo_header : gmap Z Z) !! j) else (256 * lba + j) mod 65536)
    <$> seqZ 0 256.

Lemma demo_length lba : length (demo_kernel lba) = 256%nat.
Proof. unfold demo_kernel. by rewrite length_fmap, length_seqZ. Qed.

Definition demo_file : list Z := sectors demo_kernel KERNEL_START_SECTOR 200.
Lemma demo_byte k : 0 ≤ k < IMAGE_SIZE → file_bytes demo_file k = file_byte demo_kernel k.
Proof. apply file_bytes_eq, demo_length. Qed.

Lemma demo_get32 k : 0 ≤ k < 1000 → get32 (file_bytes demo_file) k = get32 (file_byte demo_kernel) k.
Proof. intros Hk. apply get32_agree. intros x Hx. apply demo_byte. change IMAGE_SIZE with 102400. lia. Qed.
Lemma demo_get16 k : 0 ≤ k < 1000 → get16 (file_bytes demo_file) k = get16 (file_byte demo_kernel) k.
Proof. intros Hk. apply get16_agree. intros x Hx. apply demo_byte. change IMAGE_SIZE with 102400. lia. Qed.

Lemma demo_headers : program_headers (file_bytes demo_file) = [Phdr 1 4096 0xc0015000 16; Phdr 0 0 0 0].
Proof.
  unfold program_headers. rewrite demo_get32, !demo_get16 by lia.
  replace (get32 (file_byte demo_kernel) 28) with 52 by (by vm_compute).
  replace (get16 (file_byte demo_kernel) 42) with 32 by (by vm_compute).
  replace (get16 (file_byte demo_kernel) 44) with 2 by (by vm_compute).
  change (Z.to_nat 2) with 2%nat. cbn [headers]. unfold phdr_at. rewrite !demo_get32, !demo_byte by (done || lia).
  by vm_compute.
Qed.

Lemma demo_elf : elf_ok (file_bytes demo_file).
Proof.
  split.
  - rewrite demo_get16 by lia. by vm_compute.
  - rewrite demo_get32, !demo_get16 by lia. by vm_compute.
  - rewrite demo_headers.
    constructor; [|constructor; [|constructor]]; intros Ht; [split_and!; [done..|left; by vm_compute]|by destruct Ht].
Qed.

Definition demo_start : poll_disk := DemoPoll demo_kernel (Regs 0 0 0 0 0) PIdle.

Lemma loader_reads_sectors_witness : ∃ k d' m',
  (∀ fuel, (k < fuel)%nat → rd_disk_m_32 fuel demo_start (λ _, 0) 10 0x70000 2 = Ok (d', m')) ∧
  m' 0x70201 = 11 ∧ m' 0x6ffff = 0.
Proof.
  destruct (@loader_reads_sectors poll_disk demo_kernel 300 _ (demo_poll demo_kernel 300 demo_length) demo_start
    (Regs 0 0 0 0 0) (λ _, 0) 10 0x70000 2) as (k & d' & m' & E & _ & Hb & Hx); [reflexivity|lia..|].
  exists k, d', m'. split; [exact E|]. split; [|apply Hx; lia].
  apply (Hb (demo_keeps_up _ _ _) 513%nat 11). by vm_compute.
Defined.

(** The disk after the polling, and what it gives. *)
Lemma demo_polled : ∃ n d1, not_ready n (select_sectors demo_start KERNEL_START_SECTOR 200) = Ok d1 ∧
  (port_words (Z.to_nat (256 * 200)) d1).2 = demo_file.
Proof.
  destruct (@polling_ends poll_disk demo_kernel 300 _ (demo_poll demo_kernel 300 demo_length) demo_start
    (Regs 0 0 0 0 0) KERNEL_START_SECTOR 200) as (k & d1 & E & _ & Hall); [reflexivity|by vm_compute|lia|by vm_compute|].
  exists (S k), d1. split; [apply E; lia|apply Hall, demo_keeps_up].
Qed.

Lemma loader_starts_kernel_witness : ∃ fuel e, loader fuel demo_bios demo_start (gdt_memory loader_gdt) = Ok (Some e) ∧
  e_eip e = 0xc0015000 ∧ vget32 (e_memory e) 0xb00 = Ok 0x20000000 ∧ vget8 (e_memory e) 0xc0015003 = Ok 0x11.
Proof.
  destruct demo_polled as (k & d1 & Hd & Hws).
  destruct (loader_starts_kernel demo_bios demo_start d1 (gdt_memory loader_gdt) 0x20000000 (5 + k)) as (e & E & Hip & _ & _ & Hmem & Hseg & _).
  - apply (not_ready_more k); [exact Hd|lia].
  - intros fuel Hf. replace fuel with (5 + (fuel - 5))%nat by lia. reflexivity.
  - lia.
  - reflexivity.
  - rewrite Hws. exact demo_elf.
  - rewrite Hws, demo_headers. intros [|[|]] [|[|]] h h' a Hh Hh' Hne Ha; try done; injection Hh as <-; injection Hh' as <-; done.
  - exists (5 + k)%nat, e. split; [apply E; lia|]. split; [exact Hip|]. split; [exact Hmem|].
    replace 0xc0015003 with (u32 (0xc0015000 + 3)) by reflexivity.
    specialize (Hseg (Phdr 1 4096 0xc0015000 16) 3). cbn [ph_vaddr ph_offset ph_filesz ph_type] in Hseg. rewrite Hws in Hseg.
    rewrite Hseg; [|rewrite demo_headers; left|discriminate|lia]. rewrite demo_byte by done. reflexivity.
Defined.
