(* ===== verification/Init.v ===== *)
(** Start-up: [init_os] of kernel/init.c and [main] of kernel/main.c, the functions that it calls
    and that do not belong to another part ([interrupt_init], [keyboard_init], [timer_init],
    [mem_init]), and [debug_out] of kernel/debug.c.  The start-up composes the other parts: the
    theorems say that each gets the state it needs. *)
From S2P Require Import Prelude Bitmap KList Pool PageTable Thread Sync Mutex Heap HeapSafe Create Timer Desc Idle Console Syscall Ide Wait Partition Trace.
Local Open Scope Z_scope.
Local Abbreviation length := List.length.

(** * State *)

(** The tables of the interrupts, the operand of [lidt], and the bytes written to the ports of
    the interrupt controllers and of the timer. *)
Record tables := Tables {
  idt : list gate_descr;
  idtr : Z;
  irqaction_t : list Z;
  trap_name : list string;
  ports : list (Z * Z)
}.

Definition set_irqaction (t : tables) (acts : list Z) : tables :=
  Tables (idt t) (idtr t) acts (trap_name t) (ports t).
Definition add_ports (t : tables) (out : list (Z * Z)) : tables :=
  Tables (idt t) (idtr t) (irqaction_t t) (trap_name t) (ports t ++ out).

(** The whole machine: the tables; physical memory and CR3; threads, pools and the words of the
    kernel's memory; the console; the task state segment with its descriptors and the operand of
    [lgdt]; the system calls; the disks; and what was put on the screen before there was a
    console.  The parts that [ide_init] prints are in [disk_log].  [m_idle] is where the idle thread is. *)
Record machine (D : Type) := Machine {
  m_tables : tables;
  m_phys : phys * Z;
  m_world : world;
  m_console : console;
  m_segments : list Z * list gdt_desc * Z;
  m_syscalls : list Z;
  m_driver : driver D;
  m_disks : list disk;
  m_statics : statics;
  m_log : list printed;
  disk_log : list message;
  m_idle : idle_thread_state
}.
Arguments Machine {D}.
Arguments m_tables {D}.
Arguments m_phys {D}.
Arguments m_world {D}.
Arguments m_console {D}.
Arguments m_segments {D}.
Arguments m_syscalls {D}.
Arguments m_driver {D}.
Arguments m_disks {D}.
Arguments m_statics {D}.
Arguments m_log {D}.
Arguments disk_log {D}.
Arguments m_idle {D}.

Definition say {D} (s : machine D) (out : list printed) : machine D :=
  Machine (m_tables s) (m_phys s) (m_world s) (m_console s) (m_segments s) (m_syscalls s)
    (m_driver s) (m_disks s) (m_statics s) (m_log s ++ out) (disk_log s) (m_idle s).

(** * Memory *)

(** The end of [mem_pool_init]: what it prints. *)
Definition pool_report (kernel_pool user_pool : physical_mem_pool) (kernel_vm_pool : virtual_mem_pool)
    : list printed := [
  put_str "    kernel bitmap address: 0x"; put_hex (pool_bitmap_at kernel_pool);
  put_str "
    kernel physical address: 0x"; put_hex (phy_addr_start kernel_pool);
  put_str "-0x"; put_hex (u32 (phy_addr_start kernel_pool + pool_size kernel_pool - 1));
  put_str "
    kernel vm bitmap address: 0x"; put_hex (vm_bitmap_at kernel_vm_pool);
  put_str "
    user bitmap address: 0x"; put_hex (pool_bitmap_at user_pool);
  put_str "
    user physical address: 0x"; put_hex (phy_addr_start user_pool);
  put_str "-0x"; put_hex (u32 (phy_addr_start user_pool + pool_size user_pool - 1));
  put_char "
"].

(** [mem_init], for [total_mem] bytes of memory with the contents [boot]; the result is physical
    memory, CR3, the pools and the descriptors of the heap, and what was printed. *)
Definition mem_init (boot : Z → Z) (total_mem kernel_block_desc_array : Z) (pm : phys) (w : world)
    : outcome (phys * Z * world * list printed) :=
  let! (kernel_pool, user_pool, kernel_vm_pool) := mem_pool_init boot total_mem in
  let p := Pools kernel_pool user_pool kernel_vm_pool (userprog_vaddr (w_pools w)) in
  let w := World (kern w) p unlocked unlocked (pid_lock w) (next_pid w) (main_thread w) in
  let kernel_pages := total_kernel_pages total_mem in
  let '(pm, cr3) := page_table_init kernel_pages pm in
  let! m := mem_block_desc_init (nodes (kern w)) kernel_block_desc_array in
  let w := set_kern w (set_nodes (kern w) m) in
  Ok (pm, cr3, w,
    [put_str "memory initialization start
"] ++ pool_report kernel_pool user_pool kernel_vm_pool ++
    [put_str "    kernel PDE and PTE reload completion
"; put_str "memory initialization completion
"]).

(** [print_bitmap] prints the first byte of the bitmap of the kernel's virtual pages. *)
Definition print_bitmap (p : pools) : outcome (list printed) :=
  match bitmap_buf (vm_bitmap (kernel_vm_pool p)) with
  | Some (b :: _) => Ok [put_str "
bitmap: 0x"; put_hex b; put_char "
"]
  | _ => Fault
  end.

(** * Interrupts *)

Definition KEYBOARD_VECTOR : Z := 0x21.
Definition CLOCK_VECTOR : Z := 0x20.

Section startup.
(** Fuel of the loops of the kernel, and of [partition_scan]. *)
Variables fuel disk_fuel : nat.
(** What the linker and the assembly give: the entries of the vectors, and the addresses of
    functions and variables. *)
Variable intr_entry_table : Z → Z.
Variables syscall_handler ignore_intr_handler keyboard_service clock_service hard_disk_service : Z.
Variables idt_at tss_at thread_total_list kernel_block_desc_array kernel_func cpu_idle : Z.
Variables a_getpid a_write a_malloc a_free pfunc_a : Z.
(** The contents and the size of memory, and the number of disks the BIOS has found. *)
Variable boot : Z → Z.
Variables total_mem hd_cnt : Z.

Definition interrupt_init (t : tables) : tables * list printed :=
  let t := Tables (idt_init intr_entry_table syscall_handler (idt t)) (idtr t) (irqaction_t t)
    (trap_name t) (ports t) in
  let '(acts, names) := trap_init ignore_intr_handler (irqaction_t t) (trap_name t) in
  let t := Tables (idt t) (idtr t) acts names (ports t) in
  let t := add_ports t pic_8259A_init in
  (Tables (idt t) (idt_addr idt_at) (irqaction_t t) (trap_name t) (ports t),
   [put_str "Interrupt initialization start
"; put_str "    idt initialization completion
"; put_str "    PIC initialization completion
"; put_str "Interrupt initialization completion
"]).

Definition keyboard_init (t : tables) : outcome (tables * list printed) :=
  let! acts := register_irq_handler (irqaction_t t) KEYBOARD_VECTOR keyboard_service in
  Ok (set_irqaction t acts, [put_str "Keyboard initialization start
"; put_str "Keyboard initialization completion
"]).

Definition timer_init (t : tables) : outcome (tables * list printed) :=
  let t := add_ports t Timer.timer_init in
  let! acts := register_irq_handler (irqaction_t t) CLOCK_VECTOR clock_service in
  Ok (set_irqaction t acts, [put_str "register clock interruption service done
"]).

(** * [init_os] and [main] *)

Context {D : Type} `{AtaBus D}.

(** What happens in each of the waits for the disk. *)
Variable oracle : nat → list wait_event.

(** The driver on the whole board: while the main thread waits for the disk, the idle thread runs; it has not run
    before, and the variable [ticks] is 0.  And back. *)
Definition on_board (k : kstate) (s : driver D) : driver (board D) :=
  Driver (Board (hw s) (Some (k, idle_new 0)) 0) (g_channels s).
Definition off_board (s : driver (board D)) : driver D := Driver (b_hw (hw s)) (g_channels s).

Definition init_os (s : machine D) : outcome (machine D) :=
  let log := m_log s ++ [put_str "Start Initialize System
"] in
  let '(t, out) := interrupt_init (m_tables s) in
  let log := log ++ out in
  let! (t, out) := keyboard_init t in
  let log := log ++ out in
  let! (pm, cr3, w, out) := mem_init boot total_mem kernel_block_desc_array (fst (m_phys s)) (m_world s) in
  let log := log ++ out in
  let! (t, out) := timer_init t in
  let log := log ++ out ++ [put_str "thread initialization start
"] in
  let! w := thread_init fuel thread_total_list kernel_func cpu_idle w in
  let log := log ++ [put_str "thread initialization completion
"] in
  let c := console_init (m_console s) in
  let seg := tss_init tss_at in
  let log := log ++ [put_str "tss initialization start
"; put_str "tss initialization completion
"; put_str "syscall initialization start
"] in
  let! calls := syscall_init a_getpid a_write a_malloc a_free (m_syscalls s) in
  let log := log ++ [put_str "syscall initialization complation
"] in
  let! d := ide_init (H := board_bus fuel oracle) disk_fuel (get_cur_task (kern w)) hard_disk_service hd_cnt
    (Ide (on_board (kern w) (m_driver s)) (m_disks s) (m_statics s) (irqaction_t t) (disk_log s)) in
  match b_sched (hw (i_driver d)) with
  | Some (k, idle) =>
      Ok (Machine (set_irqaction t (i_irqaction d)) (pm, cr3) (set_kern w k) c seg calls
        (off_board (i_driver d)) (i_disks d) (i_statics d) log (i_out d) idle)
  | None => NoFuel
  end.

(** [main] until its loop, which prints "MAIN " once a second; [arg] is the address of the
    string it gives to the first thread. *)
Definition thread_a_name : list Z := chars "thread A".
Definition main (arg : Z) (s : machine D) : outcome (machine D) :=
  let s := say s [put_str "total memory: 0x"; put_hex total_mem; put_char "
"] in
  let! s := init_os s in
  let! (w, _) := thread_start fuel thread_total_list kernel_func (m_world s) thread_a_name 2 pfunc_a arg in
  let w := set_kern w (fst (local_irq_enable (kern w))) in
  Ok (Machine (m_tables s) (m_phys s) w (m_console s) (m_segments s) (m_syscalls s)
    (m_driver s) (m_disks s) (m_statics s) (m_log s) (disk_log s) (m_idle s)).
End startup.

(** * Failed assertions *)

(** [debug_out]: interrupts are switched off and the place is printed; then it loops for ever.
    The models of the other files stop with [Panic] where it is called. *)
Definition debug_out (k : kstate) (filename : string) (line : Z) (func condition : string)
    : kstate * list printed :=
  let k := fst (local_irq_disable k) in
  (k, [put_str "

======SYSTEM HANG UP======
"; put_str "filename: "; put_str filename; put_str "
"; put_str "line: "; put_hex line; put_str "
"; put_str "function: "; put_str func; put_str "
"; put_str "condition: "; put_str condition; put_str "
"]).

(** * Lemmas *)

(** ** Memory *)

(** What [mem_init] leaves: the pools are free, the heap is empty, and the page tables map the
    kernel's pages to the frames that the pools reserve with them. *)
Record memory_ready (total_mem kd : Z) (pm : phys) (cr3 : Z) (w : world) : Prop := {
  mr_heap : held kd (to_heap w, ∅) (λ _, []) ∅;
  mr_size : kernel_size (to_heap w) = kernel_pages total_mem * PAGE_SIZE;
  mr_total : kernel_total (w_pools w) = 8 * (kernel_pages total_mem / 8);
  mr_pages i off : 0 ≤ i < kernel_total (w_pools w) → 0 ≤ off < PAGE_SIZE →
    let frame := phy_addr_start (kernel_pool (w_pools w)) + i * PAGE_SIZE in
    translate pm cr3 (page_addr i + off) = Some (frame + off) ∧
    frame + PAGE_SIZE ≤ phy_addr_start (user_pool (w_pools w));
  mr_user va : 0 ≤ va < 0xc0000000 → translate pm cr3 va = None
}.

Lemma kernel_pages_range total : 0x2200000 ≤ total < 0x7f000000 →
  256 ≤ kernel_pages total ∧ kernel_pages total + 4096 = total_kernel_pages total ∧
  1024 ≤ total_kernel_pages total < 260096.
Proof.
  intros H. unfold kernel_pages, kernel_mem_size, total_kernel_pages, KERNEL_THRESHOLD, KERNEL_HEAP_BASE, PAGE_SIZE.
  destruct (Z.leb_spec 0x80000000 total); [lia|].
  rewrite (u64_small (total / 2 - _)), !u32_small by divlia. divlia.
Qed.

Lemma mem_init_spec boot total kd pm w :
  0x2200000 ≤ total < 0x7f000000 → 0 < kd ∧ kd + 112 ≤ KERNEL_HEAP_BASE →
  mapped (kernel_pages total) (nodes (kern w)) → array_mapped kd (nodes (kern w)) →
  ∃ pm' cr3 w' out, mem_init boot total kd pm w = Ok (pm', cr3, w', out) ∧
    memory_ready total kd pm' cr3 w' ∧
    (∀ i, 0 ≤ i < kernel_total (w_pools w') → vm_page (w_pools w') i = false) ∧
    (∀ a, is_Some (nodes (kern w) !! a) → is_Some (nodes (kern w') !! a)) ∧
    tasks (kern w') = tasks (kern w) ∧ intr_on (kern w') = intr_on (kern w) ∧
    next_pid w' = next_pid w.
Proof.
  intros Htot Hkd Hmap Harr. destruct (kernel_pages_range total Htot) as (Hp & Htk & Hk).
  destruct (mem_pool_init_ready boot total) as (kp & up & vp & E & Hlay & Hkp & _ & Hvf & Hwf); [lia|].
  destruct Hlay as (L1 & L2 & _). destruct Hkp as [_ Kb Ks _].
  set (p := Pools kp up vp (userprog_vaddr (w_pools w))). specialize (Hwf (userprog_vaddr (w_pools w))).
  fold p in Hwf.
  assert (kernel_total p = 8 * (kernel_pages total / 8)) as Etot by (pose proof (kw_bits _ Hwf) as Hb; cbn in Hb; unfold kernel_total; cbn; lia).
  assert (kernel_total p ≤ kernel_pages total) as Hle by (rewrite Etot; pose proof (Z.mul_div_le (kernel_pages total) 8); lia).
  assert (mapped (kernel_total p) (nodes (kern w))) as Hmap'.
  { intros r j Hr Hj. apply Hmap; lia. }
  destruct (mem_block_desc_init_spec kd Hkd p (nodes (kern w)) unlocked unlocked (intr_on (kern w)))
    as (m & Em & Hinv & Hmono); [done|lia|done..|].
  set (init := page_table_init (total_kernel_pages total) pm).
  set (w' := World (set_nodes (kern w) m) p unlocked unlocked (pid_lock w) (next_pid w) (main_thread w)).
  exists (fst init), (snd init), w'. eexists. split; [|split; [|split; [by intros i Hi; apply Hvf|by split_and!]]].
  { unfold mem_init. rewrite E. cbn [obind]. fold p init. rewrite (surjective_pairing init).
    cbn [kern]. rewrite Em. cbn [obind]. reflexivity. }
  assert (∀ va, 0 ≤ va < 0xffc00000 → translate (fst init) (snd init) va =
    if decide (0xc0000000 ≤ va < 0xc0000000 + total_kernel_pages total * PAGE_SIZE) then Some (__pa va) else None) as Htr.
  { intros va Hva. apply page_table_spec; [lia| |done]. left. divlia. }
  split; cbn [w_pools w' kernel_pool user_pool p].
  - split; cbn [fst snd to_heap w' kern nodes w_pools]; [done|done| |by intros q n Hq; rewrite lookup_empty in Hq].
    unfold kernel_size. cbn. rewrite Ks. unfold PAGE_SIZE. lia.
  - unfold kernel_size. cbn. by rewrite Ks.
  - done.
  - intros i off Hi Hoff. unfold PAGE_SIZE in *. fold p in Hi. split.
    + rewrite Htr by (rewrite page_addr_eq; lia). rewrite decide_True by (rewrite page_addr_eq; unfold PAGE_SIZE; lia).
      rewrite L1. unfold __pa, PAGE_OFFEST. rewrite page_addr_eq, u32_small by lia. f_equal. lia.
    + rewrite L2, Ks. unfold PAGE_SIZE. lia.
  - intros va Hva. rewrite Htr by lia. by rewrite decide_False by lia.
Qed.

(** The creation of threads leaves the empty heap as it was. *)
Lemma held_kept kd total ts ts' rs w w' : held kd (to_heap w, ∅) (λ _, []) ∅ → kept total ts w w' →
  threads_ok total ts' w' rs → kd + 112 ≤ total ∨ total + 8 ≤ kd →
  (∀ t, t ∈ ts → kd + 112 ≤ t ∨ t + 200 ≤ kd) →
  held kd (to_heap w', ∅) (λ _, []) ∅.
Proof.
  intros [Hinv _ Hsize _] Hk Hok Htot Hts. cbn [fst snd] in *. destruct Hinv as [Hsh [Hring Hdesc _] _].
  pose proof (sh_kd _ _ _ _ Hsh) as Hkd.
  assert (∀ a, kd ≤ a < kd + 112 → nodes (kern w') !! a = nodes (kern w) !! a) as Hsame.
  { intros a Ha. apply (kp_same _ _ _ _ Hk); [lia|lia|]. intros t Ht. destruct (Hts t Ht); lia. }
  split; cbn [fst snd]; [|apply (to_lock _ _ _ _ Hok)| |by intros q n Hq; rewrite lookup_empty in Hq].
  2: { revert Hsize. unfold kernel_size. cbn. by rewrite (kp_size _ _ _ _ Hk). }
  split; cbn [to_heap h_pools h_mem]; [| |apply (to_mapped _ _ _ _ Hok)].
  - split; [done|apply (to_pools _ _ _ _ Hok)|by rewrite (kp_total _ _ _ _ Hk); apply (sh_total _ _ _ _ Hsh)| |by intros i b _ Hb%elem_of_nil].
    split; intros *; by rewrite ?lookup_empty.
  - split; [| |by intros r k Hr; rewrite lookup_empty in Hr].
    + intros i Hi. eapply ring_same; [|by apply Hring]. intros q ->%list_elem_of_singleton.
      unfold free_head, desc_at, sizeof_desc, free_list_off, prev_off, next_off. split; apply Hsame; lia.
    + intros i Hi. unfold desc_at, sizeof_desc, block_size_off, blocks_each_arena_off in *.
      rewrite !Hsame by lia. by apply Hdesc.
Qed.

Lemma memory_ready_kept total_mem kd pm cr3 total ts ts' rs w w' : memory_ready total_mem kd pm cr3 w →
  kept total ts w w' → threads_ok total ts' w' rs → kd + 112 ≤ total ∨ total + 8 ≤ kd →
  (∀ t, t ∈ ts → kd + 112 ≤ t ∨ t + 200 ≤ kd) →
  memory_ready total_mem kd pm cr3 w'.
Proof.
  intros [Hh Hsz Ht Hp Hu] Hk Hok Htot Hts. pose proof (to_pools _ _ _ _ Hok) as Hwf.
  pose proof (kp_total _ _ _ _ Hk) as Et. split; [by eapply held_kept|by rewrite <- Hsz; apply (kp_size _ _ _ _ Hk)|by rewrite Et| |done].
  pose proof (kw_user _ Hwf) as Hw. fold (kernel_total (w_pools w')) in Hw.
  intros i off Hi Hoff. rewrite (kw_pstart _ Hwf). unfold PAGE_SIZE in *. split; [|lia].
  rewrite Et in Hi. destruct (Hp i off Hi Hoff) as [-> _]. unfold PAGE_SIZE.
  pose proof (sh_pools _ _ _ _ (hi_shape _ _ _ _ (he_inv _ _ _ _ Hh))) as Hwf0.
  pose proof (kw_pstart _ Hwf0) as E0. cbn in E0. by rewrite E0.
Qed.

(** ** Interrupts *)

Section startup.
Variables fuel disk_fuel : nat.
Variable intr_entry_table : Z → Z.
Variables syscall_handler ignore_intr_handler keyboard_service clock_service hard_disk_service : Z.
Variables idt_at tss_at thread_total_list kd kernel_func cpu_idle : Z.
Variables a_getpid a_write a_malloc a_free pfunc_a : Z.
Variable boot : Z → Z.
Variables total_mem hd_cnt : Z.

(** The tables when the machine is switched on, and what the linker gives. *)
Record tables_on (t : tables) : Prop := {
  to_idt : length (idt t) = 129%nat;
  to_acts : length (irqaction_t t) = 129%nat;
  to_names : length (trap_name t) = 129%nat;
  to_ports : ports t = [];
  to_entries i : 0 ≤ i < 0x81 → 0 ≤ intr_entry_table i < 4294967296;
  to_syscall : 0 ≤ syscall_handler < 4294967296;
  to_handlers : keyboard_service ≠ NULL ∧ clock_service ≠ NULL ∧ hard_disk_service ≠ NULL
}.

(** The gates lead to the entries, and each interrupt line that the controllers let through has
    its handler. *)
Record tables_ready (t : tables) : Prop := {
  tr_gates i : 0 ≤ i < 0x81 → ∃ g, idt t !! Z.to_nat i = Some g ∧
    gate_offset g = (if decide (i = 0x80) then syscall_handler else intr_entry_table i) ∧
    gate_dpl g = (if decide (i = 0x80) then 3 else 0);
  tr_lines line v : 0 ≤ line < 16 → line ≠ 2 → pic_vector (ports t) line = Some v →
    line = 0 ∧ irqaction_t t !! Z.to_nat v = Some clock_service ∨
    line = 1 ∧ irqaction_t t !! Z.to_nat v = Some keyboard_service ∨
    line = 14 ∧ irqaction_t t !! Z.to_nat v = Some hard_disk_service
}.

Local Abbreviation set_up := (interrupt_init intr_entry_table syscall_handler ignore_intr_handler idt_at).

Lemma register_known acts i handler : handler ≠ NULL → 0 ≤ i < 129 → length acts = 129%nat →
  register_irq_handler acts i handler = Ok (<[Z.to_nat i := handler]> acts).
Proof.
  intros Hh Hi Hl. unfold register_irq_handler. rewrite ASSERT_true by (by rewrite (proj2 (Z.eqb_neq _ _))).
  cbn [obind]. rewrite u8_small by lia. destruct (lookup_lt_is_Some_2 acts (Z.to_nat i)) as [x ->]; [lia|done].
Qed.

Lemma tables_init_spec t : tables_on t →
  ∃ t1 t2 out1 out2, keyboard_init keyboard_service (fst (set_up t)) = Ok (t1, out1) ∧
    timer_init clock_service t1 = Ok (t2, out2) ∧ length (irqaction_t t2) = 129%nat ∧
    tables_ready (set_irqaction t2 (<[46%nat := hard_disk_service]> (irqaction_t t2))).
Proof.
  intros [Hi Ha Hn Hp He Hs (Hk & Hc & Hd)].
  pose proof (trap_init_spec ignore_intr_handler (irqaction_t t) (trap_name t) Ha Hn) as Ht.
  unfold interrupt_init. cbn [idt idtr irqaction_t trap_name ports].
  destruct (trap_init ignore_intr_handler (irqaction_t t) (trap_name t)) as [acts names].
  destruct Ht as (Hal & _ & _).
  unfold keyboard_init, timer_init. cbn [fst irqaction_t add_ports set_irqaction idt idtr trap_name ports].
  unfold KEYBOARD_VECTOR, CLOCK_VECTOR. rewrite register_known by (done || lia). cbn [obind].
  do 4 eexists. split; [reflexivity|]. cbn [fst irqaction_t add_ports set_irqaction idt idtr trap_name ports].
  rewrite register_known by (rewrite ?length_insert; done || lia). cbn [obind].
  split; [reflexivity|]. cbn [fst irqaction_t add_ports set_irqaction idt idtr trap_name ports].
  rewrite !length_insert. split; [done|].
  split; cbn [fst irqaction_t add_ports set_irqaction idt idtr trap_name ports].
  - intros i Hi'. by apply idt_init_spec.
  - rewrite Hp. intros line v Hline H2 Hv.
    assert (pic_vector pic_8259A_init line = Some v) as Hv' by exact Hv. clear Hv.
    rewrite (proj1 (Forall_forall _ _) lines_delivered) in Hv' by (done || by apply elem_of_seqZ; lia).
    unfold delivered in Hv'. repeat case_decide; simplify_eq.
    + left. split; [done|]. change (Z.to_nat 33) with 33%nat. change (Z.to_nat 32) with 32%nat.
      rewrite list_lookup_insert_ne by done. apply list_lookup_insert_eq. rewrite length_insert. lia.
    + right. left. split; [done|]. change (Z.to_nat 33) with 33%nat. change (Z.to_nat 32) with 32%nat.
      rewrite !list_lookup_insert_ne by done. apply list_lookup_insert_eq. lia.
    + right. right. split; [done|]. change (Z.to_nat 46) with 46%nat.
      apply list_lookup_insert_eq. rewrite !length_insert. lia.
Qed.

(** ** [init_os] *)

Context {D : Type} `{AtaBus D} (sector : Z → Z → list Z) (size : Z → Z).
Context `{!AtaDisk D 0x1f0 (0x2e + Z.of_nat 0) sector size}.

(** In each wait the disk asks for its interrupt, and then the idle thread and the clock go on; other events may come
    in between. *)
Context (oracle : nat → list wait_event) (Horacle : ∀ n, disk_answers `sublist_of` oracle n).

(** The kernel's memory when the machine is switched on: there is no thread; the words of the
    variables, of the first PCB and of the heap exist, and the variables do not overlap.  Interrupts are off:
    the loader does not clear the flag, so this is how the BIOS has to leave it. *)
Record memory_on (w : world) : Prop := {
  mo_total : 0x2200000 ≤ total_mem < 0x7f000000;
  mo_array : 0 < kd ∧ kd + 112 ≤ KERNEL_HEAP_BASE ∧ array_mapped kd (nodes (kern w));
  mo_list : 0 < thread_total_list ∧ thread_total_list + 8 ≤ KERNEL_HEAP_BASE ∧
    node (nodes (kern w)) thread_total_list;
  mo_main : words (nodes (kern w)) main_pcb 200;
  mo_apart : (kd + 112 ≤ thread_total_list ∨ thread_total_list + 8 ≤ kd) ∧
    (kd + 112 ≤ main_pcb ∨ main_pcb + 200 ≤ kd) ∧
    (thread_total_list + 8 ≤ main_pcb ∨ main_pcb + 200 ≤ thread_total_list);
  mo_heap : mapped (kernel_pages total_mem) (nodes (kern w));
  mo_tasks : tasks (kern w) = ∅ ∧ next_pid w = 0;
  mo_intr : intr_on (kern w) = false
}.

(** Two drives at the first channel, the first with the partitions [P0] and [L0] and the
    second with the primary partitions [P1]. *)
Record disks_on (s : machine D) (P0 L0 P1 : list (Z * Z)) : Prop := {
  do_driver : ∃ d r c0 c1, m_driver s = Driver d [c0; c1] ∧ ready d r;
  do_sizes i : 0 ≤ i ≤ 1 → 0 < size i ≤ 268435456;
  do_disks : ∃ hd0 hd1 rest, m_disks s = hd0 :: hd1 :: rest ∧ length (prim_parts hd0) = 4%nat ∧
    length (logic_parts hd0) = 8%nat ∧ length (prim_parts hd1) = 4%nat;
  do_statics : m_statics s = Statics 0 0 0;
  do_first : ∃ b, partitioned sector size (Drive 0 0) P0 b L0;
  do_second : partitioned sector size (Drive 0 1) P1 0 [];
  do_fit : (length P0 + length P1 ≤ 3)%nat ∧ (length L0 ≤ 8)%nat ∧ (length L0 < disk_fuel)%nat
}.

Record power_on (s : machine D) (P0 L0 P1 : list (Z * Z)) : Prop := {
  po_tables : tables_on (m_tables s);
  po_memory : memory_on (m_world s);
  po_calls : NoDup [NULL; a_getpid; a_write; a_malloc; a_free] ∧ length (m_syscalls s) = 32%nat;
  po_count : 1 ≤ hd_cnt ≤ 2;
  po_disks : disks_on s P0 L0 P1
}.

(** What the other parts ask of the state in which they start.  The threads are as the waits for the disk have left them,
    which came after a state with the main thread running and the idle thread ready. *)
Record system_ready (s s' : machine D) (P0 L0 : list (Z * Z)) : Prop := {
  sr_tables : tables_ready (m_tables s');
  sr_memory : memory_ready total_mem kd (fst (m_phys s')) (snd (m_phys s')) (m_world s');
  sr_threads : ∃ rs, threads_ok thread_total_list [page_addr 0; main_pcb] (m_world s') rs ∧
    (rs = [page_addr 0] ∨ rs = [] ∧ asleep (kern (m_world s')) (page_addr 0));
  sr_running : current_task (kern (m_world s')) = main_pcb ∧ idle_thread (kern (m_world s')) = page_addr 0 ∧
    intr_on (kern (m_world s')) = false;
  sr_idle : i_susp (m_idle s') = Some true ∧ i_pc (m_idle s') ≠ Halted;
  sr_waits : ∃ k n, kinv [page_addr 0; main_pcb] k [page_addr 0] ∧ current_task k = main_pcb ∧ (0 < n)%nat ∧
    disk_waits fuel oracle n (k, idle_new 0) = Ok (kern (m_world s'), m_idle s');
  sr_initial ls : (∀ l L, ls !! l = Some L → L = lock_init) →
    initial [page_addr 0; main_pcb] (Sync.Sys (kern (m_world s')) ls
      {[ main_pcb := Ctx Client None; page_addr 0 := Ctx Client (Some true) ]});
  sr_console : console_lock (m_console s') = unlocked;
  sr_calls : Syscall.table_ok a_getpid a_write a_malloc a_free (m_syscalls s) (m_syscalls s');
  sr_disk : ∃ hd c rest, m_disks s' !! 0%nat = Some hd ∧ g_channels (m_driver s') = c :: rest ∧
    ch_lock c = unlocked ∧ irq_no c = 0x2e ∧
    take (length P0) (prim_parts hd) = numbered (chars "sda") 1 P0 ∧
    take (length L0) (logic_parts hd) = numbered (chars "sda") 5 L0
}.

Local Abbreviation boots := (init_os fuel disk_fuel intr_entry_table syscall_handler ignore_intr_handler
  keyboard_service clock_service hard_disk_service idt_at tss_at thread_total_list kd kernel_func cpu_idle
  a_getpid a_write a_malloc a_free boot total_mem hd_cnt oracle).

(** The scheduler with its idle thread. *)
Lemma kinv_idle idle w rs ts : threads_ok thread_total_list ts w rs → idle_thread (kern w) = idle → idle ∈ ts →
  kinv ts (kern w) rs.
Proof using.
  intros Hok Hid Hin. assert (kern w = set_idle (kern w) idle) as -> by (rewrite <- Hid; by destruct (kern w)).
  apply kinv_set_idle; [apply (to_sched _ _ _ _ Hok)|done].
Qed.

(** After [thread_init] the idle thread has not run yet. *)
Lemma rest_start idle w : threads_ok thread_total_list [idle; main_pcb] w [idle] → running (kern w) →
  current_task (kern w) = main_pcb → idle_thread (kern w) = idle → intr_on (kern w) = false →
  bounded (kern w) → idle ≠ main_pcb → at_rest idle main_pcb (kern w, idle_new 0).
Proof using.
  intros Hok Hr Hc Hid Hoff Hb Hne. split; [|done]. exists [idle]. split; [|done].
  apply (iinv_true idle main_pcb _ false), idle_new_inv; [|done|done|by rewrite Hc, Hid].
  apply (kinv_idle idle w); [done|done|by left].
Qed.

(** The threads, when the main thread goes on after its waits. *)
Lemma rest_threads idle total w k i : threads_ok total [idle; main_pcb] w [idle] → idle ≠ main_pcb →
  at_rest idle main_pcb (k, i) → upd_nodes (nodes (kern w)) (nodes k) (dispatch_node <$> [idle; main_pcb]) →
  intr_on (kern w) = false →
  (∃ rs, threads_ok total [idle; main_pcb] (set_kern w k) rs ∧ (rs = [idle] ∨ rs = [] ∧ asleep k idle)) ∧
  kept total [idle; main_pcb] w (set_kern w k) ∧
  (i_susp i = Some true ∧ i_pc i ≠ Halted) ∧
  (∀ ls, (∀ l L, ls !! l = Some L → L = lock_init) →
    initial [idle; main_pcb] (Sync.Sys k ls {[ main_pcb := Ctx Client None; idle := Ctx Client (Some true) ]})).
Proof using.
  intros Hok Hne ((rs & Hi & Hrs) & Hc & Hid & Hoff) Hu Hoff0. pose proof Hi as [Hk Hr _ Hcpu Hsusp _]. cbn [fst snd] in *.
  assert (kinv [idle; main_pcb] (set_idle k (current_task k)) rs) as Hk'
    by (pose proof (k_current _ _ _ Hk); by destruct Hk).
  destruct (threads_moved total _ w _ k rs Hok Hk' Hu) as [Hok' Hkept]; [congruence|].
  split; [|split; [done|split]].
  - exists rs. split; [done|]. destruct (rest_ready idle main_pcb k rs Hk Hrs) as [-> | ->]; [right|by left].
    split; [done|]. eapply (two_asleep idle main_pcb k []); [done|by left|congruence|by intros ?%elem_of_nil].
  - destruct (i_susp i) as [b|]; [by destruct (Hsusp b eq_refl) as (-> & ? & _)|]. destruct Hcpu; congruence.
  - intros ls Hls. by apply (initial_two idle _ _ rs).
Qed.

(** [ide_init] waits. *)
Lemma init_waits s d d' (h cnt : Z) x y cur : ide_init (H := board_bus fuel oracle) disk_fuel cur h cnt x = Ok y →
  i_driver x = Driver d s → hw (i_driver y) = d' → (b_waits d < b_waits d')%nat.
Proof using.
  intros E Ex <-.
  assert (PreOrder (λ b b' : board D, (b_waits b ≤ b_waits b')%nat)) by (split; [by intros ?|intros ???; lia]).
  replace d with (hw (i_driver x)) by (by rewrite Ex). revert E.
  apply (ide_init_awaits (H := board_bus fuel oracle) (λ b b', b_waits b ≤ b_waits b')%nat (λ b b', b_waits b < b_waits b')%nat);
    try (intros; lia); try done.
  - intros b p. cbn. by destruct (inb _ _).
  - intros b p n. cbn. by destruct (insw _ _ _).
  - intros b irq b' E. cbn -[disk_wait] in E. destruct (await _ _); [|done]. cbn -[disk_wait] in E.
    destruct (b_sched b) as [s0|]; [|done]. cbn -[disk_wait] in E. destruct (disk_wait _ _ _); try done. injection E as <-. cbn. lia.
Qed.

Lemma init_os_spec s P0 L0 P1 : heap_fuel fuel → power_on s P0 L0 P1 →
  ∃ s', boots s = Ok s' ∧ system_ready s s' P0 L0 ∧
    next_pid (m_world s') = 2 ∧
    (∀ i, 0 ≤ i < kernel_total (w_pools (m_world s')) → vm_page (w_pools (m_world s')) i = bool_decide (i = 0)).
Proof.
  intros Hf [Ht [Htot (Hkd0 & Hkd1 & Harr) (Hl0 & Hl1 & Hln) Hmain (Hap1 & Hap2 & Hap3) Hheap (Htasks & Hpid) Hoff0]
    (Hnd & Hcalls) Hcnt [(d & r & c0 & c1 & Ed & Hr) Hsz (hd0 & hd1 & rest & Eds & Hp0 & Hl & Hp1) Est
      (b & Hfirst) Hsecond (Hfit & HL & HLf)]].
  destruct (tables_init_spec _ Ht) as (t1 & t2 & out1 & out2 & Ek & Etm & Hlen & Htr).
  destruct (mem_init_spec boot total_mem kd (fst (m_phys s)) (m_world s))
    as (pm & cr3 & w & out & Em & Hmem & Hfree & Hmono & Ht' & Hi' & Hpid'); [done..|].
  pose proof (mr_heap _ _ _ _ _ Hmem) as [Hinv Hlock _ _]. cbn [fst] in Hinv, Hlock.
  pose proof (mr_total _ _ _ _ _ Hmem) as Hkt. destruct (kernel_pages_range _ Htot) as (Hkp & _).
  assert (first_free (w_pools w) 0) as Hff.
  { split; [|intros r' Hr' [? _]; lia]. split; [done|]. fold (kernel_total (w_pools w)). rewrite Hkt.
    split; [divlia|]. intros i Hi. apply Hfree. rewrite Hkt. divlia. }
  destruct (thread_init_spec fuel thread_total_list kernel_func cpu_idle w 0)
    as (w' & Ew & Hok & Hidle & Hcur & _ & _ & Hinit & Hkept & Hgot & Hpid2 & Hbound).
  { split; [by rewrite Ht'|lia|by apply (upd_node_mono _ _ _ Hmono)|by intros j Hj; apply Hmono, Hmain
      |apply (sh_pools _ _ _ _ (hi_shape _ _ _ _ Hinv))|apply (hi_mapped _ _ _ _ Hinv)|done]. }
  { by rewrite Hpid'. } { done. } { done. } { rewrite Hkt. divlia. }
  set (calls := [a_getpid; a_write; a_malloc; a_free] ++ drop 4 (m_syscalls s)).
  assert (syscall_init a_getpid a_write a_malloc a_free (m_syscalls s) = Ok calls) as Ec.
  { subst calls. revert Hcalls. generalize (m_syscalls s) as l. intros l Hl'.
    do 4 (destruct l as [|? l]; [discriminate Hl'|]). done. }
  assert (page_addr 0 ≠ main_pcb) as Hne by done.
  assert (intr_on (kern w') = false) as Hoff by (by rewrite (kp_intr _ _ _ _ Hkept), Hi').
  assert (∀ (l : Z) (L : Sync.lock), (∅ : gmap Z Sync.lock) !! l = Some L → L = lock_init) as Hnone
    by (intros l L E; by rewrite lookup_empty in E).
  destruct (Hinit ∅ Hnone) as (_ & Hrun & _).
  pose proof (rest_start (page_addr 0) w' Hok Hrun Hcur Hidle Hoff Hbound Hne) as Hrest.
  assert (2 ≤ fuel)%nat as Hf2 by (unfold heap_fuel in Hf; lia).
  destruct (ide_init_spec (H := board_bus fuel oracle)
    (AtaDisk0 := board_ata 0x1f0 _ sector size (page_addr 0) main_pcb fuel Hne Hf2 oracle Horacle (kern w', idle_new 0))
    sector size main_pcb [chan 0x1f0 0 unlocked false 0; c1] disk_fuel hard_disk_service hd_cnt
    (Ide (on_board (kern w') (m_driver s)) (m_disks s) (m_statics s) (irqaction_t t2) (disk_log s))
    (Board d (Some (kern w', idle_new 0)) 0) r c0 c1 hd0 hd1 rest P0 b L0 P1)
    as (d' & Eide & r' & Hd' & (k & i) & Esched & Hrest' & Hu & Hwaits);
    [done|apply Ht|done| |done|done|by rewrite Ed, Eds, Est|done..|].
  { split; [done|]. eexists. split; [reflexivity|]. split; [exact Hrest|]. split; [apply upd_nodes_refl|done]. }
  pose proof (init_waits _ _ _ _ _ _ _ _ Eide eq_refl eq_refl) as Hcount. cbn [b_waits] in Hcount.
  destruct (rest_threads _ _ w' k i Hok Hne Hrest' Hu Hoff) as ((rs & Hok' & Hrs) & Hkept' & Hsusp & Hinit').
  eexists. split; [|split; [|split]].
  { unfold init_os. rewrite (surjective_pairing (interrupt_init _ _ _ _ _)).
    rewrite Ek. cbn [obind]. rewrite Em. cbn [obind]. rewrite Etm. cbn [obind]. rewrite Ew. cbn [obind].
    rewrite Ec. cbn [obind]. unfold get_cur_task. rewrite Hcur, Eide. cbn [obind i_driver hw]. rewrite Esched. reflexivity. }
  - assert (∀ t, t ∈ [page_addr 0; main_pcb] → kd + 112 ≤ t ∨ t + 200 ≤ kd) as Hts.
    { intros t [->|Ht0%list_elem_of_singleton]%elem_of_cons; [|by rewrite Ht0].
      left. unfold KERNEL_HEAP_BASE in *. change (page_addr 0) with 3238002688. lia. }
    destruct Hrest' as (_ & Hc' & Hid' & Hoff').
    split; cbn [m_tables m_phys m_world m_console m_segments m_syscalls m_driver m_disks fst snd
      i_driver i_disks i_statics i_irqaction kern set_kern m_idle off_board g_channels]; try done.
    + eapply memory_ready_kept; [exact Hmem| |exact Hok'|done|exact Hts].
      eapply kept_trans; [|exact Hkept|exact Hkept']. intros t Ht0. by right.
    + by exists rs.
    + exists (kern w'), (b_waits d'). split_and!; [apply (kinv_idle (page_addr 0) w'); [done|done|by left]|done|done|done].
    + do 3 eexists. split_and!; [reflexivity|reflexivity|done|done| |].
      * cbn [prim_parts]. by rewrite take_app_length' by (by rewrite length_numbered).
      * cbn [logic_parts]. by rewrite take_app_length' by (by rewrite length_numbered).
  - done.
  - cbn [m_world w_pools set_kern]. rewrite (pg_total _ _ _ _ Hgot). intros q Hq. rewrite (pg_vm _ _ _ _ Hgot) by lia.
    case_decide as E; [symmetry; apply bool_decide_eq_true; lia|].
    rewrite bool_decide_false by lia. by apply Hfree.
Qed.

(** ** [main] *)

Lemma power_on_say s out P0 L0 P1 : power_on s P0 L0 P1 → power_on (say s out) P0 L0 P1.
Proof. by intros [? ? ? ? []]. Qed.

Local Abbreviation enabled w := (set_kern w (fst (local_irq_enable (kern w)))).

Lemma threads_ok_enabled total ts w rs : threads_ok total ts w rs → threads_ok total ts (enabled w) rs.
Proof.
  rewrite local_irq_enable_eq. intros []. split; try done. cbn [kern set_kern].
  by apply (kinv_set_intr _ (set_idle (kern w) (current_task (kern w)))).
Qed.

Lemma memory_ready_enabled pm cr3 w : memory_ready total_mem kd pm cr3 w →
  memory_ready total_mem kd pm cr3 (enabled w).
Proof. rewrite local_irq_enable_eq. by intros [[[]] ? ? ? ?]. Qed.

Local Abbreviation starts arg := (main fuel disk_fuel intr_entry_table syscall_handler ignore_intr_handler
  keyboard_service clock_service hard_disk_service idt_at tss_at thread_total_list kd kernel_func cpu_idle
  a_getpid a_write a_malloc a_free pfunc_a boot total_mem hd_cnt oracle arg).

(** * Properties *)

(** C7. The start-up composes: on a machine with 34 MB to 2032 MB of memory and one or two disks,
    started with interrupts off, [init_os] ends, and leaves what every other part asks of the state it
    starts in.  All gates lead to their entries, and each interrupt that the controllers let through has its handler.
    The page tables map each page of the kernel heap to the frame that the pools reserve with
    it, apart from the user frames, and nothing below 0xc0000000; the heap is empty and fit
    for [sys_malloc].  The threads are as one or more waits for the disk have left them: in each wait the main thread
    blocks itself, and the idle thread runs, with any
    interrupts in between; then the main thread runs again, with interrupts off, and the idle thread has been
    preempted and is ready, or sleeps in its [thread_block].  The machine of
    [Sync] is in an initial state, whatever locks there are.  The console is free, the
    table of system calls is complete, and the partitions of the first disk are entered. *)
Theorem init_os_ready s P0 L0 P1 : heap_fuel fuel → power_on s P0 L0 P1 →
  ∃ s', boots s = Ok s' ∧ system_ready s s' P0 L0.
Proof. intros Hf Hs. destruct (init_os_spec s P0 L0 P1 Hf Hs) as (s' & ? & ? & _). by exists s'. Qed.

(** C31. [main] goes on from there: its loop is reached with interrupts enabled, by a main
    thread with the new "thread A" ready behind it, and before that "cpu_idle", if the last wait for the disk has
    left it ready, while otherwise it sleeps; and with the
    heap and the tables as [init_os] left them; [thread A] starts in [kernel_func] with its
    function and its argument.  But its stack is in a page that the pools still count as free. *)
Theorem main_starts s P0 L0 P1 arg : heap_fuel fuel → power_on s P0 L0 P1 →
  let idle := page_addr 0 in let thread_a := page_addr 1 in
  ∃ s' x rs, starts arg s = Ok s' ∧
    let w := m_world s' in
    threads_ok thread_total_list [thread_a; idle; main_pcb] w (rs ++ [thread_a]) ∧
    (rs = [idle] ∨ rs = [] ∧ asleep (kern w) idle) ∧
    current_task (kern w) = main_pcb ∧ intr_on (kern w) = true ∧
    tasks (kern w) !! thread_a = Some x ∧ pid x = 3 ∧ priority x = 2 ∧ status x = TASK_READY ∧
    frame_at (nodes (kern w)) (self_kernel_stack x) kernel_func pfunc_a arg ∧
    page_addr 200 ≤ self_kernel_stack x < page_addr 201 ∧ vm_page (w_pools w) 200 = false ∧
    tables_ready (m_tables s') ∧
    memory_ready total_mem kd (fst (m_phys s')) (snd (m_phys s')) w.
Proof.
  intros Hf Hs idle thread_a. set (s1 := say s [put_str "total memory: 0x"; put_hex total_mem; put_char "
"]).
  destruct (init_os_spec s1 P0 L0 P1 Hf (power_on_say _ _ _ _ _ Hs)) as (s' & E & [Htab Hmem (rs & Hthr & Hrs) (Hcur & _ & _) _ _ _ _ _ _] & Hpid & Hfree).
  set (w := m_world s') in *. pose proof (mr_total _ _ _ _ _ Hmem) as Hkt.
  destruct (kernel_pages_range _ (mo_total _ (po_memory _ _ _ _ Hs))) as (Hkp & _).
  assert (200 < kernel_total (w_pools w)) as Hlarge by (rewrite Hkt; divlia).
  assert (first_free (w_pools w) 1) as Hff.
  { split.
    - split; [done|]. fold (kernel_total (w_pools w)). split; [lia|]. intros i Hi.
      assert (vm_page (w_pools w) i = bool_decide (i = 0)) as Hv by (apply Hfree; lia).
      unfold vm_page in Hv. by rewrite Hv, bool_decide_false by lia.
    - intros r Hr (Hr0 & _ & Hb). assert (r = 0) as -> by lia. specialize (Hb 0 ltac:(lia)).
      assert (vm_page (w_pools w) 0 = bool_decide (0 = 0)) as Hv by (apply Hfree; lia).
      unfold vm_page in Hv. rewrite Hv in Hb. done. }
  destruct (thread_start_spec fuel thread_total_list kernel_func [idle; main_pcb] rs w 1 Hthr Hf)
    with (name := thread_a_name) (prio := 2) (function := pfunc_a) (func_argc := arg)
    as (w2 & E2 & Hnew & Hok2 & [Hpcb Hframe Hpid2 Hgot Hc2 _ _ _] & Hkept); [done|done|lia|by vm_compute; lia|].
  set (x := started_pcb w (page_addr 1) thread_a_name 2) in *.
  assert (self_kernel_stack x = stack_of 1) as Estack by done.
  eexists _, x, rs. split.
  { unfold main. fold s1. rewrite E. cbn [obind]. fold w. rewrite E2. cbn [obind]. reflexivity. }
  cbn [m_world m_tables m_phys]. rewrite local_irq_enable_eq.
  cbn [kern set_kern Thread.set_intr nodes tasks intr_on current_task w_pools].
  rewrite Estack. split_and!; try done.
  - rewrite <- local_irq_enable_eq. by apply threads_ok_enabled.
  - destruct Hrs as [->|(-> & st & Hst & Hb)]; [by left|right]. split; [done|]. exists st. split; [|done].
    unfold status_of in *. cbn. rewrite Hpcb. unfold status_in in *. by rewrite lookup_insert_ne.
  - by rewrite Hc2.
  - rewrite Hpcb. apply lookup_insert_eq.
  - cbn. fold w in Hpid. by rewrite Hpid.
  - cbn. destruct (Z.eqb_spec (page_addr 1) (main_thread w)) as [Em|]; [|done].
    pose proof (to_main _ _ _ _ Hthr) as Hm. fold w in Hm. rewrite <- Em in Hm. done.
  - rewrite (pg_vm _ _ _ _ Hgot), decide_False by lia. fold w in Hfree. by rewrite Hfree by lia.
  - rewrite <- local_irq_enable_eq. apply memory_ready_enabled.
    eapply memory_ready_kept; [exact Hmem|exact Hkept|exact Hok2|apply (mo_apart _ (po_memory _ _ _ _ Hs))|].
    intros t [->|Ht]%elem_of_cons.
    + left. subst idle. rewrite page_addr_eq. destruct (mo_array _ (po_memory _ _ _ _ Hs)) as (_ & Hk1 & _).
      unfold KERNEL_HEAP_BASE in Hk1. lia.
    + apply list_elem_of_singleton in Ht as ->. apply (mo_apart _ (po_memory _ _ _ _ Hs)).
Qed.

End startup.

(** * The hypotheses can be met *)

(** A machine with 34 MB of memory and the two disks of [Partition]. *)
Definition demo_span : list (Z * Z) := [(demo_total, 2); (main_pcb, 50); (demo_kd, 28); (page_addr 0, 262144)].
Definition demo_words : mem := proj1_sig (words_mem demo_span).

Lemma demo_word p n j : (p, n) ∈ demo_span → 0 ≤ j < n → is_Some (demo_words !! (p + 4 * j)).
Proof. apply (proj2_sig (words_mem _)). Qed.

Definition demo_machine : machine demo_disk :=
  Machine (Tables (replicate 129 (GateDescr 0 0 0 0 0)) 0 (replicate 129 0) (replicate 129 EmptyString) [])
    (λ _, 0, 0)
    (World (KState demo_words ∅ queue_init main_pcb 0 false) demo_pools unlocked unlocked unlocked 0 0)
    (Console.Console unlocked []) ([], [], 0) (replicate 32 0)
    (Driver (demo_on (demo_image two_disks)) (replicate 2 (Channel 0 0 unlocked true 0)))
    (replicate 4 (empty_disk [])) (Statics 0 0 0) [] [] (idle_new 0).

(** While the main thread waits, a key is pressed, and the clock interrupts twice. *)
Definition demo_oracle (_ : nat) : list wait_event := [WGo; WOther; WDisk; WGo; WClock; WGo; WGo; WClock; WGo].
Lemma demo_oracle_ok n : disk_answers `sublist_of` demo_oracle n.
Proof. unfold disk_answers, demo_oracle. sublist. Qed.

Definition demo_entry_of (i : Z) : Z := 0xc0001000 + 16 * i.

Lemma demo_power_on : power_on (AtaDisk0 := demo_ata _ two_disks_ok) 3 demo_entry_of 0xc0002000 0xc0003000 0xc0003100 0xc0003200
  demo_total demo_kd 100 200 300 400 0x2200000 2 (demo_image two_disks) (λ _, 64)
  demo_machine [(1, 7)] [(9, 3); (13, 2)] [(2, 5)].
Proof.
  assert (∀ p n, (p, n) ∈ demo_span ↔ (p, n) = (demo_total, 2) ∨ (p, n) = (main_pcb, 50) ∨
    (p, n) = (demo_kd, 28) ∨ (p, n) = (page_addr 0, 262144)) as Hspan.
  { intros q n. unfold demo_span. rewrite !elem_of_cons, elem_of_nil. tauto. }
  split.
  - split; cbn [m_tables demo_machine idt irqaction_t trap_name ports]; try apply length_replicate; try done; try lia.
    unfold demo_entry_of. lia.
  - split; cbn [m_world demo_machine kern nodes]; try done; try lia.
    + split_and!; [done|done|]. intros j Hj. apply (demo_word _ 28); [apply Hspan; auto|done].
    + split_and!; [done|done|]. split; [apply (demo_word _ 2 0)|apply (demo_word _ 2 1)]; (lia || (apply Hspan; auto)).
    + intros j Hj. apply (demo_word _ 50); [apply Hspan; auto|lia].
    + unfold demo_kd, demo_total, main_pcb. lia.
    + change (kernel_pages 0x2200000) with 256. intros r j Hr Hj.
      replace (page_addr r + 4 * j) with (page_addr 0 + 4 * (1024 * r + j)) by (rewrite !page_addr_eq; lia).
      apply (demo_word _ 262144); [apply Hspan; auto|lia].
  - split; [apply (bool_decide_unpack _); by vm_compute|done].
  - done.
  - split; cbn [m_driver m_disks m_statics demo_machine].
    + do 4 eexists. split; [reflexivity|]. reflexivity.
    + done.
    + do 3 eexists. split_and!; reflexivity.
    + done.
    + exists 8. exact two_disks_0.
    + exact two_disks_1.
    + cbn. lia.
Qed.

Lemma init_os_ready_witness : ∃ s', init_os demo_fuel 3 demo_entry_of 0xc0002000 0xc0002100 0xc0003000 0xc0003100
    0xc0003200 0xc0030000 0xc0031000 demo_total demo_kd 0xc0002200 0xc0002300 100 200 300 400 (λ _, 0) 0x2200000 2
    demo_oracle demo_machine = Ok s' ∧
  translate (fst (m_phys s')) (snd (m_phys s')) 0xc1000123 = Some 0x1000123 ∧
  console_lock (m_console s') = unlocked ∧ current_task (kern (m_world s')) = main_pcb.
Proof.
  destruct (init_os_ready (AtaDisk0 := demo_ata _ two_disks_ok) demo_fuel 3 demo_entry_of 0xc0002000 0xc0002100
    0xc0003000 0xc0003100 0xc0003200 0xc0030000 0xc0031000 demo_total demo_kd 0xc0002200 0xc0002300 100 200 300 400
    (λ _, 0) 0x2200000 2 (demo_image two_disks) (λ _, 64) demo_oracle demo_oracle_ok demo_machine [(1, 7)] [(9, 3); (13, 2)] [(2, 5)])
    as (s' & E & [_ Hm (rs & Ht & _) (Hc & _) _ _ _ Hcon _ _]); [apply demo_heap_fuel|apply demo_power_on|].
  exists s'. split; [exact E|]. split; [|split; [exact Hcon|exact Hc]].
  pose proof (to_pools _ _ _ _ Ht) as Hwf.
  destruct (mr_pages _ _ _ _ _ Hm 0 0x123) as [H _]; [rewrite (mr_total _ _ _ _ _ Hm); by vm_compute|by vm_compute|].
  rewrite (kw_pstart _ Hwf) in H. exact H.
Defined.

Lemma main_starts_witness : ∃ s' x, main demo_fuel 3 demo_entry_of 0xc0002000 0xc0002100 0xc0003000 0xc0003100
    0xc0003200 0xc0030000 0xc0031000 demo_total demo_kd 0xc0002200 0xc0002300 100 200 300 400 0xc0002400
    (λ _, 0) 0x2200000 2 demo_oracle 0xc0009000 demo_machine = Ok s' ∧
  tasks (kern (m_world s')) !! page_addr 1 = Some x ∧ pid x = 3 ∧ intr_on (kern (m_world s')) = true.
Proof.
  destruct (main_starts (AtaDisk0 := demo_ata _ two_disks_ok) demo_fuel 3 demo_entry_of 0xc0002000 0xc0002100
    0xc0003000 0xc0003100 0xc0003200 0xc0030000 0xc0031000 demo_total demo_kd 0xc0002200 0xc0002300 100 200 300 400
    0xc0002400 (λ _, 0) 0x2200000 2 (demo_image two_disks) (λ _, 64) demo_oracle demo_oracle_ok demo_machine [(1, 7)] [(9, 3); (13, 2)] [(2, 5)]
    0xc0009000)
    as (s' & x & rs & E & _ & _ & _ & Hi & Hx & Hp & _); [apply demo_heap_fuel|apply demo_power_on|].
  exists s', x. split; [exact E|]. split; [exact Hx|]. split; [exact Hp|exact Hi].
Defined.
