(* ===== verification/Main.v ===== *)
(** The loop of [main] and the threads of kernel/main.c: clients of the clock, of the character
    queue with the console, and of the heap.  The two threads that test the heap are verified against the interface
    [AllocatorLaws], which the kernel heap implements. *)
From S2P Require Import Prelude Bitmap KList Pool Mutex Heap HeapSafe Thread Sync IoQueue Timer Keyboard Screen Console Desc Partition Create Init.
Local Open Scope Z_scope.
Local Abbreviation length := List.length.

(** A string literal on the console: [console_str]. *)
Definition console_text (c : console) (cur : Z) (text : list Z) : outcome console :=
  let! c := console_acquire c cur in
  console_release (Console.print c text) cur.

Lemma console_text_spec c cur text : console_lock c = unlocked → cur ≠ NULL →
  console_text c cur text = Ok (Console.print c text).
Proof.
  intros Hl Hc. unfold console_text, console_acquire. rewrite Hl, mutex_acquire_unlocked by done.
  cbn [obind]. unfold console_release. cbn [console_lock Console.print]. rewrite mutex_release_locked.
  cbn [obind]. unfold Console.print. cbn. by rewrite Hl.
Qed.

(** * The loop of [main] *)

(** One round: [clk j] is the number of clock interrupts before the [j]-th time that the variable
    [ticks] is read, which holds it modulo 2^32.  The result is the number of the next reading. *)
Definition main_round (fuel : nat) (clk : nat → Z) (cur : Z) (c : console) (i : nat) : outcome (console * nat) :=
  let! c := console_text c cur (chars "MAIN ") in
  let! n := mil_sleep fuel (u32 (clk i)) (λ j, u32 (clk (S i + j)%nat)) 1000 in
  Ok (c, (S i + n + 1)%nat).

Fixpoint main_rounds (n fuel : nat) (clk : nat → Z) (cur : Z) (c : console) (i : nat) : outcome (console * nat) :=
  match n with
  | O => Ok (c, i)
  | S n => let! (c, i) := main_round fuel clk cur c i in main_rounds n fuel clk cur c i
  end.

(** * The consumer *)

(** One round of the loop of [thread_f], on the buffer of the keyboard; it ends early if
    [ioq_getchar] suspends the thread. *)
Definition thread_f_round (fuel : nat) (param : list Z) (k : kstate) (q : ioqueue) (c : console)
    : outcome (kstate * ioqueue * console) :=
  let (k, old_) := local_irq_disable k in
  let cur := get_cur_task k in
  if negb (ioq_empty q) then
    let! c := console_text c cur param in
    let! (k, q, r) := ioq_getchar fuel k q in
    match r with
    | Got ch =>
        let! c := console_char c cur ch in
        Ok (set_intr_status k old_, q, c)
    | Sleeping _ | LockBusy _ => Ok (k, q, c)
    end
  else Ok (set_intr_status k old_, q, c).

(** Bytes from the keyboard, one interrupt each, and rounds of the consumer. *)
Fixpoint keys (fuel : nat) (s : kbd) (bs : list Z) : outcome kbd :=
  match bs with
  | [] => Ok s
  | b :: bs => let! s := keyboard_service fuel s b in keys fuel s bs
  end.

Fixpoint thread_f_rounds (n fuel : nat) (param : list Z) (k : kstate) (q : ioqueue) (c : console)
    : outcome (kstate * ioqueue * console) :=
  match n with
  | O => Ok (k, q, c)
  | S n => let! (k, q, c) := thread_f_round fuel param k q c in thread_f_rounds n fuel param k q c
  end.

(** * The test of the heap *)

(** An allocator, and what its clients rely on: [blocks s live k] says that the blocks [live]
    (address to size) are held in [s], and that [k] more pages can be taken.  [pages size] is what
    a request of [size] bytes may cost. *)
Class Allocator (S : Type) := {
  alloc : S → Z → outcome (S * Z);
  release : S → Z → outcome S
}.

Class AllocatorLaws (S : Type) `{Allocator S} (pages : Z → Z) (max_size : Z) := {
  blocks : S → gmap Z Z → Z → Prop;
  word : S → Z → option Z;
  pages_nonneg size : 0 ≤ pages size;
  alloc_law s live k size :
    blocks s live k → 0 < size ≤ max_size → pages size ≤ k →
    ∃ s' p, alloc s size = Ok (s', p) ∧ live !! p = None ∧
      blocks s' (<[p := size]> live) (k - pages size) ∧
      ∀ q z a, live !! q = Some z → q ≤ a < q + z → word s' a = word s a;
  release_law s live k p z :
    blocks s live k → live !! p = Some z →
    ∃ s', release s p = Ok s' ∧ blocks s' (delete p live) k ∧
      ∀ q z a, live !! q = Some z → q ≠ p → q ≤ a < q + z → word s' a = word s a
}.

Section tests.
Context {S : Type} `{Allocator S}.

(** [size *= 2], a signed integer. *)
Definition twice (size : Z) : Z := s32 (size * 2).

(** The body of the loop of [k_thread_a]. *)
Definition k_thread_a_round (s : S) : outcome S :=
  let size := 128 in
  let! (s, addr1) := alloc s size in
  let size := twice size in
  let! (s, addr2) := alloc s size in
  let size := twice size in
  let! (s, addr3) := alloc s size in
  let! s := release s addr1 in
  let! (s, addr4) := alloc s size in
  let size := twice (twice (twice (twice size))) in
  let size := twice (twice (twice size)) in
  let! (s, addr5) := alloc s size in
  let! (s, addr6) := alloc s size in
  let! s := release s addr5 in
  let size := twice size in
  let! (s, addr7) := alloc s size in
  let! s := release s addr6 in
  let! s := release s addr7 in
  let! s := release s addr2 in
  let! s := release s addr3 in
  release s addr4.

(** The body of the loop of [k_thread_b]. *)
Definition k_thread_b_round (s : S) : outcome S :=
  let size := 9 in
  let! (s, addr1) := alloc s size in
  let size := twice size in
  let! (s, addr2) := alloc s size in
  let size := twice size in
  let! s := release s addr2 in
  let! (s, addr3) := alloc s size in
  let! s := release s addr1 in
  let! (s, addr4) := alloc s size in
  let! (s, addr5) := alloc s size in
  let! (s, addr6) := alloc s size in
  let! s := release s addr5 in
  let size := twice size in
  let! (s, addr7) := alloc s size in
  let! s := release s addr6 in
  let! s := release s addr7 in
  let! s := release s addr3 in
  let! s := release s addr4 in
  let size := twice (twice (twice size)) in
  let! (s, addr1) := alloc s size in
  let! (s, addr2) := alloc s size in
  let! (s, addr3) := alloc s size in
  let! (s, addr4) := alloc s size in
  let! (s, addr5) := alloc s size in
  let! (s, addr6) := alloc s size in
  let! (s, addr7) := alloc s size in
  let! (s, addr8) := alloc s size in
  let! (s, addr9) := alloc s size in
  let! s := release s addr1 in
  let! s := release s addr2 in
  let! s := release s addr3 in
  let! s := release s addr4 in
  let! s := release s addr5 in
  let! s := release s addr6 in
  let! s := release s addr7 in
  let! s := release s addr8 in
  release s addr9.

(** [while (max-- > 0)] *)
Fixpoint rounds (max : nat) (round : S → outcome S) (s : S) : outcome S :=
  match max with
  | O => Ok s
  | Datatypes.S max => let! s := round s in rounds max round s
  end.

(** [k_thread_a] and [k_thread_b] until their last loop, in which they do nothing; [cur] is the
    thread.  ([k_thread_b] ends with [print_bitmap], a function of the pools only, see [Init].) *)
Definition k_thread_a (cur : Z) (s : S) (c : console) : outcome (S * console) :=
  let! c := console_text c cur (chars " thread_a start" ++ [10]) in
  let! s := rounds 1000 k_thread_a_round s in
  let! c := console_text c cur (chars " thread_a end" ++ [10]) in
  Ok (s, c).

Definition k_thread_b (cur : Z) (s : S) (c : console) : outcome (S * console) :=
  let! c := console_text c cur (chars " thread_b start" ++ [10]) in
  let! s := rounds 1000 k_thread_b_round s in
  let! c := console_text c cur (chars " thread_b end" ++ [10]) in
  Ok (s, c).
End tests.

(** * Lemmas *)

(** ** Clients of the interface *)

Section client.
Context {S : Type} (pages : Z → Z) (max_size : Z) `{AllocatorLaws S pages max_size}.
(** The blocks that others hold, and the state at the start. *)
Context (live : gmap Z Z) (s0 : S).

Definition same (s s' : S) : Prop :=
  ∀ q z a, live !! q = Some z → q ≤ a < q + z → word s' a = word s a.

(** The client holds the blocks [own], and can take [k] more pages. *)
Record holding (s : S) (own : list (Z * Z)) (k : Z) : Prop := {
  ho_blocks : blocks s (list_to_map own ∪ live) k;
  ho_nodup : NoDup own.*1;
  ho_apart p : p ∈ own.*1 → live !! p = None;
  ho_same : same s0 s
}.

(** [prog] ends, without blocks of its own. *)
Definition runs (k : Z) (prog : outcome S) : Prop := ∃ s, prog = Ok s ∧ holding s [] k.

Lemma live_lookup own q z : (∀ p, p ∈ own.*1 → live !! p = None) → live !! q = Some z →
  (list_to_map own ∪ live : gmap Z Z) !! q = Some z.
Proof.
  intros Hap Hq. apply lookup_union_Some_r; [|done]. apply map_disjoint_spec. intros p x y Hx Hy.
  assert (p ∈ own.*1) as Hp by (apply elem_of_list_to_map_2 in Hx; by apply (list_elem_of_fmap_2 fst) in Hx).
  by rewrite (Hap p Hp) in Hy.
Qed.

Lemma run_alloc s own k n size (f : S * Z → outcome S) :
  holding s own k → 0 < size ≤ max_size → pages size ≤ k →
  (∀ s' p, holding s' ((p, size) :: own) (k - pages size) → runs n (f (s', p))) →
  runs n (let! x := alloc s size in f x).
Proof.
  intros [Hb Hnd Hap Hs] Hsize Hk Hf. destruct (alloc_law s _ k size Hb Hsize Hk) as (s' & p & -> & Hp & Hb' & Hw).
  cbn [obind]. apply Hf. apply lookup_union_None in Hp as [Hp1 Hp2]. split.
  - cbn [list_to_map foldr]. by rewrite insert_union_l in Hb'.
  - cbn [fmap list_fmap]. constructor; [|done]. by apply not_elem_of_list_to_map.
  - intros q [->|Hq]%elem_of_cons; [done|by apply Hap].
  - intros q z a Hq Ha. rewrite <- (Hs q z a Hq Ha). apply (Hw q z); [|done]. by apply live_lookup.
Qed.

Lemma run_release s own k n i p z (f : S → outcome S) :
  holding s own k → own !! i = Some (p, z) →
  (∀ s', holding s' (delete i own) k → runs n (f s')) →
  runs n (let! x := release s p in f x).
Proof.
  intros [Hb Hnd Hap Hs] Hi Hf. pose proof (delete_Permutation own i _ Hi) as Hperm.
  pose proof (NoDup_Permutation_proper _ _ (fmap_Permutation fst _ _ Hperm)) as [Hnd' _]. specialize (Hnd' Hnd).
  cbn in Hnd'. apply NoDup_cons in Hnd' as [Hp Hnd'].
  assert (list_to_map own = <[p := z]> (list_to_map (delete i own)) :> gmap Z Z) as Em
    by (rewrite (list_to_map_proper _ _ Hnd Hperm); done).
  assert (p ∈ own.*1) as Hpo by (rewrite Hperm; by left).
  destruct (release_law s _ k p z Hb) as (s' & -> & Hb' & Hw).
  { rewrite Em, <- insert_union_l. by apply lookup_insert_eq. }
  cbn [obind]. apply Hf. split.
  - rewrite Em, <- insert_union_l, delete_insert_id in Hb'; [done|].
    apply lookup_union_None. split; [by apply not_elem_of_list_to_map|by apply Hap].
  - done.
  - intros q Hq. apply Hap. rewrite Hperm. by right.
  - intros q y a Hq Ha. rewrite <- (Hs q y a Hq Ha). apply (Hw q y); [by apply live_lookup| |done].
    intros ->. by rewrite (Hap p Hpo) in Hq.
Qed.

Lemma run_last s k n p z : holding s [(p, z)] k → k = n → runs n (release s p).
Proof.
  intros Hh <-. assert (release s p = (let! x := release s p in Ok x)) as -> by (by destruct (release s p)).
  apply (run_release s [(p, z)] k k 0 p z); [done|done|]. intros s' Hs'. by exists s'.
Qed.
End client.

(** Run the next statement of a client. *)
Ltac fold_sizes := repeat match goal with
  |- context [twice ?n] => is_ground n; let v := eval vm_compute in (twice n) in change (twice n) with v end.
Ltac find_own tac := first [tac 0%nat|tac 1%nat|tac 2%nat|tac 3%nat|tac 4%nat|tac 5%nat|tac 6%nat|tac 7%nat|tac 8%nat].
Ltac client_step :=
  lazymatch goal with
  | Hh : holding _ _ _ _ _ ?own _ |- runs _ _ _ _ _ (obind (alloc _ _) _) =>
      eapply run_alloc; [exact Hh|lia|lia|]; clear Hh;
      let s := fresh "s" in let p := fresh "p" in intros s p Hh
  | Hh : holding _ _ _ _ _ ?own _ |- runs _ _ _ _ _ (obind (release _ _) _) =>
      find_own ltac:(fun i => eapply (run_release _ _ _ _ _ _ _ _ i); [exact Hh|reflexivity|]); clear Hh;
      let s := fresh "s" in intros s Hh; cbn [delete list_delete] in Hh
  | Hh : holding _ _ _ _ _ _ _ |- runs _ _ _ _ _ (release _ _) => eapply run_last; [exact Hh|lia]
  end.

Section client_rounds.
Context {S : Type} (pages : Z → Z) (max_size : Z) `{AllocatorLaws S pages max_size}.
Context (live : gmap Z Z) (s0 : S).
Local Abbreviation holding := (holding pages max_size live s0).
Local Abbreviation runs := (runs pages max_size live s0).

(** The pages that a round may cost. *)
Definition cost_a : Z := pages 128 + pages 256 + 2 * pages 512 + 2 * pages 65536 + pages 131072.
Definition cost_b : Z := pages 9 + pages 18 + 4 * pages 36 + pages 72 + 9 * pages 576.

Hypothesis Hmax : 131072 ≤ max_size.

Lemma costs_nonneg : 0 ≤ cost_a ∧ 0 ≤ cost_b.
Proof.
  pose proof pages_nonneg as Hp. unfold cost_a, cost_b.
  pose proof (Hp 128). pose proof (Hp 256). pose proof (Hp 512). pose proof (Hp 65536). pose proof (Hp 131072).
  pose proof (Hp 9). pose proof (Hp 18). pose proof (Hp 36). pose proof (Hp 72). pose proof (Hp 576). lia.
Qed.

Lemma round_a s k : holding s [] (cost_a + k) → 0 ≤ k → runs k (k_thread_a_round s).
Proof using All.
  intros Hh Hk. unfold cost_a in Hh. unfold k_thread_a_round. cbv zeta.
  pose proof (pages_nonneg 128). pose proof (pages_nonneg 256). pose proof (pages_nonneg 512).
  pose proof (pages_nonneg 65536). pose proof (pages_nonneg 131072). fold_sizes.
  repeat client_step.
Qed.

Lemma round_b s k : holding s [] (cost_b + k) → 0 ≤ k → runs k (k_thread_b_round s).
Proof using All.
  intros Hh Hk. unfold cost_b in Hh. unfold k_thread_b_round. cbv zeta.
  pose proof (pages_nonneg 9). pose proof (pages_nonneg 18). pose proof (pages_nonneg 36).
  pose proof (pages_nonneg 72). pose proof (pages_nonneg 576). fold_sizes.
  repeat client_step.
Qed.

Lemma rounds_run cost round n s k : 0 ≤ cost → 0 ≤ k →
  (∀ s k, holding s [] (cost + k) → 0 ≤ k → runs k (round s)) →
  holding s [] (cost * Z.of_nat n + k) → runs k (rounds n round s).
Proof using All.
  intros Hc Hk Hround. revert s. induction n as [|n IH]; intros s Hh; cbn [rounds].
  - exists s. split; [done|]. by replace (cost * Z.of_nat 0 + k) with k in Hh by lia.
  - destruct (Hround s (cost * Z.of_nat n + k)) as (s1 & -> & Hs1); [|nia|by apply IH].
    by replace (cost + (cost * Z.of_nat n + k)) with (cost * Z.of_nat (Datatypes.S n) + k) by lia.
Qed.
End client_rounds.

(** Both threads, one after the other, on any allocator. *)
Lemma tests_run {S} (pages : Z → Z) max_size `{AllocatorLaws S pages max_size} live s k cur c :
  131072 ≤ max_size → 0 ≤ k → console_lock c = unlocked → cur ≠ NULL →
  (blocks s live (1000 * cost_a pages + k) →
   ∃ s', k_thread_a cur s c = Ok (s', Console.print c (chars " thread_a start" ++ [10] ++ chars " thread_a end" ++ [10])) ∧
     blocks s' live k ∧ same pages max_size live s s') ∧
  (blocks s live (1000 * cost_b pages + k) →
   ∃ s', k_thread_b cur s c = Ok (s', Console.print c (chars " thread_b start" ++ [10] ++ chars " thread_b end" ++ [10])) ∧
     blocks s' live k ∧ same pages max_size live s s').
Proof.
  intros Hmax Hk Hc Hcur. destruct (costs_nonneg pages max_size) as [Ha Hb].
  assert ((list_to_map [] ∪ live : gmap Z Z) = live) as El by apply (left_id_L ∅ (∪)).
  assert (∀ n, blocks s live n → holding pages max_size live s s [] n) as Hstart.
  { intros n Hn. split; [by rewrite El|constructor|by intros p ?%elem_of_nil|done]. }
  split; intros Hbl; [unfold k_thread_a|unfold k_thread_b]; rewrite console_text_spec by done; cbn [obind].
  - destruct (rounds_run pages max_size live s Hmax (cost_a pages) k_thread_a_round 1000 s k Ha Hk)
      as (s' & -> & [Hs' _ _ Hsame]); [by apply round_a|apply Hstart; by rewrite Z.mul_comm|].
    cbn [obind]. rewrite console_text_spec by done. cbn [obind]. exists s'.
    rewrite El in Hs'. split; [|done]. unfold Console.print. cbn [output console_lock].
    by rewrite <- !app_assoc.
  - destruct (rounds_run pages max_size live s Hmax (cost_b pages) k_thread_b_round 1000 s k Hb Hk)
      as (s' & -> & [Hs' _ _ Hsame]); [by apply round_b|apply Hstart; by rewrite Z.mul_comm|].
    cbn [obind]. rewrite console_text_spec by done. cbn [obind]. exists s'.
    rewrite El in Hs'. split; [|done]. unfold Console.print. cbn [output console_lock].
    by rewrite <- !app_assoc.
Qed.

(** ** The heap is an allocator *)

Section heap_allocator.
Context (fuel : nat) (kd : Z) (t : task).
Hypothesis Hf : heap_fuel fuel.
Hypothesis Ht : kernel_thread t.

#[local] Instance heap_allocator : Allocator heap := {
  alloc := λ s size, sys_malloc fuel kd s t size;
  release := λ s p, sys_free fuel s t p
}.

(** The blocks are held, and there is a run of [k] free pages. *)
Definition heap_blocks (max_size : Z) (s : heap) (live : gmap Z Z) (k : Z) : Prop :=
  ∃ F A, HeapSafe.held kd (s, live) F A ∧ can_fit (h_pools s) k ∧ max_size ≤ kernel_size s.

Lemma request_pages_eq size : 0 < size ≤ 2147483648 →
  1 ≤ request_pages size < 4294967296 ∧ (1024 < size → request_pages size = pages_for size) ∧
  (size ≤ 1024 → request_pages size = 1).
Proof.
  intros Hs. destruct (pages_for_eq size Hs) as (E & Hn & _). unfold request_pages. rewrite E.
  destruct (Z.ltb_spec 1024 size); [|lia]. assert (pages_for size < 4294967296) by (unfold pages_for; divlia). lia.
Qed.

Lemma request_pages_nonneg size : 0 ≤ request_pages size.
Proof.
  unfold request_pages, DIV_ROUND_UP, PAGE_SIZE. destruct (1024 <? size); [|lia].
  apply Z.div_pos; [|lia]. apply u32_range.
Qed.

Lemma can_fit_less p n k : 0 ≤ n ≤ k → can_fit p k → can_fit p n.
Proof.
  intros Hn [r (H1 & H2 & H3)]. exists r. split; [done|]. split; [lia|]. intros i Hi. apply H3. lia.
Qed.

Lemma heap_alloc max_size s live k size :
  heap_blocks max_size s live k → 0 < size ≤ max_size → request_pages size ≤ k →
  ∃ s' p, sys_malloc fuel kd s t size = Ok (s', p) ∧ live !! p = None ∧
    heap_blocks max_size s' (<[p := size]> live) (k - request_pages size) ∧
    ∀ q z a, live !! q = Some z → q ≤ a < q + z → h_mem s' !! a = h_mem s !! a.
Proof using Hf Ht.
  intros (F & A & Hh & Hfit & Hmax) Hsize Hk. pose proof Hh as [Hinv Hlock Hks Hlive]. cbn [fst snd] in *.
  pose proof (sh_pools _ _ _ _ (hi_shape _ _ _ _ Hinv)) as Hwf. unfold kernel_size in Hks, Hmax.
  destruct (request_pages_eq size ltac:(lia)) as (Hn & Hbig & Hsmall).
  destruct (sys_malloc_ok fuel kd s F A t Hinv Hlock Ht (heap_fuel_enough _ _ Hf Hwf) Hks size)
    as (s' & p & E & (F' & A' & z & Hinv' & Hz & Hal & Hnew & _ & Hsame) & _).
  { lia. } { intros Hl. rewrite <- Hbig by done. apply (can_fit_less _ _ k); [lia|done]. }
  { intros Hl i _. right. apply (can_fit_less _ _ k); [lia|done]. }
  assert (allocated F' A' p z) as Hp by (apply Hal; by right).
  assert (p ≠ NULL) as Hnn.
  { destruct (allocated_heap kd _ F' A' p z (hi_shape _ _ _ _ Hinv') Hp) as [? _].
    unfold KERNEL_HEAP_BASE, NULL in *. lia. }
  assert (∀ q n, live !! q = Some n → ∃ z', allocated F A q z' ∧ n ≤ z' ∧ q ≠ p) as Hold.
  { intros q n Hq. destruct (Hlive q n Hq) as (z' & Hz' & ?). eauto. }
  exists s', p. split; [done|]. split; [|split].
  - destruct (live !! p) as [n|] eqn:Ep; [|done]. by destruct (Hold p n Ep) as (? & ? & ? & ?).
  - destruct (heap_step_held fuel kd t _ _ F A Hf Ht Hh (step_malloc fuel kd t s live size s' p E))
      as (F2 & A2 & H2).
    rewrite (proj2 (Z.eqb_neq _ _)) in H2 by done. exists F2, A2. split; [done|].
    pose proof (sys_malloc_size _ _ _ _ _ _ _ Ht E) as Es.
    split; [|unfold kernel_size in Es |- *; rewrite Es; lia].
    apply (can_fit_taken fuel (request_pages size) _ (h_pools s)); [done|done|lia|lia| |].
    + by apply (sys_malloc_pools fuel kd s t size s' p).
    + by replace (request_pages size + (k - request_pages size)) with k by lia.
  - intros q n a Hq Ha. destruct (Hold q n Hq) as (z' & ? & ? & ?). apply (Hsame q z'); [done|lia].
Qed.

Lemma heap_release max_size s live k p z :
  heap_blocks max_size s live k → live !! p = Some z →
  ∃ s', sys_free fuel s t p = Ok s' ∧ heap_blocks max_size s' (delete p live) k ∧
    ∀ q z a, live !! q = Some z → q ≠ p → q ≤ a < q + z → h_mem s' !! a = h_mem s !! a.
Proof using Hf Ht.
  intros (F & A & Hh & Hfit & Hmax) Hp. pose proof Hh as [Hinv Hlock Hks Hlive]. cbn [fst snd] in *.
  destruct (Hlive p z Hp) as (z' & Hal & _).
  destruct (sys_free_spec fuel kd s F A t p z' Hinv Hlock Ht Hal (heap_fuel_255 _ Hf))
    as (s' & E & (F' & A' & _ & _ & Hsame & Hless) & _).
  exists s'. split; [done|]. split.
  - destruct (heap_step_held fuel kd t _ _ F A Hf Ht Hh (step_free fuel kd t s live p z s' Hp E)) as (F2 & A2 & H2).
    exists F2, A2. split; [done|]. split; [by apply (can_fit_fewer (h_pools s))|].
    by rewrite (sys_free_size _ _ _ _ _ Ht E).
  - intros q n a Hq Hne Ha. destruct (Hlive q n Hq) as (z2 & ? & ?). apply (Hsame q z2); [done|done|lia].
Qed.

#[local] Instance heap_laws max_size : AllocatorLaws heap request_pages max_size := {
  blocks := heap_blocks max_size;
  word := λ s a, h_mem s !! a;
  pages_nonneg := request_pages_nonneg;
  alloc_law := heap_alloc max_size;
  release_law := heap_release max_size
}.

Lemma costs : cost_a request_pages = 71 ∧ cost_b request_pages = 16.
Proof. split; reflexivity. Qed.
End heap_allocator.

(** ** The consumer *)

Lemma set_back k : set_intr_status (Thread.set_intr k false) (intr_on k) = k.
Proof. rewrite set_intr_status_eq. by destruct k. Qed.

Lemma round_prints fuel param k q c ch l : ring_repr q (ch :: l) → producer q = NULL →
  console_lock c = unlocked → current_task k ≠ NULL →
  ∃ q', thread_f_round fuel param k q c = Ok (k, q', Console.print c (param ++ [u8 ch])) ∧
    ring_repr q' l ∧ producer q' = NULL.
Proof.
  intros Hq Hp Hc Hcur. unfold thread_f_round. rewrite local_irq_disable_eq. unfold get_cur_task.
  cbn [current_task Thread.set_intr]. rewrite (ring_empty _ _ Hq), bool_decide_false by done. cbn [negb].
  rewrite console_text_spec by done. cbn [obind].
  destruct (getchar_ready fuel (Thread.set_intr k false) eq_refl q ch l Hq Hp) as (q' & -> & Hq' & _ & Hp' & _).
  cbn [obind]. exists q'. split; [|done].
  change (console_char ?c ?t ?ch) with (console_text c t [u8 ch]). rewrite console_text_spec by done.
  cbn [obind]. rewrite set_back. unfold Console.print. cbn. by rewrite <- app_assoc.
Qed.

Lemma rounds_print fuel param l k q c : ring_repr q l → producer q = NULL →
  console_lock c = unlocked → current_task k ≠ NULL →
  ∃ q', thread_f_rounds (length l) fuel param k q c =
      Ok (k, q', Console.print c (l ≫= λ ch, param ++ [u8 ch])) ∧ ring_repr q' [].
Proof.
  revert q c. induction l as [|ch l IH]; intros q c Hq Hp Hc Hcur; cbn [length thread_f_rounds].
  - exists q. split; [|done]. unfold Console.print. cbn. rewrite app_nil_r. by destruct c.
  - destruct (round_prints fuel param k q c ch l Hq Hp Hc Hcur) as (q1 & -> & Hq1 & Hp1). cbn [obind].
    destruct (IH q1 (Console.print c (param ++ [u8 ch])) Hq1 Hp1 Hc Hcur) as (q' & -> & Hq'). exists q'.
    split; [|done]. unfold Console.print. cbn. by rewrite <- !app_assoc.
Qed.

(** The bytes that are keys going down. *)
Definition presses (bs : list Z) : list Z := filter (λ b, b < 0x80) bs.

Lemma keys_spec fuel bs s l : Forall (λ b, 0 ≤ b < 0x54 ∨ 0x80 ≤ b < 256) bs →
  intr_on (kb_kern s) = false → ring_repr (kbd_buff s) l → consumer (kbd_buff s) = NULL →
  (length l + length (presses bs) ≤ 63)%nat →
  ∃ s' out, keys fuel s bs = Ok s' ∧ length out = length (presses bs) ∧
    Keyboard.screen s' = Keyboard.screen s ++ out ∧ ring_repr (kbd_buff s') (l ++ out) ∧
    kb_kern s' = kb_kern s ∧ producer (kbd_buff s') = producer (kbd_buff s).
Proof.
  intros Hbs. revert s l. induction Hbs as [|b bs Hb _ IH]; intros s l Hoff Hq Hc Hlen; cbn [keys].
  { exists s, []. by rewrite !app_nil_r. }
  unfold presses in *. rewrite filter_cons in *. destruct (decide (b = 0xe0)) as [->|He].
  { rewrite decide_False in * by lia.
    destruct (IH (set_status s (SET_BIT (g_key_status s) 7)) l) as (s' & out & E & H'); [done..|].
    exists s', out. split; [exact E|exact H']. }
  destruct (keyboard_service_types fuel s b l) as (s1 & -> & Hq1 & Hs1 & Hone & Hk1 & Hc1 & Hp1); [lia|done|lia|done..|].
  cbn [obind]. case_decide as Hpress; cbn [length] in *.
  - specialize (Hone Hpress ltac:(lia)).
    destruct (IH s1 (l ++ typed s b l)) as (s' & out & -> & Hout & Hs' & Hq' & Hk' & Hp');
      [by rewrite Hk1|done|done|rewrite length_app; lia|].
    exists s', (typed s b l ++ out). rewrite length_app, Hs', Hs1, <- !app_assoc in *. split_and!; [done|lia|done|done|congruence|congruence].
  - unfold typed in *. rewrite decide_False, !app_nil_r in * by lia.
    destruct (IH s1 l) as (s' & out & -> & Hout & Hs' & Hq' & Hk' & Hp'); [by rewrite Hk1|done|done|done|].
    exists s', out. split_and!; [done|done|congruence|done|congruence|congruence].
Qed.

(** ** The loop of [main] *)

(** A number that is reached is reached for a first time. *)
Lemma first_reached (f : nat → Z) (x : Z) m : x ≤ f m →
  ∃ n, (n ≤ m)%nat ∧ x ≤ f n ∧ ∀ i, (i < n)%nat → f i < x.
Proof.
  induction m as [m IH] using lt_wf_ind. intros Hm.
  destruct (decide (Exists (λ i, x ≤ f i) (seq 0 m))) as [(i & Hi & Hx)%Exists_exists|Hno].
  - apply elem_of_seq in Hi. destruct (IH i ltac:(lia) Hx) as (n & ? & ? & ?). exists n. split; [lia|done].
  - exists m. split_and!; [done..|]. intros i Hi.
    destruct (Z.le_gt_cases x (f i)); [|lia]. destruct Hno. apply Exists_exists. exists i.
    split; [apply elem_of_seq; lia|done].
Qed.

Section main_loop.
(** At most [B] interrupts come between two readings of [ticks], and [fuel] readings take at least
    as long as [main] sleeps. *)
Context (fuel : nat) (clk : nat → Z) (B : Z).
Hypothesis Hstep : ∀ j, 0 ≤ clk (S j) - clk j ≤ B.
Hypothesis HB : B < 4294957296.
Hypothesis Hlong : ∀ j, clk j + 10000 ≤ clk (j + fuel)%nat.

Lemma clk_mono i j : (i ≤ j)%nat → clk i ≤ clk j.
Proof using Hstep.
  intros Hij. induction Hij as [|j _ IH]; [lia|]. specialize (Hstep j). lia.
Qed.

(** A round prints its string and lasts for ten thousand interrupts, or a little longer. *)
Lemma main_round_runs cur c i : console_lock c = unlocked → cur ≠ NULL →
  ∃ i', main_round fuel clk cur c i = Ok (Console.print c (chars "MAIN "), i') ∧
    clk i + 10000 ≤ clk i' ≤ clk i + 10000 + 2 * B.
Proof using All.
  intros Hc Hcur.
  destruct (first_reached (λ n, clk (S i + n)%nat - clk i) 10000 (fuel - 1)) as (n & Hn & Hge & Hlt).
  { cbv beta. destruct fuel as [|f] eqn:Ef; [specialize (Hlong i); rewrite Nat.add_0_r in Hlong; lia|].
    specialize (Hlong i). replace (S i + (S f - 1))%nat with (i + S f)%nat by lia. lia. }
  cbv beta in Hge, Hlt.
  assert (clk (S i + n)%nat - clk i < 10000 + B) as Hn1.
  { destruct n as [|n]; [rewrite Nat.add_0_r; specialize (Hstep i); lia|].
    specialize (Hlt n ltac:(lia)). specialize (Hstep (S i + n)). rewrite Nat.add_succ_r. lia. }
  exists (S i + n + 1)%nat. split.
  - unfold main_round. rewrite console_text_spec by done. cbn [obind]. unfold mil_sleep.
    change (mil_sleep_ticks 1000) with 10000. rewrite ASSERT_true by done. cbn [obind].
    rewrite (ticks_to_sleep_exact fuel n _ _ _ (λ j, clk (S i + j)%nat - clk i)); [done| |done|done|].
    + intros j Hj. split.
      * rewrite u32_add_u32. f_equal. lia.
      * pose proof (clk_mono i (S i + j) ltac:(lia)). pose proof (clk_mono (S i + j) (S i + n) ltac:(lia)). lia.
    + destruct (decide (fuel = 0%nat)) as [->|]; [specialize (Hlong i); rewrite Nat.add_0_r in Hlong; lia|lia].
  - pose proof (Hstep (S i + n)) as Hlast. rewrite Nat.add_1_r. lia.
Qed.

Lemma main_rounds_run cur n c i : console_lock c = unlocked → cur ≠ NULL →
  ∃ i', main_rounds n fuel clk cur c i = Ok (Console.print c (List.concat (replicate n (chars "MAIN "))), i') ∧
    10000 * Z.of_nat n ≤ clk i' - clk i ≤ (10000 + 2 * B) * Z.of_nat n.
Proof using All.
  intros Hc Hcur. revert c i Hc. induction n as [|n IH]; intros c i Hc; cbn [main_rounds].
  - exists i. split; [|lia]. unfold Console.print. cbn. rewrite app_nil_r. by destruct c.
  - destruct (main_round_runs cur c i Hc Hcur) as (i1 & -> & Hi1). cbn [obind].
    destruct (IH (Console.print c (chars "MAIN ")) i1 Hc) as (i' & -> & Hi'). exists i'. split; [|lia].
    unfold Console.print. cbn [replicate List.concat console_lock output]. by rewrite <- app_assoc.
Qed.
End main_loop.

(** * Properties *)

(** C30. The heap tests of kernel/main.c: when the kernel heap has a run of 71000, or of 16000, free
    pages, all thousand rounds of [k_thread_a], or of [k_thread_b], get every block that
    they ask for; at the end they hold nothing, the run of the remaining pages is still
    free, and the blocks of all other holders are held as before, with their contents. *)
Theorem heap_tests_end fuel kd t cur c s live k :
  heap_fuel fuel → kernel_thread t → console_lock c = unlocked → cur ≠ NULL → 0 ≤ k →
  (∃ F A, HeapSafe.held kd (s, live) F A) → 131072 ≤ kernel_size s →
  let ends (prog : outcome (heap * console)) (text : list Z) := ∃ s',
    prog = Ok (s', Console.print c text) ∧ can_fit (h_pools s') k ∧
    (∃ F A, HeapSafe.held kd (s', live) F A) ∧
    (∀ q z a, live !! q = Some z → q ≤ a < q + z → h_mem s' !! a = h_mem s !! a) in
  (can_fit (h_pools s) (71000 + k) →
   ends (k_thread_a (H := heap_allocator fuel kd t) cur s c)
     (chars " thread_a start" ++ [10] ++ chars " thread_a end" ++ [10])) ∧
  (can_fit (h_pools s) (16000 + k) →
   ends (k_thread_b (H := heap_allocator fuel kd t) cur s c)
     (chars " thread_b start" ++ [10] ++ chars " thread_b end" ++ [10])).
Proof.
  intros Hf Ht Hc Hcur Hk (F & A & Hh) Hmax ends.
  destruct (tests_run (H0 := heap_laws fuel kd t Hf Ht 131072) request_pages 131072 live s k cur c)
    as [Ha Hb]; [lia|done|done|done|].
  rewrite (proj1 costs) in Ha. rewrite (proj2 costs) in Hb.
  split; intros Hfit; [destruct Ha as (s' & E & (F' & A' & Hh' & Hfit' & _) & Hsame)
    |destruct Hb as (s' & E & (F' & A' & Hh' & Hfit' & _) & Hsame)];
    try (by exists F, A); exists s'; (split; [exact E|split; [exact Hfit'|split; [by exists F', A'|exact Hsame]]]).
Qed.

(** C28. The loop of [main] goes on for ever: any number [n] of rounds end and print the string [n] times,
    and each round lasts for at least 10000 interrupts of the clock, also when the variable [ticks]
    wraps; [B] is the largest number of interrupts between two readings of [ticks], and
    [fuel] readings are enough for 10000 interrupts. *)
Theorem main_loop_prints fuel clk B n cur c i :
  (∀ j, 0 ≤ clk (S j) - clk j ≤ B) → B < 4294957296 → (∀ j, clk j + 10000 ≤ clk (j + fuel)%nat) →
  console_lock c = unlocked → cur ≠ NULL →
  ∃ i', main_rounds n fuel clk cur c i = Ok (Console.print c (List.concat (replicate n (chars "MAIN "))), i') ∧
    10000 * Z.of_nat n ≤ clk i' - clk i ≤ (10000 + 2 * B) * Z.of_nat n.
Proof. intros Hstep HB Hlong Hc Hcur. by apply main_rounds_run. Qed.

(** C29. From the keyboard to the console: bytes from the keyboard, with at most 63 keys going down,
    that come when the buffer is empty are turned into one character for each such key, which the handler
    shows; the rounds of [thread_f] that follow print exactly these characters in this order, each after
    the string of the thread, and leave the buffer empty and the interrupt flag as it was. *)
Theorem typed_keys_printed fuel s bs param c i :
  Forall (λ b, 0 ≤ b < 0x54 ∨ 0x80 ≤ b < 256) bs → (length (presses bs) ≤ 63)%nat →
  intr_on (kb_kern s) = false → ring_repr (kbd_buff s) [] →
  consumer (kbd_buff s) = NULL → producer (kbd_buff s) = NULL →
  current_task (kb_kern s) ≠ NULL → console_lock c = unlocked →
  ∃ s' out q', keys fuel s bs = Ok s' ∧ length out = length (presses bs) ∧ Keyboard.screen s' = Keyboard.screen s ++ out ∧
    thread_f_rounds (length out) fuel param (Thread.set_intr (kb_kern s') i) (kbd_buff s') c =
      Ok (Thread.set_intr (kb_kern s) i, q', Console.print c (out ≫= λ ch, param ++ [u8 ch])) ∧
    ring_repr q' [].
Proof.
  intros Hbs Hlen Hoff Hq Hcons Hprod Hcur Hc.
  destruct (keys_spec fuel bs s [] Hbs Hoff Hq Hcons Hlen) as (s' & out & E & Hout & Hs' & Hq' & Hk & Hp).
  destruct (rounds_print fuel param out (Thread.set_intr (kb_kern s') i) (kbd_buff s') c)
    as (q' & Er & Hr); [done|congruence|done|by rewrite Hk|].
  exists s', out, q'. rewrite Er, Hk. done.
Qed.

(** * The hypotheses can be met *)

(** The heap of a machine with 2016 MB of memory, which is all free. *)
Definition big_words : mem := proj1_sig (words_mem [(demo_kd, 28); (page_addr 0, 1024 * kernel_pages 0x7e000000)]).
Definition big_world : world :=
  World (KState big_words ∅ queue_init main_pcb 0 false) demo_pools unlocked unlocked unlocked 0 0.

Lemma big_heap : ∃ s F A, HeapSafe.held demo_kd (s, ∅) F A ∧ 131072 ≤ kernel_size s ∧ can_fit (h_pools s) 71000.
Proof.
  pose proof (proj2_sig (words_mem [(demo_kd, 28); (page_addr 0, 1024 * kernel_pages 0x7e000000)])) as Hw.
  cbv beta in Hw. fold big_words in Hw.
  destruct (mem_init_spec (λ _, 0) 0x7e000000 demo_kd (λ _, 0) big_world)
    as (pm & cr3 & w & out & E & [Hheld Hsz Ht _ _] & Hfree & _); [lia|done| | |].
  { intros r j Hr Hj. replace (page_addr r + 4 * j) with (page_addr 0 + 4 * (1024 * r + j)) by (rewrite !page_addr_eq; lia).
    apply (Hw _ (1024 * kernel_pages 0x7e000000)); [right; by left|lia]. }
  { intros j Hj. apply (Hw _ 28); [by left|lia]. }
  change (kernel_pages 0x7e000000) with 253952 in *. change (8 * (253952 / 8)) with 253952 in Ht.
  exists (to_heap w), (λ _, []), ∅. split; [exact Hheld|]. split; [rewrite Hsz; unfold PAGE_SIZE; lia|].
  exists 0. split; [done|]. change (h_pools (to_heap w)) with (w_pools w). fold (kernel_total (w_pools w)).
  rewrite Ht. split; [lia|]. intros i Hi. apply Hfree. lia.
Qed.

Lemma heap_tests_end_witness : ∃ s s' : heap,
  k_thread_a (H := heap_allocator demo_fuel demo_kd HeapSafe.demo_task) 4096 s (Console.Console unlocked []) =
    Ok (s', Console.Console unlocked (chars " thread_a start" ++ [10] ++ chars " thread_a end" ++ [10])).
Proof.
  destruct big_heap as (s & F & A & Hh & Hsize & Hfit).
  destruct (heap_tests_end demo_fuel demo_kd HeapSafe.demo_task 4096 (Console.Console unlocked []) s ∅ 0)
    as [Ha _]; [apply demo_heap_fuel|apply demo_kernel_thread|reflexivity|discriminate|lia|exists F, A; exact Hh|exact Hsize|].
  destruct (Ha Hfit) as (s' & E & _). exists s, s'. exact E.
Defined.

(** The keys A and B go down, with the release of A in between. *)
Lemma typed_keys_printed_witness : ∃ s' out q',
  keys 3 (demo_kbd 0) [0x1e; 0x9e; 0x30] = Ok s' ∧ length out = 2%nat ∧
  thread_f_rounds (length out) 3 [65; 95; 32] (Thread.set_intr (kb_kern s') true) (kbd_buff s')
    (Console.Console unlocked []) =
  Ok (Thread.set_intr (kb_kern (demo_kbd 0)) true, q', Console.Console unlocked (out ≫= λ ch, [65; 95; 32; u8 ch])).
Proof.
  destruct (typed_keys_printed 3 (demo_kbd 0) [0x1e; 0x9e; 0x30] [65; 95; 32] (Console.Console unlocked []) true)
    as (s' & out & q' & E & Hlen & _ & Er & _);
    [repeat constructor; lia|by vm_compute; lia|reflexivity|by apply ioqueue_init_repr|reflexivity|reflexivity
    |discriminate|reflexivity|].
  exists s', out, q'. split; [exact E|]. split; [exact Hlen|exact Er].
Defined.

(** A clock that has 3000 interrupts between two readings, and wraps in the second round. *)
Lemma main_loop_prints_witness : ∃ i',
  main_rounds 2 4 (λ j, 4294950000 + 3000 * Z.of_nat j) 4096 (Console.Console unlocked []) 0 =
    Ok (Console.Console unlocked (chars "MAIN MAIN "), i') ∧
  20000 ≤ 3000 * Z.of_nat i'.
Proof.
  destruct (main_loop_prints 4 (λ j, 4294950000 + 3000 * Z.of_nat j) 3000 2 4096 (Console.Console unlocked []) 0)
    as (i' & E & Hlong & _); [lia|reflexivity|lia|reflexivity|discriminate|].
  exists i'. split; [exact E|lia].
Defined.
